(** * MyOS kernel: memory manager and task scheduler

    A shallow embedding of [kernel/mm.c] (physical frame bitmap and
    kernel heap) and [kernel/task.c] (task table, priority ready queues,
    spinlocks), with the properties of the specification stated and
    settled against it.

    Conventions.
    - C integers are [Z]; every operation that can wrap is wrapped
      explicitly ([u64], [u32], [u8]).
    - Pointers are addresses in [Z]; the null pointer is [0].
    - Memory that holds typed objects is a finite map from the address of
      the object to its record: [gmap Z heap_block_t] for heap headers,
      [gmap Z task_t] for task control blocks.  Reading an object at an
      address where the map has none has no defined result in C; the
      embedding returns [None] there.
    - Loops over linked lists take fuel equal to the number of objects
      plus one, which is enough for every list without a cycle; on a
      cyclic list the C loop does not return, and the embedding returns
      no result either. *)

From stdpp Require Import gmap list strings.
From Stdlib Require Import ZArith Lia.

Open Scope Z_scope.

(** ** Machine integers *)

Definition u64 (x : Z) : Z := x mod 2 ^ 64.
Definition u32 (x : Z) : Z := x mod 2 ^ 32.
Definition u8 (x : Z) : Z := x mod 2 ^ 8.

(** ** Memory manager ([kernel/mm.c]) *)

Module MM.

(** [#define PAGE_SIZE 4096] *)
Definition PAGE_SIZE : Z := 4096.

(** *** Physical frame bitmap *)

(** The statics of the frame allocator.  [physical_bitmap] is the byte
    array at [0x300000]; a byte beyond the modelled array reads as [0]. *)
Record frames := {
  physical_bitmap : list Z;
  total_memory : Z;
  available_memory : Z;
  bitmap_size : Z;
  next_free_frame : Z
}.

Definition bitmap_byte (bm : list Z) (byte : Z) : Z :=
  default 0 (bm !! Z.to_nat byte).

(** [bool is_frame_used(uint64_t frame)] *)
Definition is_frame_used (bm : list Z) (frame : Z) : bool :=
  let byte := frame / 8 in
  let bit := u8 (frame mod 8) in
  negb (Z.land (bitmap_byte bm byte) (Z.shiftl 1 bit) =? 0).

(** [void set_frame_used(uint64_t frame)] *)
Definition set_frame_used (bm : list Z) (frame : Z) : list Z :=
  let byte := frame / 8 in
  let bit := u8 (frame mod 8) in
  <[Z.to_nat byte := u8 (Z.lor (bitmap_byte bm byte) (Z.shiftl 1 bit))]> bm.

(** [void clear_frame_used(uint64_t frame)] *)
Definition clear_frame_used (bm : list Z) (frame : Z) : list Z :=
  let byte := frame / 8 in
  let bit := u8 (frame mod 8) in
  <[Z.to_nat byte := u8 (Z.land (bitmap_byte bm byte) (Z.lnot (Z.shiftl 1 bit)))]> bm.

(** [memset(physical_bitmap, 0, n)] *)
Definition memset_bitmap (bm : list Z) (n : Z) : list Z :=
  replicate (Z.to_nat n) 0 ++ drop (Z.to_nat n) bm.

(** The loop [for (i = 0; i < n; i++) set_frame_used(i)]. *)
Definition mark_frames_used (bm : list Z) (n : Z) : list Z :=
  fold_left (fun b i => set_frame_used b (Z.of_nat i)) (seq 0 (Z.to_nat n)) bm.

(** [int init_paging()]; [next_free_frame] is not touched. *)
Definition init_paging (f : frames) : frames :=
  let total := 128 * 1024 * 1024 in
  let bsize := (total / PAGE_SIZE) / 8 in
  {| physical_bitmap :=
       mark_frames_used (memset_bitmap (physical_bitmap f) bsize) (0x400000 / PAGE_SIZE);
     total_memory := total;
     available_memory := u64 (total - 0x400000);
     bitmap_size := bsize;
     next_free_frame := next_free_frame f |}.

(** The body shared by both loops of [alloc_frame]: the first frame in
    [i, i + n) that is not used. *)
Fixpoint first_unused (bm : list Z) (n : nat) (i : Z) : option Z :=
  match n with
  | O => None
  | S n' => if is_frame_used bm i then first_unused bm n' (i + 1) else Some i
  end.

Definition take_frame (f : frames) (i : Z) : Z * frames :=
  (u64 (i * PAGE_SIZE),
   {| physical_bitmap := set_frame_used (physical_bitmap f) i;
      total_memory := total_memory f;
      available_memory := available_memory f;
      bitmap_size := bitmap_size f;
      next_free_frame := u64 (i + 1) |}).

(** [uint64_t alloc_frame()]: returns the frame's byte address, [0] when
    no frame is free. *)
Definition alloc_frame (f : frames) : Z * frames :=
  let nframes := total_memory f / PAGE_SIZE in
  match first_unused (physical_bitmap f)
          (Z.to_nat (nframes - next_free_frame f)) (next_free_frame f) with
  | Some i => take_frame f i
  | None =>
    match first_unused (physical_bitmap f) (Z.to_nat (next_free_frame f)) 0 with
    | Some i => take_frame f i
    | None => (0, f)
    end
  end.

(** [void free_frame(uint64_t frame_addr)] *)
Definition free_frame (f : frames) (frame_addr : Z) : frames :=
  let frame := frame_addr / PAGE_SIZE in
  if frame <? total_memory f / PAGE_SIZE then
    {| physical_bitmap := clear_frame_used (physical_bitmap f) frame;
       total_memory := total_memory f;
       available_memory := available_memory f;
       bitmap_size := bitmap_size f;
       next_free_frame :=
         if frame <? next_free_frame f then frame else next_free_frame f |}
  else f.

(** The statics as the loader leaves them: all zero, and whatever bytes
    [bm] the bitmap area holds. *)
Definition boot_frames (bm : list Z) : frames :=
  {| physical_bitmap := bm; total_memory := 0; available_memory := 0;
     bitmap_size := 0; next_free_frame := 0 |}.

(** The number of frames, the bound of both loops of [alloc_frame]. *)
Definition nframes (f : frames) : Z := total_memory f / PAGE_SIZE.

(** What the frame allocator keeps between calls once [init_paging] has
    run: the bitmap has a bit for every frame, [next_free_frame] is at
    most the number of frames, and every frame below it is in use. *)
Definition frames_inv (f : frames) : Prop :=
  0 <= total_memory f < 2 ^ 64 /\
  nframes f <= 8 * Z.of_nat (length (physical_bitmap f)) /\
  0 <= next_free_frame f <= nframes f /\
  forall j, 0 <= j < next_free_frame f -> is_frame_used (physical_bitmap f) j = true.

(** [n] calls of [alloc_frame] in a row: the addresses returned, in
    order, and the state after the last call. *)
Fixpoint alloc_frames (n : nat) (f : frames) : list Z * frames :=
  match n with
  | O => ([], f)
  | S n' =>
    let '(a, f1) := alloc_frame f in
    let '(l, f2) := alloc_frames n' f1 in
    (a :: l, f2)
  end.

(** *** Kernel heap *)

(** [heap_block_t]: the header in front of every allocation.  [blk_next]
    and [blk_prev] are addresses of headers, [0] for [NULL]. *)
Record heap_block_t := {
  blk_size : Z;
  blk_free : bool;
  blk_next : Z;
  blk_prev : Z
}.

Definition blk_set_size (v : Z) (b : heap_block_t) : heap_block_t :=
  {| blk_size := v; blk_free := blk_free b; blk_next := blk_next b; blk_prev := blk_prev b |}.
Definition blk_set_free (v : bool) (b : heap_block_t) : heap_block_t :=
  {| blk_size := blk_size b; blk_free := v; blk_next := blk_next b; blk_prev := blk_prev b |}.
Definition blk_set_next (v : Z) (b : heap_block_t) : heap_block_t :=
  {| blk_size := blk_size b; blk_free := blk_free b; blk_next := v; blk_prev := blk_prev b |}.
Definition blk_set_prev (v : Z) (b : heap_block_t) : heap_block_t :=
  {| blk_size := blk_size b; blk_free := blk_free b; blk_next := blk_next b; blk_prev := v |}.

(** The heap statics and the memory they manage: [blocks] is the memory
    seen as headers, [mem] the same memory seen as bytes (payloads). *)
Record heap := {
  blocks : gmap Z heap_block_t;
  mem : Z -> Z;
  heap_start : Z;
  heap_end : Z;
  heap_initialized : bool
}.

(** The heap statics before [mm_init], over memory bytes [m]. *)
Definition boot_heap (m : Z -> Z) : heap :=
  {| blocks := ∅; mem := m; heap_start := 0; heap_end := 0;
     heap_initialized := false |}.

Definition with_blocks (h : heap) (bl : gmap Z heap_block_t) : heap :=
  {| blocks := bl; mem := mem h; heap_start := heap_start h;
     heap_end := heap_end h; heap_initialized := heap_initialized h |}.

Definition with_mem (h : heap) (m : Z -> Z) : heap :=
  {| blocks := blocks h; mem := m; heap_start := heap_start h;
     heap_end := heap_end h; heap_initialized := heap_initialized h |}.

(** A write [p->field = v] through a header pointer. *)
Definition wr (bl : gmap Z heap_block_t) (p : Z) (f : heap_block_t -> heap_block_t)
  : option (gmap Z heap_block_t) :=
  match bl !! p with
  | Some b => Some (<[p := f b]> bl)
  | None => None
  end.

Section Heap.

(** [sizeof(heap_block_t)].  The declaration of [heap_block_t] is not in
    the sources at hand ([mm.h] declares another header type), so the
    header size is a parameter of the heap. *)
Variable hdr : Z.

(** [int mm_init(uint64_t heap_start_addr, uint64_t heap_size)] *)
Definition mm_init (h : heap) (heap_start_addr heap_size : Z) : heap :=
  {| blocks := <[heap_start_addr :=
                   {| blk_size := u64 (heap_size - hdr); blk_free := true;
                      blk_next := 0; blk_prev := 0 |}]> (blocks h);
     mem := mem h;
     heap_start := heap_start_addr;
     heap_end := u64 (heap_start_addr + heap_size);
     heap_initialized := true |}.

(** [size = (size + 7) & ~7] on [size_t]. *)
Definition align8 (size : Z) : Z := Z.land (u64 (size + 7)) (u64 (Z.lnot 7)).

(** The split of [current] in [kmalloc], write by write. *)
Definition split_block (bl : gmap Z heap_block_t) (current size : Z)
  : option (gmap Z heap_block_t) :=
  c ← bl !! current;
  let new_block := u64 (current + hdr + size) in
  let bl1 := <[new_block :=
                 {| blk_size := u64 (blk_size c - size - hdr); blk_free := true;
                    blk_next := blk_next c; blk_prev := current |}]> bl in
  c1 ← bl1 !! current;
  bl2 ← (if blk_next c1 =? 0 then Some bl1
         else wr bl1 (blk_next c1) (blk_set_prev new_block));
  bl3 ← wr bl2 current (blk_set_next new_block);
  wr bl3 current (blk_set_size size).

(** The [while (current)] loop of [kmalloc]: first fit from [current]. *)
Fixpoint kmalloc_scan (fuel : nat) (bl : gmap Z heap_block_t) (current size : Z)
  : option (Z * gmap Z heap_block_t) :=
  match fuel with
  | O => None
  | S fuel' =>
    if current =? 0 then Some (0, bl)
    else
      c ← bl !! current;
      if blk_free c && (size <=? blk_size c) then
        bl1 ← (if u64 (size + hdr + 8) <? blk_size c
               then split_block bl current size else Some bl);
        bl2 ← wr bl1 current (blk_set_free false);
        Some (u64 (current + hdr), bl2)
      else kmalloc_scan fuel' bl (blk_next c) size
  end.

(** [void* kmalloc(size_t size)]: the pointer ([0] for [NULL]) and the
    heap after the call. *)
Definition kmalloc (h : heap) (size : Z) : option (Z * heap) :=
  if negb (heap_initialized h) || (size =? 0) then Some (0, h)
  else
    '(p, bl) ← kmalloc_scan (S (base.size (blocks h))) (blocks h) (heap_start h) (align8 size);
    Some (p, with_blocks h bl).

(** Coalescing of [block] with its successor, in [kfree]. *)
Definition coalesce_next (bl : gmap Z heap_block_t) (block : Z)
  : option (gmap Z heap_block_t) :=
  b ← bl !! block;
  if blk_next b =? 0 then Some bl
  else
    n ← bl !! blk_next b;
    if blk_free n then
      bl1 ← wr bl block (blk_set_size (u64 (blk_size b + u64 (blk_size n + hdr))));
      b1 ← bl1 !! block;
      n1 ← bl1 !! blk_next b1;
      bl2 ← (if blk_next n1 =? 0 then Some bl1
             else wr bl1 (blk_next n1) (blk_set_prev block));
      b2 ← bl2 !! block;
      n2 ← bl2 !! blk_next b2;
      wr bl2 block (blk_set_next (blk_next n2))
    else Some bl.

(** Coalescing of [block] into its predecessor, in [kfree]. *)
Definition coalesce_prev (bl : gmap Z heap_block_t) (block : Z)
  : option (gmap Z heap_block_t) :=
  b ← bl !! block;
  if blk_prev b =? 0 then Some bl
  else
    p ← bl !! blk_prev b;
    if blk_free p then
      bl1 ← wr bl (blk_prev b) (blk_set_size (u64 (blk_size p + u64 (blk_size b + hdr))));
      b1 ← bl1 !! block;
      bl2 ← (if blk_next b1 =? 0 then Some bl1
             else wr bl1 (blk_next b1) (blk_set_prev (blk_prev b1)));
      b2 ← bl2 !! block;
      wr bl2 (blk_prev b2) (blk_set_next (blk_next b2))
    else Some bl.

(** The body of [kfree] once [block] has passed the validation: mark it
    free, coalesce with the next block, then with the previous one. *)
Definition free_block (bl : gmap Z heap_block_t) (block : Z)
  : option (gmap Z heap_block_t) :=
  bl1 ← wr bl block (blk_set_free true);
  bl2 ← coalesce_next bl1 block;
  coalesce_prev bl2 block.

(** [void kfree(void* ptr)] *)
Definition kfree (h : heap) (ptr : Z) : option heap :=
  if (ptr =? 0) || negb (heap_initialized h) then Some h
  else
    let block := u64 (ptr - hdr) in
    if (block <? heap_start h) || (heap_end h <=? block) then Some h
    else
      bl ← free_block (blocks h) block;
      Some (with_blocks h bl).

(** [memcpy(dst, src, n)] on the byte view of memory. *)
Definition memcpy (m : Z -> Z) (dst src n : Z) : Z -> Z :=
  fun a => if (dst <=? a) && (a <? dst + n) then m (src + (a - dst)) else m a.

(** [void* krealloc(void* ptr, size_t new_size)] *)
Definition krealloc (h : heap) (ptr new_size : Z) : option (Z * heap) :=
  if ptr =? 0 then kmalloc h new_size
  else if new_size =? 0 then
    h' ← kfree h ptr; Some (0, h')
  else
    let block := u64 (ptr - hdr) in
    b ← blocks h !! block;
    if new_size <=? blk_size b then Some (ptr, h)
    else
      '(new_ptr, h1) ← kmalloc h new_size;
      if new_ptr =? 0 then Some (new_ptr, h1)
      else
        b1 ← blocks h1 !! block;
        let n := if blk_size b1 <? new_size then blk_size b1 else new_size in
        h2 ← kfree (with_mem h1 (memcpy (mem h1) new_ptr ptr n)) ptr;
        Some (new_ptr, h2).

(** [memset(dst, c, n)] on the byte view of memory. *)
Definition memset (m : Z -> Z) (dst c n : Z) : Z -> Z :=
  fun a => if (dst <=? a) && (a <? dst + n) then c else m a.

(** [void* kcalloc(size_t num, size_t size)]; the product is taken in
    [size_t]. *)
Definition kcalloc (h : heap) (num size : Z) : option (Z * heap) :=
  let total_size := u64 (num * size) in
  '(ptr, h1) ← kmalloc h total_size;
  if ptr =? 0 then Some (ptr, h1)
  else Some (ptr, with_mem h1 (memset (mem h1) ptr 0 total_size)).

End Heap.

(** *** The block list as a list

    [chain bl prev a bs e]: in the header memory [bl], the headers from
    address [a] on are exactly the blocks [bs] (size and free flag), laid
    out back to back up to [e], doubly linked, the first one pointing
    back to [prev]. *)

Definition next_ptr (a : Z) (bs : list (Z * bool)) : Z :=
  match bs with [] => 0 | _ => a end.

Fixpoint chain (hdr : Z) (bl : gmap Z heap_block_t) (prev a : Z)
    (bs : list (Z * bool)) (e : Z) : Prop :=
  match bs with
  | [] => a = e
  | (sz, fr) :: rest =>
    8 <= a /\ 0 <= sz /\
    bl !! a = Some {| blk_size := sz; blk_free := fr;
                      blk_next := next_ptr (a + hdr + sz) rest;
                      blk_prev := prev |} /\
    chain hdr bl a (a + hdr + sz) rest e
  end.

(** [heap_repr hdr h bs]: the heap [h] is initialised and its block list
    is [bs], from [heap_start] to [heap_end]. *)
Definition heap_repr (hdr : Z) (h : heap) (bs : list (Z * bool)) : Prop :=
  0 < hdr /\ heap_initialized h = true /\ heap_end h < 2 ^ 64 /\ bs <> [] /\
  chain hdr (blocks h) 0 (heap_start h) bs (heap_end h).

(** Header addresses of the blocks [bs] laid out from [a]. *)
Fixpoint block_addrs (hdr : Z) (a : Z) (bs : list (Z * bool)) : list Z :=
  match bs with
  | [] => []
  | (sz, _) :: rest => a :: block_addrs hdr (a + hdr + sz) rest
  end.

(** The block whose header is at [t], among the blocks [bs] laid out
    from [a]. *)
Fixpoint block_at (hdr : Z) (a : Z) (bs : list (Z * bool)) (t : Z)
  : option (Z * bool) :=
  match bs with
  | [] => None
  | (sz, fr) :: rest =>
    if a =? t then Some (sz, fr) else block_at hdr (a + hdr + sz) rest t
  end.

(** A live pointer: the payload address of an allocated block, with the
    size of that block. *)
Definition live (hdr : Z) (h : heap) (bs : list (Z * bool)) (ptr sz : Z) : Prop :=
  block_at hdr (heap_start h) bs (ptr - hdr) = Some (sz, false).

(** No two neighbours in the block list are both free. *)
Fixpoint no_adjacent_free (bs : list (Z * bool)) : Prop :=
  match bs with
  | (_, f1) :: (((_, f2) :: _) as rest) =>
    (f1 && f2 = false) /\ no_adjacent_free rest
  | _ => True
  end.

Definition head_free (bs : list (Z * bool)) : bool :=
  match bs with (_, fr) :: _ => fr | [] => false end.

(** Bytes taken by the blocks [bs], headers included. *)
Fixpoint span (hdr : Z) (bs : list (Z * bool)) : Z :=
  match bs with
  | [] => 0
  | (sz, _) :: rest => hdr + sz + span hdr rest
  end.

(** What [kmalloc] does to the block list: first fit for [n] bytes among
    the blocks [bs] laid out from [a]; the header address of the block
    handed out and the new list, or [None] when nothing fits. *)
Fixpoint alloc_list (hdr : Z) (a : Z) (bs : list (Z * bool)) (n : Z)
  : option (Z * list (Z * bool)) :=
  match bs with
  | [] => None
  | (sz, fr) :: rest =>
    if fr && (n <=? sz) then
      Some (a, if n + hdr + 8 <? sz
               then (n, false) :: (sz - n - hdr, true) :: rest
               else (sz, false) :: rest)
    else
      match alloc_list hdr (a + hdr + sz) rest n with
      | Some (p, rest') => Some (p, (sz, fr) :: rest')
      | None => None
      end
  end.

(** What [kfree] does to the block list.  [free_head sz rest]: the block
    of size [sz] in front of [rest] is freed and takes in its successor
    when that one is free. *)
Definition free_head (hdr : Z) (sz : Z) (rest : list (Z * bool)) : list (Z * bool) :=
  match rest with
  | (sz', true) :: rest' => (sz + (sz' + hdr), true) :: rest'
  | _ => (sz, true) :: rest
  end.

(** [free_list hdr a bs t]: the block whose header is at [t] is freed,
    among the blocks [bs] laid out from [a]; after [free_head], a free
    predecessor takes in the result. *)
Fixpoint free_list (hdr : Z) (a : Z) (bs : list (Z * bool)) (t : Z)
  : list (Z * bool) :=
  match bs with
  | [] => []
  | (sz, fr) :: rest =>
    if a =? t then free_head hdr sz rest
    else
      match rest with
      | (sz1, _) :: rest1 =>
        if a + hdr + sz =? t then
          match free_head hdr sz1 rest1 with
          | (szm, _) :: rest2 =>
            if fr then (sz + (szm + hdr), true) :: rest2
            else (sz, fr) :: (szm, true) :: rest2
          | [] => bs
          end
        else (sz, fr) :: free_list hdr (a + hdr + sz) rest t
      | [] => bs
      end
  end.

(** *** A client of the heap

    A client asks for memory and gives back what it was given: [Malloc n]
    calls [kmalloc(n)] and keeps the pointer when it is not null;
    [Free i] calls [kfree] on the [i]-th pointer it holds and forgets it.
    [held] lists the pointers held, with the sizes asked for. *)
Inductive heap_call :=
| Malloc (size : Z)
| Free (i : nat).

Fixpoint run_calls (hdr : Z) (cs : list heap_call) (h : heap) (held : list (Z * Z))
  : option (heap * list (Z * Z)) :=
  match cs with
  | [] => Some (h, held)
  | Malloc size :: cs' =>
    '(p, h') ← kmalloc hdr h size;
    run_calls hdr cs' h' (if p =? 0 then held else held ++ [(p, size)])
  | Free i :: cs' =>
    match held !! i with
    | Some (p, _) =>
      h' ← kfree hdr h p;
      run_calls hdr cs' h' (delete i held)
    | None => run_calls hdr cs' h held
    end
  end.

(** What holds of the heap and of the pointers a client holds, between
    its calls: the heap from [base] to [e] is well formed with no two
    adjacent free blocks, the pointers held are distinct, and each is
    live, in a block with room for the size asked for. *)
Definition client_inv (hdr base e : Z) (h : heap) (held : list (Z * Z)) : Prop :=
  exists bs,
    heap_repr hdr h bs /\ no_adjacent_free bs /\
    heap_start h = base /\ heap_end h = e /\
    NoDup held.*1 /\
    forall p n, In (p, n) held ->
      exists sz, live hdr h bs p sz /\ (0 <= n -> n + 7 < 2 ^ 64 -> n <= sz).

(** No block of the list is free and has room for [n] bytes. *)
Definition no_fit (bs : list (Z * bool)) (n : Z) : Prop :=
  Forall (fun b : Z * bool => b.2 = false \/ b.1 < n) bs.

(** *** Scenario heaps

    A 1024-byte arena at the kernel heap base with 32-byte headers (the
    size of [heap_block_t] under the LP64 ABI), and the heaps reached
    from it by one, three and four allocations of 100 bytes. *)
Definition arena_1024 : heap :=
  mm_init 32 (boot_heap (fun _ => 0)) 0x200000 1024.

Definition then_kmalloc (hdr : Z) (h : heap) (size : Z) : heap :=
  match kmalloc hdr h size with
  | Some (_, h') => h'
  | None => h
  end.

Definition then_kfree (hdr : Z) (h : heap) (ptr : Z) : heap :=
  match kfree hdr h ptr with
  | Some h' => h'
  | None => h
  end.

Definition one_block : heap := then_kmalloc 32 arena_1024 100.

Definition three_blocks : heap :=
  then_kmalloc 32 (then_kmalloc 32 one_block 100) 100.

Definition four_blocks : heap := then_kmalloc 32 three_blocks 100.

(** The block list of a heap as [kmalloc] walks it: size and free flag
    of every header from [heap_start] along [blk_next]. *)
Fixpoint walk_blocks (fuel : nat) (bl : gmap Z heap_block_t) (p : Z)
  : list (Z * bool) :=
  match fuel with
  | O => []
  | S fuel' =>
    if p =? 0 then []
    else match bl !! p with
         | Some b => (blk_size b, blk_free b) :: walk_blocks fuel' bl (blk_next b)
         | None => []
         end
  end.

Definition block_list (h : heap) : list (Z * bool) :=
  walk_blocks (S (size (blocks h))) (blocks h) (heap_start h).

End MM.

(** ** Task management ([kernel/task.c]) *)

Module Task.

Import MM.

(** *** Types of [task.h] *)

Inductive task_state_t :=
  TASK_RUNNING | TASK_READY | TASK_BLOCKED | TASK_SUSPENDED | TASK_TERMINATED.

#[global] Instance task_state_eq_dec : EqDecision task_state_t.
Proof. solve_decision. Defined.

(** [task_priority_t]: the enumerators; a priority is held as an unsigned
    integer, and the code guards every queue access with
    [priority > PRIORITY_CRITICAL]. *)
Definition PRIORITY_IDLE : Z := 0.
Definition PRIORITY_LOW : Z := 1.
Definition PRIORITY_NORMAL : Z := 2.
Definition PRIORITY_HIGH : Z := 3.
Definition PRIORITY_CRITICAL : Z := 4.

Definition TASK_FLAG_KERNEL : Z := 1.
Definition TASK_FLAG_USER : Z := 2.
Definition TASK_FLAG_SYSTEM : Z := 4.
Definition TASK_STACK_SIZE : Z := 8192.
Definition TASK_NAME_MAX : Z := 32.

(** [cpu_state_t], the registers that [init_task_cpu_state] sets; all
    others stay zero. *)
Record cpu_state_t := {
  rsp : Z; rbp : Z; rip : Z; rflags : Z;
  cs : Z; ds : Z; es : Z; fs : Z; gs : Z; ss : Z;
  cr3 : Z
}.

Definition zero_cpu_state : cpu_state_t :=
  {| rsp := 0; rbp := 0; rip := 0; rflags := 0;
     cs := 0; ds := 0; es := 0; fs := 0; gs := 0; ss := 0; cr3 := 0 |}.

(** [task_t], the fields that [task.c] reads or writes.  [t_parent],
    [t_next], [t_prev] are addresses of control blocks.  One pair
    [t_next]/[t_prev] serves both the global task list and the ready
    queue, as in the source. *)
Record task_t := {
  t_id : Z;
  t_name : string;
  t_state : task_state_t;
  t_priority : Z;
  t_flags : Z;
  t_cpu_state : cpu_state_t;
  t_stack_base : Z;
  t_stack_size : Z;
  t_page_directory : Z;
  t_creation_time : Z;
  t_cpu_time : Z;
  t_last_run : Z;
  t_time_slice : Z;
  t_time_slice_remaining : Z;
  t_parent : Z;
  t_next : Z;
  t_prev : Z;
  t_sleep_until : Z;
  t_exit_code : Z;
  t_context_switch_count : Z
}.

(** [memset(task, 0, sizeof(task_t))]; [TASK_RUNNING] is enumerator 0. *)
Definition zero_task : task_t :=
  {| t_id := 0; t_name := EmptyString; t_state := TASK_RUNNING; t_priority := 0;
     t_flags := 0; t_cpu_state := zero_cpu_state; t_stack_base := 0;
     t_stack_size := 0; t_page_directory := 0; t_creation_time := 0;
     t_cpu_time := 0; t_last_run := 0; t_time_slice := 0;
     t_time_slice_remaining := 0; t_parent := 0; t_next := 0; t_prev := 0;
     t_sleep_until := 0; t_exit_code := 0; t_context_switch_count := 0 |}.

Definition set_id v t :=
  {| t_id := v; t_name := t_name t; t_state := t_state t; t_priority := t_priority t;
     t_flags := t_flags t; t_cpu_state := t_cpu_state t; t_stack_base := t_stack_base t;
     t_stack_size := t_stack_size t; t_page_directory := t_page_directory t;
     t_creation_time := t_creation_time t; t_cpu_time := t_cpu_time t;
     t_last_run := t_last_run t; t_time_slice := t_time_slice t;
     t_time_slice_remaining := t_time_slice_remaining t; t_parent := t_parent t;
     t_next := t_next t; t_prev := t_prev t; t_sleep_until := t_sleep_until t;
     t_exit_code := t_exit_code t; t_context_switch_count := t_context_switch_count t |}.
Definition set_name v t :=
  {| t_id := t_id t; t_name := v; t_state := t_state t; t_priority := t_priority t;
     t_flags := t_flags t; t_cpu_state := t_cpu_state t; t_stack_base := t_stack_base t;
     t_stack_size := t_stack_size t; t_page_directory := t_page_directory t;
     t_creation_time := t_creation_time t; t_cpu_time := t_cpu_time t;
     t_last_run := t_last_run t; t_time_slice := t_time_slice t;
     t_time_slice_remaining := t_time_slice_remaining t; t_parent := t_parent t;
     t_next := t_next t; t_prev := t_prev t; t_sleep_until := t_sleep_until t;
     t_exit_code := t_exit_code t; t_context_switch_count := t_context_switch_count t |}.
Definition set_state v t :=
  {| t_id := t_id t; t_name := t_name t; t_state := v; t_priority := t_priority t;
     t_flags := t_flags t; t_cpu_state := t_cpu_state t; t_stack_base := t_stack_base t;
     t_stack_size := t_stack_size t; t_page_directory := t_page_directory t;
     t_creation_time := t_creation_time t; t_cpu_time := t_cpu_time t;
     t_last_run := t_last_run t; t_time_slice := t_time_slice t;
     t_time_slice_remaining := t_time_slice_remaining t; t_parent := t_parent t;
     t_next := t_next t; t_prev := t_prev t; t_sleep_until := t_sleep_until t;
     t_exit_code := t_exit_code t; t_context_switch_count := t_context_switch_count t |}.
Definition set_priority v t :=
  {| t_id := t_id t; t_name := t_name t; t_state := t_state t; t_priority := v;
     t_flags := t_flags t; t_cpu_state := t_cpu_state t; t_stack_base := t_stack_base t;
     t_stack_size := t_stack_size t; t_page_directory := t_page_directory t;
     t_creation_time := t_creation_time t; t_cpu_time := t_cpu_time t;
     t_last_run := t_last_run t; t_time_slice := t_time_slice t;
     t_time_slice_remaining := t_time_slice_remaining t; t_parent := t_parent t;
     t_next := t_next t; t_prev := t_prev t; t_sleep_until := t_sleep_until t;
     t_exit_code := t_exit_code t; t_context_switch_count := t_context_switch_count t |}.
Definition set_flags v t :=
  {| t_id := t_id t; t_name := t_name t; t_state := t_state t; t_priority := t_priority t;
     t_flags := v; t_cpu_state := t_cpu_state t; t_stack_base := t_stack_base t;
     t_stack_size := t_stack_size t; t_page_directory := t_page_directory t;
     t_creation_time := t_creation_time t; t_cpu_time := t_cpu_time t;
     t_last_run := t_last_run t; t_time_slice := t_time_slice t;
     t_time_slice_remaining := t_time_slice_remaining t; t_parent := t_parent t;
     t_next := t_next t; t_prev := t_prev t; t_sleep_until := t_sleep_until t;
     t_exit_code := t_exit_code t; t_context_switch_count := t_context_switch_count t |}.
Definition set_cpu_state v t :=
  {| t_id := t_id t; t_name := t_name t; t_state := t_state t; t_priority := t_priority t;
     t_flags := t_flags t; t_cpu_state := v; t_stack_base := t_stack_base t;
     t_stack_size := t_stack_size t; t_page_directory := t_page_directory t;
     t_creation_time := t_creation_time t; t_cpu_time := t_cpu_time t;
     t_last_run := t_last_run t; t_time_slice := t_time_slice t;
     t_time_slice_remaining := t_time_slice_remaining t; t_parent := t_parent t;
     t_next := t_next t; t_prev := t_prev t; t_sleep_until := t_sleep_until t;
     t_exit_code := t_exit_code t; t_context_switch_count := t_context_switch_count t |}.
Definition set_stack_base v t :=
  {| t_id := t_id t; t_name := t_name t; t_state := t_state t; t_priority := t_priority t;
     t_flags := t_flags t; t_cpu_state := t_cpu_state t; t_stack_base := v;
     t_stack_size := t_stack_size t; t_page_directory := t_page_directory t;
     t_creation_time := t_creation_time t; t_cpu_time := t_cpu_time t;
     t_last_run := t_last_run t; t_time_slice := t_time_slice t;
     t_time_slice_remaining := t_time_slice_remaining t; t_parent := t_parent t;
     t_next := t_next t; t_prev := t_prev t; t_sleep_until := t_sleep_until t;
     t_exit_code := t_exit_code t; t_context_switch_count := t_context_switch_count t |}.
Definition set_stack_size v t :=
  {| t_id := t_id t; t_name := t_name t; t_state := t_state t; t_priority := t_priority t;
     t_flags := t_flags t; t_cpu_state := t_cpu_state t; t_stack_base := t_stack_base t;
     t_stack_size := v; t_page_directory := t_page_directory t;
     t_creation_time := t_creation_time t; t_cpu_time := t_cpu_time t;
     t_last_run := t_last_run t; t_time_slice := t_time_slice t;
     t_time_slice_remaining := t_time_slice_remaining t; t_parent := t_parent t;
     t_next := t_next t; t_prev := t_prev t; t_sleep_until := t_sleep_until t;
     t_exit_code := t_exit_code t; t_context_switch_count := t_context_switch_count t |}.
Definition set_page_directory v t :=
  {| t_id := t_id t; t_name := t_name t; t_state := t_state t; t_priority := t_priority t;
     t_flags := t_flags t; t_cpu_state := t_cpu_state t; t_stack_base := t_stack_base t;
     t_stack_size := t_stack_size t; t_page_directory := v;
     t_creation_time := t_creation_time t; t_cpu_time := t_cpu_time t;
     t_last_run := t_last_run t; t_time_slice := t_time_slice t;
     t_time_slice_remaining := t_time_slice_remaining t; t_parent := t_parent t;
     t_next := t_next t; t_prev := t_prev t; t_sleep_until := t_sleep_until t;
     t_exit_code := t_exit_code t; t_context_switch_count := t_context_switch_count t |}.
Definition set_creation_time v t :=
  {| t_id := t_id t; t_name := t_name t; t_state := t_state t; t_priority := t_priority t;
     t_flags := t_flags t; t_cpu_state := t_cpu_state t; t_stack_base := t_stack_base t;
     t_stack_size := t_stack_size t; t_page_directory := t_page_directory t;
     t_creation_time := v; t_cpu_time := t_cpu_time t;
     t_last_run := t_last_run t; t_time_slice := t_time_slice t;
     t_time_slice_remaining := t_time_slice_remaining t; t_parent := t_parent t;
     t_next := t_next t; t_prev := t_prev t; t_sleep_until := t_sleep_until t;
     t_exit_code := t_exit_code t; t_context_switch_count := t_context_switch_count t |}.
Definition set_cpu_time v t :=
  {| t_id := t_id t; t_name := t_name t; t_state := t_state t; t_priority := t_priority t;
     t_flags := t_flags t; t_cpu_state := t_cpu_state t; t_stack_base := t_stack_base t;
     t_stack_size := t_stack_size t; t_page_directory := t_page_directory t;
     t_creation_time := t_creation_time t; t_cpu_time := v;
     t_last_run := t_last_run t; t_time_slice := t_time_slice t;
     t_time_slice_remaining := t_time_slice_remaining t; t_parent := t_parent t;
     t_next := t_next t; t_prev := t_prev t; t_sleep_until := t_sleep_until t;
     t_exit_code := t_exit_code t; t_context_switch_count := t_context_switch_count t |}.
Definition set_last_run v t :=
  {| t_id := t_id t; t_name := t_name t; t_state := t_state t; t_priority := t_priority t;
     t_flags := t_flags t; t_cpu_state := t_cpu_state t; t_stack_base := t_stack_base t;
     t_stack_size := t_stack_size t; t_page_directory := t_page_directory t;
     t_creation_time := t_creation_time t; t_cpu_time := t_cpu_time t;
     t_last_run := v; t_time_slice := t_time_slice t;
     t_time_slice_remaining := t_time_slice_remaining t; t_parent := t_parent t;
     t_next := t_next t; t_prev := t_prev t; t_sleep_until := t_sleep_until t;
     t_exit_code := t_exit_code t; t_context_switch_count := t_context_switch_count t |}.
Definition set_time_slice v t :=
  {| t_id := t_id t; t_name := t_name t; t_state := t_state t; t_priority := t_priority t;
     t_flags := t_flags t; t_cpu_state := t_cpu_state t; t_stack_base := t_stack_base t;
     t_stack_size := t_stack_size t; t_page_directory := t_page_directory t;
     t_creation_time := t_creation_time t; t_cpu_time := t_cpu_time t;
     t_last_run := t_last_run t; t_time_slice := v;
     t_time_slice_remaining := t_time_slice_remaining t; t_parent := t_parent t;
     t_next := t_next t; t_prev := t_prev t; t_sleep_until := t_sleep_until t;
     t_exit_code := t_exit_code t; t_context_switch_count := t_context_switch_count t |}.
Definition set_time_slice_remaining v t :=
  {| t_id := t_id t; t_name := t_name t; t_state := t_state t; t_priority := t_priority t;
     t_flags := t_flags t; t_cpu_state := t_cpu_state t; t_stack_base := t_stack_base t;
     t_stack_size := t_stack_size t; t_page_directory := t_page_directory t;
     t_creation_time := t_creation_time t; t_cpu_time := t_cpu_time t;
     t_last_run := t_last_run t; t_time_slice := t_time_slice t;
     t_time_slice_remaining := v; t_parent := t_parent t;
     t_next := t_next t; t_prev := t_prev t; t_sleep_until := t_sleep_until t;
     t_exit_code := t_exit_code t; t_context_switch_count := t_context_switch_count t |}.
Definition set_parent v t :=
  {| t_id := t_id t; t_name := t_name t; t_state := t_state t; t_priority := t_priority t;
     t_flags := t_flags t; t_cpu_state := t_cpu_state t; t_stack_base := t_stack_base t;
     t_stack_size := t_stack_size t; t_page_directory := t_page_directory t;
     t_creation_time := t_creation_time t; t_cpu_time := t_cpu_time t;
     t_last_run := t_last_run t; t_time_slice := t_time_slice t;
     t_time_slice_remaining := t_time_slice_remaining t; t_parent := v;
     t_next := t_next t; t_prev := t_prev t; t_sleep_until := t_sleep_until t;
     t_exit_code := t_exit_code t; t_context_switch_count := t_context_switch_count t |}.
Definition set_next v t :=
  {| t_id := t_id t; t_name := t_name t; t_state := t_state t; t_priority := t_priority t;
     t_flags := t_flags t; t_cpu_state := t_cpu_state t; t_stack_base := t_stack_base t;
     t_stack_size := t_stack_size t; t_page_directory := t_page_directory t;
     t_creation_time := t_creation_time t; t_cpu_time := t_cpu_time t;
     t_last_run := t_last_run t; t_time_slice := t_time_slice t;
     t_time_slice_remaining := t_time_slice_remaining t; t_parent := t_parent t;
     t_next := v; t_prev := t_prev t; t_sleep_until := t_sleep_until t;
     t_exit_code := t_exit_code t; t_context_switch_count := t_context_switch_count t |}.
Definition set_prev v t :=
  {| t_id := t_id t; t_name := t_name t; t_state := t_state t; t_priority := t_priority t;
     t_flags := t_flags t; t_cpu_state := t_cpu_state t; t_stack_base := t_stack_base t;
     t_stack_size := t_stack_size t; t_page_directory := t_page_directory t;
     t_creation_time := t_creation_time t; t_cpu_time := t_cpu_time t;
     t_last_run := t_last_run t; t_time_slice := t_time_slice t;
     t_time_slice_remaining := t_time_slice_remaining t; t_parent := t_parent t;
     t_next := t_next t; t_prev := v; t_sleep_until := t_sleep_until t;
     t_exit_code := t_exit_code t; t_context_switch_count := t_context_switch_count t |}.
Definition set_sleep_until v t :=
  {| t_id := t_id t; t_name := t_name t; t_state := t_state t; t_priority := t_priority t;
     t_flags := t_flags t; t_cpu_state := t_cpu_state t; t_stack_base := t_stack_base t;
     t_stack_size := t_stack_size t; t_page_directory := t_page_directory t;
     t_creation_time := t_creation_time t; t_cpu_time := t_cpu_time t;
     t_last_run := t_last_run t; t_time_slice := t_time_slice t;
     t_time_slice_remaining := t_time_slice_remaining t; t_parent := t_parent t;
     t_next := t_next t; t_prev := t_prev t; t_sleep_until := v;
     t_exit_code := t_exit_code t; t_context_switch_count := t_context_switch_count t |}.
Definition set_exit_code v t :=
  {| t_id := t_id t; t_name := t_name t; t_state := t_state t; t_priority := t_priority t;
     t_flags := t_flags t; t_cpu_state := t_cpu_state t; t_stack_base := t_stack_base t;
     t_stack_size := t_stack_size t; t_page_directory := t_page_directory t;
     t_creation_time := t_creation_time t; t_cpu_time := t_cpu_time t;
     t_last_run := t_last_run t; t_time_slice := t_time_slice t;
     t_time_slice_remaining := t_time_slice_remaining t; t_parent := t_parent t;
     t_next := t_next t; t_prev := t_prev t; t_sleep_until := t_sleep_until t;
     t_exit_code := v; t_context_switch_count := t_context_switch_count t |}.
Definition set_context_switch_count v t :=
  {| t_id := t_id t; t_name := t_name t; t_state := t_state t; t_priority := t_priority t;
     t_flags := t_flags t; t_cpu_state := t_cpu_state t; t_stack_base := t_stack_base t;
     t_stack_size := t_stack_size t; t_page_directory := t_page_directory t;
     t_creation_time := t_creation_time t; t_cpu_time := t_cpu_time t;
     t_last_run := t_last_run t; t_time_slice := t_time_slice t;
     t_time_slice_remaining := t_time_slice_remaining t; t_parent := t_parent t;
     t_next := t_next t; t_prev := t_prev t; t_sleep_until := t_sleep_until t;
     t_exit_code := t_exit_code t; t_context_switch_count := v |}.

(** [spinlock_t] *)
Record spinlock_t := {
  l_locked : Z;
  l_owner : Z;
  l_count : Z;
  l_recursion_count : Z
}.

(** [scheduler_stats_t] *)
Record scheduler_stats_t := {
  total_tasks : Z;
  running_tasks : Z;
  ready_tasks : Z;
  blocked_tasks : Z;
  context_switches : Z;
  idle_time : Z;
  total_cpu_time : Z
}.

Definition zero_stats : scheduler_stats_t :=
  {| total_tasks := 0; running_tasks := 0; ready_tasks := 0; blocked_tasks := 0;
     context_switches := 0; idle_time := 0; total_cpu_time := 0 |}.

(** The statics of [task.c], the kernel heap they allocate from, the
    memory seen as control blocks ([tasks]) and the tick counter of
    [timer.c].  A control block is in [tasks] from the [memset] that
    starts its life to the [kfree] that ends it. *)
Record kernel := {
  kheap : heap;
  tasks : gmap Z task_t;
  task_list_head_ptr : Z;
  current_task : Z;
  next_task_id : Z;
  scheduler_stats : scheduler_stats_t;
  task_list_lock : spinlock_t;
  scheduler_lock : spinlock_t;
  scheduler_quantum : Z;
  ready_queues : list Z;
  ticks : Z
}.

Definition set_kheap v k :=
  {| kheap := v; tasks := tasks k; task_list_head_ptr := task_list_head_ptr k;
     current_task := current_task k; next_task_id := next_task_id k;
     scheduler_stats := scheduler_stats k; task_list_lock := task_list_lock k;
     scheduler_lock := scheduler_lock k; scheduler_quantum := scheduler_quantum k;
     ready_queues := ready_queues k; ticks := ticks k |}.
Definition set_tasks v k :=
  {| kheap := kheap k; tasks := v; task_list_head_ptr := task_list_head_ptr k;
     current_task := current_task k; next_task_id := next_task_id k;
     scheduler_stats := scheduler_stats k; task_list_lock := task_list_lock k;
     scheduler_lock := scheduler_lock k; scheduler_quantum := scheduler_quantum k;
     ready_queues := ready_queues k; ticks := ticks k |}.
Definition set_task_list_head_ptr v k :=
  {| kheap := kheap k; tasks := tasks k; task_list_head_ptr := v;
     current_task := current_task k; next_task_id := next_task_id k;
     scheduler_stats := scheduler_stats k; task_list_lock := task_list_lock k;
     scheduler_lock := scheduler_lock k; scheduler_quantum := scheduler_quantum k;
     ready_queues := ready_queues k; ticks := ticks k |}.
Definition set_current_task v k :=
  {| kheap := kheap k; tasks := tasks k; task_list_head_ptr := task_list_head_ptr k;
     current_task := v; next_task_id := next_task_id k;
     scheduler_stats := scheduler_stats k; task_list_lock := task_list_lock k;
     scheduler_lock := scheduler_lock k; scheduler_quantum := scheduler_quantum k;
     ready_queues := ready_queues k; ticks := ticks k |}.
Definition set_next_task_id v k :=
  {| kheap := kheap k; tasks := tasks k; task_list_head_ptr := task_list_head_ptr k;
     current_task := current_task k; next_task_id := v;
     scheduler_stats := scheduler_stats k; task_list_lock := task_list_lock k;
     scheduler_lock := scheduler_lock k; scheduler_quantum := scheduler_quantum k;
     ready_queues := ready_queues k; ticks := ticks k |}.
Definition set_scheduler_stats v k :=
  {| kheap := kheap k; tasks := tasks k; task_list_head_ptr := task_list_head_ptr k;
     current_task := current_task k; next_task_id := next_task_id k;
     scheduler_stats := v; task_list_lock := task_list_lock k;
     scheduler_lock := scheduler_lock k; scheduler_quantum := scheduler_quantum k;
     ready_queues := ready_queues k; ticks := ticks k |}.
Definition set_task_list_lock v k :=
  {| kheap := kheap k; tasks := tasks k; task_list_head_ptr := task_list_head_ptr k;
     current_task := current_task k; next_task_id := next_task_id k;
     scheduler_stats := scheduler_stats k; task_list_lock := v;
     scheduler_lock := scheduler_lock k; scheduler_quantum := scheduler_quantum k;
     ready_queues := ready_queues k; ticks := ticks k |}.
Definition set_scheduler_lock v k :=
  {| kheap := kheap k; tasks := tasks k; task_list_head_ptr := task_list_head_ptr k;
     current_task := current_task k; next_task_id := next_task_id k;
     scheduler_stats := scheduler_stats k; task_list_lock := task_list_lock k;
     scheduler_lock := v; scheduler_quantum := scheduler_quantum k;
     ready_queues := ready_queues k; ticks := ticks k |}.
Definition set_scheduler_quantum v k :=
  {| kheap := kheap k; tasks := tasks k; task_list_head_ptr := task_list_head_ptr k;
     current_task := current_task k; next_task_id := next_task_id k;
     scheduler_stats := scheduler_stats k; task_list_lock := task_list_lock k;
     scheduler_lock := scheduler_lock k; scheduler_quantum := v;
     ready_queues := ready_queues k; ticks := ticks k |}.
Definition set_ready_queues v k :=
  {| kheap := kheap k; tasks := tasks k; task_list_head_ptr := task_list_head_ptr k;
     current_task := current_task k; next_task_id := next_task_id k;
     scheduler_stats := scheduler_stats k; task_list_lock := task_list_lock k;
     scheduler_lock := scheduler_lock k; scheduler_quantum := scheduler_quantum k;
     ready_queues := v; ticks := ticks k |}.
Definition set_ticks v k :=
  {| kheap := kheap k; tasks := tasks k; task_list_head_ptr := task_list_head_ptr k;
     current_task := current_task k; next_task_id := next_task_id k;
     scheduler_stats := scheduler_stats k; task_list_lock := task_list_lock k;
     scheduler_lock := scheduler_lock k; scheduler_quantum := scheduler_quantum k;
     ready_queues := ready_queues k; ticks := v |}.

(** *** What the sources at hand leave open

    Sizes fixed by the ABI, addresses of statics and of functions, and
    the two externals [get_kernel_page_directory] and
    [timer_get_frequency]. *)
Record platform := {
  sizeof_heap_block_t : Z;
  sizeof_task_t : Z;
  idle_task_tcb : Z;
  idle_task_stack : Z;
  idle_task : Z;
  kernel_page_directory : Z;
  timer_frequency : Z
}.

(** *** Kernel operations as state transformers

    An operation either returns a value and a new state, spins or loops
    for ever ([Hang]), halts the machine through [kernel_panic]
    ([Panic]), or reads an object that is not there ([Fault]). *)
Inductive outcome (A : Type) : Type :=
| Ret (a : A) (k : kernel)
| Hang
| Panic
| Fault.

Arguments Ret {A} a k.
Arguments Hang {A}.
Arguments Panic {A}.
Arguments Fault {A}.

Definition M (A : Type) : Type := kernel -> outcome A.

Definition ret {A} (a : A) : M A := fun k => Ret a k.

Definition bind {A B} (m : M A) (f : A -> M B) : M B :=
  fun k =>
    match m k with
    | Ret a k' => f a k'
    | Hang => Hang
    | Panic => Panic
    | Fault => Fault
    end.

Definition gets {A} (f : kernel -> A) : M A := fun k => Ret (f k) k.
Definition modify (f : kernel -> kernel) : M unit := fun k => Ret tt (f k).
Definition hang {A} : M A := fun _ => Hang.
Definition panic {A} : M A := fun _ => Panic.
Definition fault {A} : M A := fun _ => Fault.

Notation "x <- m ;; f" := (bind m (fun x => f))
  (at level 100, m at next level, right associativity).
Notation "m ;; f" := (bind m (fun _ => f))
  (at level 100, right associativity).

(** A read [*p] and a write [p->field = v] through a task pointer. *)
Definition rd (p : Z) : M task_t :=
  fun k => match tasks k !! p with Some t => Ret t k | None => Fault end.

Definition wrt (p : Z) (f : task_t -> task_t) : M unit :=
  fun k =>
    match tasks k !! p with
    | Some t => Ret tt (set_tasks (<[p := f t]> (tasks k)) k)
    | None => Fault
    end.

(** The two locks of [task.c]; a [spinlock_t*] is [None] when null. *)
Inductive lock_name := TaskListLock | SchedulerLock.

Definition get_lock (n : lock_name) (k : kernel) : spinlock_t :=
  match n with
  | TaskListLock => task_list_lock k
  | SchedulerLock => scheduler_lock k
  end.

Definition set_lock (n : lock_name) (l : spinlock_t) (k : kernel) : kernel :=
  match n with
  | TaskListLock => set_task_list_lock l k
  | SchedulerLock => set_scheduler_lock l k
  end.

(** [task_id_t task_get_current_id(void)] *)
Definition task_get_current_id : M Z :=
  cur <- gets current_task ;;
  if cur =? 0 then ret 0 else t <- rd cur ;; ret (t_id t).

(** [void spinlock_init(spinlock_t* lock)] *)
Definition spinlock_init (lock : option lock_name) : M unit :=
  match lock with
  | None => ret tt
  | Some n =>
    modify (set_lock n {| l_locked := 0; l_owner := 0; l_count := 0;
                          l_recursion_count := 0 |})
  end.

(** [void spinlock_acquire(spinlock_t* lock)].  One core and no
    interrupt inside an operation: a test-and-set that finds the lock
    held spins for ever. *)
Definition spinlock_acquire (lock : option lock_name) : M unit :=
  match lock with
  | None => ret tt
  | Some n =>
    l <- gets (get_lock n) ;;
    if negb (l_locked l =? 0) then hang
    else
      modify (set_lock n {| l_locked := 1; l_owner := l_owner l;
                            l_count := l_count l;
                            l_recursion_count := l_recursion_count l |}) ;;
      cur <- task_get_current_id ;;
      l1 <- gets (get_lock n) ;;
      modify (set_lock n {| l_locked := l_locked l1; l_owner := cur;
                            l_count := u32 (l_count l1 + 1);
                            l_recursion_count := l_recursion_count l1 |})
  end.

(** [void spinlock_release(spinlock_t* lock)] *)
Definition spinlock_release (lock : option lock_name) : M unit :=
  match lock with
  | None => ret tt
  | Some n =>
    l <- gets (get_lock n) ;;
    cur <- task_get_current_id ;;
    if negb (l_owner l =? cur) then ret tt
    else
      modify (set_lock n {| l_locked := 0; l_owner := 0; l_count := l_count l;
                            l_recursion_count := l_recursion_count l |})
  end.

(** [bool spinlock_try_acquire(spinlock_t* lock)] *)
Definition spinlock_try_acquire (lock : option lock_name) : M bool :=
  match lock with
  | None => ret false
  | Some n =>
    l <- gets (get_lock n) ;;
    modify (set_lock n {| l_locked := 1; l_owner := l_owner l; l_count := l_count l;
                          l_recursion_count := l_recursion_count l |}) ;;
    if l_locked l =? 0 then
      cur <- task_get_current_id ;;
      l1 <- gets (get_lock n) ;;
      modify (set_lock n {| l_locked := l_locked l1; l_owner := cur;
                            l_count := u32 (l_count l1 + 1);
                            l_recursion_count := l_recursion_count l1 |}) ;;
      ret true
    else ret false
  end.

(** [bool spinlock_is_held(spinlock_t* lock)] *)
Definition spinlock_is_held (lock : option lock_name) : M bool :=
  match lock with
  | None => ret false
  | Some n => l <- gets (get_lock n) ;; ret (negb (l_locked l =? 0))
  end.

Definition task_list_lock_p : option lock_name := Some TaskListLock.
Definition scheduler_lock_p : option lock_name := Some SchedulerLock.

(** Updates of [scheduler_stats]. *)
Definition stats_set_total_tasks v s :=
  {| total_tasks := v; running_tasks := running_tasks s; ready_tasks := ready_tasks s;
     blocked_tasks := blocked_tasks s; context_switches := context_switches s;
     idle_time := idle_time s; total_cpu_time := total_cpu_time s |}.
Definition stats_set_running_tasks v s :=
  {| total_tasks := total_tasks s; running_tasks := v; ready_tasks := ready_tasks s;
     blocked_tasks := blocked_tasks s; context_switches := context_switches s;
     idle_time := idle_time s; total_cpu_time := total_cpu_time s |}.
Definition stats_set_ready_tasks v s :=
  {| total_tasks := total_tasks s; running_tasks := running_tasks s; ready_tasks := v;
     blocked_tasks := blocked_tasks s; context_switches := context_switches s;
     idle_time := idle_time s; total_cpu_time := total_cpu_time s |}.
Definition stats_set_blocked_tasks v s :=
  {| total_tasks := total_tasks s; running_tasks := running_tasks s;
     ready_tasks := ready_tasks s; blocked_tasks := v;
     context_switches := context_switches s;
     idle_time := idle_time s; total_cpu_time := total_cpu_time s |}.
Definition stats_set_context_switches v s :=
  {| total_tasks := total_tasks s; running_tasks := running_tasks s;
     ready_tasks := ready_tasks s; blocked_tasks := blocked_tasks s;
     context_switches := v;
     idle_time := idle_time s; total_cpu_time := total_cpu_time s |}.
Definition stats_set_total_cpu_time v s :=
  {| total_tasks := total_tasks s; running_tasks := running_tasks s;
     ready_tasks := ready_tasks s; blocked_tasks := blocked_tasks s;
     context_switches := context_switches s;
     idle_time := idle_time s; total_cpu_time := v |}.

Definition upd_stats (f : scheduler_stats_t -> scheduler_stats_t) : M unit :=
  modify (fun k => set_scheduler_stats (f (scheduler_stats k)) k).

(** [ready_queues[priority]] and [ready_queues[priority] = p]. *)
Definition queue_head (rq : list Z) (priority : Z) : Z :=
  default 0 (rq !! Z.to_nat priority).

Definition set_queue_head (priority : Z) (p : Z) : M unit :=
  modify (fun k => set_ready_queues (<[Z.to_nat priority := p]> (ready_queues k)) k).

Section Ops.

Variable P : platform.

(** [kmalloc] and [kfree] on the kernel heap. *)
Definition kmalloc (size : Z) : M Z :=
  fun k =>
    match MM.kmalloc (sizeof_heap_block_t P) (kheap k) size with
    | Some (p, h) => Ret p (set_kheap h k)
    | None => Fault
    end.

Definition kfree (ptr : Z) : M unit :=
  fun k =>
    match MM.kfree (sizeof_heap_block_t P) (kheap k) ptr with
    | Some h => Ret tt (set_kheap h k)
    | None => Fault
    end.

(** [kfree(task)]: the control block's life ends with its memory. *)
Definition kfree_task (task : Z) : M unit :=
  kfree task ;;
  modify (fun k => set_tasks (delete task (tasks k)) k).

(** [static void add_to_ready_queue(task_t* task)] *)
Definition add_to_ready_queue (task : Z) : M unit :=
  if task =? 0 then ret tt
  else
    t <- rd task ;;
    if PRIORITY_CRITICAL <? t_priority t then ret tt
    else
      spinlock_acquire scheduler_lock_p ;;
      t1 <- rd task ;;
      rq <- gets ready_queues ;;
      wrt task (set_next (queue_head rq (t_priority t1))) ;;
      t2 <- rd task ;;
      rq2 <- gets ready_queues ;;
      (if queue_head rq2 (t_priority t2) =? 0 then ret tt
       else wrt (queue_head rq2 (t_priority t2)) (set_prev task)) ;;
      t3 <- rd task ;;
      set_queue_head (t_priority t3) task ;;
      wrt task (set_prev 0) ;;
      spinlock_release scheduler_lock_p.

(** [static void remove_from_ready_queue(task_t* task)] *)
Definition remove_from_ready_queue (task : Z) : M unit :=
  if task =? 0 then ret tt
  else
    t <- rd task ;;
    if PRIORITY_CRITICAL <? t_priority t then ret tt
    else
      spinlock_acquire scheduler_lock_p ;;
      t1 <- rd task ;;
      (if negb (t_prev t1 =? 0) then wrt (t_prev t1) (set_next (t_next t1))
       else set_queue_head (t_priority t1) (t_next t1)) ;;
      t2 <- rd task ;;
      (if negb (t_next t2 =? 0) then wrt (t_next t2) (set_prev (t_prev t2))
       else ret tt) ;;
      wrt task (set_next 0) ;;
      wrt task (set_prev 0) ;;
      spinlock_release scheduler_lock_p.

(** The loop of [find_next_ready_task], for the priorities below [n]. *)
Fixpoint find_ready_below (rq : list Z) (n : nat) : Z :=
  match n with
  | O => 0
  | S p =>
    if negb (queue_head rq (Z.of_nat p) =? 0) then queue_head rq (Z.of_nat p)
    else find_ready_below rq p
  end.

(** [static task_t* find_next_ready_task(void)] *)
Definition find_next_ready_task : M Z :=
  rq <- gets ready_queues ;;
  ret (find_ready_below rq (S (Z.to_nat PRIORITY_CRITICAL))).

(** [static void schedule_next_task(void)].  [context_switch] moves
    registers only and leaves the scheduler's data as they are. *)
Definition schedule_next_task : M unit :=
  next_task <- find_next_ready_task ;;
  if next_task =? 0 then panic
  else
    cur <- gets current_task ;;
    same <- (if next_task =? cur then
               c <- rd cur ;; ret (bool_decide (t_state c = TASK_RUNNING))
             else ret false) ;;
    if (same : bool) then ret tt
    else
      let old_task := cur in
      (if old_task =? 0 then ret tt
       else
         o <- rd old_task ;;
         if bool_decide (t_state o = TASK_RUNNING)
         then wrt old_task (set_state TASK_READY) else ret tt) ;;
      modify (set_current_task next_task) ;;
      wrt next_task (set_state TASK_RUNNING) ;;
      now <- gets ticks ;;
      wrt next_task (set_last_run now) ;;
      c <- rd next_task ;;
      wrt next_task (set_context_switch_count (u64 (t_context_switch_count c + 1))) ;;
      upd_stats (fun s => stats_set_context_switches (u32 (context_switches s + 1)) s).

(** [void task_list_add(task_t* task)] *)
Definition task_list_add (task : Z) : M unit :=
  if task =? 0 then ret tt
  else
    spinlock_acquire task_list_lock_p ;;
    head <- gets task_list_head_ptr ;;
    wrt task (set_next head) ;;
    wrt task (set_prev 0) ;;
    head1 <- gets task_list_head_ptr ;;
    (if negb (head1 =? 0) then wrt head1 (set_prev task) else ret tt) ;;
    modify (set_task_list_head_ptr task) ;;
    spinlock_release task_list_lock_p.

(** [void task_list_remove(task_t* task)] *)
Definition task_list_remove (task : Z) : M unit :=
  if task =? 0 then ret tt
  else
    spinlock_acquire task_list_lock_p ;;
    t1 <- rd task ;;
    (if negb (t_prev t1 =? 0) then wrt (t_prev t1) (set_next (t_next t1))
     else modify (set_task_list_head_ptr (t_next t1))) ;;
    t2 <- rd task ;;
    (if negb (t_next t2 =? 0) then wrt (t_next t2) (set_prev (t_prev t2))
     else ret tt) ;;
    wrt task (set_next 0) ;;
    wrt task (set_prev 0) ;;
    spinlock_release task_list_lock_p.

(** [void scheduler_add_task(task_t* task)] *)
Definition scheduler_add_task (task : Z) : M unit :=
  if task =? 0 then ret tt else add_to_ready_queue task.

(** [void scheduler_remove_task(task_t* task)] *)
Definition scheduler_remove_task (task : Z) : M unit :=
  if task =? 0 then ret tt else remove_from_ready_queue task.

(** [static int init_task_cpu_state(task_t* task, entry_point)] *)
Definition init_task_cpu_state (task : Z) (entry_point : Z) : M Z :=
  t <- rd task ;;
  let sp := u64 (u64 (t_stack_base t + t_stack_size t) - 16) in
  let user := negb (Z.land (t_flags t) TASK_FLAG_USER =? 0) in
  parent_pd <- (if t_parent t =? 0 then ret 0
                else p <- rd (t_parent t) ;; ret (t_page_directory p)) ;;
  let pd := if negb (parent_pd =? 0) then parent_pd else kernel_page_directory P in
  wrt task (set_cpu_state
    {| rsp := sp; rbp := sp; rip := entry_point; rflags := 0x200;
       cs := if user then 0x1B else 0x08;
       ds := if user then 0x23 else 0x10;
       es := if user then 0x23 else 0x10;
       fs := if user then 0x23 else 0x10;
       gs := if user then 0x23 else 0x10;
       ss := if user then 0x23 else 0x10;
       cr3 := pd |}) ;;
  wrt task (set_page_directory pd) ;;
  ret 0.

(** [int task_alloc_stack(task_t* task, size_t size)] *)
Definition task_alloc_stack (task : Z) (size : Z) : M Z :=
  if (task =? 0) || (size =? 0) then ret (-1)
  else
    p <- kmalloc size ;;
    wrt task (set_stack_base p) ;;
    if p =? 0 then ret (-1)
    else wrt task (set_stack_size size) ;; ret 0.

(** [void task_free_stack(task_t* task)] *)
Definition task_free_stack (task : Z) : M unit :=
  if task =? 0 then ret tt
  else
    t <- rd task ;;
    if t_stack_base t =? 0 then ret tt
    else
      kfree (t_stack_base t) ;;
      wrt task (set_stack_base 0) ;;
      wrt task (set_stack_size 0).

(** [int task_setup_memory(task_t* task)] *)
Definition task_setup_memory (task : Z) : M Z :=
  if task =? 0 then ret (-1)
  else wrt task (set_page_directory (kernel_page_directory P)) ;; ret 0.

(** [strncpy(task->name, name, TASK_NAME_MAX - 1)] and the terminator. *)
Definition copy_name (name : string) : string :=
  String.substring 0 (Z.to_nat (TASK_NAME_MAX - 1)) name.

(** The part of [task_create] between the allocation of the control
    block and the allocation of the stack: the [memset], the id, and the
    fields set from the arguments. *)
Definition init_tcb (task : Z) (nm : string) (priority flags : Z) : M unit :=
  modify (fun k => set_tasks (<[task := zero_task]> (tasks k)) k) ;;
  spinlock_acquire task_list_lock_p ;;
  id <- gets next_task_id ;;
  modify (set_next_task_id (u32 (id + 1))) ;;
  wrt task (set_id id) ;;
  spinlock_release task_list_lock_p ;;
  wrt task (set_name (copy_name nm)) ;;
  wrt task (set_state TASK_READY) ;;
  wrt task (set_priority priority) ;;
  wrt task (set_flags flags) ;;
  cur <- gets current_task ;;
  wrt task (set_parent cur) ;;
  q <- gets scheduler_quantum ;;
  wrt task (set_time_slice q) ;;
  q1 <- gets scheduler_quantum ;;
  wrt task (set_time_slice_remaining q1) ;;
  now <- gets ticks ;;
  wrt task (set_creation_time now) ;;
  wrt task (set_exit_code 0).

(** The end of [task_create]: the task is linked into the task list and
    its ready queue, counted, and its id returned. *)
Definition publish_task (task : Z) : M Z :=
  task_list_add task ;;
  scheduler_add_task task ;;
  spinlock_acquire scheduler_lock_p ;;
  upd_stats (fun s => stats_set_total_tasks (u32 (total_tasks s + 1)) s) ;;
  upd_stats (fun s => stats_set_ready_tasks (u32 (ready_tasks s + 1)) s) ;;
  spinlock_release scheduler_lock_p ;;
  t <- rd task ;;
  ret (t_id t).

(** [task_id_t task_create(const char* name, entry_point,
    task_priority_t priority, uint32_t flags)]; [name] is [None] for a
    null pointer, [entry_point] is [0] for a null function pointer. *)
Definition task_create (name : option string) (entry_point : Z)
    (priority : Z) (flags : Z) : M Z :=
  match name with
  | None => ret 0
  | Some nm =>
    if entry_point =? 0 then ret 0
    else
      task <- kmalloc (sizeof_task_t P) ;;
      if task =? 0 then ret 0
      else
        init_tcb task nm priority flags ;;
        r1 <- task_alloc_stack task TASK_STACK_SIZE ;;
        if negb (r1 =? 0) then kfree_task task ;; ret 0
        else
          r2 <- init_task_cpu_state task entry_point ;;
          if negb (r2 =? 0) then task_free_stack task ;; kfree_task task ;; ret 0
          else
            r3 <- task_setup_memory task ;;
            if negb (r3 =? 0) then task_free_stack task ;; kfree_task task ;; ret 0
            else publish_task task
  end.

(** [int task_init(void)]; [fpu_init] leaves the scheduler's data as
    they are. *)
Definition task_init : M Z :=
  spinlock_init task_list_lock_p ;;
  spinlock_init scheduler_lock_p ;;
  modify (set_scheduler_stats zero_stats) ;;
  let idle := idle_task_tcb P in
  modify (fun k => set_tasks (<[idle := zero_task]> (tasks k)) k) ;;
  wrt idle (set_id 0) ;;
  wrt idle (set_name "idle") ;;
  wrt idle (set_state TASK_READY) ;;
  wrt idle (set_priority PRIORITY_IDLE) ;;
  wrt idle (set_flags (Z.lor TASK_FLAG_KERNEL TASK_FLAG_SYSTEM)) ;;
  wrt idle (set_stack_base (idle_task_stack P)) ;;
  wrt idle (set_stack_size TASK_STACK_SIZE) ;;
  q <- gets scheduler_quantum ;;
  wrt idle (set_time_slice q) ;;
  q1 <- gets scheduler_quantum ;;
  wrt idle (set_time_slice_remaining q1) ;;
  now <- gets ticks ;;
  wrt idle (set_creation_time now) ;;
  r <- init_task_cpu_state idle (idle_task P) ;;
  if negb (r =? 0) then ret (-1)
  else
    task_list_add idle ;;
    add_to_ready_queue idle ;;
    modify (set_current_task idle) ;;
    ret 0.

(** The loop of [task_get_by_id], from [task] on. *)
Fixpoint task_list_find (fuel : nat) (task : Z) (task_id : Z) : M Z :=
  match fuel with
  | O => hang
  | S fuel' =>
    if task =? 0 then ret 0
    else
      t <- rd task ;;
      if t_id t =? task_id then ret task
      else task_list_find fuel' (t_next t) task_id
  end.

(** [task_t* task_get_by_id(task_id_t task_id)] *)
Definition task_get_by_id (task_id : Z) : M Z :=
  spinlock_acquire task_list_lock_p ;;
  head <- gets task_list_head_ptr ;;
  n <- gets (fun k => size (tasks k)) ;;
  task <- task_list_find (S n) head task_id ;;
  spinlock_release task_list_lock_p ;;
  ret task.

(** [void task_yield(void)] *)
Definition task_yield : M unit :=
  cur <- gets current_task ;;
  if cur =? 0 then ret tt
  else
    c <- rd cur ;;
    wrt cur (set_time_slice_remaining (t_time_slice c)) ;;
    schedule_next_task.

(** [int task_suspend(task_id_t task_id)] *)
Definition task_suspend (task_id : Z) : M Z :=
  task <- task_get_by_id task_id ;;
  if task =? 0 then ret (-1)
  else
    t <- rd task ;;
    if t_id t =? 0 then ret (-1)
    else
      spinlock_acquire scheduler_lock_p ;;
      t1 <- rd task ;;
      (if bool_decide (t_state t1 = TASK_RUNNING) || bool_decide (t_state t1 = TASK_READY)
       then
         wrt task (set_state TASK_SUSPENDED) ;;
         remove_from_ready_queue task ;;
         upd_stats (fun s => stats_set_ready_tasks (u32 (ready_tasks s - 1)) s)
       else ret tt) ;;
      spinlock_release scheduler_lock_p ;;
      cur <- gets current_task ;;
      (if task =? cur then task_yield else ret tt) ;;
      ret 0.

(** [int task_resume(task_id_t task_id)] *)
Definition task_resume (task_id : Z) : M Z :=
  task <- task_get_by_id task_id ;;
  if task =? 0 then ret (-1)
  else
    t <- rd task ;;
    if negb (bool_decide (t_state t = TASK_SUSPENDED)) then ret (-1)
    else
      spinlock_acquire scheduler_lock_p ;;
      wrt task (set_state TASK_READY) ;;
      add_to_ready_queue task ;;
      upd_stats (fun s => stats_set_ready_tasks (u32 (ready_tasks s + 1)) s) ;;
      spinlock_release scheduler_lock_p ;;
      ret 0.

(** Whether [current_task] is null or the idle task, the guard of
    [task_exit] and [task_sleep]. *)
Definition no_task_or_idle : M bool :=
  cur <- gets current_task ;;
  if cur =? 0 then ret true
  else c <- rd cur ;; ret (t_id c =? 0).

(** [void task_exit(int exit_code)] *)
Definition task_exit (exit_code : Z) : M unit :=
  g <- no_task_or_idle ;;
  if (g : bool) then ret tt
  else
    cur <- gets current_task ;;
    wrt cur (set_exit_code exit_code) ;;
    wrt cur (set_state TASK_TERMINATED) ;;
    spinlock_acquire scheduler_lock_p ;;
    cur1 <- gets current_task ;;
    remove_from_ready_queue cur1 ;;
    upd_stats (fun s => stats_set_ready_tasks (u32 (ready_tasks s - 1)) s) ;;
    upd_stats (fun s => stats_set_running_tasks (u32 (running_tasks s - 1)) s) ;;
    spinlock_release scheduler_lock_p ;;
    schedule_next_task.

(** [void task_sleep(uint32_t milliseconds)]; [timer_get_frequency] is
    taken to return a [uint32_t]. *)
Definition task_sleep (milliseconds : Z) : M unit :=
  g <- no_task_or_idle ;;
  if (g : bool) then ret tt
  else
    cur <- gets current_task ;;
    now <- gets ticks ;;
    wrt cur (set_sleep_until
               (u64 (now + u32 (milliseconds * timer_frequency P) / 1000))) ;;
    wrt cur (set_state TASK_BLOCKED) ;;
    spinlock_acquire scheduler_lock_p ;;
    cur1 <- gets current_task ;;
    remove_from_ready_queue cur1 ;;
    upd_stats (fun s => stats_set_ready_tasks (u32 (ready_tasks s - 1)) s) ;;
    upd_stats (fun s => stats_set_blocked_tasks (u32 (blocked_tasks s + 1)) s) ;;
    spinlock_release scheduler_lock_p ;;
    schedule_next_task.

(** The wake-up loop of [scheduler_tick] over the global task list. *)
Fixpoint wake_sleepers (fuel : nat) (task : Z) (current_ticks : Z) : M unit :=
  match fuel with
  | O => hang
  | S fuel' =>
    if task =? 0 then ret tt
    else
      t <- rd task ;;
      (if bool_decide (t_state t = TASK_BLOCKED) && (0 <? t_sleep_until t) then
         if t_sleep_until t <=? current_ticks then
           wrt task (set_sleep_until 0) ;;
           wrt task (set_state TASK_READY) ;;
           add_to_ready_queue task ;;
           spinlock_acquire scheduler_lock_p ;;
           upd_stats (fun s => stats_set_blocked_tasks (u32 (blocked_tasks s - 1)) s) ;;
           upd_stats (fun s => stats_set_ready_tasks (u32 (ready_tasks s + 1)) s) ;;
           spinlock_release scheduler_lock_p
         else ret tt
       else ret tt) ;;
      t1 <- rd task ;;
      wake_sleepers fuel' (t_next t1) current_ticks
  end.

(** The condition of the [if] that ends [scheduler_tick]: whether the
    tick preempts the current task. *)
Definition tick_preempts : M bool :=
  cur <- gets current_task ;;
  c <- rd cur ;;
  rq <- gets ready_queues ;;
  ret ((t_time_slice_remaining c =? 0)
       || (negb (queue_head rq PRIORITY_CRITICAL =? 0)
           && (t_priority c <? PRIORITY_CRITICAL))
       || (negb (queue_head rq PRIORITY_HIGH =? 0)
           && (t_priority c <? PRIORITY_HIGH))).

(** The part of [scheduler_tick] before that [if]: accounting, the
    wake-up loop and the decrement of the time slice. *)
Definition tick_account : M unit :=
  cur <- gets current_task ;;
  c <- rd cur ;;
  wrt cur (set_cpu_time (u64 (t_cpu_time c + 1))) ;;
  upd_stats (fun s => stats_set_total_cpu_time (u64 (total_cpu_time s + 1)) s) ;;
  current_ticks <- gets ticks ;;
  spinlock_acquire task_list_lock_p ;;
  head <- gets task_list_head_ptr ;;
  n <- gets (fun k => size (tasks k)) ;;
  wake_sleepers (S n * S n) head current_ticks ;;
  spinlock_release task_list_lock_p ;;
  cur1 <- gets current_task ;;
  c1 <- rd cur1 ;;
  (if 0 <? t_time_slice_remaining c1
   then wrt cur1 (set_time_slice_remaining (u32 (t_time_slice_remaining c1 - 1)))
   else ret tt).

(** [void scheduler_tick(void)] *)
Definition scheduler_tick : M unit :=
  cur <- gets current_task ;;
  if cur =? 0 then ret tt
  else
    tick_account ;;
    p <- tick_preempts ;;
    if (p : bool) then
      cur1 <- gets current_task ;;
      c <- rd cur1 ;;
      wrt cur1 (set_time_slice_remaining (t_time_slice c)) ;;
      schedule_next_task
    else ret tt.

(** [int task_set_priority(task_id_t task_id, task_priority_t priority)] *)
Definition task_set_priority (task_id : Z) (priority : Z) : M Z :=
  task <- task_get_by_id task_id ;;
  if (task =? 0) || (PRIORITY_CRITICAL <? priority) then ret (-1)
  else
    t <- rd task ;;
    (if bool_decide (t_state t = TASK_READY) then remove_from_ready_queue task
     else ret tt) ;;
    wrt task (set_priority priority) ;;
    t1 <- rd task ;;
    (if bool_decide (t_state t1 = TASK_READY) then add_to_ready_queue task
     else ret tt) ;;
    ret 0.

(** [timer_callback] of [timer.c]: [ticks++]. *)
Definition timer_callback : M unit :=
  modify (fun k => set_ticks (u64 (ticks k + 1)) k).

End Ops.

(** *** Boot and the states the kernel reaches *)

(** [KERNEL_HEAP_START] and [KERNEL_HEAP_SIZE] of [kernel.h]. *)
Definition KERNEL_HEAP_START : Z := 0x200000.
Definition KERNEL_HEAP_SIZE : Z := 0x100000.

Definition zero_lock : spinlock_t :=
  {| l_locked := 0; l_owner := 0; l_count := 0; l_recursion_count := 0 |}.

(** The statics of [task.c] as the loader leaves them, over the heap
    that [mm_init(KERNEL_HEAP_START, KERNEL_HEAP_SIZE)] has set up in
    memory [m]; no control block is alive yet. *)
Definition boot_kernel (P : platform) (m : Z -> Z) : kernel :=
  {| kheap := mm_init (sizeof_heap_block_t P) (boot_heap m)
                KERNEL_HEAP_START KERNEL_HEAP_SIZE;
     tasks := ∅;
     task_list_head_ptr := 0;
     current_task := 0;
     next_task_id := 1;
     scheduler_stats := zero_stats;
     task_list_lock := zero_lock;
     scheduler_lock := zero_lock;
     scheduler_quantum := 50;
     ready_queues := [0; 0; 0; 0; 0];
     ticks := 0 |}.

(** The task operations, as calls with their arguments. *)
Inductive op :=
| Create (name : option string) (entry_point priority flags : Z)
| Suspend (task_id : Z)
| Resume (task_id : Z)
| Sleep (milliseconds : Z)
| Exit (exit_code : Z)
| Yield
| SchedulerTick
| ScheduleNext
| TimerCallback
| SetPriority (task_id priority : Z).

Definition run_op (P : platform) (o : op) : M unit :=
  match o with
  | Create name entry_point priority flags =>
    task_create P name entry_point priority flags ;; ret tt
  | Suspend task_id => task_suspend task_id ;; ret tt
  | Resume task_id => task_resume task_id ;; ret tt
  | Sleep milliseconds => task_sleep P milliseconds
  | Exit exit_code => task_exit exit_code
  | Yield => task_yield
  | SchedulerTick => scheduler_tick
  | ScheduleNext => schedule_next_task
  | TimerCallback => timer_callback
  | SetPriority task_id priority => task_set_priority task_id priority ;; ret tt
  end.

(** A call is well typed when its [task_priority_t] argument is one of
    the five enumerators. *)
Definition well_typed (o : op) : Prop :=
  match o with
  | Create _ _ priority _ => PRIORITY_IDLE <= priority <= PRIORITY_CRITICAL
  | SetPriority _ priority => PRIORITY_IDLE <= priority <= PRIORITY_CRITICAL
  | _ => True
  end.

(** The operations of the task life cycle and of the scheduler:
    everything but [task_set_priority]. *)
Definition lifecycle (o : op) : Prop :=
  match o with
  | SetPriority _ _ => False
  | _ => True
  end.

(** States reached from boot by operations that return. *)
Inductive reachable_by (P : platform) (allowed : op -> Prop) : kernel -> Prop :=
| reach_boot m k :
    task_init P (boot_kernel P m) = Ret 0 k -> reachable_by P allowed k
| reach_step k o k' :
    reachable_by P allowed k -> allowed o -> well_typed o ->
    run_op P o k = Ret tt k' -> reachable_by P allowed k'.

(** Running a list of operations from a state. *)
Fixpoint exec (P : platform) (ops : list op) (k : kernel) : option kernel :=
  match ops with
  | [] => Some k
  | o :: ops' =>
    match run_op P o k with
    | Ret _ k' => exec P ops' k'
    | _ => None
    end
  end.

(** The state after boot and the operations [ops]; the boot state itself
    where one of them does not return. *)
Definition booted (P : platform) : kernel :=
  match task_init P (boot_kernel P (fun _ => 0)) with
  | Ret _ k => k
  | _ => boot_kernel P (fun _ => 0)
  end.

Definition after (P : platform) (ops : list op) : kernel :=
  match exec P ops (booted P) with
  | Some k => k
  | None => booted P
  end.

(** What the platform must provide: a header of positive size that fits
    the heap, and an idle control block outside the heap. *)
Definition platform_ok (P : platform) : Prop :=
  0 < sizeof_heap_block_t P /\ sizeof_heap_block_t P <= KERNEL_HEAP_SIZE /\
  idle_task_tcb P <> 0 /\
  (idle_task_tcb P < KERNEL_HEAP_START \/
   KERNEL_HEAP_START + KERNEL_HEAP_SIZE < idle_task_tcb P).

(** The LP64 instance used in examples: [sizeof(heap_block_t) = 32],
    [sizeof(task_t) = 1200], statics in the kernel image below the heap. *)
Definition lp64 : platform :=
  {| sizeof_heap_block_t := 32; sizeof_task_t := 1200;
     idle_task_tcb := 0x110000; idle_task_stack := 0x112000;
     idle_task := 0x101000; kernel_page_directory := 0x1000;
     timer_frequency := 1000 |}.

(** *** Ready-queue membership *)

(** The control blocks met from [p] along [t_next]. *)
Fixpoint walk_queue (fuel : nat) (m : gmap Z task_t) (p : Z) : list Z :=
  match fuel with
  | O => []
  | S fuel' =>
    if p =? 0 then []
    else
      match m !! p with
      | Some t => p :: walk_queue fuel' m (t_next t)
      | None => [p]
      end
  end.

(** The tasks linked into [ready_queues[priority]]. *)
Definition queue_tasks (k : kernel) (priority : Z) : list Z :=
  walk_queue (S (size (tasks k))) (tasks k) (queue_head (ready_queues k) priority).

Definition linked (k : kernel) (priority : Z) (task : Z) : Prop :=
  In task (queue_tasks k priority).

(** [task] is linked into exactly one of the five ready queues. *)
Definition linked_into_one (k : kernel) (task : Z) : Prop :=
  exists q, PRIORITY_IDLE <= q <= PRIORITY_CRITICAL /\ linked k q task /\
    forall q', PRIORITY_IDLE <= q' <= PRIORITY_CRITICAL -> linked k q' task -> q' = q.

(** *** The scheduler's invariant

    What the ready queues depend on in a control block. *)
Record atask := {
  a_next : Z;
  a_priority : Z;
  a_ok : bool;
  a_id : Z
}.

Definition schedulable (s : task_state_t) : bool :=
  match s with
  | TASK_READY | TASK_RUNNING => true
  | _ => false
  end.

Definition abs_task (t : task_t) : atask :=
  {| a_next := t_next t; a_priority := t_priority t;
     a_ok := schedulable (t_state t); a_id := t_id t |}.

(** [qchain m h l]: from head pointer [h], the [a_next] links of [m]
    run through exactly the tasks [l], then null. *)
Fixpoint qchain (m : gmap Z atask) (h : Z) (l : list Z) : Prop :=
  match l with
  | [] => h = 0
  | x :: l' => h = x /\ x <> 0 /\ exists t, m !! x = Some t /\ qchain m (a_next t) l'
  end.

(** [heap_ok P h S]: [h] is the kernel heap, well formed, and every
    address in [S] but that of the idle control block is one of its live
    pointers. *)
Definition heap_ok (P : platform) (h : heap) (S : Z -> Prop) : Prop :=
  exists bs,
    heap_repr (sizeof_heap_block_t P) h bs /\
    heap_start h = KERNEL_HEAP_START /\
    heap_end h = KERNEL_HEAP_START + KERNEL_HEAP_SIZE /\
    forall x, S x ->
      x = idle_task_tcb P \/ exists sz, live (sizeof_heap_block_t P) h bs x sz.

(** [core P pend m rq cur h Q]: the five ready queues [rq] hold the
    tasks [Q], queue by queue; each task of queue [i] has priority [i]
    and is READY or RUNNING; every control block is in one queue, once,
    or is the one under construction ([pend]); [cur] is a control block;
    every control block but the idle one is a live pointer of the
    kernel heap [h]. *)
Record core (P : platform) (pend : list Z) (m : gmap Z atask) (rq : list Z)
    (cur : Z) (h : heap) (Q : list (list Z)) : Prop := {
  core_len_rq : length rq = 5%nat;
  core_len_Q : length Q = 5%nat;
  core_chain : forall i l, Q !! i = Some l -> qchain m (queue_head rq (Z.of_nat i)) l;
  core_member : forall i l x, Q !! i = Some l -> In x l ->
    exists t, m !! x = Some t /\ a_priority t = Z.of_nat i /\ a_ok t = true;
  core_all : forall x, is_Some (m !! x) -> In x (concat Q) \/ In x pend;
  core_nodup : NoDup (concat Q ++ pend);
  core_pend : forall x, In x pend -> is_Some (m !! x) /\ x <> 0;
  core_cur : In cur (concat Q);
  core_heap : heap_ok P h (fun x => is_Some (m !! x))
}.

(** The invariant between operations: [core] with nothing under
    construction, and both locks free. *)
Definition Inv (P : platform) (k : kernel) : Prop :=
  (exists Q, core P [] (abs_task <$> tasks k) (ready_queues k) (current_task k)
               (kheap k) Q) /\
  l_locked (task_list_lock k) = 0 /\ l_locked (scheduler_lock k) = 0.

(** *** Scenarios on the LP64 instance

    The first control block allocated from the kernel heap is at
    [0x200020], the second at [0x202510]. *)

(** A task of normal priority is created and scheduled. *)
Definition normal_runs : kernel :=
  after lp64 [Create (Some "a") 0x5000 PRIORITY_NORMAL TASK_FLAG_KERNEL; Yield].

(** A task of low priority runs; a task of normal priority is created
    and is READY. *)
Definition low_runs_normal_ready : kernel :=
  after lp64 [Create (Some "low") 0x5000 PRIORITY_LOW TASK_FLAG_KERNEL;
              Yield;
              Create (Some "normal") 0x6000 PRIORITY_NORMAL TASK_FLAG_KERNEL].

(** A task of normal priority runs and lowers its own priority to idle;
    then a task of low priority is created and is READY. *)
Definition lowered_while_running : kernel :=
  after lp64 [Create (Some "a") 0x5000 PRIORITY_NORMAL TASK_FLAG_KERNEL;
              Yield;
              SetPriority 1 PRIORITY_IDLE;
              Create (Some "b") 0x6000 PRIORITY_LOW TASK_FLAG_KERNEL].

(** 110 tasks have been created: the heap has room for one more control
    block, and none for its stack. *)
Definition heap_exhausted : kernel :=
  after lp64 (replicate 110 (Create (Some "t") 0x5000 PRIORITY_NORMAL TASK_FLAG_KERNEL)).

(** State, priority and remaining time slice of the control block at
    [p], when there is one. *)
Definition state_of (k : kernel) (p : Z) : option task_state_t :=
  t_state <$> tasks k !! p.
Definition priority_of (k : kernel) (p : Z) : option Z :=
  t_priority <$> tasks k !! p.
Definition slice_of (k : kernel) (p : Z) : option Z :=
  t_time_slice_remaining <$> tasks k !! p.

(** The pointer an operation returns and the state it leaves. *)
Definition result {A} (o : outcome A) : option A :=
  match o with Ret a _ => Some a | _ => None end.
Definition state_after {A} (o : outcome A) (k : kernel) : kernel :=
  match o with Ret _ k' => k' | _ => k end.

(** *** Reasoning about operations

    [wp m post k]: when [m] returns from state [k], [post] holds of the
    value and the state it returns.  [wpt m post k]: [m] returns from
    [k], and [post] holds. *)
Definition wp {A} (m : M A) (post : A -> kernel -> Prop) (k : kernel) : Prop :=
  match m k with
  | Ret a k' => post a k'
  | _ => True
  end.

Definition wpt {A} (m : M A) (post : A -> kernel -> Prop) (k : kernel) : Prop :=
  match m k with
  | Ret a k' => post a k'
  | _ => False
  end.

(** Both at once: [wpg true] is [wpt], [wpg false] is [wp]. *)
Definition wpg {A} (total : bool) (m : M A) (post : A -> kernel -> Prop)
    (k : kernel) : Prop :=
  match m k with
  | Ret a k' => post a k'
  | _ => if total then False else True
  end.

(** The value of [task_get_current_id()], when the current control block
    is there. *)
Definition cid (k : kernel) : option Z :=
  if current_task k =? 0 then Some 0
  else t_id <$> tasks k !! current_task k.

(** A lock is free, or held by the current task. *)
Definition lock_is (held : bool) (l : spinlock_t) (k : kernel) : Prop :=
  if held then l_locked l <> 0 /\ cid k = Some (l_owner l)
  else l_locked l = 0.

(** The state inside an operation: [core], with the control blocks
    [pend] under construction, and each lock free or held by the current
    task as [tl] and [sc] say. *)
Record st (P : platform) (pend : list Z) (tl sc : bool) (k : kernel)
    (Q : list (list Z)) : Prop := {
  st_core : core P pend (abs_task <$> tasks k) (ready_queues k) (current_task k)
              (kheap k) Q;
  st_tl : lock_is tl (task_list_lock k) k;
  st_sc : lock_is sc (scheduler_lock k) k
}.

(** The state inside [task_init], before there is a current task: the
    idle control block [T] is the only one, the heap is as [mm_init]
    left it, the task list starts at [hd] and the ready queues are [rq]. *)
Record booting (P : platform) (m : Z -> Z) (T : task_t) (hd : Z) (rq : list Z)
    (tl sc : bool) (k : kernel) : Prop := {
  bt_tasks : tasks k = {[idle_task_tcb P := T]};
  bt_heap : kheap k = mm_init (sizeof_heap_block_t P) (boot_heap m)
                        KERNEL_HEAP_START KERNEL_HEAP_SIZE;
  bt_cur : current_task k = 0;
  bt_head : task_list_head_ptr k = hd;
  bt_rq : ready_queues k = rq;
  bt_tl : lock_is tl (task_list_lock k) k;
  bt_sc : lock_is sc (scheduler_lock k) k
}.

(** [unlinked_from p k k']: from [k] to [k'] nothing was linked: the
    heads of the task list and of the ready queues, the current task and
    every control block but the one at [p] are the same. *)
Definition unlinked_from (p : Z) (k k' : kernel) : Prop :=
  task_list_head_ptr k' = task_list_head_ptr k /\
  ready_queues k' = ready_queues k /\
  current_task k' = current_task k /\
  delete p (tasks k') = delete p (tasks k).

(** The allocations of [task_create] in state [k]: [kmalloc] returns
    null for the control block, or for the stack after it. *)
Definition allocation_fails (P : platform) (k : kernel) : bool :=
  match MM.kmalloc (sizeof_heap_block_t P) (kheap k) (sizeof_task_t P) with
  | Some (task, h) =>
    (task =? 0) ||
    match MM.kmalloc (sizeof_heap_block_t P) h TASK_STACK_SIZE with
    | Some (stack, _) => stack =? 0
    | None => false
    end
  | None => false
  end.

(** The control block at [p] is READY with priority [priority]. *)
Definition ready_with (k : kernel) (p priority : Z) : Prop :=
  exists t, tasks k !! p = Some t /\ t_state t = TASK_READY /\
            t_priority t = priority.

(** *** The remaining entry points of [task.c] and [timer.c] *)

(** [task_t* task_get_current(void)] *)
Definition task_get_current : M Z := gets current_task.

(** [task_t* task_list_head(void)] *)
Definition task_list_head : M Z := gets task_list_head_ptr.

(** [task_priority_t task_get_priority(task_id_t task_id)] *)
Definition task_get_priority (task_id : Z) : M Z :=
  task <- task_get_by_id task_id ;;
  if task =? 0 then ret PRIORITY_IDLE else t <- rd task ;; ret (t_priority t).

(** [task_state_t task_get_state(task_id_t task_id)] *)
Definition task_get_state (task_id : Z) : M task_state_t :=
  task <- task_get_by_id task_id ;;
  if task =? 0 then ret TASK_TERMINATED else t <- rd task ;; ret (t_state t).

(** [int scheduler_set_quantum(uint32_t quantum_ms)] *)
Definition scheduler_set_quantum (quantum_ms : Z) : M Z :=
  if (quantum_ms =? 0) || (1000 <? quantum_ms) then ret (-1)
  else modify (set_scheduler_quantum quantum_ms) ;; ret 0.

(** [int kernel_task_create(const char* name, entry_point)] *)
Definition kernel_task_create (P : platform) (name : option string)
    (entry_point : Z) : M Z :=
  id <- task_create P name entry_point PRIORITY_NORMAL
          (Z.lor TASK_FLAG_KERNEL TASK_FLAG_SYSTEM) ;;
  ret (if negb (id =? 0) then 0 else -1).

(** [void task_get_scheduler_stats(scheduler_stats_t* stats)]: the
    object behind [stats] before the call and after it, [None] for a
    null pointer. *)
Definition task_get_scheduler_stats (stats : option scheduler_stats_t)
    : M (option scheduler_stats_t) :=
  match stats with
  | None => ret None
  | Some _ =>
    spinlock_acquire scheduler_lock_p ;;
    s <- gets scheduler_stats ;;
    spinlock_release scheduler_lock_p ;;
    ret (Some s)
  end.

(** [uint64_t timer_get_ticks()] of [timer.c] *)
Definition timer_get_ticks : M Z := gets ticks.

(** *** The task list and the outcome of a call

    The control blocks that [task_get_by_id] and the loop of
    [scheduler_tick] meet from [task_list_head_ptr] along [next]. *)
Definition task_list (k : kernel) : list Z :=
  walk_queue (S (size (tasks k))) (tasks k) (task_list_head_ptr k).

(** The first control block of [l] whose id is [task_id]; null when
    there is none. *)
Fixpoint first_with_id (m : gmap Z task_t) (l : list Z) (task_id : Z) : Z :=
  match l with
  | [] => 0
  | p :: l' =>
    match m !! p with
    | Some t => if t_id t =? task_id then p else first_with_id m l' task_id
    | None => 0
    end
  end.

(** A lock that has been taken once more and given back. *)
Definition bump (l : spinlock_t) : spinlock_t :=
  {| l_locked := 0; l_owner := 0; l_count := u32 (l_count l + 1);
     l_recursion_count := l_recursion_count l |}.

(** A lock as [spinlock_acquire] by the task with id [c] leaves it. *)
Definition taken (c : Z) (l : spinlock_t) : spinlock_t :=
  {| l_locked := 1; l_owner := c; l_count := u32 (l_count l + 1);
     l_recursion_count := l_recursion_count l |}.


End Task.

(** ** What the scheduler's operations leave behind *)

Module TaskSpec.

Import MM Task.

(** A control block without the fields that a switch writes. *)
Definition sched_view (t : task_t) : task_t :=
  set_state TASK_RUNNING (set_last_run 0 (set_context_switch_count 0 t)).

(** The kernel without what a switch writes: the control blocks, the
    current task and the count of context switches. *)
Definition sched_frame (k : kernel) : kernel :=
  set_tasks ∅
    (set_current_task 0
       (set_scheduler_stats
          (stats_set_context_switches 0 (scheduler_stats k)) k)).

(** The state of a task that stops running. *)
Definition demote (s : task_state_t) : task_state_t :=
  match s with TASK_RUNNING => TASK_READY | _ => s end.

(** [switched k k']: from [k] to [k'] the scheduler has selected the
    head of the highest non-empty ready queue and made it the current
    task: it is RUNNING, the task that was current is READY if it was
    RUNNING, and nothing else has changed but the time of the last run
    and the switch count of the selected task, and the count of context
    switches. *)
Record switched (k k' : kernel) : Prop := {
  sw_current :
    current_task k' = find_ready_below (ready_queues k) 5;
  sw_states : forall x,
    state_of k' x =
    if decide (x = current_task k') then (fun _ => TASK_RUNNING) <$> state_of k x
    else if decide (x = current_task k) then demote <$> state_of k x
    else state_of k x;
  sw_view : forall x, sched_view <$> tasks k' !! x = sched_view <$> tasks k !! x;
  sw_others : forall x, x <> current_task k' ->
    tasks k' !! x =
    if decide (x = current_task k)
    then (fun t => set_state (demote (t_state t)) t) <$> tasks k !! x
    else tasks k !! x;
  sw_frame : sched_frame k' = sched_frame k
}.

(** The state between operations, beyond [st]: the head of the task
    list is the head of a ready queue, every control block but the
    current one is READY, and the statistics count the tasks created:
    none of them as running or blocked, all of them as ready. *)
Record sched_inv (P : platform) (k : kernel) (Q : list (list Z)) : Prop := {
  si_st : st P [] false false k Q;
  si_head : In (task_list_head_ptr k) (concat Q);
  si_front : exists q, PRIORITY_IDLE <= q <= PRIORITY_CRITICAL /\
    queue_head (ready_queues k) q = task_list_head_ptr k;
  si_ready : forall x t,
    tasks k !! x = Some t -> x <> current_task k -> t_state t = TASK_READY;
  si_total : total_tasks (scheduler_stats k) = u32 (Z.of_nat (size (tasks k)) - 1);
  si_ready_tasks : ready_tasks (scheduler_stats k) = total_tasks (scheduler_stats k);
  si_running : running_tasks (scheduler_stats k) = 0;
  si_blocked : blocked_tasks (scheduler_stats k) = 0
}.

(** The state that [task_get_by_id] leaves: [task_list_lock] has been
    taken and given back. *)
Definition looked_up (k : kernel) : kernel :=
  set_task_list_lock (bump (task_list_lock k)) k.

(** The control block that [task_get_by_id] finds for [task_id]. *)
Definition found (k : kernel) (task_id : Z) : Z :=
  first_with_id (tasks k) (task_list k) task_id.

(** The current control block after the accounting of one tick: one
    more tick of CPU time, one less of the time slice unless it is
    spent. *)
Definition account (c : task_t) : task_t :=
  let c1 := set_cpu_time (u64 (t_cpu_time c + 1)) c in
  if 0 <? t_time_slice_remaining c1
  then set_time_slice_remaining (u32 (t_time_slice_remaining c1 - 1)) c1
  else c1.

(** The state after that accounting, for the current control block [c]. *)
Definition accounted (k : kernel) (c : task_t) : kernel :=
  set_tasks (<[current_task k := account c]> (tasks k))
    (set_task_list_lock (bump (task_list_lock k))
       (set_scheduler_stats
          (stats_set_total_cpu_time
             (u64 (total_cpu_time (scheduler_stats k) + 1)) (scheduler_stats k)) k)).

(** The condition under which [scheduler_tick] switches, for the
    current control block [c] and the ready queues [rq]. *)
Definition preempt_due (c : task_t) (rq : list Z) : bool :=
  (t_time_slice_remaining c =? 0)
  || (negb (queue_head rq PRIORITY_CRITICAL =? 0) && (t_priority c <? PRIORITY_CRITICAL))
  || (negb (queue_head rq PRIORITY_HIGH =? 0) && (t_priority c <? PRIORITY_HIGH)).

(** *** What [task_create] builds *)

(** The control block of a task created in state [k], with its stack at
    [stack]: the fields set from the arguments and from the statics, the
    registers set by [init_task_cpu_state] (the page directory of the
    parent, if it has one, in [cr3]), and the link to the task that was
    the head of the ready queue. *)
Definition new_task (P : platform) (k : kernel) (nm : string)
    (entry_point priority flags stack : Z) : task_t :=
  let sp := u64 (u64 (stack + TASK_STACK_SIZE) - 16) in
  let user := negb (Z.land flags TASK_FLAG_USER =? 0) in
  let parent_pd := default 0 (t_page_directory <$> tasks k !! current_task k) in
  let pd := if negb (parent_pd =? 0) then parent_pd else kernel_page_directory P in
  {| t_id := next_task_id k; t_name := copy_name nm; t_state := TASK_READY;
     t_priority := priority; t_flags := flags;
     t_cpu_state :=
       {| rsp := sp; rbp := sp; rip := entry_point; rflags := 0x200;
          cs := if user then 0x1B else 0x08;
          ds := if user then 0x23 else 0x10;
          es := if user then 0x23 else 0x10;
          fs := if user then 0x23 else 0x10;
          gs := if user then 0x23 else 0x10;
          ss := if user then 0x23 else 0x10;
          cr3 := pd |};
     t_stack_base := stack; t_stack_size := TASK_STACK_SIZE;
     t_page_directory := kernel_page_directory P;
     t_creation_time := ticks k; t_cpu_time := 0; t_last_run := 0;
     t_time_slice := scheduler_quantum k;
     t_time_slice_remaining := scheduler_quantum k;
     t_parent := current_task k;
     t_next := queue_head (ready_queues k) priority; t_prev := 0;
     t_sleep_until := 0; t_exit_code := 0; t_context_switch_count := 0 |}.

(** [created P k p nm entry_point priority flags k']: from [k] to [k']
    a task has been created in the control block at [p]. *)
Record created (P : platform) (k : kernel) (p : Z) (nm : string)
    (entry_point priority flags : Z) (k' : kernel) : Prop := {
  cr_fresh : tasks k !! p = None;
  cr_task : exists stack, stack <> 0 /\
    tasks k' !! p = Some (new_task P k nm entry_point priority flags stack);
  cr_others : forall x, x <> p ->
    tasks k' !! x =
    if bool_decide (x = task_list_head_ptr k)
       || bool_decide (x = queue_head (ready_queues k) priority)
    then set_prev p <$> tasks k !! x
    else tasks k !! x;
  cr_head : task_list_head_ptr k' = p;
  cr_queue : ready_queues k' = <[Z.to_nat priority := p]> (ready_queues k);
  cr_next_id : next_task_id k' = u32 (next_task_id k + 1);
  cr_stats :
    scheduler_stats k' =
    stats_set_ready_tasks (u32 (ready_tasks (scheduler_stats k) + 1))
      (stats_set_total_tasks (u32 (total_tasks (scheduler_stats k) + 1))
         (scheduler_stats k));
  cr_current : current_task k' = current_task k;
  cr_quantum : scheduler_quantum k' = scheduler_quantum k;
  cr_ticks : ticks k' = ticks k;
  cr_task_list_lock : task_list_lock k' = bump (bump (task_list_lock k));
  cr_scheduler_lock : scheduler_lock k' = bump (bump (scheduler_lock k))
}.

(** The control block as the first part of [task_create] leaves it,
    before the stack is allocated. *)
Definition fresh_task (k : kernel) (nm : string) (priority flags : Z) : task_t :=
  set_exit_code 0
    (set_creation_time (ticks k)
       (set_time_slice_remaining (scheduler_quantum k)
          (set_time_slice (scheduler_quantum k)
             (set_parent (current_task k)
                (set_flags flags
                   (set_priority priority
                      (set_state TASK_READY
                         (set_name (copy_name nm)
                            (set_id (next_task_id k) zero_task))))))))).

(** Whether [kmalloc] has memory for a control block in state [k]. *)
Definition tcb_allocated (P : platform) (k : kernel) : bool :=
  match MM.kmalloc (sizeof_heap_block_t P) (kheap k) (sizeof_task_t P) with
  | Some (task, _) => negb (task =? 0)
  | None => false
  end.

(** A lock given back by its owner. *)
Definition released (l : spinlock_t) : spinlock_t :=
  {| l_locked := 0; l_owner := 0; l_count := l_count l;
     l_recursion_count := l_recursion_count l |}.

(** The state inside [task_create], seen from the state [k] of the
    call: the control block under construction at [p] is [T]; of the
    others, those that [touched] marks have their [prev] set to [p]; the
    statics are as the parameters say. *)
Record building (k : kernel) (p : Z) (T : task_t) (touched : Z -> bool)
    (hd : Z) (rq : list Z) (nid : Z) (sts : scheduler_stats_t) (h : heap)
    (tl sc : spinlock_t) (K : kernel) : Prop := {
  b_task : tasks K !! p = Some T;
  b_others : forall x, x <> p ->
    tasks K !! x = if touched x then set_prev p <$> tasks k !! x else tasks k !! x;
  b_head : task_list_head_ptr K = hd;
  b_rq : ready_queues K = rq;
  b_nid : next_task_id K = nid;
  b_stats : scheduler_stats K = sts;
  b_heap : kheap K = h;
  b_tl : task_list_lock K = tl;
  b_sc : scheduler_lock K = sc;
  b_cur : current_task K = current_task k;
  b_quantum : scheduler_quantum K = scheduler_quantum k;
  b_ticks : ticks K = ticks k;
  b_pcur : current_task k <> p
}.

End TaskSpec.

(** * Properties of the memory manager *)

Module MMFacts.

Import MM.

(** ** Frame allocator *)

(** C6.  With 128 MiB of memory in 4096-byte frames and the first 4 MiB
    reserved by [init_paging], the bitmap is [(128*1024*1024/4096)/8 = 4096]
    bytes long, and the first [alloc_frame] after [init_paging] returns
    byte address [0x400000], which is frame [0x400000/4096 = 1024];
    whatever bytes the bitmap area held before. *)
Theorem frame_allocator_arithmetic (bm : list Z) :
  let f := init_paging (boot_frames bm) in
  total_memory f = 128 * 1024 * 1024 /\
  bitmap_size f = (128 * 1024 * 1024 / 4096) / 8 /\
  bitmap_size f = 4096 /\
  fst (alloc_frame f) = 0x400000 /\
  fst (alloc_frame f) / PAGE_SIZE = 1024 /\
  next_free_frame (snd (alloc_frame f)) = 1025.
Proof.
  vm_compute. repeat split; reflexivity.
Qed.

(** ** Kernel heap: the linked headers against the block list *)

Lemma u64_small (x : Z) : 0 <= x < 2 ^ 64 -> u64 x = x.
Proof. intros H. unfold u64. apply Z.mod_small. exact H. Qed.

Lemma wr_Some (bl : gmap Z heap_block_t) p f b :
  bl !! p = Some b -> wr bl p f = Some (<[p := f b]> bl).
Proof. intros H. unfold wr. rewrite H. reflexivity. Qed.

(** Symbolic execution of header reads and writes. *)
Ltac hsimpl :=
  cbn [mbind option_bind blk_next blk_prev blk_size blk_free
       blk_set_size blk_set_next blk_set_prev blk_set_free next_ptr Z.eqb].

Ltac hlook :=
  repeat first [rewrite lookup_insert_eq | rewrite lookup_insert_ne by lia].

Ltac hstep :=
  repeat first
    [ progress hsimpl
    | rewrite lookup_insert_eq
    | rewrite lookup_insert_ne by lia
    | match goal with
      | H : ?bl !! ?a = Some _ |- context [?bl !! ?a] => rewrite H
      end
    | erewrite wr_Some by (hlook; first [reflexivity | eassumption])
    | match goal with
      | |- context [?x =? 0] => destruct (x =? 0) eqn:?; [lia|]
      end ].

Lemma align8_round_up (size : Z) :
  0 <= size -> size + 7 < 2 ^ 64 -> align8 size = 8 * ((size + 7) / 8).
Proof.
  intros H0 H1. unfold align8. rewrite (u64_small (size + 7)) by lia.
  change (u64 (Z.lnot 7)) with (Z.shiftl (Z.ones 61) 3).
  set (x := size + 7) in *.
  replace (8 * (x / 8)) with (Z.shiftl (Z.shiftr x 3) 3)
    by (rewrite Z.shiftl_mul_pow2, Z.shiftr_div_pow2 by lia; change (2 ^ 3) with 8; lia).
  apply Z.bits_inj'. intros n Hn.
  rewrite Z.land_spec.
  destruct (Z.ltb_spec n 3).
  - rewrite !Z.shiftl_spec_low by lia. apply andb_false_r.
  - rewrite !Z.shiftl_spec by lia. rewrite Z.shiftr_spec by lia.
    replace (n - 3 + 3) with n by lia.
    destruct (Z.ltb_spec n 64).
    + rewrite Z.ones_spec_low by lia. apply andb_true_r.
    + rewrite Z.ones_spec_high by lia. rewrite andb_false_r.
      symmetry. rewrite <- (Z.mod_small x (2 ^ 64)) by lia.
      apply Z.mod_pow2_bits_high. lia.
Qed.

Section HeapFacts.

Variable hdr : Z.
Hypothesis hdr_pos : 0 < hdr.

Lemma chain_le bl prev a bs e : chain hdr bl prev a bs e -> a <= e.
Proof.
  revert prev a. induction bs as [|[sz fr] rest IH]; intros prev a H; simpl in H.
  - lia.
  - destruct H as (? & ? & _ & H). apply IH in H. lia.
Qed.

Lemma chain_cons_lt bl prev a b rest e :
  chain hdr bl prev a (b :: rest) e -> a + hdr <= e.
Proof.
  destruct b as [sz fr]. simpl. intros (? & ? & _ & H). apply chain_le in H. lia.
Qed.

(** A chain only depends on the headers at or after its first address. *)
Lemma chain_frame bl bl' prev a bs e :
  (forall x, a <= x -> bl' !! x = bl !! x) ->
  chain hdr bl prev a bs e -> chain hdr bl' prev a bs e.
Proof.
  revert prev a. induction bs as [|[sz fr] rest IH]; intros prev a Hag H; simpl in *.
  - exact H.
  - destruct H as (Ha & Hsz & Hl & H). repeat split; try assumption.
    + rewrite Hag by lia. exact Hl.
    + apply IH; [|exact H]. intros x Hx. apply Hag. lia.
Qed.

(** Redirecting the back pointer of the first block of a chain. *)
Lemma chain_set_prev bl prev prev' a bs e b :
  bl !! a = Some b -> bs <> [] ->
  chain hdr bl prev a bs e ->
  chain hdr (<[a := blk_set_prev prev' b]> bl) prev' a bs e.
Proof.
  destruct bs as [|[sz fr] rest]; [congruence|]. intros Hb _ H. simpl in *.
  destruct H as (Ha & Hsz & Hl & H). repeat split; try assumption.
  - rewrite lookup_insert_eq. rewrite Hl in Hb. inversion Hb; subst b. reflexivity.
  - eapply chain_frame; [|exact H]. intros x Hx. apply lookup_insert_ne. lia.
Qed.

Lemma chain_lookup_head bl prev a sz fr rest e :
  chain hdr bl prev a ((sz, fr) :: rest) e ->
  bl !! a = Some {| blk_size := sz; blk_free := fr;
                    blk_next := next_ptr (a + hdr + sz) rest; blk_prev := prev |}.
Proof. simpl. tauto. Qed.

Lemma next_ptr_nonnull a bs : 8 <= a -> bs <> [] -> next_ptr a bs = a /\ a <> 0.
Proof. destruct bs; [congruence|]. simpl. lia. Qed.

Lemma chain_cons bl prev a sz fr rest e :
  8 <= a -> 0 <= sz ->
  bl !! a = Some {| blk_size := sz; blk_free := fr;
                    blk_next := next_ptr (a + hdr + sz) rest; blk_prev := prev |} ->
  chain hdr bl a (a + hdr + sz) rest e ->
  chain hdr bl prev a ((sz, fr) :: rest) e.
Proof. simpl. tauto. Qed.

Lemma alloc_list_nonempty a bs n p bs' :
  alloc_list hdr a bs n = Some (p, bs') -> bs' <> [].
Proof.
  destruct bs as [|[sz fr] rest]; simpl; [congruence|].
  destruct (fr && (n <=? sz)).
  - intros H; inversion H; subst. destruct (n + hdr + 8 <? sz); congruence.
  - destruct (alloc_list hdr (a + hdr + sz) rest n) as [[q r]|]; [|congruence].
    intros H; inversion H; subst. congruence.
Qed.

Lemma kmalloc_scan_spec bs : forall fuel bl prev a e n,
  chain hdr bl prev a bs e -> e < 2 ^ 64 -> 0 <= n ->
  (length bs < fuel)%nat ->
  match alloc_list hdr a bs n with
  | Some (p, bs') =>
    exists bl', kmalloc_scan hdr fuel bl (next_ptr a bs) n = Some (p + hdr, bl') /\
                chain hdr bl' prev a bs' e /\
                (forall x, x < a -> bl' !! x = bl !! x)
  | None => kmalloc_scan hdr fuel bl (next_ptr a bs) n = Some (0, bl)
  end.
Proof.
  induction bs as [|[sz fr] rest IH]; intros fuel bl prev a e n Hc He Hn Hf.
  - simpl. destruct fuel; [simpl in Hf; lia|]. reflexivity.
  - destruct fuel as [|fuel]; [simpl in Hf; lia|].
    pose proof (chain_cons_lt _ _ _ _ _ _ Hc) as Hlt.
    simpl in Hc. destruct Hc as (Ha & Hsz & Hl & Hc).
    pose proof (chain_le _ _ _ _ _ Hc) as Hle.
    simpl next_ptr. simpl alloc_list.
    cbn [kmalloc_scan].
    destruct (a =? 0) eqn:E0; [lia|]. rewrite Hl. cbn [mbind option_bind blk_free blk_size blk_next].
    destruct (fr && (n <=? sz)) eqn:Efit.
    + apply andb_true_iff in Efit as [-> Hnsz]. apply Z.leb_le in Hnsz.
      rewrite (u64_small (n + hdr + 8)) by lia.
      rewrite (u64_small (a + hdr)) by lia.
      destruct (n + hdr + 8 <? sz) eqn:Esp.
      * apply Z.ltb_lt in Esp.
        unfold split_block. rewrite Hl. cbn [mbind option_bind blk_free blk_size blk_next].
        rewrite (u64_small (a + hdr + n)) by lia.
        rewrite (u64_small (sz - n - hdr)) by lia.
        rewrite lookup_insert_ne by lia. rewrite Hl.
        cbn [mbind option_bind blk_free blk_size blk_next].
        destruct rest as [|[sz1 fr1] rest1].
        -- simpl next_ptr. simpl (0 =? 0).
           cbn [mbind option_bind].
           erewrite wr_Some by (rewrite lookup_insert_ne by lia; exact Hl).
           cbn [mbind option_bind].
           erewrite wr_Some by (rewrite lookup_insert_eq; reflexivity).
           cbn [mbind option_bind].
           erewrite wr_Some by (rewrite lookup_insert_eq; reflexivity).
           eexists. split; [reflexivity|]. split.
           ++ simpl. simpl in Hc. repeat split; try lia.
              ** rewrite lookup_insert_eq. reflexivity.
              ** rewrite !lookup_insert_ne by lia. rewrite lookup_insert_eq. reflexivity.
           ++ intros x Hx. rewrite !lookup_insert_ne by lia. reflexivity.
        -- simpl next_ptr.
           pose proof Hc as Hc'. simpl in Hc'. destruct Hc' as (Ha1 & Hsz1 & Hl1 & Hc1).
           destruct (a + hdr + sz =? 0) eqn:E1; [lia|].
           erewrite wr_Some by (rewrite lookup_insert_ne by lia; exact Hl1).
           cbn [mbind option_bind].
           erewrite wr_Some by (rewrite !lookup_insert_ne by lia; exact Hl).
           cbn [mbind option_bind].
           erewrite wr_Some by (rewrite lookup_insert_eq; reflexivity).
           cbn [mbind option_bind].
           erewrite wr_Some by (rewrite lookup_insert_eq; reflexivity).
           eexists. split; [reflexivity|]. split.
           ++ apply chain_cons; [lia|lia|rewrite lookup_insert_eq; reflexivity|].
              apply chain_cons; [lia|lia| |].
              { rewrite !lookup_insert_ne by lia.
                rewrite lookup_insert_eq.
                replace (a + hdr + n + hdr + (sz - n - hdr)) with (a + hdr + sz) by lia.
                reflexivity. }
              replace (a + hdr + n + hdr + (sz - n - hdr)) with (a + hdr + sz) by lia.
              eapply chain_frame with
                (bl := <[a + hdr + sz := blk_set_prev (a + hdr + n)
                          {| blk_size := sz1; blk_free := fr1;
                             blk_next := next_ptr (a + hdr + sz + hdr + sz1) rest1;
                             blk_prev := a |}]> bl).
              { intros x Hx. rewrite !lookup_insert_ne by lia.
                destruct (decide (x = a + hdr + sz)) as [->|Hne].
                - rewrite !lookup_insert_eq. reflexivity.
                - rewrite !lookup_insert_ne by lia. reflexivity. }
              apply (chain_set_prev bl a); [exact Hl1|congruence|exact Hc].
           ++ intros x Hx. rewrite !lookup_insert_ne by lia. reflexivity.
      * apply Z.ltb_ge in Esp. cbn [mbind option_bind].
        erewrite wr_Some by exact Hl. cbn [mbind option_bind].
        eexists. split; [reflexivity|]. split.
        -- simpl. repeat split; try lia.
           ++ rewrite lookup_insert_eq. reflexivity.
           ++ eapply chain_frame; [|exact Hc]. intros x Hx. apply lookup_insert_ne. lia.
        -- intros x Hx. apply lookup_insert_ne. lia.
    + specialize (IH fuel bl a (a + hdr + sz) e n Hc He Hn ltac:(simpl in Hf; lia)).
      destruct (alloc_list hdr (a + hdr + sz) rest n) as [[p rest']|] eqn:Eal.
      * destruct IH as (bl' & Hscan & Hch & Hfr).
        exists bl'. split; [exact Hscan|]. split.
        -- simpl. repeat split; try lia.
           ++ rewrite Hfr by lia. rewrite Hl. f_equal. f_equal.
              pose proof (alloc_list_nonempty _ _ _ _ _ Eal) as Hne.
              destruct rest; [simpl in Eal; congruence|].
              destruct rest'; [congruence|]. reflexivity.
           ++ exact Hch.
        -- intros x Hx. apply Hfr. lia.
      * exact IH.
Qed.


(** The scan has fuel for the whole block list. *)
Lemma chain_length bs : forall bl prev a e,
  chain hdr bl prev a bs e -> (length bs <= size bl)%nat.
Proof.
  induction bs as [|[sz fr] rest IH]; intros bl prev a e H.
  - simpl. lia.
  - simpl in H. destruct H as (Ha & Hsz & Hl & H).
    assert (Hd : chain hdr (delete a bl) a (a + hdr + sz) rest e).
    { eapply chain_frame; [|exact H]. intros x Hx. apply lookup_delete_ne. lia. }
    apply IH in Hd. rewrite map_size_delete, Hl in Hd.
    assert (size bl <> 0%nat).
    { apply map_size_non_empty_iff. intros ->. rewrite lookup_empty in Hl. discriminate. }
    simpl. lia.
Qed.

Lemma align8_nonneg (size : Z) : 0 <= align8 size.
Proof.
  unfold align8. apply Z.land_nonneg. left.
  unfold u64. apply Z.mod_pos_bound. lia.
Qed.


Lemma kmalloc_repr h bs size :
  heap_repr hdr h bs -> size <> 0 ->
  match alloc_list hdr (heap_start h) bs (align8 size) with
  | Some (p, bs') =>
    exists h', kmalloc hdr h size = Some (p + hdr, h') /\ heap_repr hdr h' bs' /\
      mem h' = mem h /\ heap_start h' = heap_start h /\ heap_end h' = heap_end h
  | None => kmalloc hdr h size = Some (0, h)
  end.
Proof.
  intros (_ & Hinit & He & Hne & Hc) Hsz.
  pose proof (chain_length _ _ _ _ _ Hc) as Hlen.
  pose proof (kmalloc_scan_spec bs (S (base.size (blocks h))) _ _ _ _ (align8 size)
                Hc He (align8_nonneg size) ltac:(lia)) as Hscan.
  assert (Hnp : next_ptr (heap_start h) bs = heap_start h).
  { destruct bs; [congruence|reflexivity]. }
  rewrite Hnp in Hscan.
  unfold kmalloc. rewrite Hinit. destruct (size =? 0) eqn:E; [lia|]. simpl negb. simpl orb.
  cbv iota.
  destruct (alloc_list hdr (heap_start h) bs (align8 size)) as [[p bs']|] eqn:Eal.
  - destruct Hscan as (bl' & -> & Hch & _). simpl.
    eexists. split; [reflexivity|]. split; [|by simpl].
    unfold heap_repr. simpl. repeat split; try assumption.
    eapply alloc_list_nonempty; eassumption.
  - rewrite Hscan. simpl. destruct h; reflexivity.
Qed.


(** *** [kfree] *)

Lemma chain_set_free bl prev a sz fr rest e b :
  bl !! a = Some b ->
  chain hdr bl prev a ((sz, fr) :: rest) e ->
  chain hdr (<[a := blk_set_free true b]> bl) prev a ((sz, true) :: rest) e.
Proof.
  intros Hb H. simpl in H. destruct H as (Ha & Hsz & Hl & H).
  rewrite Hl in Hb. inversion Hb; subst b.
  apply chain_cons; [lia|lia|rewrite lookup_insert_eq; reflexivity|].
  eapply chain_frame; [|exact H]. intros x Hx. apply lookup_insert_ne. lia.
Qed.

Lemma coalesce_next_spec bl prev a sz rest e :
  e < 2 ^ 64 ->
  chain hdr bl prev a ((sz, true) :: rest) e ->
  exists bl', coalesce_next hdr bl a = Some bl' /\
    chain hdr bl' prev a (free_head hdr sz rest) e /\
    (forall x, x < a -> bl' !! x = bl !! x).
Proof.
  intros He Hc. pose proof Hc as Hc0.
  simpl in Hc. destruct Hc as (Ha & Hsz & Hl & Hc).
  unfold coalesce_next.
  destruct rest as [|[sz1 fr1] rest1].
  - hstep. simpl. exists bl. auto.
  - pose proof (chain_cons_lt _ _ _ _ _ _ Hc) as Hlt1.
    pose proof Hc as Hc1. simpl in Hc1. destruct Hc1 as (Ha1 & Hsz1 & Hl1 & Hc1).
    pose proof (chain_le _ _ _ _ _ Hc1) as Hle1.
    destruct fr1.
    + rewrite Hl. hsimpl. destruct (a + hdr + sz =? 0) eqn:E0; [lia|]. rewrite Hl1. hsimpl.
      rewrite (u64_small (sz1 + hdr)) by lia.
      rewrite (u64_small (sz + (sz1 + hdr))) by lia.
      destruct rest1 as [|[sz2 fr2] rest2].
      * hstep.
        eexists. split; [reflexivity|]. split.
        -- simpl free_head. apply chain_cons; [lia|lia| |].
           ++ hlook. reflexivity.
           ++ simpl in Hc1. simpl. lia.
        -- intros x Hx. hlook. reflexivity.
      * pose proof Hc1 as Hc2. simpl in Hc2. destruct Hc2 as (Ha2 & Hsz2 & Hl2 & Hc2).
        hstep.
        eexists. split; [reflexivity|]. split.
        -- simpl free_head. apply chain_cons; [lia|lia| |].
           ++ hlook.
              replace (a + hdr + (sz + (sz1 + hdr))) with (a + hdr + sz + hdr + sz1) by lia.
              reflexivity.
           ++ replace (a + hdr + (sz + (sz1 + hdr))) with (a + hdr + sz + hdr + sz1) by lia.
              eapply chain_frame with
                (bl := <[a + hdr + sz + hdr + sz1 := blk_set_prev a
                          {| blk_size := sz2; blk_free := fr2;
                             blk_next := next_ptr (a + hdr + sz + hdr + sz1 + hdr + sz2) rest2;
                             blk_prev := a + hdr + sz |}]> bl).
              { intros x Hx. rewrite !lookup_insert_ne by lia.
                destruct (decide (x = a + hdr + sz + hdr + sz1)) as [->|Hne].
                - rewrite !lookup_insert_eq. reflexivity.
                - rewrite !lookup_insert_ne by lia. reflexivity. }
              apply (chain_set_prev bl (a + hdr + sz)); [exact Hl2|congruence|exact Hc1].
        -- intros x Hx. hlook. reflexivity.
    + hstep. simpl free_head. exists bl. auto.
Qed.

(** At the first block there is nothing to coalesce into. *)
Lemma coalesce_prev_first bl a b rest e :
  chain hdr bl 0 a (b :: rest) e -> coalesce_prev hdr bl a = Some bl.
Proof.
  destruct b as [sz fr]. simpl. intros (_ & _ & Hl & _).
  unfold coalesce_prev. rewrite Hl. reflexivity.
Qed.

Lemma coalesce_prev_spec bl prev a sz fr szm rest e :
  e < 2 ^ 64 ->
  chain hdr bl prev a ((sz, fr) :: (szm, true) :: rest) e ->
  exists bl', coalesce_prev hdr bl (a + hdr + sz) = Some bl' /\
    chain hdr bl' prev a
      (if fr then (sz + (szm + hdr), true) :: rest
       else (sz, fr) :: (szm, true) :: rest) e /\
    (forall x, x < a -> bl' !! x = bl !! x).
Proof.
  intros He Hc. pose proof Hc as Hc0.
  simpl in Hc. destruct Hc as (Ha & Hsz & Hl & Ha1 & Hszm & Hl1 & Hc).
  pose proof (chain_le _ _ _ _ _ Hc) as Hle.
  unfold coalesce_prev.
  destruct fr.
  - rewrite Hl1. hsimpl. destruct (a =? 0) eqn:E0; [lia|]. rewrite Hl. hsimpl.
    rewrite (u64_small (szm + hdr)) by lia.
    rewrite (u64_small (sz + (szm + hdr))) by lia.
    destruct rest as [|[sz2 fr2] rest2].
    + hstep.
      eexists. split; [reflexivity|]. split.
      * apply chain_cons; [lia|lia| |].
        -- hlook. reflexivity.
        -- simpl in Hc. simpl. lia.
      * intros x Hx. hlook. reflexivity.
    + pose proof Hc as Hc2. simpl in Hc2. destruct Hc2 as (Ha2 & Hsz2 & Hl2 & Hc2).
      hstep.
      eexists. split; [reflexivity|]. split.
      * apply chain_cons; [lia|lia| |].
        -- hlook.
           replace (a + hdr + (sz + (szm + hdr))) with (a + hdr + sz + hdr + szm) by lia.
           reflexivity.
        -- replace (a + hdr + (sz + (szm + hdr))) with (a + hdr + sz + hdr + szm) by lia.
           eapply chain_frame with
             (bl := <[a + hdr + sz + hdr + szm := blk_set_prev a
                       {| blk_size := sz2; blk_free := fr2;
                          blk_next := next_ptr (a + hdr + sz + hdr + szm + hdr + sz2) rest2;
                          blk_prev := a + hdr + sz |}]> bl).
           { intros x Hx. rewrite !lookup_insert_ne by lia.
             destruct (decide (x = a + hdr + sz + hdr + szm)) as [->|Hne].
             - rewrite !lookup_insert_eq. reflexivity.
             - rewrite !lookup_insert_ne by lia. reflexivity. }
           apply (chain_set_prev bl (a + hdr + sz)); [exact Hl2|congruence|exact Hc].
      * intros x Hx. hlook. reflexivity.
  - hstep. exists bl. auto.
Qed.

Lemma free_head_shape sz rest :
  exists szm rest2, free_head hdr sz rest = (szm, true) :: rest2.
Proof.
  destruct rest as [|[sz1 [|]] rest1]; simpl; eauto.
Qed.

Lemma free_list_nonempty bs : forall a t, bs <> [] -> free_list hdr a bs t <> [].
Proof.
  induction bs as [|[sz fr] rest IH]; intros a t Hne; [congruence|].
  simpl. destruct (a =? t).
  - destruct (free_head_shape sz rest) as (szm & rest2 & ->). congruence.
  - destruct rest as [|[sz1 fr1] rest1]; [congruence|].
    destruct (a + hdr + sz =? t).
    + destruct (free_head_shape sz1 rest1) as (szm & rest2 & ->).
      destruct fr; congruence.
    + congruence.
Qed.

Lemma block_addrs_bounds bs : forall bl prev a e t,
  chain hdr bl prev a bs e -> In t (block_addrs hdr a bs) ->
  a <= t /\ t + hdr <= e /\ 8 <= t.
Proof.
  induction bs as [|[sz fr] rest IH]; intros bl prev a e t Hc Hin; [destruct Hin|].
  pose proof (chain_cons_lt _ _ _ _ _ _ Hc) as Hlt.
  simpl in Hc. destruct Hc as (Ha & Hsz & Hl & Hc).
  simpl in Hin. destruct Hin as [<-|Hin]; [lia|].
  apply (IH _ _ _ _ _ Hc) in Hin. lia.
Qed.

Lemma free_block_spec bs : forall bl prev a e t,
  e < 2 ^ 64 ->
  chain hdr bl prev a bs e ->
  In t (block_addrs hdr a bs) ->
  (t = a -> prev = 0) ->
  exists bl', free_block hdr bl t = Some bl' /\
    chain hdr bl' prev a (free_list hdr a bs t) e /\
    (forall x, x < a -> bl' !! x = bl !! x).
Proof.
  induction bs as [|[sz fr] rest IH]; intros bl prev a e t He Hc Hin Hprev;
    [destruct Hin|].
  pose proof Hc as Hc0. simpl in Hc. destruct Hc as (Ha & Hsz & Hl & Hc).
  simpl free_list. destruct (a =? t) eqn:Eat.
  - apply Z.eqb_eq in Eat. subst t. rewrite Hprev in * by reflexivity.
    unfold free_block. erewrite wr_Some by exact Hl. cbn [mbind option_bind].
    pose proof (chain_set_free _ _ _ _ _ _ _ _ Hl Hc0) as Hc1.
    destruct (coalesce_next_spec _ _ _ _ _ _ He Hc1) as (bl2 & -> & Hc2 & Hfr2).
    cbn [mbind option_bind].
    destruct (free_head_shape sz rest) as (szm & rest2 & Hfh). rewrite Hfh in *.
    rewrite (coalesce_prev_first _ _ _ _ _ Hc2).
    eexists. split; [reflexivity|]. split; [exact Hc2|].
    intros x Hx. rewrite Hfr2 by lia. apply lookup_insert_ne. lia.
  - apply Z.eqb_neq in Eat.
    simpl in Hin. destruct Hin as [Hin|Hin]; [congruence|].
    destruct rest as [|[sz1 fr1] rest1]; [destruct Hin|].
    pose proof Hc as Hc1. simpl in Hc1. destruct Hc1 as (Ha1 & Hsz1 & Hl1 & Hc1).
    destruct (a + hdr + sz =? t) eqn:Enext.
    + apply Z.eqb_eq in Enext. subst t.
      unfold free_block. erewrite wr_Some by exact Hl1. cbn [mbind option_bind].
      pose proof (chain_set_free _ _ _ _ _ _ _ _ Hl1 Hc) as Hcf.
      destruct (coalesce_next_spec _ _ _ _ _ _ He Hcf) as (bl2 & -> & Hc2 & Hfr2).
      cbn [mbind option_bind].
      destruct (free_head_shape sz1 rest1) as (szm & rest2 & Hfh). rewrite Hfh in *.
      assert (Hfull : chain hdr bl2 prev a ((sz, fr) :: (szm, true) :: rest2) e).
      { apply chain_cons; [lia|lia| |exact Hc2].
        rewrite Hfr2 by lia. rewrite lookup_insert_ne by lia. exact Hl. }
      destruct (coalesce_prev_spec _ _ _ _ _ _ _ _ He Hfull) as (bl3 & -> & Hc3 & Hfr3).
      eexists. split; [reflexivity|]. split; [exact Hc3|].
      intros x Hx. rewrite Hfr3, Hfr2 by lia. apply lookup_insert_ne. lia.
    + apply Z.eqb_neq in Enext.
      destruct (IH bl a (a + hdr + sz) e t He Hc Hin ltac:(congruence))
        as (bl' & Hfb & Hc' & Hfr').
      exists bl'. split; [exact Hfb|]. split.
      * apply chain_cons; [lia|lia| |exact Hc'].
        rewrite Hfr' by lia. rewrite Hl. do 2 f_equal.
        pose proof (free_list_nonempty ((sz1, fr1) :: rest1) (a + hdr + sz) t
                      ltac:(congruence)) as Hne.
        destruct (free_list hdr (a + hdr + sz) ((sz1, fr1) :: rest1) t);
          [congruence|reflexivity].
      * intros x Hx. apply Hfr'. lia.
Qed.

Lemma kfree_repr h bs ptr :
  heap_repr hdr h bs ->
  In (ptr - hdr) (block_addrs hdr (heap_start h) bs) ->
  exists h', kfree hdr h ptr = Some h' /\
    heap_repr hdr h' (free_list hdr (heap_start h) bs (ptr - hdr)) /\
    mem h' = mem h /\ heap_start h' = heap_start h /\ heap_end h' = heap_end h.
Proof.
  intros (_ & Hinit & He & Hne & Hc) Hin.
  destruct (block_addrs_bounds _ _ _ _ _ _ Hc Hin) as (Hlo & Hhi & H8).
  destruct (free_block_spec bs _ _ _ _ _ He Hc Hin ltac:(reflexivity))
    as (bl' & Hfb & Hc' & _).
  unfold kfree. rewrite Hinit.
  destruct (ptr =? 0) eqn:E0; [lia|]. simpl.
  rewrite (u64_small (ptr - hdr)) by lia.
  destruct (ptr - hdr <? heap_start h) eqn:E1; [lia|].
  destruct (heap_end h <=? ptr - hdr) eqn:E2; [lia|]. simpl.
  rewrite Hfb. simpl.
  eexists. split; [reflexivity|]. split; [|by simpl].
  unfold heap_repr. simpl. repeat split; try assumption.
  apply free_list_nonempty. exact Hne.
Qed.


(** *** Eager coalescing on the block list *)

Lemma no_adjacent_free_cons b bs :
  no_adjacent_free (b :: bs) <->
  (snd b && head_free bs = false) /\ no_adjacent_free bs.
Proof.
  destruct b as [sz fr]. destruct bs as [|[sz1 fr1] rest]; simpl.
  - rewrite andb_false_r. tauto.
  - tauto.
Qed.

Lemma no_adjacent_free_tail b bs : no_adjacent_free (b :: bs) -> no_adjacent_free bs.
Proof. rewrite no_adjacent_free_cons. tauto. Qed.

Lemma free_head_no_adjacent sz rest :
  no_adjacent_free rest ->
  exists szm rest2, free_head hdr sz rest = (szm, true) :: rest2 /\
    head_free rest2 = false /\ no_adjacent_free rest2.
Proof.
  intros H. destruct rest as [|[sz1 fr1] rest1].
  - simpl. eauto.
  - apply no_adjacent_free_cons in H. destruct H as [H1 H2]. simpl in H1.
    destruct fr1; simpl.
    + eauto.
    + exists sz, ((sz1, false) :: rest1). repeat split.
      apply no_adjacent_free_cons. simpl. auto.
Qed.

Lemma free_list_head_free bs : forall a t,
  a <> t -> head_free (free_list hdr a bs t) = head_free bs.
Proof.
  destruct bs as [|[sz fr] rest]; intros a t Hne; [reflexivity|].
  simpl. destruct (a =? t) eqn:E; [apply Z.eqb_eq in E; congruence|].
  destruct rest as [|[sz1 fr1] rest1]; [reflexivity|].
  destruct (a + hdr + sz =? t); [|reflexivity].
  destruct (free_head_shape sz1 rest1) as (szm & rest2 & ->).
  destruct fr; reflexivity.
Qed.

Lemma free_list_no_adjacent bs : forall a t,
  no_adjacent_free bs -> no_adjacent_free (free_list hdr a bs t).
Proof.
  induction bs as [|[sz fr] rest IH]; intros a t H; [exact I|].
  simpl. destruct (a =? t).
  - apply no_adjacent_free_tail in H.
    destruct (free_head_no_adjacent sz rest H) as (szm & rest2 & -> & Hh & Hn).
    apply no_adjacent_free_cons. simpl. rewrite Hh. auto.
  - destruct rest as [|[sz1 fr1] rest1]; [exact H|].
    destruct (a + hdr + sz =? t) eqn:E.
    + pose proof (no_adjacent_free_tail _ _ H) as H1.
      apply no_adjacent_free_tail in H1.
      destruct (free_head_no_adjacent sz1 rest1 H1) as (szm & rest2 & -> & Hh & Hn).
      destruct fr.
      * apply no_adjacent_free_cons. simpl. rewrite Hh. auto.
      * apply no_adjacent_free_cons. split; [reflexivity|].
        apply no_adjacent_free_cons. simpl. rewrite Hh. auto.
    + apply Z.eqb_neq in E.
      apply no_adjacent_free_cons. split.
      * rewrite free_list_head_free by exact E.
        apply no_adjacent_free_cons in H. tauto.
      * apply IH. eapply no_adjacent_free_tail. exact H.
Qed.

Lemma alloc_list_head_free bs : forall a n p bs',
  alloc_list hdr a bs n = Some (p, bs') -> p <> a -> head_free bs' = head_free bs.
Proof.
  destruct bs as [|[sz fr] rest]; intros a n p bs' H Hne; [discriminate|].
  simpl in H. destruct (fr && (n <=? sz)).
  - inversion H; subst. congruence.
  - destruct (alloc_list hdr (a + hdr + sz) rest n) as [[q r]|]; [|discriminate].
    inversion H; subst. reflexivity.
Qed.

Lemma alloc_list_no_adjacent bs : forall a n p bs',
  no_adjacent_free bs -> alloc_list hdr a bs n = Some (p, bs') ->
  no_adjacent_free bs'.
Proof.
  induction bs as [|[sz fr] rest IH]; intros a n p bs' Hn H; [discriminate|].
  simpl in H. destruct (fr && (n <=? sz)) eqn:Efit.
  - apply andb_true_iff in Efit as [-> _].
    apply no_adjacent_free_cons in Hn. destruct Hn as [Hh Hn]. simpl in Hh.
    inversion H; subst. destruct (n + hdr + 8 <? sz).
    + apply no_adjacent_free_cons. split; [reflexivity|].
      apply no_adjacent_free_cons. simpl. auto.
    + apply no_adjacent_free_cons. simpl. auto.
  - destruct (alloc_list hdr (a + hdr + sz) rest n) as [[q r]|] eqn:Eal; [|discriminate].
    inversion H; subst.
    apply no_adjacent_free_cons in Hn. destruct Hn as [Hh Hn]. simpl in Hh.
    apply no_adjacent_free_cons. split; [|eapply IH; eassumption].
    simpl. destruct fr; [|reflexivity]. simpl in *.
    destruct rest as [|[sz1 fr1] rest1]; [discriminate|]. simpl in Hh. subst fr1.
    simpl in Eal. destruct (alloc_list hdr (a + hdr + sz + hdr + sz1) rest1 n) as [[q' r']|];
      [|discriminate].
    inversion Eal; subst. reflexivity.
Qed.


(** *** Blocks by position *)

Lemma chain_sizes bs : forall bl prev a e,
  chain hdr bl prev a bs e -> Forall (fun b => 0 <= b.1) bs.
Proof.
  induction bs as [|[sz fr] rest IH]; intros bl prev a e H; [constructor|].
  simpl in H. destruct H as (_ & Hsz & _ & H). constructor; [exact Hsz|eauto].
Qed.

Lemma span_nonneg bs : Forall (fun b => 0 <= b.1) bs -> 0 <= span hdr bs.
Proof.
  induction 1 as [|[sz fr] rest Hsz _ IH]; simpl in *; lia.
Qed.

Lemma span_app bs1 bs2 : span hdr (bs1 ++ bs2) = span hdr bs1 + span hdr bs2.
Proof. induction bs1 as [|[sz fr] rest IH]; simpl; lia. Qed.

Lemma block_addrs_app pre : forall a b rest,
  In (a + span hdr pre) (block_addrs hdr a (pre ++ b :: rest)).
Proof.
  induction pre as [|[sz fr] pre IH]; intros a [sz0 fr0] rest; simpl.
  - left. lia.
  - right. replace (a + (hdr + sz + span hdr pre)) with (a + hdr + sz + span hdr pre) by lia.
    apply IH.
Qed.

(** Freeing the block that follows [(sz, fr)], found by its address. *)
Lemma free_list_at pre : forall a sz fr sz1 fr1 rest1,
  Forall (fun b => 0 <= b.1) pre -> 0 <= sz ->
  free_list hdr a (pre ++ (sz, fr) :: (sz1, fr1) :: rest1) (a + span hdr pre + hdr + sz)
  = pre ++ match free_head hdr sz1 rest1 with
           | (szm, _) :: rest2 =>
             if fr then (sz + (szm + hdr), true) :: rest2
             else (sz, fr) :: (szm, true) :: rest2
           | [] => (sz, fr) :: (sz1, fr1) :: rest1
           end.
Proof.
  induction pre as [|[s0 f0] pre IH]; intros a sz fr sz1 fr1 rest1 Hpre Hsz.
  - simpl. destruct (a =? a + 0 + hdr + sz) eqn:E; [lia|].
    destruct (a + hdr + sz =? a + 0 + hdr + sz) eqn:E1; [|lia]. reflexivity.
  - inversion Hpre as [|? ? Hs0 Hpre']; subst. simpl in Hs0.
    pose proof (span_nonneg _ Hpre') as Hsp.
    cbn [app free_list span].
    destruct (a =? a + (hdr + s0 + span hdr pre) + hdr + sz) eqn:E; [lia|].
    replace (a + (hdr + s0 + span hdr pre) + hdr + sz)
      with (a + hdr + s0 + span hdr pre + hdr + sz) by lia.
    specialize (IH (a + hdr + s0) sz fr sz1 fr1 rest1 Hpre' Hsz).
    destruct (pre ++ (sz, fr) :: (sz1, fr1) :: rest1) as [|[s1 f1] tl] eqn:Etl.
    { destruct pre; discriminate. }
    destruct (a + hdr + s0 =? a + hdr + s0 + span hdr pre + hdr + sz) eqn:E1; [lia|].
    rewrite IH. reflexivity.
Qed.

(** Freeing the first block of the list. *)
Lemma free_list_first a sz fr rest :
  free_list hdr a ((sz, fr) :: rest) a = free_head hdr sz rest.
Proof. simpl. rewrite Z.eqb_refl. reflexivity. Qed.

Lemma mm_init_repr h base size :
  8 <= base -> hdr <= size -> base + size < 2 ^ 64 ->
  heap_repr hdr (mm_init hdr h base size) [(size - hdr, true)].
Proof.
  intros Hb Hs Hlt. unfold heap_repr, mm_init. simpl.
  rewrite (u64_small (base + size)) by lia.
  rewrite (u64_small (size - hdr)) by lia.
  repeat split; try lia; try congruence.
  rewrite lookup_insert_eq. reflexivity.
Qed.


(** *** Claims on [kfree] *)

Lemma kfree_twice h bs t1 t2 bs1 bs2 :
  heap_repr hdr h bs ->
  In t1 (block_addrs hdr (heap_start h) bs) ->
  free_list hdr (heap_start h) bs t1 = bs1 ->
  In t2 (block_addrs hdr (heap_start h) bs1) ->
  free_list hdr (heap_start h) bs1 t2 = bs2 ->
  exists h1 h2, kfree hdr h (t1 + hdr) = Some h1 /\
    kfree hdr h1 (t2 + hdr) = Some h2 /\ heap_repr hdr h2 bs2.
Proof.
  intros Hr Hin1 E1 Hin2 E2.
  destruct (kfree_repr h bs (t1 + hdr) Hr) as (h1 & Hk1 & Hr1 & _ & Hs1 & _).
  { replace (t1 + hdr - hdr) with t1 by lia. exact Hin1. }
  replace (t1 + hdr - hdr) with t1 in Hr1 by lia. rewrite E1 in Hr1.
  destruct (kfree_repr h1 bs1 (t2 + hdr) Hr1) as (h2 & Hk2 & Hr2 & _).
  { replace (t2 + hdr - hdr) with t2 by lia. rewrite Hs1. exact Hin2. }
  replace (t2 + hdr - hdr) with t2 in Hr2 by lia. rewrite Hs1, E2 in Hr2.
  eauto.
Qed.

(** Three adjacent allocated blocks of size [s] after the blocks [pre];
    the last two are freed, in either order. *)
Lemma free_last_two h pre s post merged :
  heap_repr hdr h (pre ++ (s, false) :: (s, false) :: (s, false) :: post) ->
  free_head hdr s post = (merged, true) :: match post with
                                           | (_, true) :: post' => post'
                                           | _ => post
                                           end ->
  let b2 := heap_start h + span hdr pre + hdr + s in
  let b3 := b2 + hdr + s in
  let bs' := pre ++ (s, false) :: (s + (merged + hdr), true)
                 :: match post with (_, true) :: post' => post' | _ => post end in
  exists h2 h23 h3 h32,
    kfree hdr h (b2 + hdr) = Some h2 /\ kfree hdr h2 (b3 + hdr) = Some h23 /\
    heap_repr hdr h23 bs' /\
    kfree hdr h (b3 + hdr) = Some h3 /\ kfree hdr h3 (b2 + hdr) = Some h32 /\
    heap_repr hdr h32 bs'.
Proof.
  intros Hr Hfh b2 b3 bs'.
  pose proof Hr as (_ & _ & _ & _ & Hc).
  pose proof (chain_sizes _ _ _ _ _ Hc) as Hall.
  apply Forall_app in Hall as [Hpre Hall].
  inversion Hall as [|? ? Hs _]; subst. simpl in Hs.
  pose proof (span_nonneg _ Hpre) as Hsp.
  assert (Hpre1 : Forall (fun b : Z * bool => 0 <= b.1) (pre ++ [(s, false)])).
  { apply Forall_app. split; [exact Hpre|]. constructor; [exact Hs|constructor]. }
  assert (Hspan1 : span hdr (pre ++ [(s, false)]) = span hdr pre + hdr + s).
  { rewrite span_app. simpl. lia. }
  (* second, then third *)
  destruct (kfree_twice h _ b2 b3
              (pre ++ (s, false) :: (s, true) :: (s, false) :: post) bs' Hr)
    as (h2 & h23 & Hk2 & Hk23 & Hr23).
  { unfold b2. replace (heap_start h + span hdr pre + hdr + s)
      with (heap_start h + span hdr (pre ++ [(s, false)])) by lia.
    replace (pre ++ (s, false) :: (s, false) :: (s, false) :: post)
      with ((pre ++ [(s, false)]) ++ (s, false) :: (s, false) :: post)
      by (rewrite <- app_assoc; reflexivity).
    apply block_addrs_app. }
  { unfold b2. rewrite free_list_at by assumption. reflexivity. }
  { unfold b3, b2.
    replace (heap_start h + span hdr pre + hdr + s + hdr + s)
      with (heap_start h + span hdr ((pre ++ [(s, false)]) ++ [(s, true)])) by
      (rewrite span_app; simpl; lia).
    replace (pre ++ (s, false) :: (s, true) :: (s, false) :: post)
      with (((pre ++ [(s, false)]) ++ [(s, true)]) ++ (s, false) :: post)
      by (rewrite <- !app_assoc; reflexivity).
    apply block_addrs_app. }
  { unfold b3, b2.
    replace (pre ++ (s, false) :: (s, true) :: (s, false) :: post)
      with ((pre ++ [(s, false)]) ++ (s, true) :: (s, false) :: post)
      by (rewrite <- app_assoc; reflexivity).
    replace (heap_start h + span hdr pre + hdr + s + hdr + s)
      with (heap_start h + span hdr (pre ++ [(s, false)]) + hdr + s) by lia.
    rewrite free_list_at by assumption. rewrite Hfh.
    unfold bs'. rewrite <- app_assoc. reflexivity. }
  (* third, then second *)
  destruct (kfree_twice h _ b3 b2
              (pre ++ (s, false) :: (s, false) :: (merged, true)
                   :: match post with (_, true) :: post' => post' | _ => post end)
              bs' Hr)
    as (h3 & h32 & Hk3 & Hk32 & Hr32).
  { unfold b3, b2.
    replace (heap_start h + span hdr pre + hdr + s + hdr + s)
      with (heap_start h + span hdr ((pre ++ [(s, false)]) ++ [(s, false)])) by
      (rewrite span_app; simpl; lia).
    replace (pre ++ (s, false) :: (s, false) :: (s, false) :: post)
      with (((pre ++ [(s, false)]) ++ [(s, false)]) ++ (s, false) :: post)
      by (rewrite <- !app_assoc; reflexivity).
    apply block_addrs_app. }
  { unfold b3, b2.
    replace (pre ++ (s, false) :: (s, false) :: (s, false) :: post)
      with ((pre ++ [(s, false)]) ++ (s, false) :: (s, false) :: post)
      by (rewrite <- app_assoc; reflexivity).
    replace (heap_start h + span hdr pre + hdr + s + hdr + s)
      with (heap_start h + span hdr (pre ++ [(s, false)]) + hdr + s) by lia.
    rewrite free_list_at by assumption. rewrite Hfh.
    rewrite <- app_assoc. reflexivity. }
  { unfold b2. replace (heap_start h + span hdr pre + hdr + s)
      with (heap_start h + span hdr (pre ++ [(s, false)])) by lia.
    replace (pre ++ (s, false) :: (s, false) :: (merged, true)
                 :: match post with (_, true) :: post' => post' | _ => post end)
      with ((pre ++ [(s, false)]) ++ (s, false) :: (merged, true)
                 :: match post with (_, true) :: post' => post' | _ => post end)
      by (rewrite <- app_assoc; reflexivity).
    apply block_addrs_app. }
  { unfold b2. rewrite free_list_at by assumption. simpl free_head. reflexivity. }
  exists h2, h23, h3, h32. tauto.
Qed.


(** C4, as amended.  [kfree] on a block of the list marks it free and
    coalesces it with the next block if that one is free, then with the
    previous block if that one is free; when no two neighbours were both
    free before, none are afterwards.  When three adjacent blocks of
    equal size [s] are allocated and the last two are freed, in either
    order, they end up in one free block: of size [s + s + hdr] when the
    block after the third is in use or the third is the last block, and
    larger by the size of that block and one more header when it is
    free, since it is coalesced as well. *)
Theorem kfree_eager_coalescing (h : heap) (bs : list (Z * bool)) :
  heap_repr hdr h bs ->
  no_adjacent_free bs ->
  (forall ptr, In (ptr - hdr) (block_addrs hdr (heap_start h) bs) ->
     exists h', kfree hdr h ptr = Some h' /\
       heap_repr hdr h' (free_list hdr (heap_start h) bs (ptr - hdr)) /\
       no_adjacent_free (free_list hdr (heap_start h) bs (ptr - hdr))) /\
  (forall pre s post,
     bs = pre ++ (s, false) :: (s, false) :: (s, false) :: post ->
     let p2 := heap_start h + span hdr pre + hdr + s + hdr in
     let p3 := p2 + s + hdr in
     let absorbed := match post with (sp, true) :: _ => sp + hdr | _ => 0 end in
     let rest := match post with (_, true) :: post' => post' | _ => post end in
     let bs' := pre ++ (s, false) :: (s + s + hdr + absorbed, true) :: rest in
     exists h2 h23 h3 h32,
       kfree hdr h p2 = Some h2 /\ kfree hdr h2 p3 = Some h23 /\
       kfree hdr h p3 = Some h3 /\ kfree hdr h3 p2 = Some h32 /\
       heap_repr hdr h23 bs' /\ heap_repr hdr h32 bs' /\ no_adjacent_free bs').
Proof.
  intros Hr Hn. split.
  - intros ptr Hin.
    destruct (kfree_repr h bs ptr Hr Hin) as (h' & Hk & Hr' & _).
    exists h'. split; [exact Hk|]. split; [exact Hr'|].
    apply free_list_no_adjacent. exact Hn.
  - intros pre s post -> p2 p3 absorbed rest bs'.
    set (merged := match post with (sp, true) :: _ => s + (sp + hdr) | _ => s end).
    assert (Hfh : free_head hdr s post = (merged, true) :: rest).
    { unfold merged, rest. destruct post as [|[sp [|]] post']; reflexivity. }
    destruct (free_last_two h pre s post merged Hr Hfh)
      as (h2 & h23 & h3 & h32 & Hk2 & Hk23 & Hr23 & Hk3 & Hk32 & Hr32).
    assert (Hsize : s + (merged + hdr) = s + s + hdr + absorbed).
    { unfold merged, absorbed. destruct post as [|[sp [|]] post']; lia. }
    rewrite Hsize in Hr23, Hr32.
    replace (heap_start h + span hdr pre + hdr + s + hdr + s + hdr) with p3 in *
      by (unfold p3, p2; lia).
    replace (heap_start h + span hdr pre + hdr + s + hdr) with p2 in * by reflexivity.
    exists h2, h23, h3, h32. repeat (split; [assumption|]).
    (* the liberated region has no free neighbour *)
    unfold bs'.
    assert (Hrest : head_free rest = false /\ no_adjacent_free rest).
    { assert (Hpost : no_adjacent_free post).
      { clear -Hn. induction pre as [|b pre IH]; simpl app in Hn.
        - do 3 apply no_adjacent_free_tail in Hn. exact Hn.
        - apply IH. eapply no_adjacent_free_tail. exact Hn. }
      unfold rest. destruct post as [|[sp [|]] post'].
      - auto.
      - apply no_adjacent_free_cons in Hpost. simpl in Hpost. tauto.
      - auto. }
    destruct Hrest as [Hh Hnr].
    assert (Hpre : forall tl, head_free tl = false -> no_adjacent_free tl ->
                     no_adjacent_free (pre ++ tl)).
    { clear -Hn. intros tl Htl Hntl. induction pre as [|b pre IH]; simpl app in *.
      - exact Hntl.
      - apply no_adjacent_free_cons in Hn. destruct Hn as [Hb Hn].
        apply no_adjacent_free_cons. split; [|apply IH; exact Hn].
        destruct pre as [|b' pre']; simpl app in *.
        + rewrite Htl. apply andb_false_r.
        + exact Hb. }
    apply Hpre; [reflexivity|].
    apply no_adjacent_free_cons. split; [reflexivity|].
    apply no_adjacent_free_cons. simpl. rewrite Hh. auto.
Qed.


(** *** Live pointers *)

Lemma block_at_In bs : forall a t b,
  block_at hdr a bs t = Some b -> In t (block_addrs hdr a bs).
Proof.
  induction bs as [|[sz fr] rest IH]; intros a t b H; [discriminate|].
  simpl in *. destruct (a =? t) eqn:E.
  - left. lia.
  - right. eapply IH. exact H.
Qed.

Lemma block_at_ge bs : forall a t b,
  Forall (fun b : Z * bool => 0 <= b.1) bs ->
  block_at hdr a bs t = Some b -> a <= t.
Proof.
  induction bs as [|[sz fr] rest IH]; intros a t b Hall H; [discriminate|].
  inversion Hall as [|? ? Hsz Hall']; subst. simpl in *.
  destruct (a =? t) eqn:E; [lia|]. apply IH in H; [lia|exact Hall'].
Qed.

Lemma chain_block_at bs : forall bl prev a e t sz fr,
  chain hdr bl prev a bs e -> block_at hdr a bs t = Some (sz, fr) ->
  exists b, bl !! t = Some b /\ blk_size b = sz /\ blk_free b = fr.
Proof.
  induction bs as [|[s0 f0] rest IH]; intros bl prev a e t sz fr Hc H; [discriminate|].
  simpl in Hc. destruct Hc as (_ & _ & Hl & Hc). simpl in H.
  destruct (a =? t) eqn:E.
  - apply Z.eqb_eq in E. subst t. inversion H; subst. eexists. split; [exact Hl|]. auto.
  - eapply IH; eassumption.
Qed.

Lemma alloc_list_ge bs : forall a n q bs',
  Forall (fun b : Z * bool => 0 <= b.1) bs ->
  alloc_list hdr a bs n = Some (q, bs') -> a <= q.
Proof.
  induction bs as [|[sz fr] rest IH]; intros a n q bs' Hall H; [discriminate|].
  inversion Hall as [|? ? Hsz Hall']; subst. simpl in *.
  destruct (fr && (n <=? sz)).
  - inversion H; subst. lia.
  - destruct (alloc_list hdr (a + hdr + sz) rest n) as [[q' r]|] eqn:Eal; [|discriminate].
    inversion H; subst. apply IH in Eal; [lia|exact Hall'].
Qed.

(** [kmalloc] leaves the allocated blocks as they are. *)
Lemma alloc_list_block_at_other bs : forall a n q bs' t sz,
  Forall (fun b : Z * bool => 0 <= b.1) bs -> 0 <= n ->
  alloc_list hdr a bs n = Some (q, bs') ->
  block_at hdr a bs t = Some (sz, false) ->
  block_at hdr a bs' t = Some (sz, false).
Proof.
  induction bs as [|[s0 f0] rest IH]; intros a n q bs' t sz Hall Hn H Hb; [discriminate|].
  inversion Hall as [|? ? Hs0 Hall']; subst. simpl in Hs0.
  simpl in H, Hb. destruct (f0 && (n <=? s0)) eqn:Efit.
  - apply andb_true_iff in Efit as [-> Hle]. apply Z.leb_le in Hle.
    destruct (a =? t) eqn:E; [discriminate|].
    pose proof (block_at_ge _ _ _ _ Hall' Hb) as Hge.
    inversion H; subst. destruct (n + hdr + 8 <? s0) eqn:Esp.
    + apply Z.ltb_lt in Esp. simpl. rewrite E.
      destruct (q + hdr + n =? t) eqn:E1; [lia|].
      replace (q + hdr + n + hdr + (s0 - n - hdr)) with (q + hdr + s0) by lia. exact Hb.
    + simpl. rewrite E. exact Hb.
  - destruct (alloc_list hdr (a + hdr + s0) rest n) as [[q' r]|] eqn:Eal; [|discriminate].
    inversion H; subst. simpl. destruct (a =? t); [exact Hb|].
    exact (IH _ n q r t sz Hall' Hn Eal Hb).
Qed.

(** [kmalloc] hands out a block that was free. *)
Lemma alloc_list_block_at_new bs : forall a n q bs',
  Forall (fun b : Z * bool => 0 <= b.1) bs ->
  alloc_list hdr a bs n = Some (q, bs') ->
  (exists sz, block_at hdr a bs q = Some (sz, true)) /\
  (exists sz, block_at hdr a bs' q = Some (sz, false)).
Proof.
  induction bs as [|[s0 f0] rest IH]; intros a n q bs' Hall H; [discriminate|].
  inversion Hall as [|? ? Hs0 Hall']; subst. simpl in Hs0.
  simpl in H. destruct (f0 && (n <=? s0)) eqn:Efit.
  - apply andb_true_iff in Efit as [-> Hle].
    inversion H; subst. simpl. rewrite Z.eqb_refl. split; [eauto|].
    destruct (n + hdr + 8 <? s0); simpl; rewrite Z.eqb_refl; eauto.
  - destruct (alloc_list hdr (a + hdr + s0) rest n) as [[q' r]|] eqn:Eal; [|discriminate].
    inversion H; subst.
    pose proof (alloc_list_ge _ _ _ _ _ Hall' Eal) as Hge.
    simpl. destruct (a =? q) eqn:E; [lia|].
    eapply IH; eassumption.
Qed.

Lemma free_head_block_at a sz fr rest x s :
  block_at hdr a ((sz, fr) :: rest) x = Some (s, false) -> x <> a ->
  block_at hdr a (free_head hdr sz rest) x = Some (s, false).
Proof.
  intros H Hne. simpl in H. destruct (a =? x) eqn:E; [lia|].
  destruct rest as [|[s1 [|]] rest1]; simpl; rewrite ?E; try exact H.
  simpl in H. destruct (a + hdr + sz =? x); [discriminate|].
  replace (a + hdr + (sz + (s1 + hdr))) with (a + hdr + sz + hdr + s1) by lia. exact H.
Qed.

(** [kfree] leaves the other allocated blocks as they are. *)
Lemma free_list_block_at_other bs : forall a t x s,
  block_at hdr a bs x = Some (s, false) -> x <> t ->
  block_at hdr a (free_list hdr a bs t) x = Some (s, false).
Proof.
  induction bs as [|[s0 f0] rest IH]; intros a t x s H Hne; [discriminate|].
  simpl free_list. destruct (a =? t) eqn:Eat.
  - apply Z.eqb_eq in Eat. subst t. apply free_head_block_at with (fr := f0); assumption.
  - destruct rest as [|[s1 f1] rest1]; [exact H|].
    destruct (a + hdr + s0 =? t) eqn:Enext.
    + apply Z.eqb_eq in Enext.
      destruct (free_head_shape s1 rest1) as (szm & rest2 & Hfh).
      simpl in H. destruct (a =? x) eqn:Eax.
      * inversion H; subst. rewrite Hfh. simpl. rewrite Eax. reflexivity.
      * pose proof (free_head_block_at (a + hdr + s0) s1 f1 rest1 x s H ltac:(lia)) as H1.
        rewrite Hfh in *. destruct f0.
        -- simpl. rewrite Eax. simpl in H1.
           destruct (a + hdr + s0 =? x) eqn:E1; [discriminate|].
           replace (a + hdr + (s0 + (szm + hdr))) with (a + hdr + s0 + hdr + szm) by lia.
           exact H1.
        -- simpl. rewrite Eax. exact H1.
    + simpl in H |- *. destruct (a =? x); [exact H|].
      apply IH; assumption.
Qed.

(** After [kfree] the block is not allocated any more. *)
Lemma free_list_block_at_freed bs : forall a t s,
  Forall (fun b : Z * bool => 0 <= b.1) bs ->
  In t (block_addrs hdr a bs) ->
  block_at hdr a (free_list hdr a bs t) t <> Some (s, false).
Proof.
  induction bs as [|[s0 f0] rest IH]; intros a t s Hall Hin; [destruct Hin|].
  inversion Hall as [|? ? Hs0 Hall']; subst. simpl in Hs0.
  simpl free_list. destruct (a =? t) eqn:Eat.
  - destruct (free_head_shape s0 rest) as (szm & rest2 & ->).
    simpl. rewrite Eat. congruence.
  - simpl in Hin. destruct Hin as [Hin|Hin]; [lia|].
    destruct rest as [|[s1 f1] rest1]; [destruct Hin|].
    inversion Hall' as [|? ? Hs1 Hall'']; subst. simpl in Hs1.
    destruct (a + hdr + s0 =? t) eqn:Enext.
    + destruct (free_head_shape s1 rest1) as (szm & rest2 & Hfh). rewrite Hfh.
      destruct f0.
      * simpl. rewrite Eat. intros Hb.
        assert (Hnn : Forall (fun b : Z * bool => 0 <= b.1) rest2 /\ 0 <= szm).
        { destruct rest1 as [|[s2 [|]] rest3]; simpl in Hfh; inversion Hfh; subst.
          - split; [constructor|lia].
          - inversion Hall'' as [|? ? Hs2 ?]; subst. simpl in Hs2. split; [assumption|lia].
          - split; [assumption|lia]. }
        destruct Hnn as [Hnn Hszm].
        apply block_at_ge in Hb; [lia|exact Hnn].
      * simpl. rewrite Eat, Enext. congruence.
    + simpl. rewrite Eat. apply IH; assumption.
Qed.

(** *** Claims on [kmalloc] *)

Lemma alloc_list_first_fit bs : forall a n p bs',
  alloc_list hdr a bs n = Some (p, bs') ->
  exists pre sz post,
    bs = pre ++ (sz, true) :: post /\ n <= sz /\ p = a + span hdr pre /\
    Forall (fun b : Z * bool => b.2 = false \/ b.1 < n) pre.
Proof.
  induction bs as [|[sz fr] rest IH]; intros a n p bs' H; [discriminate|].
  simpl in H. destruct (fr && (n <=? sz)) eqn:Efit.
  - apply andb_true_iff in Efit as [-> Hle]. apply Z.leb_le in Hle.
    inversion H; subst. exists [], sz, rest. simpl. repeat split; [lia|lia|constructor].
  - destruct (alloc_list hdr (a + hdr + sz) rest n) as [[q r]|] eqn:Eal; [|discriminate].
    inversion H; subst.
    destruct (IH _ _ _ _ Eal) as (pre & sz' & post & -> & Hle & -> & Hall).
    exists ((sz, fr) :: pre), sz', post. simpl. repeat split; [lia|lia|].
    constructor; [|exact Hall]. simpl.
    apply andb_false_iff in Efit as [->|Hlt]; [left; reflexivity|right].
    apply Z.leb_gt in Hlt. exact Hlt.
Qed.



(** *** Claims on [krealloc] *)

Lemma live_bounds h bs ptr sz :
  heap_repr hdr h bs -> live hdr h bs ptr sz ->
  8 <= ptr - hdr /\ In (ptr - hdr) (block_addrs hdr (heap_start h) bs) /\
  exists b, blocks h !! (ptr - hdr) = Some b /\ blk_size b = sz /\ blk_free b = false.
Proof.
  intros (_ & _ & _ & _ & Hc) Hl. unfold live in Hl.
  pose proof (block_at_In _ _ _ _ Hl) as Hin.
  destruct (block_addrs_bounds _ _ _ _ _ _ Hc Hin) as (_ & _ & H8).
  split; [exact H8|]. split; [exact Hin|].
  eapply chain_block_at; eassumption.
Qed.

Lemma heap_repr_with_mem h bs m :
  heap_repr hdr h bs -> heap_repr hdr (with_mem h m) bs.
Proof. intros H. exact H. Qed.

(** C10.  [krealloc(NULL, s)] is [kmalloc(s)], for every size [s]; and
    for every live pointer [ptr], [krealloc(ptr, 0)] frees [ptr], which
    is not allocated afterwards, and returns [NULL]. *)
Theorem krealloc_boundary_cases :
  (forall h s, krealloc hdr h 0 s = kmalloc hdr h s) /\
  (forall h bs ptr sz,
     heap_repr hdr h bs -> live hdr h bs ptr sz ->
     exists h',
       kfree hdr h ptr = Some h' /\
       krealloc hdr h ptr 0 = Some (0, h') /\
       heap_repr hdr h' (free_list hdr (heap_start h) bs (ptr - hdr)) /\
       forall s, ~ live hdr h' (free_list hdr (heap_start h) bs (ptr - hdr)) ptr s).
Proof.
  split; [reflexivity|].
  intros h bs ptr sz Hr Hl.
  destruct (live_bounds _ _ _ _ Hr Hl) as (H8 & Hin & _).
  destruct (kfree_repr h bs ptr Hr Hin) as (h' & Hk & Hr' & _ & Hs & _).
  exists h'. split; [exact Hk|]. split.
  - unfold krealloc. destruct (ptr =? 0) eqn:E; [lia|]. simpl. rewrite Hk. reflexivity.
  - split; [exact Hr'|]. intros s. unfold live. rewrite Hs.
    apply free_list_block_at_freed; [|exact Hin].
    destruct Hr as (_ & _ & _ & _ & Hc). eapply chain_sizes. exact Hc.
Qed.


End HeapFacts.

(** *** The claims at concrete heaps *)

Ltac repr_by_computation :=
  vm_compute;
  repeat match goal with |- _ /\ _ => split end;
  try reflexivity; try discriminate; try (intro; discriminate).

Lemma three_blocks_repr :
  heap_repr 32 three_blocks [(104, false); (104, false); (104, false); (584, true)].
Proof. repr_by_computation. Qed.

Lemma four_blocks_repr :
  heap_repr 32 four_blocks
    [(104, false); (104, false); (104, false); (104, false); (448, true)].
Proof. repr_by_computation. Qed.

Lemma one_block_repr : heap_repr 32 one_block [(104, false); (856, true)].
Proof. repr_by_computation. Qed.

(** C4 fails as stated: in the 1024-byte arena three blocks of 104 bytes
    are allocated back to back, at [0x200020], [0x2000a8] and
    [0x200130]; the second and the third are freed, in either order; the
    free block that results has 856 bytes, not [104 + 104 + 32]: it took
    in the free block that followed the third one as well. *)
Lemma coalescing_takes_free_successor :
  block_list three_blocks = [(104, false); (104, false); (104, false); (584, true)] /\
  block_list (then_kfree 32 (then_kfree 32 three_blocks 0x2000a8) 0x200130)
    = [(104, false); (856, true)] /\
  block_list (then_kfree 32 (then_kfree 32 three_blocks 0x200130) 0x2000a8)
    = [(104, false); (856, true)] /\
  856 <> 104 + 104 + 32.
Proof. vm_compute. repeat split; congruence. Qed.

Lemma kfree_eager_coalescing_witness :
  0 < 32 /\
  heap_repr 32 four_blocks
    [(104, false); (104, false); (104, false); (104, false); (448, true)] /\
  no_adjacent_free
    [(104, false); (104, false); (104, false); (104, false); (448, true)] /\
  exists h2 h23 h3 h32,
    kfree 32 four_blocks 0x2000a8 = Some h2 /\ kfree 32 h2 0x200130 = Some h23 /\
    kfree 32 four_blocks 0x200130 = Some h3 /\ kfree 32 h3 0x2000a8 = Some h32 /\
    heap_repr 32 h23 [(104, false); (104 + 104 + 32 + 0, true); (104, false); (448, true)] /\
    heap_repr 32 h32 [(104, false); (104 + 104 + 32 + 0, true); (104, false); (448, true)] /\
    no_adjacent_free
      [(104, false); (104 + 104 + 32 + 0, true); (104, false); (448, true)].
Proof.
  split; [lia|]. split; [exact four_blocks_repr|].
  split; [simpl; tauto|].
  exact (proj2 (kfree_eager_coalescing 32 ltac:(lia) four_blocks _ four_blocks_repr
                  ltac:(simpl; tauto))
               [] 104 [(104, false); (448, true)] eq_refl).
Defined.




Lemma krealloc_boundary_cases_witness :
  0 < 32 /\
  heap_repr 32 one_block [(104, false); (856, true)] /\
  live 32 one_block [(104, false); (856, true)] 0x200020 104 /\
  krealloc 32 one_block 0 100 = kmalloc 32 one_block 100 /\
  exists h',
    kfree 32 one_block 0x200020 = Some h' /\
    krealloc 32 one_block 0x200020 0 = Some (0, h') /\
    heap_repr 32 h'
      (free_list 32 (heap_start one_block) [(104, false); (856, true)] (0x200020 - 32)) /\
    forall s, ~ live 32 h'
      (free_list 32 (heap_start one_block) [(104, false); (856, true)] (0x200020 - 32))
      0x200020 s.
Proof.
  split; [lia|]. split; [exact one_block_repr|]. split; [reflexivity|].
  split; [exact (proj1 (krealloc_boundary_cases 32 ltac:(lia)) one_block 100)|].
  exact (proj2 (krealloc_boundary_cases 32 ltac:(lia)) one_block _ 0x200020 104
               one_block_repr eq_refl).
Defined.

End MMFacts.

(** * Properties of task management *)

Module TaskFacts.

Import MM Task.

(** ** Spinlocks *)

(** C9.  [spinlock_release] by a caller whose id is not the recorded
    owner changes nothing, neither the locked flag nor the owner nor the
    counters of the lock nor anything else, and returns as usual; so
    does a release through a null pointer. *)
Theorem spinlock_release_non_owner (k : kernel) (n : lock_name) (caller : Z) :
  task_get_current_id k = Ret caller k ->
  l_owner (get_lock n k) <> caller ->
  spinlock_release (Some n) k = Ret tt k /\
  spinlock_release None k = Ret tt k.
Proof.
  intros Hid Hne. split; [|reflexivity].
  unfold spinlock_release, bind, gets. rewrite Hid.
  destruct (l_owner (get_lock n k) =? caller) eqn:E; [lia|]. reflexivity.
Qed.

Lemma spinlock_release_non_owner_witness :
  task_get_current_id normal_runs = Ret 1 normal_runs /\
  l_owner (get_lock SchedulerLock normal_runs) <> 1 /\
  spinlock_release (Some SchedulerLock) normal_runs = Ret tt normal_runs /\
  spinlock_release None normal_runs = Ret tt normal_runs.
Proof.
  assert (H1 : task_get_current_id normal_runs = Ret 1 normal_runs)
    by (vm_compute; reflexivity).
  assert (H2 : l_owner (get_lock SchedulerLock normal_runs) <> 1)
    by (vm_compute; discriminate).
  split; [exact H1|]. split; [exact H2|].
  exact (spinlock_release_non_owner normal_runs SchedulerLock 1 H1 H2).
Defined.

(** ** The tick *)

(** C2 at the failing state.  The running task has priority LOW and 49
    ticks of its slice left after the decrement; the task at [0x202510]
    is READY with priority NORMAL, linked into its ready queue; yet the
    condition of [scheduler_tick] is false, and the tick ends with the
    same task running and no context switch. *)
Theorem tick_misses_normal_over_low :
  let k := low_runs_normal_ready in
  let k1 := state_after (tick_account k) k in
  result (tick_account k) = Some tt /\
  current_task k1 = 0x200020 /\
  state_of k1 0x200020 = Some TASK_RUNNING /\
  priority_of k1 0x200020 = Some PRIORITY_LOW /\
  slice_of k1 0x200020 = Some 49 /\
  state_of k1 0x202510 = Some TASK_READY /\
  priority_of k1 0x202510 = Some PRIORITY_NORMAL /\
  linked k1 PRIORITY_NORMAL 0x202510 /\
  PRIORITY_LOW < PRIORITY_NORMAL /\
  result (tick_preempts k1) = Some false /\
  result (scheduler_tick k) = Some tt /\
  current_task (state_after (scheduler_tick k) k) = 0x200020 /\
  context_switches (scheduler_stats (state_after (scheduler_tick k) k))
    = context_switches (scheduler_stats k).
Proof.
  vm_compute. repeat split; try reflexivity. left. reflexivity.
Qed.

(** ** Selection *)

(** C1 at the failing state.  [find_next_ready_task] selects the task at
    [0x200020], the head of the NORMAL queue, whose priority is now
    IDLE, while the task at [0x202510] is READY with priority LOW; and
    [schedule_next_task] leaves the selected task running. *)
Theorem selection_below_ready_task :
  let k := lowered_while_running in
  result (find_next_ready_task k) = Some 0x200020 /\
  queue_head (ready_queues k) PRIORITY_NORMAL = 0x200020 /\
  priority_of k 0x200020 = Some PRIORITY_IDLE /\
  state_of k 0x202510 = Some TASK_READY /\
  priority_of k 0x202510 = Some PRIORITY_LOW /\
  PRIORITY_IDLE < PRIORITY_LOW /\
  result (schedule_next_task k) = Some tt /\
  current_task (state_after (schedule_next_task k) k) = 0x200020.
Proof.
  vm_compute. repeat split; reflexivity.
Qed.

(** ** Rules for [wp] and [wpt] *)

Lemma wpt_wp {A} (m : M A) post k : wpt m post k -> wp m post k.
Proof. unfold wpt, wp. destruct (m k); tauto. Qed.

Lemma wp_bind {A B} (m : M A) (f : A -> M B) post k :
  wp m (fun a k' => wp (f a) post k') k -> wp (bind m f) post k.
Proof. unfold wp, bind. destruct (m k); auto. Qed.

Lemma wpt_bind {A B} (m : M A) (f : A -> M B) post k :
  wpt m (fun a k' => wpt (f a) post k') k -> wpt (bind m f) post k.
Proof. unfold wpt, bind. destruct (m k); auto. Qed.

Lemma wp_mono {A} (m : M A) (post post' : A -> kernel -> Prop) k :
  wp m post k -> (forall a k', post a k' -> post' a k') -> wp m post' k.
Proof. unfold wp. destruct (m k); auto. Qed.

Lemma wpt_mono {A} (m : M A) (post post' : A -> kernel -> Prop) k :
  wpt m post k -> (forall a k', post a k' -> post' a k') -> wpt m post' k.
Proof. unfold wpt. destruct (m k); auto. Qed.

Lemma wpt_ret {A} (a : A) post k : post a k -> wpt (ret a) post k.
Proof. auto. Qed.

Lemma wpt_gets {A} (f : kernel -> A) post k : post (f k) k -> wpt (gets f) post k.
Proof. auto. Qed.

Lemma wpt_modify (f : kernel -> kernel) post k : post tt (f k) -> wpt (modify f) post k.
Proof. auto. Qed.

Lemma wp_ret {A} (a : A) post k : post a k -> wp (ret a) post k.
Proof. auto. Qed.

Lemma wp_gets {A} (f : kernel -> A) post k : post (f k) k -> wp (gets f) post k.
Proof. auto. Qed.

Lemma wp_modify (f : kernel -> kernel) post k : post tt (f k) -> wp (modify f) post k.
Proof. auto. Qed.

Lemma wp_rd p post k :
  (forall t, tasks k !! p = Some t -> post t k) -> wp (rd p) post k.
Proof. unfold wp, rd. destruct (tasks k !! p); auto. Qed.

Lemma wpt_rd p t post k :
  tasks k !! p = Some t -> post t k -> wpt (rd p) post k.
Proof. unfold wpt, rd. intros ->. auto. Qed.

Lemma wp_wrt p f post k :
  (forall t, tasks k !! p = Some t ->
             post tt (set_tasks (<[p := f t]> (tasks k)) k)) ->
  wp (wrt p f) post k.
Proof. unfold wp, wrt. destruct (tasks k !! p); auto. Qed.

Lemma wpt_wrt p f t post k :
  tasks k !! p = Some t ->
  post tt (set_tasks (<[p := f t]> (tasks k)) k) ->
  wpt (wrt p f) post k.
Proof. unfold wpt, wrt. intros ->. auto. Qed.

Lemma wp_hang {A} (post : A -> kernel -> Prop) k : wp hang post k.
Proof. exact I. Qed.

Lemma wp_panic {A} (post : A -> kernel -> Prop) k : wp panic post k.
Proof. exact I. Qed.

Lemma wp_run {A} (m : M A) post k a k' : wp m post k -> m k = Ret a k' -> post a k'.
Proof. unfold wp. intros H E. rewrite E in H. exact H. Qed.

Lemma wpt_run {A} (m : M A) post k :
  wpt m post k -> exists a k', m k = Ret a k' /\ post a k'.
Proof. unfold wpt. destruct (m k); try tauto. eauto. Qed.

(** ** The current task's id *)

Lemma task_get_current_id_cid k :
  task_get_current_id k =
  match cid k with Some c => Ret c k | None => Fault end.
Proof.
  unfold task_get_current_id, cid, bind, gets, rd, ret.
  destruct (current_task k =? 0); [reflexivity|].
  destruct (tasks k !! current_task k); reflexivity.
Qed.

Lemma cid_abs k :
  cid k = if current_task k =? 0 then Some 0
          else a_id <$> (abs_task <$> tasks k) !! current_task k.
Proof.
  unfold cid. destruct (current_task k =? 0); [reflexivity|].
  rewrite lookup_fmap. destruct (tasks k !! current_task k); reflexivity.
Qed.

Lemma cid_ext k k' :
  abs_task <$> tasks k' = abs_task <$> tasks k ->
  current_task k' = current_task k -> cid k' = cid k.
Proof. intros Ht Hc. rewrite !cid_abs, Ht, Hc. reflexivity. Qed.

(** ** The state assertion under updates *)

Lemma lock_is_ext b l k k' : cid k' = cid k -> lock_is b l k -> lock_is b l k'.
Proof. unfold lock_is. destruct b; [|auto]. intros ->. auto. Qed.

Lemma cid_set_lock n l k : cid (set_lock n l k) = cid k.
Proof. destruct n; reflexivity. Qed.

Lemma get_set_lock n l k : get_lock n (set_lock n l k) = l.
Proof. destruct n; reflexivity. Qed.

Lemma spinlock_acquire_free n k c :
  l_locked (get_lock n k) = 0 -> cid k = Some c ->
  spinlock_acquire (Some n) k =
  Ret tt (set_lock n {| l_locked := 1; l_owner := c;
                        l_count := u32 (l_count (get_lock n k) + 1);
                        l_recursion_count := l_recursion_count (get_lock n k) |} k).
Proof.
  intros Hl Hc. unfold spinlock_acquire, bind, gets, modify. rewrite Hl. simpl.
  rewrite task_get_current_id_cid, cid_set_lock, Hc. rewrite get_set_lock. simpl.
  destruct n; reflexivity.
Qed.

Lemma spinlock_acquire_held n k :
  l_locked (get_lock n k) <> 0 -> spinlock_acquire (Some n) k = Hang.
Proof.
  intros Hl. unfold spinlock_acquire, bind, gets.
  destruct (l_locked (get_lock n k) =? 0) eqn:E; [lia|]. reflexivity.
Qed.

Lemma spinlock_release_owner n k :
  cid k = Some (l_owner (get_lock n k)) ->
  spinlock_release (Some n) k =
  Ret tt (set_lock n {| l_locked := 0; l_owner := 0;
                        l_count := l_count (get_lock n k);
                        l_recursion_count := l_recursion_count (get_lock n k) |} k).
Proof.
  intros Hc. unfold spinlock_release, bind, gets, modify.
  rewrite task_get_current_id_cid, Hc. rewrite Z.eqb_refl. reflexivity.
Qed.

Lemma task_get_current_id_cid_acquire n k :
  l_locked (get_lock n k) = 0 ->
  spinlock_acquire (Some n) k =
  match cid k with
  | Some c =>
    Ret tt (set_lock n {| l_locked := 1; l_owner := c;
                          l_count := u32 (l_count (get_lock n k) + 1);
                          l_recursion_count := l_recursion_count (get_lock n k) |} k)
  | None => Fault
  end.
Proof.
  intros Hl. destruct (cid k) as [c|] eqn:Hc.
  - apply spinlock_acquire_free; assumption.
  - unfold spinlock_acquire, bind, gets, modify. rewrite Hl. simpl.
    rewrite task_get_current_id_cid, cid_set_lock, Hc. reflexivity.
Qed.

(** Whatever the state, a lock that [spinlock_acquire] has returned from
    is held. *)
Lemma wp_acquire_locked n k :
  wp (spinlock_acquire (Some n))
     (fun _ k' => l_locked (get_lock n k') <> 0 /\ tasks k' = tasks k /\
                  current_task k' = current_task k /\
                  ready_queues k' = ready_queues k) k.
Proof.
  unfold wp. destruct (l_locked (get_lock n k) =? 0) eqn:E.
  - apply Z.eqb_eq in E. rewrite task_get_current_id_cid_acquire; [|exact E].
    destruct (cid k) as [c|] eqn:Hc; [|exact I].
    rewrite get_set_lock. simpl. destruct n; simpl; repeat split; lia.
  - rewrite spinlock_acquire_held by lia. exact I.
Qed.

Section SchedFacts.

Variable P : platform.
Hypothesis P_ok : platform_ok P.

Lemma st_ext pend tl sc k k' Q :
  st P pend tl sc k Q ->
  abs_task <$> tasks k' = abs_task <$> tasks k ->
  ready_queues k' = ready_queues k ->
  current_task k' = current_task k ->
  kheap k' = kheap k ->
  task_list_lock k' = task_list_lock k ->
  scheduler_lock k' = scheduler_lock k ->
  st P pend tl sc k' Q.
Proof.
  intros [Hc Htl Hsc] Ht Hrq Hcur Hh Hl1 Hl2.
  pose proof (cid_ext _ _ Ht Hcur) as Hcid.
  split.
  - rewrite Ht, Hrq, Hcur, Hh. exact Hc.
  - rewrite Hl1. eapply lock_is_ext; eassumption.
  - rewrite Hl2. eapply lock_is_ext; eassumption.
Qed.

(** A write that the queues do not see. *)
Lemma abs_insert_same (m : gmap Z task_t) x t t' :
  m !! x = Some t -> abs_task t' = abs_task t ->
  abs_task <$> <[x := t']> m = abs_task <$> m.
Proof.
  intros Hx Ha. rewrite fmap_insert. apply insert_id.
  rewrite lookup_fmap, Hx. simpl. congruence.
Qed.

Lemma st_wrt_same pend tl sc k Q x t f :
  st P pend tl sc k Q ->
  tasks k !! x = Some t -> abs_task (f t) = abs_task t ->
  st P pend tl sc (set_tasks (<[x := f t]> (tasks k)) k) Q.
Proof.
  intros Hst Hx Ha. eapply st_ext; [exact Hst|..]; try reflexivity.
  simpl. eapply abs_insert_same; eassumption.
Qed.

(** A task of a queue is a control block that is READY or RUNNING. *)
Lemma st_member pend tl sc k Q x :
  st P pend tl sc k Q -> In x (concat Q) ->
  exists t i, tasks k !! x = Some t /\ schedulable (t_state t) = true /\
    t_priority t = Z.of_nat i /\ (i < 5)%nat /\ x <> 0.
Proof.
  intros [Hc _ _] Hin. apply in_concat in Hin as (l & Hl & Hx).
  apply list_elem_of_In, list_elem_of_lookup in Hl as (i & Hi).
  destruct (core_member _ _ _ _ _ _ _ Hc i l x Hi Hx) as (a & Ha & Hp & Hok).
  rewrite lookup_fmap in Ha. destruct (tasks k !! x) as [t|] eqn:Ht; [|discriminate].
  inversion Ha; subst a. exists t, i. repeat split; try assumption.
  - apply lookup_lt_Some in Hi. rewrite (core_len_Q _ _ _ _ _ _ _ Hc) in Hi. exact Hi.
  - pose proof (core_chain _ _ _ _ _ _ _ Hc i l Hi) as Hch.
    clear -Hch Hx. revert Hch. generalize (queue_head (ready_queues k) (Z.of_nat i)).
    induction l as [|y l IH]; [destruct Hx|]. intros h (-> & Hy & a & _ & Hch).
    destruct Hx as [->|Hx]; [exact Hy|]. eapply IH; eauto.
Qed.

Lemma st_dom pend tl sc k Q x :
  st P pend tl sc k Q -> is_Some (tasks k !! x) -> In x (concat Q) \/ In x pend.
Proof.
  intros [Hc _ _] Hx. apply (core_all _ _ _ _ _ _ _ Hc).
  rewrite lookup_fmap. destruct Hx as [t ->]. eauto.
Qed.

Lemma st_cid pend tl sc k Q : st P pend tl sc k Q -> exists c, cid k = Some c.
Proof.
  intros Hst. pose proof (core_cur _ _ _ _ _ _ _ (st_core _ _ _ _ _ _ Hst)) as Hcur.
  destruct (st_member _ _ _ _ _ _ Hst Hcur) as (t & i & Ht & _ & _ & _ & Hne).
  unfold cid. destruct (current_task k =? 0) eqn:E; [lia|]. rewrite Ht. simpl. eauto.
Qed.

(** Locks taken and given back under [st]. *)
Lemma wpt_acquire_tl pend sc k Q post :
  st P pend false sc k Q ->
  (forall l, st P pend true sc (set_task_list_lock l k) Q ->
             post tt (set_task_list_lock l k)) ->
  wpt (spinlock_acquire task_list_lock_p) post k.
Proof.
  intros Hst Hpost. destruct (st_cid _ _ _ _ _ Hst) as (c & Hc).
  pose proof (st_tl _ _ _ _ _ _ Hst) as Hfree. simpl in Hfree.
  unfold wpt, task_list_lock_p.
  rewrite (spinlock_acquire_free TaskListLock k c Hfree Hc). simpl.
  apply Hpost. destruct Hst as [Hcore Htl Hsc]. split; simpl.
  - exact Hcore.
  - split; [lia|exact Hc].
  - eapply lock_is_ext; [|exact Hsc]. reflexivity.
Qed.

Lemma wpt_acquire_sc pend tl k Q post :
  st P pend tl false k Q ->
  (forall l, st P pend tl true (set_scheduler_lock l k) Q ->
             post tt (set_scheduler_lock l k)) ->
  wpt (spinlock_acquire scheduler_lock_p) post k.
Proof.
  intros Hst Hpost. destruct (st_cid _ _ _ _ _ Hst) as (c & Hc).
  pose proof (st_sc _ _ _ _ _ _ Hst) as Hfree. simpl in Hfree.
  unfold wpt, scheduler_lock_p.
  rewrite (spinlock_acquire_free SchedulerLock k c Hfree Hc). simpl.
  apply Hpost. destruct Hst as [Hcore Htl Hsc]. split; simpl.
  - exact Hcore.
  - eapply lock_is_ext; [|exact Htl]. reflexivity.
  - split; [lia|exact Hc].
Qed.

Lemma wpt_release_tl pend sc k Q post :
  st P pend true sc k Q ->
  (forall l, st P pend false sc (set_task_list_lock l k) Q ->
             post tt (set_task_list_lock l k)) ->
  wpt (spinlock_release task_list_lock_p) post k.
Proof.
  intros Hst Hpost. destruct Hst as [Hcore [Hl Hc] Hsc].
  unfold wpt, task_list_lock_p.
  rewrite (spinlock_release_owner TaskListLock k Hc). simpl.
  apply Hpost. split; simpl.
  - exact Hcore.
  - reflexivity.
  - eapply lock_is_ext; [|exact Hsc]. reflexivity.
Qed.

Lemma wpt_release_sc pend tl k Q post :
  st P pend tl true k Q ->
  (forall l, st P pend tl false (set_scheduler_lock l k) Q ->
             post tt (set_scheduler_lock l k)) ->
  wpt (spinlock_release scheduler_lock_p) post k.
Proof.
  intros Hst Hpost. destruct Hst as [Hcore Htl [Hl Hc]].
  unfold wpt, scheduler_lock_p.
  rewrite (spinlock_release_owner SchedulerLock k Hc). simpl.
  apply Hpost. split; simpl.
  - exact Hcore.
  - eapply lock_is_ext; [|exact Htl]. reflexivity.
  - reflexivity.
Qed.

Lemma st_stats pend tl sc k Q s :
  st P pend tl sc k Q -> st P pend tl sc (set_scheduler_stats s k) Q.
Proof. intros H. eapply st_ext; [exact H|reflexivity..]. Qed.

Lemma wpt_upd_stats pend tl sc k Q f post :
  st P pend tl sc k Q ->
  (st P pend tl sc (set_scheduler_stats (f (scheduler_stats k)) k) Q ->
   post tt (set_scheduler_stats (f (scheduler_stats k)) k)) ->
  wpt (upd_stats f) post k.
Proof.
  intros Hst Hpost. unfold upd_stats. apply wpt_modify. apply Hpost.
  apply st_stats. exact Hst.
Qed.

Lemma abs_set_state_ok t s :
  schedulable (t_state t) = true -> schedulable s = true ->
  abs_task (set_state s t) = abs_task t.
Proof. intros H1 H2. unfold abs_task. simpl. rewrite H1, H2. reflexivity. Qed.

(** A write to a task of a queue that keeps it READY or RUNNING and
    leaves its links, priority and id alone. *)
Lemma wpt_wrt_member pend tl sc k Q x f post :
  st P pend tl sc k Q -> In x (concat Q) ->
  (forall t, schedulable (t_state t) = true -> abs_task (f t) = abs_task t) ->
  (forall t, tasks k !! x = Some t ->
     st P pend tl sc (set_tasks (<[x := f t]> (tasks k)) k) Q ->
     post tt (set_tasks (<[x := f t]> (tasks k)) k)) ->
  wpt (wrt x f) post k.
Proof.
  intros Hst Hin Hf Hpost.
  destruct (st_member _ _ _ _ _ _ Hst Hin) as (t & i & Ht & Hok & _).
  eapply wpt_wrt; [exact Ht|]. apply Hpost; [exact Ht|].
  eapply st_wrt_same; [exact Hst|exact Ht|]. apply Hf. exact Hok.
Qed.

(** A write, wherever, that the queues do not see. *)
Lemma wp_wrt_same pend tl sc k Q x f post :
  st P pend tl sc k Q ->
  (forall t, abs_task (f t) = abs_task t) ->
  (forall t, tasks k !! x = Some t ->
     st P pend tl sc (set_tasks (<[x := f t]> (tasks k)) k) Q ->
     post tt (set_tasks (<[x := f t]> (tasks k)) k)) ->
  wp (wrt x f) post k.
Proof.
  intros Hst Hf Hpost. apply wp_wrt. intros t Ht. apply Hpost; [exact Ht|].
  eapply st_wrt_same; [exact Hst|exact Ht|apply Hf].
Qed.

(** ** Selection and switch *)

Lemma find_ready_below_spec rq n :
  find_ready_below rq n = 0 \/
  exists i, (i < n)%nat /\ find_ready_below rq n = queue_head rq (Z.of_nat i) /\
            queue_head rq (Z.of_nat i) <> 0.
Proof.
  induction n as [|n IH]; simpl; [left; reflexivity|].
  destruct (queue_head rq (Z.of_nat n) =? 0) eqn:E; simpl.
  - destruct IH as [IH|(i & Hi & Hr & Hne)]; [left; exact IH|].
    right. exists i. repeat split; [lia|assumption..].
  - right. exists n. repeat split; [lia|lia].
Qed.

Lemma st_queue_head pend tl sc k Q i :
  st P pend tl sc k Q -> (i < 5)%nat ->
  queue_head (ready_queues k) (Z.of_nat i) <> 0 ->
  In (queue_head (ready_queues k) (Z.of_nat i)) (concat Q).
Proof.
  intros [Hc _ _] Hi Hne.
  destruct (lookup_lt_is_Some_2 Q i) as [l Hl].
  { rewrite (core_len_Q _ _ _ _ _ _ _ Hc). exact Hi. }
  pose proof (core_chain _ _ _ _ _ _ _ Hc i l Hl) as Hch.
  destruct l as [|x l']; simpl in Hch; [congruence|].
  destruct Hch as (Hx & _). apply in_concat. exists (x :: l'). split.
  - apply list_elem_of_In. eapply list_elem_of_lookup_2. exact Hl.
  - left. symmetry. exact Hx.
Qed.

Lemma st_set_current k Q x :
  st P [] false false k Q -> In x (concat Q) ->
  st P [] false false (set_current_task x k) Q.
Proof.
  intros [Hc Htl Hsc] Hin. split; simpl; [|exact Htl|exact Hsc].
  destruct Hc. split; try assumption.
Qed.

Lemma wp_schedule_next_task k Q :
  st P [] false false k Q ->
  wp schedule_next_task (fun _ k' => st P [] false false k' Q) k.
Proof.
  intros Hst. unfold schedule_next_task, find_next_ready_task.
  apply wp_bind, wp_bind, wp_gets, wp_ret.
  destruct (find_ready_below_spec (ready_queues k) (S (Z.to_nat PRIORITY_CRITICAL)))
    as [H0|(i & Hi & Hsel & Hne)].
  { rewrite H0. simpl. exact I. }
  set (next_task := find_ready_below (ready_queues k) (S (Z.to_nat PRIORITY_CRITICAL))) in *.
  assert (Hnext : In next_task (concat Q)).
  { rewrite Hsel. eapply st_queue_head; [exact Hst| |exact Hne].
    change (S (Z.to_nat PRIORITY_CRITICAL)) with 5%nat in Hi. exact Hi. }
  destruct (next_task =? 0) eqn:E0; [lia|].
  apply wp_bind, wp_gets. apply wp_bind.
  eapply wp_mono with (post := fun _ k' => k' = k).
  { destruct (next_task =? current_task k).
    - apply wp_bind, wp_rd. intros c _. apply wp_ret. reflexivity.
    - apply wp_ret. reflexivity. }
  intros same k' ->. destruct same; [apply wp_ret; exact Hst|].
  pose proof (core_cur _ _ _ _ _ _ _ (st_core _ _ _ _ _ _ Hst)) as Hcur.
  apply wp_bind.
  eapply wp_mono with (post := fun _ k' => st P [] false false k' Q).
  { destruct (current_task k =? 0); [apply wp_ret; exact Hst|].
    apply wp_bind, wp_rd. intros o Ho.
    destruct (bool_decide (t_state o = TASK_RUNNING)); [|apply wp_ret; exact Hst].
    apply wpt_wp. eapply wpt_wrt_member; [exact Hst|exact Hcur| |].
    - intros t Hok. apply abs_set_state_ok; [exact Hok|reflexivity].
    - intros t _ Hst'. exact Hst'. }
  intros _ k1 Hst1. apply wp_bind, wp_modify.
  pose proof (st_set_current _ _ _ Hst1 Hnext) as Hst2.
  apply wp_bind. apply wpt_wp. eapply wpt_wrt_member; [exact Hst2|exact Hnext| |].
  { intros t Hok. apply abs_set_state_ok; [exact Hok|reflexivity]. }
  intros t2 _ Hst3. apply wp_bind, wp_gets. apply wp_bind.
  eapply wp_wrt_same; [exact Hst3|reflexivity|].
  intros t3 _ Hst4. apply wp_bind, wp_rd. intros c _. apply wp_bind.
  eapply wp_wrt_same; [exact Hst4|reflexivity|].
  intros t4 _ Hst5. apply wpt_wp. eapply wpt_upd_stats; [exact Hst5|]. auto.
Qed.

Lemma wp_task_yield k Q :
  st P [] false false k Q ->
  wp task_yield (fun _ k' => st P [] false false k' Q) k.
Proof.
  intros Hst. unfold task_yield. apply wp_bind, wp_gets.
  destruct (current_task k =? 0); [apply wp_ret; exact Hst|].
  apply wp_bind, wp_rd. intros c _. apply wp_bind.
  eapply wp_wrt_same; [exact Hst|reflexivity|].
  intros t _ Hst1. apply wp_schedule_next_task. exact Hst1.
Qed.

(** ** The tick *)

Lemma st_all_schedulable tl sc k Q x t :
  st P [] tl sc k Q -> tasks k !! x = Some t -> schedulable (t_state t) = true.
Proof.
  intros Hst Hx. destruct (st_dom _ _ _ _ _ _ Hst (mk_is_Some _ _ Hx)) as [Hin|[]].
  destruct (st_member _ _ _ _ _ _ Hst Hin) as (t' & i & Ht' & Hok & _).
  rewrite Hx in Ht'. inversion Ht'; subst. exact Hok.
Qed.

(** With no task BLOCKED the wake-up loop only reads. *)
Lemma wp_wake_sleepers_none k fuel : forall task now,
  (forall x t, tasks k !! x = Some t -> schedulable (t_state t) = true) ->
  wp (wake_sleepers fuel task now) (fun _ k' => k' = k) k.
Proof.
  induction fuel as [|fuel IH]; intros task now Hall; [exact I|].
  simpl. destruct (task =? 0); [reflexivity|].
  apply wp_bind, wp_rd. intros t Ht.
  pose proof (Hall _ _ Ht) as Hok.
  assert (Hb : bool_decide (t_state t = TASK_BLOCKED) = false).
  { apply bool_decide_eq_false. intros E. rewrite E in Hok. discriminate. }
  rewrite Hb. simpl. apply wp_bind, wp_ret. apply wp_bind, wp_rd. intros t1 _.
  apply IH. exact Hall.
Qed.

Lemma wp_tick_account k Q :
  st P [] false false k Q ->
  wp tick_account (fun _ k' => st P [] false false k' Q) k.
Proof.
  intros Hst. unfold tick_account. apply wp_bind, wp_gets.
  apply wp_bind, wp_rd. intros c _. apply wp_bind.
  eapply wp_wrt_same; [exact Hst|reflexivity|].
  intros t _ Hst1. apply wp_bind. apply wpt_wp.
  eapply wpt_upd_stats; [exact Hst1|]. intros Hst2.
  apply wp_bind, wp_gets. apply wp_bind. apply wpt_wp.
  eapply wpt_acquire_tl; [exact Hst2|]. intros l Hst3.
  apply wp_bind, wp_gets. apply wp_bind, wp_gets. apply wp_bind.
  eapply wp_mono.
  { apply wp_wake_sleepers_none. intros x t0 Hx.
    eapply st_all_schedulable; [exact Hst3|exact Hx]. }
  intros u k' E. cbv beta in E. subst k'. apply wp_bind. apply wpt_wp.
  eapply wpt_release_tl; [exact Hst3|]. intros l' Hst4.
  apply wp_bind, wp_gets. apply wp_bind, wp_rd. intros c1 _.
  match goal with |- context [if ?b then _ else _] => destruct b end.
  - eapply wp_wrt_same; [exact Hst4|reflexivity|]. intros t1 _ Hst5. exact Hst5.
  - apply wp_ret. exact Hst4.
Qed.

Lemma wp_tick_preempts k :
  wp tick_preempts (fun _ k' => k' = k) k.
Proof.
  unfold tick_preempts. apply wp_bind, wp_gets. apply wp_bind, wp_rd. intros c _.
  apply wp_bind, wp_gets. apply wp_ret. reflexivity.
Qed.

Lemma wp_scheduler_tick k Q :
  st P [] false false k Q ->
  wp scheduler_tick (fun _ k' => st P [] false false k' Q) k.
Proof.
  intros Hst. unfold scheduler_tick. apply wp_bind, wp_gets.
  destruct (current_task k =? 0); [apply wp_ret; exact Hst|].
  apply wp_bind. eapply wp_mono; [apply wp_tick_account; exact Hst|].
  intros u k1 Hst1. apply wp_bind.
  eapply wp_mono; [apply wp_tick_preempts|]. intros p k' E. cbv beta in E. subst k'.
  destruct p; [|apply wp_ret; exact Hst1].
  apply wp_bind, wp_gets. apply wp_bind, wp_rd. intros c _. apply wp_bind.
  eapply wp_wrt_same; [exact Hst1|reflexivity|].
  intros t _ Hst2. apply wp_schedule_next_task. exact Hst2.
Qed.

(** ** Lookup by id *)

Lemma wp_task_list_find k fuel : forall task task_id,
  wp (task_list_find fuel task task_id)
     (fun r k' => k' = k /\ (r = 0 \/ is_Some (tasks k !! r))) k.
Proof.
  induction fuel as [|fuel IH]; intros task task_id; [exact I|].
  simpl. destruct (task =? 0); [split; auto|].
  apply wp_bind, wp_rd. intros t Ht.
  destruct (t_id t =? task_id).
  - apply wp_ret. split; [reflexivity|]. right. eauto.
  - apply IH.
Qed.

Lemma wp_task_get_by_id k Q task_id :
  st P [] false false k Q ->
  wp (task_get_by_id task_id)
     (fun r k' => st P [] false false k' Q /\ (r = 0 \/ is_Some (tasks k' !! r))) k.
Proof.
  intros Hst. unfold task_get_by_id. apply wp_bind. apply wpt_wp.
  eapply wpt_acquire_tl; [exact Hst|]. intros l Hst1.
  apply wp_bind, wp_gets. apply wp_bind, wp_gets. apply wp_bind.
  eapply wp_mono; [apply wp_task_list_find|].
  intros r k' [-> Hr]. apply wp_bind. apply wpt_wp.
  eapply wpt_release_tl; [exact Hst1|]. intros l' Hst2.
  apply wp_ret. split; [exact Hst2|]. exact Hr.
Qed.

(** ** Operations that take [scheduler_lock] twice *)

(** [remove_from_ready_queue] under a held [scheduler_lock] does not
    return. *)
Lemma wp_remove_locked task k (post : unit -> kernel -> Prop) :
  task <> 0 -> l_locked (scheduler_lock k) <> 0 ->
  (forall t, tasks k !! task = Some t -> t_priority t <= PRIORITY_CRITICAL) ->
  wp (remove_from_ready_queue task) post k.
Proof.
  intros Hne Hl Hp. unfold remove_from_ready_queue.
  destruct (task =? 0) eqn:E; [lia|].
  apply wp_bind, wp_rd. intros t Ht. specialize (Hp t Ht).
  destruct (PRIORITY_CRITICAL <? t_priority t) eqn:E1; [lia|].
  unfold wp, bind, scheduler_lock_p.
  rewrite (spinlock_acquire_held SchedulerLock k Hl). exact I.
Qed.

Lemma st_priority pend tl sc k Q x t :
  st P pend tl sc k Q -> In x (concat Q) -> tasks k !! x = Some t ->
  t_priority t <= PRIORITY_CRITICAL /\ schedulable (t_state t) = true /\ x <> 0.
Proof.
  intros Hst Hin Hx.
  destruct (st_member _ _ _ _ _ _ Hst Hin) as (t' & i & Ht' & Hok & Hp & Hi & Hne).
  rewrite Hx in Ht'. inversion Ht'; subst t'. unfold PRIORITY_CRITICAL.
  repeat split; [lia|assumption..].
Qed.

Lemma wp_task_suspend k Q task_id :
  st P [] false false k Q ->
  wp (task_suspend task_id) (fun _ k' => st P [] false false k' Q) k.
Proof.
  intros Hst. unfold task_suspend. apply wp_bind.
  eapply wp_mono; [apply wp_task_get_by_id; exact Hst|].
  intros task k1 [Hst1 Htask].
  destruct (task =? 0) eqn:E0; [apply wp_ret; exact Hst1|].
  destruct Htask as [?|Htask]; [lia|].
  destruct (st_dom _ _ _ _ _ _ Hst1 Htask) as [Hin|[]].
  apply wp_bind, wp_rd. intros t Ht.
  destruct (t_id t =? 0); [apply wp_ret; exact Hst1|].
  apply wp_bind. apply wpt_wp. eapply wpt_acquire_sc; [exact Hst1|]. intros l Hst2.
  apply wp_bind, wp_rd. intros t1 Ht1. simpl in Ht1.
  destruct (st_priority _ _ _ _ _ _ _ Hst1 Hin Ht1) as (Hp & Hok & Hne).
  assert (Hb : bool_decide (t_state t1 = TASK_RUNNING)
               || bool_decide (t_state t1 = TASK_READY) = true).
  { destruct (t_state t1); try discriminate; reflexivity. }
  rewrite Hb. apply wp_bind, wp_bind. apply wp_wrt. intros t2 Ht2. simpl in Ht2.
  rewrite Ht1 in Ht2. inversion Ht2; subst t2. apply wp_bind.
  apply wp_remove_locked; [exact Hne| |].
  - simpl. destruct Hst2 as [_ _ [Hl _]]. exact Hl.
  - simpl. intros t3. rewrite lookup_insert_eq. intros E; inversion E; subst. exact Hp.
Qed.

Lemma wp_task_resume k Q task_id :
  st P [] false false k Q ->
  wp (task_resume task_id) (fun _ k' => st P [] false false k' Q) k.
Proof.
  intros Hst. unfold task_resume. apply wp_bind.
  eapply wp_mono; [apply wp_task_get_by_id; exact Hst|].
  intros task k1 [Hst1 Htask].
  destruct (task =? 0) eqn:E0; [apply wp_ret; exact Hst1|].
  apply wp_bind, wp_rd. intros t Ht.
  pose proof (st_all_schedulable _ _ _ _ _ _ Hst1 Ht) as Hok.
  assert (Hb : bool_decide (t_state t = TASK_SUSPENDED) = false).
  { apply bool_decide_eq_false. intros E. rewrite E in Hok. discriminate. }
  rewrite Hb. apply wp_ret. exact Hst1.
Qed.

Lemma wp_no_task_or_idle k :
  wp no_task_or_idle (fun _ k' => k' = k) k.
Proof.
  unfold no_task_or_idle. apply wp_bind, wp_gets.
  destruct (current_task k =? 0); [reflexivity|].
  apply wp_bind, wp_rd. intros c _. reflexivity.
Qed.

(** The tail that [task_exit] and [task_sleep] share, once they have
    written to the current control block: it does not return. *)
Lemma wp_lock_and_remove k Q (f : task_t -> task_t) t (rest : M unit)
    (post : unit -> kernel -> Prop) :
  st P [] false false k Q ->
  tasks k !! current_task k = Some t ->
  t_priority (f t) = t_priority t ->
  let k1 := set_tasks (<[current_task k := f t]> (tasks k)) k in
  wp (spinlock_acquire scheduler_lock_p ;;
      cur1 <- gets current_task ;;
      remove_from_ready_queue cur1 ;; rest) post k1.
Proof.
  intros Hst Ht Hf k1.
  pose proof (core_cur _ _ _ _ _ _ _ (st_core _ _ _ _ _ _ Hst)) as Hcur.
  destruct (st_priority _ _ _ _ _ _ _ Hst Hcur Ht) as (Hp & _ & Hne).
  apply wp_bind. eapply wp_mono; [apply (wp_acquire_locked SchedulerLock)|].
  intros u k2 (Hl & Htasks & Hc & _). simpl in Hl.
  apply wp_bind, wp_gets. apply wp_bind.
  apply wp_remove_locked.
  - rewrite Hc. exact Hne.
  - exact Hl.
  - rewrite Htasks, Hc. simpl. intros t3. rewrite lookup_insert_eq.
    intros E; inversion E; subst. lia.
Qed.

Lemma wp_task_exit k Q exit_code :
  st P [] false false k Q ->
  wp (task_exit exit_code) (fun _ k' => st P [] false false k' Q) k.
Proof.
  intros Hst. unfold task_exit. apply wp_bind.
  eapply wp_mono; [apply wp_no_task_or_idle|]. intros g k' E. cbv beta in E. subst k'.
  destruct g; [apply wp_ret; exact Hst|].
  apply wp_bind, wp_gets. apply wp_bind, wp_wrt. intros t Ht.
  apply wp_bind, wp_wrt. intros t1 Ht1. simpl in Ht1.
  rewrite lookup_insert_eq in Ht1. inversion Ht1; subst t1. clear Ht1.
  pose proof (wp_lock_and_remove k Q
                (fun t => set_state TASK_TERMINATED (set_exit_code exit_code t)) t) as H.
  cbv zeta in H. simpl. rewrite insert_insert_eq. eapply H; [exact Hst|exact Ht|reflexivity].
Qed.

Lemma wp_task_sleep k Q milliseconds :
  st P [] false false k Q ->
  wp (task_sleep P milliseconds) (fun _ k' => st P [] false false k' Q) k.
Proof.
  intros Hst. unfold task_sleep. apply wp_bind.
  eapply wp_mono; [apply wp_no_task_or_idle|]. intros g k' E. cbv beta in E. subst k'.
  destruct g; [apply wp_ret; exact Hst|].
  apply wp_bind, wp_gets. apply wp_bind, wp_gets. apply wp_bind, wp_wrt. intros t Ht.
  apply wp_bind, wp_wrt. intros t1 Ht1. simpl in Ht1.
  rewrite lookup_insert_eq in Ht1. inversion Ht1; subst t1. clear Ht1.
  pose proof (wp_lock_and_remove k Q
                (fun t => set_state TASK_BLOCKED
                            (set_sleep_until
                               (u64 (ticks k + u32 (milliseconds * timer_frequency P) / 1000))
                               t)) t) as H.
  cbv zeta in H. simpl. rewrite insert_insert_eq. eapply H; [exact Hst|exact Ht|reflexivity].
Qed.

Lemma wp_timer_callback k Q :
  st P [] false false k Q ->
  wp timer_callback (fun _ k' => st P [] false false k' Q) k.
Proof.
  intros Hst. unfold timer_callback. apply wp_modify.
  eapply st_ext; [exact Hst|reflexivity..].
Qed.

(** ** Control blocks and the heap *)

Lemma heap_ok_weaken h (S S' : Z -> Prop) :
  heap_ok P h S -> (forall x, S' x -> S x) -> heap_ok P h S'.
Proof.
  intros (bs & Hr & Hs & He & Hl) Hsub. exists bs.
  split; [exact Hr|]. split; [exact Hs|]. split; [exact He|].
  intros x Hx. apply Hl, Hsub, Hx.
Qed.

Lemma heap_ok_kmalloc h S size :
  heap_ok P h S -> size <> 0 ->
  exists p h', MM.kmalloc (sizeof_heap_block_t P) h size = Some (p, h') /\
    ((p = 0 /\ h' = h) \/
     (p <> 0 /\ p <> idle_task_tcb P /\ ~ S p /\
      heap_ok P h' (fun x => S x \/ x = p))).
Proof.
  intros (bs & Hr & Hs & He & Hl) Hsz.
  destruct P_ok as (Hhdr & _ & _ & Hidle).
  pose proof (MMFacts.kmalloc_repr _ Hhdr h bs size Hr Hsz) as Hspec.
  pose proof Hr as (_ & _ & _ & _ & Hc).
  pose proof (MMFacts.chain_sizes _ _ _ _ _ _ Hc) as Hall.
  destruct (alloc_list (sizeof_heap_block_t P) (heap_start h) bs (align8 size))
    as [[q bs']|] eqn:Eal.
  - destruct Hspec as (h' & Hk & Hr' & _ & Hs' & He').
    exists (q + sizeof_heap_block_t P), h'. split; [exact Hk|]. right.
    destruct (MMFacts.alloc_list_block_at_new _ Hhdr _ _ _ _ _ Hall Eal)
      as ((so & Hold) & (sn & Hnew)).
    pose proof (MMFacts.block_at_In _ _ _ _ _ Hold) as Hin.
    destruct (MMFacts.block_addrs_bounds _ Hhdr _ _ _ _ _ _ Hc Hin) as (Hlo & Hhi & H8).
    split; [lia|]. split; [lia|]. split.
    + intros HS. destruct (Hl _ HS) as [Hi|(sz & Hlive)]; [lia|].
      unfold live in Hlive.
      replace (q + sizeof_heap_block_t P - sizeof_heap_block_t P) with q in Hlive by lia.
      congruence.
    + exists bs'. split; [exact Hr'|]. split; [congruence|]. split; [congruence|].
      intros x [HS| ->].
      * destruct (Hl _ HS) as [Hi|(sz & Hlive)]; [left; exact Hi|right].
        exists sz. unfold live in *. rewrite Hs'.
        eapply MMFacts.alloc_list_block_at_other;
          [exact Hhdr|exact Hall|apply MMFacts.align8_nonneg|exact Eal|exact Hlive].
      * right. exists sn. unfold live. rewrite Hs'.
        replace (q + sizeof_heap_block_t P - sizeof_heap_block_t P) with q by lia.
        exact Hnew.
  - exists 0, h. split; [exact Hspec|]. left. auto.
Qed.

Lemma heap_ok_kfree h (S : Z -> Prop) p :
  heap_ok P h S -> S p -> p <> idle_task_tcb P ->
  exists h', MM.kfree (sizeof_heap_block_t P) h p = Some h' /\
    heap_ok P h' (fun x => S x /\ x <> p).
Proof.
  intros (bs & Hr & Hs & He & Hl) HS Hne.
  destruct P_ok as (Hhdr & _).
  destruct (Hl _ HS) as [?|(sz & Hlive)]; [congruence|].
  destruct (MMFacts.live_bounds _ Hhdr _ _ _ _ Hr Hlive) as (_ & Hin & _).
  destruct (MMFacts.kfree_repr _ Hhdr h bs p Hr Hin) as (h' & Hk & Hr' & _ & Hs' & He').
  exists h'. split; [exact Hk|].
  exists (free_list (sizeof_heap_block_t P) (heap_start h) bs (p - sizeof_heap_block_t P)).
  split; [exact Hr'|]. split; [congruence|]. split; [congruence|].
  intros x [HSx Hxp]. destruct (Hl _ HSx) as [Hi|(sx & Hlx)]; [left; exact Hi|right].
  exists sx. unfold live in *. rewrite Hs'.
  apply MMFacts.free_list_block_at_other; [exact Hlx|lia].
Qed.

(** ** The invariant under construction and linking *)

Lemma qchain_ext (m m' : gmap Z atask) l : forall h,
  (forall x, In x l -> m' !! x = m !! x) -> qchain m h l -> qchain m' h l.
Proof.
  induction l as [|y l IH]; intros h Hag Hc; simpl in *; [exact Hc|].
  destruct Hc as (-> & Hy & a & Ha & Hc). split; [reflexivity|]. split; [exact Hy|].
  exists a. split; [rewrite Hag by (left; reflexivity); exact Ha|].
  apply IH; [|exact Hc]. intros x Hx. apply Hag. right. exact Hx.
Qed.

Lemma core_in_queue pend m rq cur h Q i l x :
  core P pend m rq cur h Q -> Q !! i = Some l -> In x l -> In x (concat Q).
Proof.
  intros _ Hi Hx. apply in_concat. exists l. split; [|exact Hx].
  apply list_elem_of_In. eapply list_elem_of_lookup_2. exact Hi.
Qed.

Lemma core_member_some pend m rq cur h Q x :
  core P pend m rq cur h Q -> In x (concat Q) -> is_Some (m !! x).
Proof.
  intros Hc Hin. apply in_concat in Hin as (l & Hl & Hx).
  apply list_elem_of_In, list_elem_of_lookup in Hl as (i & Hi).
  destruct (core_member _ _ _ _ _ _ _ Hc i l x Hi Hx) as (a & Ha & _). eauto.
Qed.

Lemma core_pend_not_member p m rq cur h Q x :
  core P [p] m rq cur h Q -> In x (concat Q) -> x <> p.
Proof.
  intros Hc Hin ->. pose proof (core_nodup _ _ _ _ _ _ _ Hc) as Hnd.
  apply NoDup_app in Hnd as (_ & Hd & _). apply (Hd p).
  - apply list_elem_of_In. exact Hin.
  - left.
Qed.

Lemma core_add_pend m rq cur h h' Q p a :
  core P [] m rq cur h Q -> m !! p = None -> p <> 0 ->
  heap_ok P h' (fun x => is_Some (m !! x) \/ x = p) ->
  core P [p] (<[p := a]> m) rq cur h' Q.
Proof.
  intros Hc Hp Hne Hh.
  assert (Hnp : forall x, In x (concat Q) -> x <> p).
  { intros x Hx ->. destruct (core_member_some _ _ _ _ _ _ _ Hc Hx) as [? E]. congruence. }
  split.
  - apply (core_len_rq _ _ _ _ _ _ _ Hc).
  - apply (core_len_Q _ _ _ _ _ _ _ Hc).
  - intros i l Hi. eapply qchain_ext; [|apply (core_chain _ _ _ _ _ _ _ Hc i l Hi)].
    intros x Hx. apply lookup_insert_ne. intros ->.
    eapply Hnp; [|reflexivity]. eapply core_in_queue; eassumption.
  - intros i l x Hi Hx. rewrite lookup_insert_ne.
    + apply (core_member _ _ _ _ _ _ _ Hc i l x Hi Hx).
    + intros ->. eapply Hnp; [|reflexivity]. eapply core_in_queue; eassumption.
  - intros x Hx. destruct (decide (x = p)) as [->|Hxp]; [right; left; reflexivity|].
    rewrite lookup_insert_ne in Hx by congruence.
    destruct (core_all _ _ _ _ _ _ _ Hc x Hx) as [?|[]]. left. assumption.
  - pose proof (core_nodup _ _ _ _ _ _ _ Hc) as Hnd. rewrite app_nil_r in Hnd.
    apply NoDup_app. split; [exact Hnd|]. split; [|apply NoDup_singleton].
    intros x Hx Hxp. apply list_elem_of_In in Hx. apply list_elem_of_In in Hxp.
    destruct Hxp as [<-|[]]. eapply Hnp; [exact Hx|reflexivity].
  - intros x [<-|[]]. split; [|exact Hne]. rewrite lookup_insert_eq. eauto.
  - apply (core_cur _ _ _ _ _ _ _ Hc).
  - eapply heap_ok_weaken; [exact Hh|]. intros x Hx.
    destruct (decide (x = p)) as [->|Hxp]; [right; reflexivity|].
    rewrite lookup_insert_ne in Hx by congruence. left. exact Hx.
Qed.

Lemma core_pend_update m rq cur h Q p a :
  core P [p] m rq cur h Q -> core P [p] (<[p := a]> m) rq cur h Q.
Proof.
  intros Hc.
  destruct (core_pend _ _ _ _ _ _ _ Hc p ltac:(left; reflexivity)) as [Hp Hne].
  split.
  - apply (core_len_rq _ _ _ _ _ _ _ Hc).
  - apply (core_len_Q _ _ _ _ _ _ _ Hc).
  - intros i l Hi. eapply qchain_ext; [|apply (core_chain _ _ _ _ _ _ _ Hc i l Hi)].
    intros x Hx. apply lookup_insert_ne. intros ->.
    eapply core_pend_not_member; [exact Hc| |reflexivity]. eapply core_in_queue; eassumption.
  - intros i l x Hi Hx. rewrite lookup_insert_ne.
    + apply (core_member _ _ _ _ _ _ _ Hc i l x Hi Hx).
    + intros ->. eapply core_pend_not_member; [exact Hc| |reflexivity].
      eapply core_in_queue; eassumption.
  - intros x Hx. apply (core_all _ _ _ _ _ _ _ Hc).
    destruct (decide (x = p)) as [->|Hxp]; [exact Hp|].
    rewrite lookup_insert_ne in Hx by congruence. exact Hx.
  - apply (core_nodup _ _ _ _ _ _ _ Hc).
  - intros x [<-|[]]. split; [|exact Hne]. rewrite lookup_insert_eq. eauto.
  - apply (core_cur _ _ _ _ _ _ _ Hc).
  - eapply heap_ok_weaken; [apply (core_heap _ _ _ _ _ _ _ Hc)|]. intros x Hx.
    destruct (decide (x = p)) as [->|Hxp]; [exact Hp|].
    rewrite lookup_insert_ne in Hx by congruence. exact Hx.
Qed.

Lemma core_heap_change pend m rq cur h h' Q :
  core P pend m rq cur h Q -> heap_ok P h' (fun x => is_Some (m !! x)) ->
  core P pend m rq cur h' Q.
Proof. intros Hc Hh. destruct Hc. split; assumption. Qed.

Lemma core_remove_pend m rq cur h h' Q p :
  core P [p] m rq cur h Q ->
  heap_ok P h' (fun x => is_Some (m !! x) /\ x <> p) ->
  core P [] (delete p m) rq cur h' Q.
Proof.
  intros Hc Hh.
  split.
  - apply (core_len_rq _ _ _ _ _ _ _ Hc).
  - apply (core_len_Q _ _ _ _ _ _ _ Hc).
  - intros i l Hi. eapply qchain_ext; [|apply (core_chain _ _ _ _ _ _ _ Hc i l Hi)].
    intros x Hx. apply lookup_delete_ne. intros ->.
    eapply core_pend_not_member; [exact Hc| |reflexivity]. eapply core_in_queue; eassumption.
  - intros i l x Hi Hx. rewrite lookup_delete_ne.
    + apply (core_member _ _ _ _ _ _ _ Hc i l x Hi Hx).
    + intros ->. eapply core_pend_not_member; [exact Hc| |reflexivity].
      eapply core_in_queue; eassumption.
  - intros x Hx. destruct (decide (x = p)) as [->|Hxp].
    + rewrite lookup_delete_eq in Hx. destruct Hx; discriminate.
    + rewrite lookup_delete_ne in Hx by congruence.
      destruct (core_all _ _ _ _ _ _ _ Hc x Hx) as [?|[?|[]]]; [left; assumption|congruence].
  - pose proof (core_nodup _ _ _ _ _ _ _ Hc) as Hnd.
    apply NoDup_app in Hnd as (Hnd & _). rewrite app_nil_r. exact Hnd.
  - intros x [].
  - apply (core_cur _ _ _ _ _ _ _ Hc).
  - eapply heap_ok_weaken; [exact Hh|]. intros x Hx.
    destruct (decide (x = p)) as [->|Hxp].
    + rewrite lookup_delete_eq in Hx. destruct Hx; discriminate.
    + rewrite lookup_delete_ne in Hx by congruence. auto.
Qed.

Lemma queue_head_insert_eq rq i p :
  (i < length rq)%nat -> queue_head (<[i := p]> rq) (Z.of_nat i) = p.
Proof.
  intros Hi. unfold queue_head. rewrite Nat2Z.id.
  rewrite list_lookup_insert_eq by exact Hi. reflexivity.
Qed.

Lemma queue_head_insert_ne rq i j p :
  i <> j -> queue_head (<[i := p]> rq) (Z.of_nat j) = queue_head rq (Z.of_nat j).
Proof.
  intros Hne. unfold queue_head. rewrite Nat2Z.id.
  rewrite list_lookup_insert_ne by exact Hne. reflexivity.
Qed.

Lemma concat_insert_cons (Q : list (list Z)) i l p :
  Q !! i = Some l -> concat (<[i := p :: l]> Q) ≡ₚ p :: concat Q.
Proof.
  intros Hi. pose proof (lookup_lt_Some _ _ _ Hi) as Hlt.
  rewrite insert_take_drop by exact Hlt.
  rewrite <- (take_drop_middle Q i l Hi) at 3.
  rewrite !concat_app, !concat_cons. simpl.
  symmetry. apply Permutation_middle.
Qed.

(** The control block under construction becomes the head of its queue. *)
Lemma core_link m rq cur h Q p a i l :
  core P [p] m rq cur h Q ->
  m !! p = Some a -> a_next a = queue_head rq (Z.of_nat i) ->
  a_priority a = Z.of_nat i -> a_ok a = true ->
  Q !! i = Some l ->
  core P [] m (<[i := p]> rq) cur h (<[i := p :: l]> Q).
Proof.
  intros Hc Hp Hnext Hprio Hok Hi.
  pose proof (lookup_lt_Some _ _ _ Hi) as Hlt.
  pose proof (core_len_rq _ _ _ _ _ _ _ Hc) as Hlrq.
  pose proof (core_len_Q _ _ _ _ _ _ _ Hc) as HlQ.
  destruct (core_pend _ _ _ _ _ _ _ Hc p ltac:(left; reflexivity)) as [_ Hne].
  pose proof (concat_insert_cons Q i l p Hi) as Hperm.
  split.
  - rewrite length_insert. exact Hlrq.
  - rewrite length_insert. exact HlQ.
  - intros j l' Hj. destruct (decide (i = j)) as [<-|Hij].
    + rewrite list_lookup_insert_eq in Hj by exact Hlt. inversion Hj; subst l'.
      rewrite queue_head_insert_eq by lia. simpl. split; [reflexivity|]. split; [exact Hne|].
      exists a. split; [exact Hp|]. rewrite Hnext.
      apply (core_chain _ _ _ _ _ _ _ Hc i l Hi).
    + rewrite list_lookup_insert_ne in Hj by exact Hij.
      rewrite queue_head_insert_ne by exact Hij.
      apply (core_chain _ _ _ _ _ _ _ Hc j l' Hj).
  - intros j l' x Hj Hx. destruct (decide (i = j)) as [<-|Hij].
    + rewrite list_lookup_insert_eq in Hj by exact Hlt. inversion Hj; subst l'.
      destruct Hx as [<-|Hx]; [eauto|].
      apply (core_member _ _ _ _ _ _ _ Hc i l x Hi Hx).
    + rewrite list_lookup_insert_ne in Hj by exact Hij.
      apply (core_member _ _ _ _ _ _ _ Hc j l' x Hj Hx).
  - intros x Hx. left. apply list_elem_of_In. rewrite Hperm. apply list_elem_of_In.
    destruct (core_all _ _ _ _ _ _ _ Hc x Hx) as [Hin|[<-|[]]]; [right; exact Hin|left; reflexivity].
  - rewrite app_nil_r. rewrite Hperm.
    pose proof (core_nodup _ _ _ _ _ _ _ Hc) as Hnd.
    eapply NoDup_Permutation_proper; [|exact Hnd].
    rewrite (Permutation_app_comm (concat Q) [p]). reflexivity.
  - intros x [].
  - apply list_elem_of_In. rewrite Hperm. apply list_elem_of_In. right.
    apply (core_cur _ _ _ _ _ _ _ Hc).
  - apply (core_heap _ _ _ _ _ _ _ Hc).
Qed.

(** ** [task_create] *)

Ltac same_state H := eapply st_ext; [exact H | reflexivity ..].

Lemma cid_wrt_other k x t :
  x <> current_task k -> cid (set_tasks (<[x := t]> (tasks k)) k) = cid k.
Proof.
  intros Hne. unfold cid. simpl. destruct (current_task k =? 0); [reflexivity|].
  rewrite lookup_insert_ne by exact Hne. reflexivity.
Qed.

Lemma st_pend_current tl sc k Q p : st P [p] tl sc k Q -> p <> current_task k.
Proof.
  intros [Hc _ _] ->. eapply core_pend_not_member; [exact Hc| |reflexivity].
  apply (core_cur _ _ _ _ _ _ _ Hc).
Qed.

Lemma st_pend_some tl sc k Q p : st P [p] tl sc k Q -> is_Some (tasks k !! p) /\ p <> 0.
Proof.
  intros [Hc _ _].
  destruct (core_pend _ _ _ _ _ _ _ Hc p ltac:(left; reflexivity)) as [Hp Hne].
  split; [|exact Hne]. rewrite lookup_fmap in Hp.
  destruct (tasks k !! p); [eauto|destruct Hp; discriminate].
Qed.

Lemma st_wrt_pend tl sc k Q p t :
  st P [p] tl sc k Q -> st P [p] tl sc (set_tasks (<[p := t]> (tasks k)) k) Q.
Proof.
  intros Hst. pose proof (st_pend_current _ _ _ _ _ Hst) as Hcur.
  destruct Hst as [Hc Htl Hsc]. split; simpl.
  - rewrite fmap_insert. apply core_pend_update. exact Hc.
  - eapply lock_is_ext; [|exact Htl]. apply cid_wrt_other. exact Hcur.
  - eapply lock_is_ext; [|exact Hsc]. apply cid_wrt_other. exact Hcur.
Qed.

(** A write to the control block under construction. *)
Lemma wpt_wrt_pend tl sc k Q p f post :
  st P [p] tl sc k Q ->
  (forall t, tasks k !! p = Some t ->
     st P [p] tl sc (set_tasks (<[p := f t]> (tasks k)) k) Q ->
     post tt (set_tasks (<[p := f t]> (tasks k)) k)) ->
  wpt (wrt p f) post k.
Proof.
  intros Hst Hpost. destruct (st_pend_some _ _ _ _ _ Hst) as [[t Ht] _].
  eapply wpt_wrt; [exact Ht|]. apply Hpost; [exact Ht|]. apply st_wrt_pend. exact Hst.
Qed.

Lemma is_Some_abs (m : gmap Z task_t) x :
  is_Some ((abs_task <$> m) !! x) <-> is_Some (m !! x).
Proof. rewrite lookup_fmap. apply fmap_is_Some. Qed.

Lemma st_add_pend k Q p t :
  st P [] false false k Q -> tasks k !! p = None -> p <> 0 ->
  heap_ok P (kheap k) (fun x => is_Some (tasks k !! x) \/ x = p) ->
  st P [p] false false (set_tasks (<[p := t]> (tasks k)) k) Q.
Proof.
  intros Hst Hp Hne Hh.
  assert (Hcur : p <> current_task k).
  { intros ->. destruct Hst as [Hc _ _].
    pose proof (core_member_some _ _ _ _ _ _ _ Hc (core_cur _ _ _ _ _ _ _ Hc)) as Hs.
    apply is_Some_abs in Hs as [? E]. congruence. }
  destruct Hst as [Hc Htl Hsc]. split; simpl; [|exact Htl|exact Hsc].
  rewrite fmap_insert. apply core_add_pend with (h := kheap k); try assumption.
  - rewrite lookup_fmap, Hp. reflexivity.
  - eapply heap_ok_weaken; [exact Hh|]. intros x [Hx|Hx]; [left|right; exact Hx].
    apply is_Some_abs. exact Hx.
Qed.

(** [kmalloc] on the kernel heap returns, with null or with a fresh
    pointer that is no control block. *)
Lemma wpt_kmalloc pend tl sc k Q size post :
  st P pend tl sc k Q ->
  (forall p h',
     MM.kmalloc (sizeof_heap_block_t P) (kheap k) size = Some (p, h') ->
     (p = 0 /\ h' = kheap k) \/
     (p <> 0 /\ p <> idle_task_tcb P /\ tasks k !! p = None /\
      heap_ok P h' (fun x => is_Some (tasks k !! x) \/ x = p)) ->
     st P pend tl sc (set_kheap h' k) Q ->
     post p (set_kheap h' k)) ->
  wpt (kmalloc P size) post k.
Proof.
  intros Hst Hpost. unfold wpt, kmalloc.
  destruct (decide (size = 0)) as [->|Hsz].
  - assert (E : MM.kmalloc (sizeof_heap_block_t P) (kheap k) 0 = Some (0, kheap k)).
    { unfold MM.kmalloc. rewrite orb_true_r. reflexivity. }
    rewrite E. apply Hpost; [exact E|left; auto|]. same_state Hst.
  - pose proof (core_heap _ _ _ _ _ _ _ (st_core _ _ _ _ _ _ Hst)) as Hh.
    destruct (heap_ok_kmalloc _ _ size Hh Hsz) as (p & h' & Hk & Hcase).
    rewrite Hk. apply Hpost; [exact Hk| |].
    + destruct Hcase as [[-> ->]|(Hp & Hi & Hn & Hh')]; [left; auto|right].
      split; [exact Hp|]. split; [exact Hi|]. split.
      * destruct (tasks k !! p) eqn:E; [|reflexivity].
        exfalso. apply Hn, is_Some_abs. rewrite E. eauto.
      * eapply heap_ok_weaken; [exact Hh'|]. intros x [Hx|Hx]; [left|right; exact Hx].
        apply is_Some_abs. exact Hx.
    + destruct Hst as [Hc Htl Hsc]. split; simpl; [|exact Htl|exact Hsc].
      eapply core_heap_change; [exact Hc|].
      destruct Hcase as [[-> ->]|(_ & _ & _ & Hh')]; [exact Hh|].
      eapply heap_ok_weaken; [exact Hh'|]. intros x Hx. left. exact Hx.
Qed.

Ltac pend_write H t Ht H' :=
  apply wpt_bind; eapply wpt_wrt_pend; [exact H|];
  intros t Ht H'; simpl in Ht; rewrite ?lookup_insert_eq in Ht.

Lemma wpt_init_tcb k Q p nm priority flags post :
  st P [] false false k Q -> tasks k !! p = None -> p <> 0 ->
  heap_ok P (kheap k) (fun x => is_Some (tasks k !! x) \/ x = p) ->
  (forall k', st P [p] false false k' Q -> ready_with k' p priority ->
     unlinked_from p k k' -> kheap k' = kheap k -> post tt k') ->
  wpt (init_tcb p nm priority flags) post k.
Proof.
  intros Hst Hnone Hne Hh Hpost. unfold init_tcb.
  apply wpt_bind, wpt_modify.
  pose proof (st_add_pend _ _ _ zero_task Hst Hnone Hne Hh) as Hst0.
  apply wpt_bind. eapply wpt_acquire_tl; [exact Hst0|]. intros l Hst1.
  apply wpt_bind, wpt_gets. apply wpt_bind, wpt_modify.
  assert (Hst2 : st P [p] true false
            (set_next_task_id (u32 (next_task_id k + 1))
               (set_task_list_lock l
                  (set_tasks (<[p := zero_task]> (tasks k)) k))) Q)
    by (same_state Hst1).
  pend_write Hst2 t1 Ht1 Hst3.
  apply wpt_bind. eapply wpt_release_tl; [exact Hst3|]. intros l' Hst4.
  pend_write Hst4 t2 Ht2 Hst5.
  pend_write Hst5 t3 Ht3 Hst6.
  pend_write Hst6 t4 Ht4 Hst7.
  pend_write Hst7 t5 Ht5 Hst8.
  apply wpt_bind, wpt_gets.
  pend_write Hst8 t6 Ht6 Hst9.
  apply wpt_bind, wpt_gets.
  pend_write Hst9 t7 Ht7 Hst10.
  apply wpt_bind, wpt_gets.
  pend_write Hst10 t8 Ht8 Hst11.
  apply wpt_bind, wpt_gets.
  pend_write Hst11 t9 Ht9 Hst12.
  eapply wpt_wrt_pend; [exact Hst12|]. intros t10 Ht10 Hst13.
  simpl in Ht10. rewrite ?lookup_insert_eq in Ht10.
  apply Hpost.
  - exact Hst13.
  - eexists. split; [simpl; apply lookup_insert_eq|].
    inversion Ht10; subst t10. inversion Ht9; subst t9. inversion Ht8; subst t8.
    inversion Ht7; subst t7. inversion Ht6; subst t6. inversion Ht5; subst t5.
    inversion Ht4; subst t4. split; reflexivity.
  - unfold unlinked_from. simpl. rewrite !delete_insert_eq. auto.
  - reflexivity.
Qed.

Lemma wpg_bind {A B} b (m : M A) (f : A -> M B) post k :
  wpt m (fun a k' => wpg b (f a) post k') k -> wpg b (bind m f) post k.
Proof. unfold wpt, wpg, bind. destruct (m k); tauto. Qed.

Lemma wpg_ret {A} b (a : A) (post : A -> kernel -> Prop) k :
  post a k -> wpg b (ret a) post k.
Proof. intros H. exact H. Qed.

Lemma wpg_wp {A} (m : M A) post k : wpg false m post k <-> wp m post k.
Proof. unfold wpg, wp. destruct (m k); tauto. Qed.

Lemma wpg_wpt {A} (m : M A) post k : wpg true m post k <-> wpt m post k.
Proof. unfold wpg, wpt. destruct (m k); tauto. Qed.

Lemma cid_delete_other k x :
  x <> current_task k -> cid (set_tasks (delete x (tasks k)) k) = cid k.
Proof.
  intros Hne. unfold cid. simpl. destruct (current_task k =? 0); [reflexivity|].
  rewrite lookup_delete_ne by exact Hne. reflexivity.
Qed.

(** [kfree(task)] for the control block under construction. *)
Lemma wpt_kfree_task k Q p post :
  st P [p] false false k Q -> p <> idle_task_tcb P ->
  (forall h', st P [] false false (set_tasks (delete p (tasks k)) (set_kheap h' k)) Q ->
              post tt (set_tasks (delete p (tasks k)) (set_kheap h' k))) ->
  wpt (kfree_task P p) post k.
Proof.
  intros Hst Hidle Hpost. unfold kfree_task. apply wpt_bind.
  pose proof (st_pend_current _ _ _ _ _ Hst) as Hcur.
  destruct Hst as [Hc Htl Hsc].
  destruct (core_pend _ _ _ _ _ _ _ Hc p ltac:(left; reflexivity)) as [Hp _].
  destruct (heap_ok_kfree _ _ p (core_heap _ _ _ _ _ _ _ Hc) Hp Hidle) as (h' & Hk & Hh').
  unfold wpt at 1, kfree. rewrite Hk. apply wpt_modify. apply Hpost.
  split; simpl.
  - rewrite fmap_delete. eapply core_remove_pend; [exact Hc|exact Hh'].
  - simpl in Htl. exact Htl.
  - simpl in Hsc. exact Hsc.
Qed.

Lemma unlinked_from_refl p k k' :
  tasks k' = tasks k -> task_list_head_ptr k' = task_list_head_ptr k ->
  ready_queues k' = ready_queues k -> current_task k' = current_task k ->
  unlinked_from p k k'.
Proof. intros H1 H2 H3 H4. unfold unlinked_from. rewrite H1. auto. Qed.

Lemma unlinked_from_trans p k k1 k2 :
  unlinked_from p k k1 -> unlinked_from p k1 k2 -> unlinked_from p k k2.
Proof.
  unfold unlinked_from. intros (A1 & A2 & A3 & A4) (B1 & B2 & B3 & B4).
  repeat split; congruence.
Qed.

Lemma unlinked_from_wrt p k k' t :
  unlinked_from p k k' ->
  unlinked_from p k (set_tasks (<[p := t]> (tasks k')) k').
Proof.
  unfold unlinked_from. intros (A1 & A2 & A3 & A4). simpl.
  rewrite delete_insert_eq. auto.
Qed.

Lemma ready_with_wrt k p priority t f :
  ready_with k p priority -> tasks k !! p = Some t ->
  t_state (f t) = t_state t -> t_priority (f t) = t_priority t ->
  ready_with (set_tasks (<[p := f t]> (tasks k)) k) p priority.
Proof.
  intros (t' & Ht' & Hs & Hp) Ht E1 E2. assert (t' = t) as -> by congruence.
  exists (f t). simpl. rewrite lookup_insert_eq. split; [reflexivity|].
  split; congruence.
Qed.

(** [task_create] up to the allocation of the stack.  Where an argument
    is null or an allocation fails, the call returns 0 and has linked
    nothing; otherwise the control block at [p] is READY, not yet linked,
    and the call goes on with the CPU state. *)
Lemma wpg_task_create b k Q name entry_point priority flags post :
  st P [] false false k Q ->
  (forall k',
     name = None \/ entry_point = 0 \/ allocation_fails P k = true ->
     st P [] false false k' Q ->
     tasks k' = tasks k -> task_list_head_ptr k' = task_list_head_ptr k ->
     ready_queues k' = ready_queues k -> current_task k' = current_task k ->
     post 0 k') ->
  (forall nm p k1,
     name = Some nm -> entry_point <> 0 -> allocation_fails P k = false ->
     st P [p] false false k1 Q -> ready_with k1 p priority ->
     p <> idle_task_tcb P -> unlinked_from p k k1 -> tasks k !! p = None ->
     wpg b (r2 <- init_task_cpu_state P p entry_point ;;
            if negb (r2 =? 0) then task_free_stack P p ;; kfree_task P p ;; ret 0
            else
              r3 <- task_setup_memory P p ;;
              if negb (r3 =? 0) then task_free_stack P p ;; kfree_task P p ;; ret 0
              else publish_task p) post k1) ->
  wpg b (task_create P name entry_point priority flags) post k.
Proof.
  intros Hst Hfail Hgo. unfold task_create.
  destruct name as [nm|]; [|apply wpg_ret, Hfail; auto].
  destruct (entry_point =? 0) eqn:Ee.
  { apply wpg_ret, Hfail; auto. right. left. lia. }
  apply wpg_bind. eapply wpt_kmalloc; [exact Hst|]. intros p h1 Hk1 Hcase Hst1.
  destruct (p =? 0) eqn:Ep.
  { apply wpg_ret, Hfail; auto. right. right.
    unfold allocation_fails. rewrite Hk1, Ep. reflexivity. }
  destruct Hcase as [[-> _]|(Hp & Hidle & Hnone & Hh1)]; [discriminate|].
  apply wpg_bind. eapply wpt_init_tcb; [exact Hst1|exact Hnone|exact Hp|exact Hh1|].
  intros k2 Hst2 Hrw2 Hun2 Hheap2. simpl in Hheap2.
  apply wpg_bind. unfold task_alloc_stack. rewrite Ep. simpl orb. cbv iota.
  apply wpt_bind. eapply wpt_kmalloc; [exact Hst2|]. intros sp h2 Hk2 _ Hst3.
  rewrite Hheap2 in Hk2.
  apply wpt_bind. eapply wpt_wrt_pend; [exact Hst3|]. intros t3 Ht3 Hst4.
  assert (Hrw3 : ready_with (set_kheap h2 k2) p priority) by exact Hrw2.
  pose proof (ready_with_wrt _ _ _ _ (set_stack_base sp) Hrw3 Ht3 eq_refl eq_refl) as Hrw4.
  assert (Hun4 : unlinked_from p k
            (set_tasks (<[p := set_stack_base sp t3]> (tasks (set_kheap h2 k2)))
               (set_kheap h2 k2))).
  { apply unlinked_from_wrt.
    eapply unlinked_from_trans; [|apply unlinked_from_refl; reflexivity].
    eapply unlinked_from_trans; [|exact Hun2].
    apply unlinked_from_refl; reflexivity. }
  destruct (sp =? 0) eqn:Es.
  - apply wpt_ret. simpl negb. cbv iota.
    apply wpg_bind. eapply wpt_kfree_task; [exact Hst4|exact Hidle|].
    intros h3 Hst5. apply wpg_ret.
    destruct Hun4 as (U1 & U2 & U3 & U4). simpl in U1, U2, U3, U4.
    apply Hfail.
    + right. right. unfold allocation_fails. rewrite Hk1, Ep, Hk2, Es. reflexivity.
    + exact Hst5.
    + simpl. etransitivity; [exact U4|]. apply delete_id. exact Hnone.
    + exact U1.
    + exact U2.
    + exact U3.
  - apply wpt_bind. eapply wpt_wrt_pend; [exact Hst4|]. intros t5 Ht5 Hst6.
    apply wpt_ret. simpl negb. cbv iota.
    apply (Hgo nm p).
    + reflexivity.
    + lia.
    + unfold allocation_fails. rewrite Hk1, Ep, Hk2, Es. reflexivity.
    + exact Hst6.
    + exact (ready_with_wrt _ _ _ _ (set_stack_size TASK_STACK_SIZE) Hrw4 Ht5 eq_refl eq_refl).
    + exact Hidle.
    + apply unlinked_from_wrt. exact Hun4.
    + exact Hnone.
Qed.

Lemma ready_with_wrt_any k p priority x t f :
  ready_with k p priority -> tasks k !! x = Some t ->
  t_state (f t) = t_state t -> t_priority (f t) = t_priority t ->
  ready_with (set_tasks (<[x := f t]> (tasks k)) k) p priority.
Proof.
  intros Hrw Ht E1 E2. destruct (decide (x = p)) as [->|Hne].
  - apply ready_with_wrt; assumption.
  - destruct Hrw as (t' & Ht' & Hs & Hp). exists t'. simpl.
    rewrite lookup_insert_ne by exact Hne. auto.
Qed.

Ltac pend_write_wp H t Ht H' :=
  apply wp_bind, wpt_wp; eapply wpt_wrt_pend; [exact H|]; intros t Ht H'.

Lemma wp_init_task_cpu_state k Q p entry_point priority post :
  st P [p] false false k Q -> ready_with k p priority ->
  (forall k', st P [p] false false k' Q -> ready_with k' p priority -> post 0 k') ->
  wp (init_task_cpu_state P p entry_point) post k.
Proof.
  intros Hst Hrw Hpost. unfold init_task_cpu_state.
  apply wp_bind, wp_rd. intros t Ht.
  assert (Hrest : forall cs pd,
    wp (wrt p (set_cpu_state cs) ;; wrt p (set_page_directory pd) ;; ret 0) post k).
  { intros cs pd. pend_write_wp Hst t1 Ht1 Hst1.
    pose proof (ready_with_wrt _ _ _ _ (set_cpu_state cs) Hrw Ht1 eq_refl eq_refl) as Hrw1.
    pend_write_wp Hst1 t2 Ht2 Hst2.
    pose proof (ready_with_wrt _ _ _ _ (set_page_directory pd) Hrw1 Ht2 eq_refl eq_refl) as Hrw2.
    apply wp_ret. apply Hpost; assumption. }
  apply wp_bind. destruct (t_parent t =? 0).
  - apply wp_ret. apply Hrest.
  - apply wp_bind, wp_rd. intros t0 _. apply wp_ret. apply Hrest.
Qed.

Lemma wp_task_setup_memory k Q p priority post :
  st P [p] false false k Q -> ready_with k p priority ->
  (forall k', st P [p] false false k' Q -> ready_with k' p priority -> post 0 k') ->
  wp (task_setup_memory P p) post k.
Proof.
  intros Hst Hrw Hpost. unfold task_setup_memory.
  destruct (st_pend_some _ _ _ _ _ Hst) as [_ Hne].
  destruct (p =? 0) eqn:E; [lia|].
  pend_write_wp Hst t1 Ht1 Hst1.
  pose proof (ready_with_wrt _ _ _ _ (set_page_directory (kernel_page_directory P))
                Hrw Ht1 eq_refl eq_refl) as Hrw1.
  apply wp_ret. apply Hpost; assumption.
Qed.

Lemma wp_task_list_add k Q p priority post :
  st P [p] false false k Q -> ready_with k p priority ->
  (forall k', st P [p] false false k' Q -> ready_with k' p priority -> post tt k') ->
  wp (task_list_add p) post k.
Proof.
  intros Hst Hrw Hpost. unfold task_list_add.
  destruct (st_pend_some _ _ _ _ _ Hst) as [_ Hne].
  destruct (p =? 0) eqn:E; [lia|].
  apply wp_bind, wpt_wp. eapply wpt_acquire_tl; [exact Hst|]. intros l Hst1.
  assert (Hrw1 : ready_with (set_task_list_lock l k) p priority) by exact Hrw.
  apply wp_bind, wp_gets.
  pend_write_wp Hst1 t1 Ht1 Hst2.
  pose proof (ready_with_wrt _ _ _ _ (set_next (task_list_head_ptr (set_task_list_lock l k)))
                Hrw1 Ht1 eq_refl eq_refl) as Hrw2.
  pend_write_wp Hst2 t2 Ht2 Hst3.
  pose proof (ready_with_wrt _ _ _ _ (set_prev 0) Hrw2 Ht2 eq_refl eq_refl) as Hrw3.
  apply wp_bind, wp_gets.
  match goal with |- wp _ _ ?k3 => set (k3' := k3) in * end.
  assert (Hfin : forall k4, st P [p] true false k4 Q -> ready_with k4 p priority ->
    wp (modify (set_task_list_head_ptr p) ;; spinlock_release task_list_lock_p) post k4).
  { intros k4 Hst4 Hrw4. apply wp_bind, wp_modify.
    assert (Hst5 : st P [p] true false (set_task_list_head_ptr p k4) Q) by (same_state Hst4).
    apply wpt_wp. eapply wpt_release_tl; [exact Hst5|]. intros l' Hst6.
    apply Hpost; [exact Hst6|exact Hrw4]. }
  apply wp_bind. destruct (negb (task_list_head_ptr k3' =? 0)).
  - eapply wp_wrt_same; [exact Hst3|reflexivity|]. intros th Hth Hst4.
    apply Hfin; [exact Hst4|].
    exact (ready_with_wrt_any _ _ _ _ _ (set_prev p) Hrw3 Hth eq_refl eq_refl).
  - apply wp_ret. apply Hfin; assumption.
Qed.

(** The control block under construction enters its ready queue. *)
Lemma wp_add_to_ready_queue_pend tl k Q p priority post :
  st P [p] tl false k Q -> ready_with k p priority ->
  PRIORITY_IDLE <= priority <= PRIORITY_CRITICAL ->
  (forall k' Q', st P [] tl false k' Q' -> post tt k') ->
  wp (add_to_ready_queue p) post k.
Proof.
  intros Hst (t & Ht & Hs & Hp) Hrange Hpost. unfold add_to_ready_queue.
  unfold PRIORITY_IDLE, PRIORITY_CRITICAL in Hrange.
  destruct (st_pend_some _ _ _ _ _ Hst) as [_ Hne].
  destruct (p =? 0) eqn:E; [lia|].
  apply wp_bind, wp_rd. intros t0 Ht0.
  assert (t0 = t) as -> by congruence.
  destruct (PRIORITY_CRITICAL <? t_priority t) eqn:Ec;
    [unfold PRIORITY_CRITICAL in Ec; lia|].
  apply wp_bind, wpt_wp. eapply wpt_acquire_sc; [exact Hst|]. intros l Hst1.
  apply wp_bind, wp_rd. intros t1 Ht1. simpl in Ht1.
  assert (t1 = t) as -> by congruence.
  apply wp_bind, wp_gets.
  pend_write_wp Hst1 t2 Ht2 Hst2. simpl in Ht2.
  assert (t2 = t) as -> by congruence.
  match goal with |- wp _ _ ?k2 => set (k2' := k2) in * end.
  assert (Hp2 : (abs_task <$> tasks k2') !! p =
                Some (abs_task (set_next (queue_head (ready_queues k) priority) t))).
  { subst k2'. simpl. rewrite lookup_fmap, lookup_insert_eq, Hp. reflexivity. }
  assert (Hq2 : ready_queues k2' = ready_queues k) by reflexivity.
  clearbody k2'.
  apply wp_bind, wp_rd. intros t3 Ht3.
  assert (Hp3 : t_priority t3 = priority).
  { rewrite lookup_fmap, Ht3 in Hp2. simpl in Hp2. inversion Hp2.
    rewrite H1. exact Hp. }
  apply wp_bind, wp_gets.
  assert (Hrest : forall k3, st P [p] tl true k3 Q ->
    abs_task <$> tasks k3 = abs_task <$> tasks k2' ->
    ready_queues k3 = ready_queues k ->
    wp (t4 <- rd p ;; set_queue_head (t_priority t4) p ;;
        wrt p (set_prev 0) ;; spinlock_release scheduler_lock_p) post k3).
  { intros k3 Hst3 Habs Hq3. rewrite <- Habs in Hp2.
    apply wp_bind, wp_rd. intros t4 Ht4.
    assert (Hp4 : t_priority t4 = priority).
    { rewrite lookup_fmap, Ht4 in Hp2. simpl in Hp2. inversion Hp2.
      rewrite H1. exact Hp. }
    rewrite Hp4. unfold set_queue_head. apply wp_bind, wp_modify.
    destruct (lookup_lt_is_Some_2 Q (Z.to_nat priority)) as [lq Hlq].
    { rewrite (core_len_Q _ _ _ _ _ _ _ (st_core _ _ _ _ _ _ Hst3)). lia. }
    assert (Hst4 : st P [] tl true
              (set_ready_queues (<[Z.to_nat priority := p]> (ready_queues k3)) k3)
              (<[Z.to_nat priority := p :: lq]> Q)).
    { destruct Hst3 as [Hc3 Htl3 Hsc3]. split; simpl; [|exact Htl3|exact Hsc3].
      eapply core_link; [exact Hc3|exact Hp2| | | |exact Hlq].
      - simpl. rewrite Z2Nat.id by lia. rewrite Hq3. reflexivity.
      - simpl. rewrite Z2Nat.id by lia. exact Hp.
      - simpl. rewrite Hs. reflexivity. }
    apply wp_bind. eapply wp_wrt_same; [exact Hst4|reflexivity|].
    intros t5 _ Hst5. apply wpt_wp. eapply wpt_release_sc; [exact Hst5|].
    intros l' Hst6. eapply Hpost. exact Hst6. }
  rewrite Hp3. apply wp_bind.
  destruct (queue_head (ready_queues k2') priority =? 0).
  - apply wp_ret. apply Hrest; [exact Hst2|reflexivity|exact Hq2].
  - eapply wp_wrt_same; [exact Hst2|reflexivity|]. intros th Hth Hst3.
    apply Hrest; [exact Hst3| |exact Hq2].
    simpl. eapply abs_insert_same; [exact Hth|reflexivity].
Qed.

Lemma wp_publish_task k Q p priority :
  st P [p] false false k Q -> ready_with k p priority ->
  PRIORITY_IDLE <= priority <= PRIORITY_CRITICAL ->
  wp (publish_task p) (fun _ k' => exists Q', st P [] false false k' Q') k.
Proof.
  intros Hst Hrw Hrange. unfold publish_task.
  apply wp_bind. eapply wp_task_list_add; [exact Hst|exact Hrw|].
  intros k1 Hst1 Hrw1. apply wp_bind. unfold scheduler_add_task.
  destruct (st_pend_some _ _ _ _ _ Hst) as [_ Hne].
  destruct (p =? 0) eqn:E; [lia|].
  eapply wp_add_to_ready_queue_pend; [exact Hst1|exact Hrw1|exact Hrange|].
  intros k2 Q' Hst2.
  apply wp_bind, wpt_wp. eapply wpt_acquire_sc; [exact Hst2|]. intros l Hst3.
  apply wp_bind, wpt_wp. eapply wpt_upd_stats; [exact Hst3|]. intros Hst4.
  apply wp_bind, wpt_wp. eapply wpt_upd_stats; [exact Hst4|]. intros Hst5.
  apply wp_bind, wpt_wp. eapply wpt_release_sc; [exact Hst5|]. intros l' Hst6.
  apply wp_bind, wp_rd. intros t _. apply wp_ret. exists Q'. exact Hst6.
Qed.

(** [task_create] keeps the invariant. *)
Lemma wp_task_create k Q name entry_point priority flags :
  st P [] false false k Q ->
  PRIORITY_IDLE <= priority <= PRIORITY_CRITICAL ->
  wp (task_create P name entry_point priority flags)
     (fun _ k' => exists Q', st P [] false false k' Q') k.
Proof.
  intros Hst Hrange. apply wpg_wp. apply (wpg_task_create false) with (Q := Q).
  - exact Hst.
  - intros k' _ Hst' _ _ _ _. exists Q. exact Hst'.
  - intros nm p k1 _ _ _ Hst1 Hrw1 _ _ _. apply wpg_wp.
    apply wp_bind. eapply wp_init_task_cpu_state; [exact Hst1|exact Hrw1|].
    intros k2 Hst2 Hrw2. simpl negb. cbv iota.
    apply wp_bind. eapply wp_task_setup_memory; [exact Hst2|exact Hrw2|].
    intros k3 Hst3 Hrw3. simpl negb. cbv iota.
    eapply wp_publish_task; eassumption.
Qed.

(** Where an argument is null or an allocation fails, [task_create]
    returns 0 and leaves every control block, the task list, the ready
    queues and the current task as they were. *)
Lemma task_create_fails k Q name entry_point priority flags :
  st P [] false false k Q ->
  name = None \/ entry_point = 0 \/ allocation_fails P k = true ->
  exists k', task_create P name entry_point priority flags k = Ret 0 k' /\
    st P [] false false k' Q /\
    tasks k' = tasks k /\ task_list_head_ptr k' = task_list_head_ptr k /\
    ready_queues k' = ready_queues k /\ current_task k' = current_task k.
Proof.
  intros Hst Hfail.
  assert (H : wpg true (task_create P name entry_point priority flags)
            (fun r k' => r = 0 /\ st P [] false false k' Q /\
               tasks k' = tasks k /\ task_list_head_ptr k' = task_list_head_ptr k /\
               ready_queues k' = ready_queues k /\ current_task k' = current_task k) k).
  { apply (wpg_task_create true) with (Q := Q).
    - exact Hst.
    - intros k' _ Hst' E1 E2 E3 E4. auto 10.
    - intros nm p k1 Hn He Ha. exfalso.
      destruct Hfail as [Hf|[Hf|Hf]]; congruence. }
  unfold wpg in H. destruct (task_create P name entry_point priority flags k)
    as [r k'| | |]; try contradiction.
  destruct H as (-> & H). exists k'. split; [reflexivity|exact H].
Qed.

(** ** Boot *)

Lemma booting_cid m T hd rq tl sc k : booting P m T hd rq tl sc k -> cid k = Some 0.
Proof. intros H. unfold cid. rewrite (bt_cur _ _ _ _ _ _ _ _ H). reflexivity. Qed.

Lemma booting_ext m T T' hd hd' rq rq' tl sc k k' :
  booting P m T hd rq tl sc k ->
  tasks k' = {[idle_task_tcb P := T']} -> kheap k' = kheap k ->
  current_task k' = current_task k -> task_list_head_ptr k' = hd' ->
  ready_queues k' = rq' ->
  task_list_lock k' = task_list_lock k -> scheduler_lock k' = scheduler_lock k ->
  booting P m T' hd' rq' tl sc k'.
Proof.
  intros H Ht Hh Hc Hd Hr Hl1 Hl2.
  assert (Hcid : cid k' = cid k).
  { unfold cid. rewrite Hc, (bt_cur _ _ _ _ _ _ _ _ H). reflexivity. }
  destruct H as [B1 B2 B3 B4 B5 B6 B7]. split; try congruence.
  - rewrite Hl1. eapply lock_is_ext; [exact Hcid|exact B6].
  - rewrite Hl2. eapply lock_is_ext; [exact Hcid|exact B7].
Qed.

Lemma wp_wrt_boot m T hd rq tl sc k f post :
  booting P m T hd rq tl sc k ->
  (forall k', booting P m (f T) hd rq tl sc k' -> post tt k') ->
  wp (wrt (idle_task_tcb P) f) post k.
Proof.
  intros H Hpost. apply wp_wrt. intros t Ht.
  rewrite (bt_tasks _ _ _ _ _ _ _ _ H), lookup_singleton_eq in Ht.
  injection Ht as <-. apply Hpost.
  eapply booting_ext; [exact H|..]; try reflexivity.
  - simpl. rewrite (bt_tasks _ _ _ _ _ _ _ _ H). apply insert_singleton_eq.
  - apply (bt_head _ _ _ _ _ _ _ _ H).
  - apply (bt_rq _ _ _ _ _ _ _ _ H).
Qed.

Lemma wp_rd_boot m T hd rq tl sc k post :
  booting P m T hd rq tl sc k -> post T k -> wp (rd (idle_task_tcb P)) post k.
Proof.
  intros H Hpost. apply wp_rd. intros t Ht.
  rewrite (bt_tasks _ _ _ _ _ _ _ _ H), lookup_singleton_eq in Ht.
  injection Ht as <-. exact Hpost.
Qed.

Lemma wp_acquire_tl_boot m T hd rq sc k post :
  booting P m T hd rq false sc k ->
  (forall k', booting P m T hd rq true sc k' -> post tt k') ->
  wp (spinlock_acquire task_list_lock_p) post k.
Proof.
  intros H Hpost. unfold wp, task_list_lock_p.
  rewrite (spinlock_acquire_free TaskListLock k 0 (bt_tl _ _ _ _ _ _ _ _ H)
             (booting_cid _ _ _ _ _ _ _ H)).
  apply Hpost. pose proof (booting_cid _ _ _ _ _ _ _ H) as Hc.
  destruct H as [B1 B2 B3 B4 B5 B6 B7]. split; simpl; try assumption; try reflexivity;
    try (split; [discriminate|]);
    try (unfold cid; simpl; rewrite B3; reflexivity);
    (eapply lock_is_ext; [|eassumption]); unfold cid; simpl; rewrite B3; reflexivity.
Qed.

Lemma wp_acquire_sc_boot m T hd rq tl k post :
  booting P m T hd rq tl false k ->
  (forall k', booting P m T hd rq tl true k' -> post tt k') ->
  wp (spinlock_acquire scheduler_lock_p) post k.
Proof.
  intros H Hpost. unfold wp, scheduler_lock_p.
  rewrite (spinlock_acquire_free SchedulerLock k 0 (bt_sc _ _ _ _ _ _ _ _ H)
             (booting_cid _ _ _ _ _ _ _ H)).
  apply Hpost. pose proof (booting_cid _ _ _ _ _ _ _ H) as Hc.
  destruct H as [B1 B2 B3 B4 B5 B6 B7]. split; simpl; try assumption; try reflexivity;
    try (split; [discriminate|]);
    try (unfold cid; simpl; rewrite B3; reflexivity);
    (eapply lock_is_ext; [|eassumption]); unfold cid; simpl; rewrite B3; reflexivity.
Qed.

Lemma wp_release_tl_boot m T hd rq sc k post :
  booting P m T hd rq true sc k ->
  (forall k', booting P m T hd rq false sc k' -> post tt k') ->
  wp (spinlock_release task_list_lock_p) post k.
Proof.
  intros H Hpost. unfold wp, task_list_lock_p.
  destruct (bt_tl _ _ _ _ _ _ _ _ H) as [_ Hown].
  rewrite (spinlock_release_owner TaskListLock k Hown).
  apply Hpost. destruct H as [B1 B2 B3 B4 B5 B6 B7]. split; simpl; try assumption; try reflexivity;
    try (split; [discriminate|]);
    try (unfold cid; simpl; rewrite B3; reflexivity);
    (eapply lock_is_ext; [|eassumption]); unfold cid; simpl; rewrite B3; reflexivity.
Qed.

Lemma wp_release_sc_boot m T hd rq tl k post :
  booting P m T hd rq tl true k ->
  (forall k', booting P m T hd rq tl false k' -> post tt k') ->
  wp (spinlock_release scheduler_lock_p) post k.
Proof.
  intros H Hpost. unfold wp, scheduler_lock_p.
  destruct (bt_sc _ _ _ _ _ _ _ _ H) as [_ Hown].
  rewrite (spinlock_release_owner SchedulerLock k Hown).
  apply Hpost. destruct H as [B1 B2 B3 B4 B5 B6 B7]. split; simpl; try assumption; try reflexivity;
    try (split; [discriminate|]);
    try (unfold cid; simpl; rewrite B3; reflexivity);
    (eapply lock_is_ext; [|eassumption]); unfold cid; simpl; rewrite B3; reflexivity.
Qed.

(** The end of [task_init]: with the idle task linked and current, the
    invariant holds. *)
Lemma booting_st m T hd k :
  booting P m T hd [idle_task_tcb P; 0; 0; 0; 0] false false k ->
  t_next T = 0 -> t_priority T = PRIORITY_IDLE -> schedulable (t_state T) = true ->
  st P [] false false (set_current_task (idle_task_tcb P) k)
     [[idle_task_tcb P]; []; []; []; []].
Proof.
  intros [B1 B2 B3 B4 B5 B6 B7] Hn Hp Hs.
  destruct P_ok as (Hhdr & Hfit & Hidle & Hout).
  assert (Hm : forall x, is_Some ((abs_task <$> tasks k) !! x) -> x = idle_task_tcb P).
  { intros x Hx. apply is_Some_abs in Hx. rewrite B1 in Hx.
    apply lookup_singleton_is_Some in Hx. congruence. }
  assert (Ha : (abs_task <$> tasks k) !! idle_task_tcb P = Some (abs_task T)).
  { rewrite lookup_fmap, B1, lookup_singleton_eq. reflexivity. }
  split; simpl; [|exact B6|exact B7]. split.
  - rewrite B5. reflexivity.
  - reflexivity.
  - rewrite B5. intros [|[|[|[|[|i]]]]] l Hl; simpl in Hl; inversion Hl; subst l;
      try reflexivity.
    simpl. split; [reflexivity|]. split; [exact Hidle|].
    exists (abs_task T). split; [exact Ha|]. exact Hn.
  - intros [|[|[|[|[|i]]]]] l x Hl Hx; simpl in Hl; inversion Hl; subst l;
      try (exfalso; exact Hx); destruct Hx as [<-|[]].
    exists (abs_task T). split; [exact Ha|]. split; [exact Hp|exact Hs].
  - intros x Hx. left. left. symmetry. apply Hm. exact Hx.
  - simpl. apply NoDup_singleton.
  - intros x [].
  - left. reflexivity.
  - rewrite B2. exists [(KERNEL_HEAP_SIZE - sizeof_heap_block_t P, true)].
    split; [|split; [reflexivity|split; [reflexivity|]]].
    + apply MMFacts.mm_init_repr; unfold KERNEL_HEAP_START, KERNEL_HEAP_SIZE in *; lia.
    + intros x Hx. left. apply Hm. exact Hx.
Qed.

Ltac boot_wrt H H' :=
  apply wp_bind; eapply wp_wrt_boot; [exact H|]; clear H;
  let k' := fresh "k" in intros k' H'.

(** [task_init] establishes the invariant. *)
Lemma boot_inv m k :
  task_init P (boot_kernel P m) = Ret 0 k -> exists Q, st P [] false false k Q.
Proof.
  intros E.
  assert (H : wp (task_init P) (fun r k' => r = 0 -> exists Q, st P [] false false k' Q)
                 (boot_kernel P m)).
  { clear E. pose proof P_ok as (Hhdr & Hfit & Hidle & Hout).
    unfold task_init.
    apply wp_bind. unfold spinlock_init, task_list_lock_p. apply wp_modify.
    apply wp_bind. unfold scheduler_lock_p. apply wp_modify.
    apply wp_bind, wp_modify. apply wp_bind, wp_modify.
    match goal with |- wp _ _ ?k0 =>
      assert (B : booting P m zero_task 0 [0; 0; 0; 0; 0] false false k0)
        by (split; try reflexivity; simpl; apply insert_empty);
      revert B; generalize k0; intros kb B
    end.
    boot_wrt B B1. boot_wrt B1 B2. boot_wrt B2 B3. boot_wrt B3 B4. boot_wrt B4 B5.
    boot_wrt B5 B6. boot_wrt B6 B7.
    apply wp_bind, wp_gets. boot_wrt B7 B8.
    apply wp_bind, wp_gets. boot_wrt B8 B9.
    apply wp_bind, wp_gets. boot_wrt B9 B10.
    apply wp_bind. unfold init_task_cpu_state.
    apply wp_bind. eapply wp_rd_boot; [exact B10|]. simpl t_parent. simpl Z.eqb. cbv iota.
    apply wp_bind, wp_ret.
    boot_wrt B10 B11. boot_wrt B11 B12. apply wp_ret. simpl negb. cbv iota.
    apply wp_bind. unfold task_list_add.
    destruct (idle_task_tcb P =? 0) eqn:E0; [lia|].
    apply wp_bind. eapply wp_acquire_tl_boot; [exact B12|]. clear B12. intros k13 B13.
    apply wp_bind, wp_gets. rewrite (bt_head _ _ _ _ _ _ _ _ B13).
    boot_wrt B13 B14. boot_wrt B14 B15.
    apply wp_bind, wp_gets. rewrite (bt_head _ _ _ _ _ _ _ _ B15).
    simpl negb. cbv iota. apply wp_bind, wp_ret. apply wp_bind, wp_modify.
    match goal with |- wp _ _ ?k0 =>
      assert (B16 : booting P m _ (idle_task_tcb P) [0; 0; 0; 0; 0] true false k0)
        by (eapply booting_ext; [exact B15|try reflexivity..];
            [apply (bt_tasks _ _ _ _ _ _ _ _ B15)|apply (bt_rq _ _ _ _ _ _ _ _ B15)]);
      revert B16; generalize k0; intros kb16 B16
    end.
    eapply wp_release_tl_boot; [exact B16|]. clear B16. intros k17 B17.
    apply wp_bind. unfold add_to_ready_queue. rewrite E0.
    apply wp_bind. eapply wp_rd_boot; [exact B17|]. simpl t_priority. simpl Z.ltb. cbv iota.
    apply wp_bind. eapply wp_acquire_sc_boot; [exact B17|]. clear B17. intros k18 B18.
    apply wp_bind. eapply wp_rd_boot; [exact B18|].
    apply wp_bind, wp_gets. rewrite (bt_rq _ _ _ _ _ _ _ _ B18).
    simpl t_priority. simpl queue_head.
    boot_wrt B18 B19.
    apply wp_bind. eapply wp_rd_boot; [exact B19|].
    apply wp_bind, wp_gets. rewrite (bt_rq _ _ _ _ _ _ _ _ B19).
    simpl t_priority. simpl queue_head. simpl Z.eqb. cbv iota.
    apply wp_bind, wp_ret.
    apply wp_bind. eapply wp_rd_boot; [exact B19|]. simpl t_priority.
    apply wp_bind. unfold set_queue_head. apply wp_modify.
    match goal with |- wp _ _ ?k0 =>
      assert (B20 : booting P m _ (idle_task_tcb P) [idle_task_tcb P; 0; 0; 0; 0]
                      false true k0)
        by (eapply booting_ext; [exact B19|try reflexivity..];
            [apply (bt_tasks _ _ _ _ _ _ _ _ B19)|apply (bt_head _ _ _ _ _ _ _ _ B19)
            |simpl; rewrite (bt_rq _ _ _ _ _ _ _ _ B19); reflexivity]);
      revert B20; generalize k0; intros kb20 B20
    end.
    boot_wrt B20 B21.
    eapply wp_release_sc_boot; [exact B21|]. clear B21. intros k22 B22.
    apply wp_bind, wp_modify. apply wp_ret. intros _.
    eexists. eapply booting_st; [exact B22|reflexivity..]. }
  unfold wp in H. rewrite E in H. auto.
Qed.

(** ** Reachable states *)

Lemma run_op_st k Q o k' :
  st P [] false false k Q -> lifecycle o -> well_typed o ->
  run_op P o k = Ret tt k' -> exists Q', st P [] false false k' Q'.
Proof.
  intros Hst Hl Hw E.
  assert (H : wp (run_op P o) (fun _ k1 => exists Q', st P [] false false k1 Q') k).
  { destruct o; simpl in Hl, Hw |- *; try contradiction.
    - apply wp_bind. eapply wp_mono; [apply wp_task_create with (Q := Q); assumption|].
      intros r k1 H1. apply wp_ret. exact H1.
    - apply wp_bind. eapply wp_mono; [apply wp_task_suspend; exact Hst|].
      intros r k1 H1. apply wp_ret. exists Q. exact H1.
    - apply wp_bind. eapply wp_mono; [apply wp_task_resume; exact Hst|].
      intros r k1 H1. apply wp_ret. exists Q. exact H1.
    - eapply wp_mono; [apply wp_task_sleep; exact Hst|]. intros u k1 H1. exists Q. exact H1.
    - eapply wp_mono; [apply wp_task_exit; exact Hst|]. intros u k1 H1. exists Q. exact H1.
    - eapply wp_mono; [apply wp_task_yield; exact Hst|]. intros u k1 H1. exists Q. exact H1.
    - eapply wp_mono; [apply wp_scheduler_tick; exact Hst|]. intros u k1 H1. exists Q. exact H1.
    - eapply wp_mono; [apply wp_schedule_next_task; exact Hst|]. intros u k1 H1. exists Q. exact H1.
    - eapply wp_mono; [apply wp_timer_callback; exact Hst|]. intros u k1 H1. exists Q. exact H1. }
  unfold wp in H. rewrite E in H. exact H.
Qed.

(** Every state reached from boot by the life-cycle operations
    satisfies the invariant. *)
Lemma reachable_st k :
  reachable_by P lifecycle k -> exists Q, st P [] false false k Q.
Proof.
  induction 1 as [m k E|k o k' _ [Q IH] Hl Hw E].
  - eapply boot_inv. exact E.
  - eapply run_op_st; eassumption.
Qed.

Lemma reachable_Inv k : reachable_by P lifecycle k -> Inv P k.
Proof.
  intros H. destruct (reachable_st k H) as [Q [Hc Htl Hsc]].
  split; [exists Q; exact Hc|]. split; [exact Htl|exact Hsc].
Qed.

(** ** The ready queues as lists *)

Lemma walk_queue_qchain (m : gmap Z task_t) l : forall fuel h,
  qchain (abs_task <$> m) h l -> (length l < fuel)%nat -> walk_queue fuel m h = l.
Proof.
  induction l as [|x l IH]; intros fuel h Hq Hf; (destruct fuel as [|fuel]; [simpl in Hf; lia|]).
  - simpl in Hq. subst h. reflexivity.
  - destruct Hq as (-> & Hne & a & Ha & Hq). simpl.
    destruct (x =? 0) eqn:E; [lia|].
    rewrite lookup_fmap in Ha. destruct (m !! x) as [t|]; [|discriminate].
    injection Ha as <-. f_equal. apply IH; [exact Hq|simpl in Hf; lia].
Qed.

Lemma nodup_dom_length {A} (l : list Z) : forall (m : gmap Z A),
  NoDup l -> (forall x, In x l -> is_Some (m !! x)) -> (length l <= size m)%nat.
Proof.
  induction l as [|x l IH]; intros m Hnd Hdom; [simpl; lia|].
  apply NoDup_cons in Hnd as [Hx Hnd].
  pose proof (Hdom x ltac:(left; reflexivity)) as Hs.
  pose proof (map_size_delete_Some x m Hs) as Hsz.
  pose proof (map_size_ne_0_lookup_2 m x Hs) as Hpos.
  assert (Hle : (length l <= size (delete x m))%nat).
  { apply IH; [exact Hnd|]. intros y Hy. rewrite lookup_delete_ne.
    - apply Hdom. right. exact Hy.
    - intros ->. apply Hx, list_elem_of_In. exact Hy. }
  simpl. lia.
Qed.

Lemma queue_length (Q : list (list Z)) i l :
  Q !! i = Some l -> (length l <= length (concat Q))%nat.
Proof.
  intros Hi. rewrite <- (take_drop_middle Q i l Hi).
  rewrite concat_app, concat_cons, !length_app. lia.
Qed.

(** Under the invariant the walk along [t_next] from the head of queue
    [q] meets exactly the tasks of [Q]'s list [q]. *)
Lemma st_queue_tasks k Q q l :
  st P [] false false k Q -> Q !! Z.to_nat q = Some l -> 0 <= q ->
  queue_tasks k q = l.
Proof.
  intros [Hc _ _] Hl Hq. unfold queue_tasks.
  apply walk_queue_qchain.
  - pose proof (core_chain _ _ _ _ _ _ _ Hc _ _ Hl) as Hch.
    rewrite Z2Nat.id in Hch by exact Hq. exact Hch.
  - pose proof (queue_length _ _ _ Hl) as H1.
    pose proof (core_nodup _ _ _ _ _ _ _ Hc) as Hnd. rewrite app_nil_r in Hnd.
    assert (H2 : (length (concat Q) <= size (tasks k))%nat).
    { apply nodup_dom_length.
      - exact Hnd.
      - intros x Hx. apply is_Some_abs.
        eapply core_member_some; [exact Hc|exact Hx]. }
    lia.
Qed.

Lemma st_linked k Q q task :
  st P [] false false k Q -> PRIORITY_IDLE <= q <= PRIORITY_CRITICAL ->
  linked k q task <->
  exists t, tasks k !! task = Some t /\ t_priority t = q.
Proof.
  intros Hst Hq. unfold PRIORITY_IDLE, PRIORITY_CRITICAL in Hq.
  pose proof (st_core _ _ _ _ _ _ Hst) as Hc.
  destruct (lookup_lt_is_Some_2 Q (Z.to_nat q)) as [l Hl].
  { rewrite (core_len_Q _ _ _ _ _ _ _ Hc). lia. }
  unfold linked. rewrite (st_queue_tasks _ _ _ _ Hst Hl) by lia. split.
  - intros Hin.
    destruct (core_member _ _ _ _ _ _ _ Hc _ _ _ Hl Hin) as (a & Ha & Hp & _).
    rewrite lookup_fmap in Ha. destruct (tasks k !! task) as [t|]; [|discriminate].
    injection Ha as <-. exists t. split; [reflexivity|].
    simpl in Hp. rewrite Hp. lia.
  - intros (t & Ht & Hp).
    destruct (st_dom _ _ _ _ _ _ Hst (mk_is_Some _ _ Ht)) as [Hin|[]].
    apply in_concat in Hin as (l' & Hl' & Hx).
    apply list_elem_of_In, list_elem_of_lookup in Hl' as (i & Hi).
    destruct (core_member _ _ _ _ _ _ _ Hc _ _ _ Hi Hx) as (a & Ha & Hp' & _).
    rewrite lookup_fmap, Ht in Ha. injection Ha as <-. simpl in Hp'.
    assert (i = Z.to_nat q) as -> by lia.
    assert (l' = l) as -> by congruence. exact Hx.
Qed.

(** ** Ready-queue membership *)


(** ** Selection in the states of the life cycle *)

Lemma find_ready_below_highest rq n :
  (find_ready_below rq n = 0 /\
   forall j, (j < n)%nat -> queue_head rq (Z.of_nat j) = 0) \/
  exists i, (i < n)%nat /\ find_ready_below rq n = queue_head rq (Z.of_nat i) /\
    queue_head rq (Z.of_nat i) <> 0 /\
    forall j, (i < j < n)%nat -> queue_head rq (Z.of_nat j) = 0.
Proof.
  induction n as [|n IH]; simpl; [left; split; [reflexivity|lia]|].
  destruct (queue_head rq (Z.of_nat n) =? 0) eqn:E; simpl.
  - destruct IH as [[IH0 IHz]|(i & Hi & Hr & Hne & Hz)].
    + left. split; [exact IH0|]. intros j Hj.
      destruct (decide (j = n)) as [->|]; [lia|apply IHz; lia].
    + right. exists i. split; [lia|]. split; [exact Hr|]. split; [exact Hne|].
      intros j Hj. destruct (decide (j = n)) as [->|]; [lia|apply Hz; lia].
  - right. exists n. split; [lia|]. split; [reflexivity|]. split; [lia|].
    intros j Hj. lia.
Qed.

(** Without [task_set_priority] the selection is what C1 says: in a state
    reached by the life-cycle operations [find_next_ready_task] returns a
    control block whose priority is at least that of every other one. *)
Lemma selection_top_priority k :
  reachable_by P lifecycle k ->
  exists sel ts, find_next_ready_task k = Ret sel k /\
    tasks k !! sel = Some ts /\
    forall x t, tasks k !! x = Some t -> t_priority t <= t_priority ts.
Proof.
  intros Hr. destruct (reachable_st k Hr) as [Q Hst].
  pose proof (st_core _ _ _ _ _ _ Hst) as Hc.
  assert (Hhead : forall x t, tasks k !! x = Some t ->
    exists i, (i < 5)%nat /\ t_priority t = Z.of_nat i /\
      queue_head (ready_queues k) (Z.of_nat i) <> 0).
  { intros x t Ht.
    destruct (st_dom _ _ _ _ _ _ Hst (mk_is_Some _ _ Ht)) as [Hin|[]].
    apply in_concat in Hin as (l & Hl & Hx).
    apply list_elem_of_In, list_elem_of_lookup in Hl as (i & Hi).
    destruct (core_member _ _ _ _ _ _ _ Hc _ _ _ Hi Hx) as (a & Ha & Hp & _).
    rewrite lookup_fmap, Ht in Ha. injection Ha as <-. simpl in Hp.
    exists i. split.
    { pose proof (lookup_lt_Some _ _ _ Hi) as Hlt.
      rewrite (core_len_Q _ _ _ _ _ _ _ Hc) in Hlt. exact Hlt. }
    split; [exact Hp|].
    pose proof (core_chain _ _ _ _ _ _ _ Hc _ _ Hi) as Hch.
    destruct l as [|y l]; [destruct Hx|].
    destruct Hch as (-> & Hne & _). exact Hne. }
  unfold find_next_ready_task, bind, gets, ret.
  change (S (Z.to_nat PRIORITY_CRITICAL)) with 5%nat.
  destruct (find_ready_below_highest (ready_queues k) 5)
    as [[_ Hz]|(i & Hi & Hsel & Hne & Hz)].
  - exfalso.
    destruct (core_member_some _ _ _ _ _ _ _ Hc (core_cur _ _ _ _ _ _ _ Hc)) as [a Ha].
    rewrite lookup_fmap in Ha.
    destruct (tasks k !! current_task k) as [t|] eqn:Ht; [|discriminate].
    destruct (Hhead _ _ Ht) as (j & Hj & _ & Hnz). apply Hnz, Hz. exact Hj.
  - pose proof (st_queue_head _ _ _ _ _ _ Hst Hi Hne) as Hin.
    destruct (lookup_lt_is_Some_2 Q i) as [l Hl].
    { rewrite (core_len_Q _ _ _ _ _ _ _ Hc). exact Hi. }
    pose proof (core_chain _ _ _ _ _ _ _ Hc _ _ Hl) as Hch.
    destruct l as [|y l]; [simpl in Hch; congruence|].
    destruct Hch as (Hy & _).
    destruct (core_member _ _ _ _ _ _ _ Hc _ _ y Hl ltac:(left; reflexivity))
      as (a & Ha & Hp & _).
    rewrite lookup_fmap in Ha.
    destruct (tasks k !! y) as [ts|] eqn:Hts; [|discriminate].
    injection Ha as <-. simpl in Hp.
    exists y, ts. rewrite Hsel, Hy. split; [reflexivity|]. split; [exact Hts|].
    intros x t Ht. destruct (Hhead _ _ Ht) as (j & Hj & Hpj & Hnz).
    destruct (decide (j <= i)%nat) as [Hle|Hgt]; [lia|].
    exfalso. apply Hnz, Hz. lia.
Qed.

(** ** Failure of [task_create] *)

(** C8, amended.  In every state reached from boot by the life-cycle
    operations, [task_create] returns 0 when [name] is null, when
    [entry_point] is null, and when [kmalloc] returns null for the control
    block or for the stack; the call then leaves every control block, the
    head of the task list and the heads of the ready queues as they were,
    so that the ready queues hold the same tasks as before. *)
Theorem task_create_failure (k : kernel) (name : option string)
    (entry_point priority flags : Z) :
  reachable_by P lifecycle k ->
  name = None \/ entry_point = 0 \/ allocation_fails P k = true ->
  exists k', task_create P name entry_point priority flags k = Ret 0 k' /\
    tasks k' = tasks k /\
    task_list_head_ptr k' = task_list_head_ptr k /\
    ready_queues k' = ready_queues k /\
    forall q task, linked k' q task <-> linked k q task.
Proof.
  intros Hr Hfail. destruct (reachable_st k Hr) as [Q Hst].
  destruct (task_create_fails k Q name entry_point priority flags Hst Hfail)
    as (k' & E & _ & Ht & Hh & Hq & _).
  exists k'. split; [exact E|]. split; [exact Ht|]. split; [exact Hh|].
  split; [exact Hq|]. intros q task. unfold linked, queue_tasks.
  rewrite Ht, Hq. reflexivity.
Qed.

End SchedFacts.

Lemma exec_reachable P allowed ops : forall k k',
  reachable_by P allowed k -> Forall allowed ops -> Forall well_typed ops ->
  exec P ops k = Some k' -> reachable_by P allowed k'.
Proof.
  induction ops as [|o ops IH]; intros k k' Hr Ha Hw E; simpl in E.
  - injection E as <-. exact Hr.
  - apply Forall_cons in Ha as [Ha1 Ha]. apply Forall_cons in Hw as [Hw1 Hw].
    destruct (run_op P o k) as [[] k1| | |] eqn:Eo; try discriminate.
    apply (IH k1 k'); try assumption.
    eapply reach_step; eassumption.
Qed.

Lemma lp64_ok : platform_ok lp64.
Proof. vm_compute. repeat split; try discriminate. left. reflexivity. Qed.

Lemma booted_reachable allowed : reachable_by lp64 allowed (booted lp64).
Proof. apply reach_boot with (m := fun _ => 0). vm_compute. reflexivity. Qed.



(** C8 as stated fails on the empty string: [task_create] tests [name]
    against null only; called after boot with an empty name it returns
    the id 1 and links the new task into the task list and into the ready
    queue of its priority. *)
Lemma empty_name_is_accepted :
  let call := task_create lp64 (Some EmptyString) 0x5000 PRIORITY_NORMAL
                TASK_FLAG_KERNEL (booted lp64) in
  let k' := state_after call (booted lp64) in
  result call = Some 1 /\
  t_name <$> tasks k' !! 0x200020 = Some EmptyString /\
  t_id <$> tasks k' !! 0x200020 = Some 1 /\
  tasks (booted lp64) !! 0x200020 = None /\
  task_list_head_ptr k' = 0x200020 /\
  linked k' PRIORITY_NORMAL 0x200020.
Proof.
  vm_compute. repeat split; try reflexivity. left. reflexivity.
Qed.

Lemma task_create_failure_witness :
  reachable_by lp64 lifecycle heap_exhausted /\
  allocation_fails lp64 heap_exhausted = true /\
  exists k', task_create lp64 (Some "u") 0x6000 PRIORITY_HIGH TASK_FLAG_KERNEL
               heap_exhausted = Ret 0 k' /\
    tasks k' = tasks heap_exhausted /\
    task_list_head_ptr k' = task_list_head_ptr heap_exhausted /\
    ready_queues k' = ready_queues heap_exhausted /\
    forall q task, linked k' q task <-> linked heap_exhausted q task.
Proof.
  assert (Hr : reachable_by lp64 lifecycle heap_exhausted).
  { apply (exec_reachable lp64 lifecycle
             (replicate 110 (Create (Some "t") 0x5000 PRIORITY_NORMAL TASK_FLAG_KERNEL))
             (booted lp64)).
    - apply booted_reachable.
    - apply Forall_replicate. exact I.
    - apply Forall_replicate. vm_compute. split; discriminate.
    - vm_compute. reflexivity. }
  assert (Hf : allocation_fails lp64 heap_exhausted = true) by (vm_compute; reflexivity).
  split; [exact Hr|]. split; [exact Hf|].
  exact (task_create_failure lp64 lp64_ok heap_exhausted (Some "u") 0x6000
           PRIORITY_HIGH TASK_FLAG_KERNEL Hr (or_intror (or_intror Hf))).
Defined.

End TaskFacts.

(** * Further properties of the memory manager *)

Module MMExtra.

Import MM.

(** ** The frame bitmap *)

Lemma land_bit (x b : Z) :
  0 <= b -> (Z.land x (Z.shiftl 1 b) =? 0) = negb (Z.testbit x b).
Proof.
  intros Hb. rewrite Z.shiftl_1_l.
  destruct (Z.testbit x b) eqn:E; simpl.
  - apply Z.eqb_neq. intros H0.
    assert (Ht : Z.testbit (Z.land x (2 ^ b)) b = true).
    { rewrite Z.land_spec, E, Z.pow2_bits_true by exact Hb. reflexivity. }
    rewrite H0, Z.bits_0 in Ht. discriminate.
  - apply Z.eqb_eq. apply Z.bits_inj'. intros n Hn.
    rewrite Z.land_spec, Z.bits_0, Z.pow2_bits_eqb by exact Hb.
    destruct (b =? n) eqn:En; [|apply andb_false_r].
    apply Z.eqb_eq in En. subst n. rewrite E. reflexivity.
Qed.

Lemma is_frame_used_testbit bm frame :
  is_frame_used bm frame = Z.testbit (bitmap_byte bm (frame / 8)) (frame mod 8).
Proof.
  unfold is_frame_used.
  pose proof (Z.mod_pos_bound frame 8 ltac:(lia)) as Hm.
  assert (E : u8 (frame mod 8) = frame mod 8).
  { unfold u8. apply Z.mod_small. change (2 ^ 8) with 256. lia. }
  rewrite E, land_bit by lia. apply negb_involutive.
Qed.

Lemma bitmap_byte_insert bm i v j :
  0 <= i -> 0 <= j -> (Z.to_nat i < length bm)%nat ->
  bitmap_byte (<[Z.to_nat i := v]> bm) j = if j =? i then v else bitmap_byte bm j.
Proof.
  intros Hi Hj Hlt. unfold bitmap_byte. destruct (j =? i) eqn:E.
  - apply Z.eqb_eq in E. subst j. rewrite list_lookup_insert_eq by exact Hlt. reflexivity.
  - rewrite list_lookup_insert_ne by lia. reflexivity.
Qed.

Lemma frame_index_eq (i j : Z) :
  (j / 8 =? i / 8) && (j mod 8 =? i mod 8) = (j =? i).
Proof.
  pose proof (Z.div_mod i 8 ltac:(lia)). pose proof (Z.div_mod j 8 ltac:(lia)).
  destruct (j =? i) eqn:E.
  - apply Z.eqb_eq in E. subst j. rewrite !Z.eqb_refl. reflexivity.
  - apply andb_false_iff.
    destruct (j / 8 =? i / 8) eqn:E1; [right|left; reflexivity].
    apply Z.eqb_neq. lia.
Qed.

Lemma is_frame_used_set (bm : list Z) (i j : Z) :
  0 <= i -> i / 8 < Z.of_nat (length bm) -> 0 <= j ->
  is_frame_used (set_frame_used bm i) j = (if j =? i then true else is_frame_used bm j).
Proof.
  intros Hi Hlen Hj.
  assert (Hi8 : 0 <= i / 8) by (apply Z.div_pos; lia).
  assert (Hj8 : 0 <= j / 8) by (apply Z.div_pos; lia).
  assert (Hlt : (Z.to_nat (i / 8) < length bm)%nat) by lia.
  pose proof (Z.mod_pos_bound i 8 ltac:(lia)) as Hmi.
  pose proof (Z.mod_pos_bound j 8 ltac:(lia)) as Hmj.
  assert (E : u8 (i mod 8) = i mod 8).
  { unfold u8. apply Z.mod_small. change (2 ^ 8) with 256. lia. }
  rewrite !is_frame_used_testbit. unfold set_frame_used.
  rewrite !bitmap_byte_insert by assumption. rewrite E.
  rewrite <- (frame_index_eq i j).
  destruct (j / 8 =? i / 8) eqn:E8; simpl; [|reflexivity].
  apply Z.eqb_eq in E8. rewrite E8. unfold u8.
  rewrite Z.mod_pow2_bits_low by lia.
  rewrite Z.lor_spec, Z.shiftl_1_l, Z.pow2_bits_eqb by lia.
  rewrite (Z.eqb_sym (i mod 8)).
  destruct (j mod 8 =? i mod 8); [apply orb_true_r|apply orb_false_r].
Qed.

Lemma is_frame_used_clear (bm : list Z) (i j : Z) :
  0 <= i -> i / 8 < Z.of_nat (length bm) -> 0 <= j ->
  is_frame_used (clear_frame_used bm i) j = (if j =? i then false else is_frame_used bm j).
Proof.
  intros Hi Hlen Hj.
  assert (Hi8 : 0 <= i / 8) by (apply Z.div_pos; lia).
  assert (Hj8 : 0 <= j / 8) by (apply Z.div_pos; lia).
  assert (Hlt : (Z.to_nat (i / 8) < length bm)%nat) by lia.
  pose proof (Z.mod_pos_bound i 8 ltac:(lia)) as Hmi.
  pose proof (Z.mod_pos_bound j 8 ltac:(lia)) as Hmj.
  assert (E : u8 (i mod 8) = i mod 8).
  { unfold u8. apply Z.mod_small. change (2 ^ 8) with 256. lia. }
  rewrite !is_frame_used_testbit. unfold clear_frame_used.
  rewrite !bitmap_byte_insert by assumption. rewrite E.
  rewrite <- (frame_index_eq i j).
  destruct (j / 8 =? i / 8) eqn:E8; simpl; [|reflexivity].
  apply Z.eqb_eq in E8. rewrite E8. unfold u8.
  rewrite Z.mod_pow2_bits_low by lia.
  rewrite Z.land_spec, Z.lnot_spec, Z.shiftl_1_l, Z.pow2_bits_eqb by lia.
  rewrite (Z.eqb_sym (i mod 8)).
  destruct (j mod 8 =? i mod 8); [apply andb_false_r|apply andb_true_r].
Qed.

(** X9.  The three bitmap functions agree: after [set_frame_used(i)]
    frame [i] reads as used, after [clear_frame_used(i)] as unused, and
    in both cases every other frame reads as before; the bitmap keeps
    its length. *)
Theorem frame_bit_round_trip (bm : list Z) (i j : Z) :
  0 <= i -> i / 8 < Z.of_nat (length bm) -> 0 <= j ->
  is_frame_used (set_frame_used bm i) j = (if j =? i then true else is_frame_used bm j) /\
  is_frame_used (clear_frame_used bm i) j = (if j =? i then false else is_frame_used bm j) /\
  length (set_frame_used bm i) = length bm /\
  length (clear_frame_used bm i) = length bm.
Proof.
  intros Hi Hlen Hj.
  split; [apply is_frame_used_set; assumption|].
  split; [apply is_frame_used_clear; assumption|].
  unfold set_frame_used, clear_frame_used. rewrite !length_insert. auto.
Qed.

Lemma frame_bit_round_trip_witness :
  0 <= 13 /\ 13 / 8 < Z.of_nat (length [0; 0; 0]) /\ 0 <= 13 /\
  is_frame_used (set_frame_used [0; 0; 0] 13) 13 =
    (if 13 =? 13 then true else is_frame_used [0; 0; 0] 13) /\
  is_frame_used (clear_frame_used [0; 0; 0] 13) 13 =
    (if 13 =? 13 then false else is_frame_used [0; 0; 0] 13) /\
  length (set_frame_used [0; 0; 0] 13) = length [0; 0; 0] /\
  length (clear_frame_used [0; 0; 0] 13) = length [0; 0; 0].
Proof.
  split; [lia|]. split; [vm_compute; reflexivity|]. split; [lia|].
  exact (frame_bit_round_trip [0; 0; 0] 13 13 ltac:(lia) ltac:(vm_compute; reflexivity)
           ltac:(lia)).
Defined.

(** ** The frame allocator *)

Lemma first_unused_Some bm n : forall i0 i,
  first_unused bm n i0 = Some i ->
  i0 <= i < i0 + Z.of_nat n /\ is_frame_used bm i = false /\
  forall j, i0 <= j < i -> is_frame_used bm j = true.
Proof.
  induction n as [|n IH]; intros i0 i H; [discriminate|]. simpl in H.
  destruct (is_frame_used bm i0) eqn:E.
  - destruct (IH _ _ H) as (Hr & Hu & Hb). split; [lia|]. split; [exact Hu|].
    intros j Hj. destruct (decide (j = i0)) as [->|]; [exact E|apply Hb; lia].
  - injection H as <-. split; [lia|]. split; [exact E|]. intros j Hj. lia.
Qed.

Lemma first_unused_None bm n : forall i0,
  first_unused bm n i0 = None ->
  forall j, i0 <= j < i0 + Z.of_nat n -> is_frame_used bm j = true.
Proof.
  induction n as [|n IH]; intros i0 H j Hj; [lia|]. simpl in H.
  destruct (is_frame_used bm i0) eqn:E; [|discriminate].
  destruct (decide (j = i0)) as [->|]; [exact E|]. apply (IH _ H). lia.
Qed.

Lemma nframes_bound f : 0 <= total_memory f -> 0 <= nframes f /\ nframes f * PAGE_SIZE <= total_memory f.
Proof.
  intros H. unfold nframes, PAGE_SIZE. split.
  - apply Z.div_pos; lia.
  - pose proof (Z.mul_div_le (total_memory f) 4096 ltac:(lia)). lia.
Qed.

(** Under the invariant [alloc_frame] fails when every frame is in use,
    and takes the lowest frame not in use otherwise. *)
Lemma alloc_frame_cases f :
  frames_inv f ->
  (alloc_frame f = (0, f) /\
   forall j, 0 <= j < nframes f -> is_frame_used (physical_bitmap f) j = true) \/
  (exists i, 0 <= i < nframes f /\ is_frame_used (physical_bitmap f) i = false /\
     (forall j, 0 <= j < i -> is_frame_used (physical_bitmap f) j = true) /\
     alloc_frame f = take_frame f i).
Proof.
  intros (Htot & Hlen & Hnff & Hbelow). unfold alloc_frame. fold (nframes f).
  destruct (first_unused (physical_bitmap f) (Z.to_nat (nframes f - next_free_frame f))
              (next_free_frame f)) as [i|] eqn:E1.
  - right. exists i. destruct (first_unused_Some _ _ _ _ E1) as (Hr & Hu & Hb).
    split; [lia|]. split; [exact Hu|]. split; [|reflexivity].
    intros j Hj. destruct (Z_lt_le_dec j (next_free_frame f)); [apply Hbelow|apply Hb]; lia.
  - pose proof (first_unused_None _ _ _ E1) as Hall.
    destruct (first_unused (physical_bitmap f) (Z.to_nat (next_free_frame f)) 0)
      as [i|] eqn:E2.
    + exfalso. destruct (first_unused_Some _ _ _ _ E2) as (Hr & Hu & _).
      rewrite Hbelow in Hu by lia. discriminate.
    + left. split; [reflexivity|]. intros j Hj.
      destruct (Z_lt_le_dec j (next_free_frame f)); [apply Hbelow|apply Hall]; lia.
Qed.

Lemma take_frame_inv f i :
  frames_inv f -> 0 <= i < nframes f ->
  (forall j, 0 <= j < i -> is_frame_used (physical_bitmap f) j = true) ->
  frames_inv (snd (take_frame f i)) /\
  fst (take_frame f i) = i * PAGE_SIZE /\
  next_free_frame (snd (take_frame f i)) = i + 1 /\
  total_memory (snd (take_frame f i)) = total_memory f /\
  forall j, 0 <= j ->
    is_frame_used (physical_bitmap (snd (take_frame f i))) j
    = if j =? i then true else is_frame_used (physical_bitmap f) j.
Proof.
  intros (Htot & Hlen & Hnff & Hbelow) Hi Hlow.
  destruct (nframes_bound f ltac:(lia)) as [Hn0 Hnp]. unfold PAGE_SIZE in Hnp.
  assert (Hi8 : i / 8 < Z.of_nat (length (physical_bitmap f))).
  { apply Z.div_lt_upper_bound; lia. }
  assert (Hbits : forall j, 0 <= j ->
    is_frame_used (set_frame_used (physical_bitmap f) i) j
    = if j =? i then true else is_frame_used (physical_bitmap f) j).
  { intros j Hj. apply is_frame_used_set; [lia|exact Hi8|exact Hj]. }
  unfold take_frame. simpl.
  assert (E1 : u64 (i + 1) = i + 1) by (apply MMFacts.u64_small; lia).
  assert (E2 : u64 (i * PAGE_SIZE) = i * PAGE_SIZE)
    by (apply MMFacts.u64_small; unfold PAGE_SIZE; lia).
  rewrite E1, E2. split; [|auto].
  unfold frames_inv, nframes. simpl. fold (nframes f).
  split; [exact Htot|]. split.
  - unfold set_frame_used. rewrite length_insert. exact Hlen.
  - split; [lia|]. intros j Hj. rewrite Hbits by lia.
    destruct (j =? i) eqn:E; [reflexivity|]. apply Hlow. lia.
Qed.

(** X10.  Once the allocator's invariant holds, [alloc_frame] keeps it;
    it returns 0 and changes nothing when every frame is in use;
    otherwise it returns the address of the lowest frame not in use,
    marks that frame and no other, and sets [next_free_frame] just
    behind it.  (The address of frame 0 is the value returned on
    failure.) *)
Theorem alloc_frame_lowest_free (f : frames) :
  frames_inv f ->
  frames_inv (snd (alloc_frame f)) /\
  total_memory (snd (alloc_frame f)) = total_memory f /\
  ((forall j, 0 <= j < nframes f -> is_frame_used (physical_bitmap f) j = true) ->
   alloc_frame f = (0, f)) /\
  (forall i, 0 <= i < nframes f -> is_frame_used (physical_bitmap f) i = false ->
     (forall j, 0 <= j < i -> is_frame_used (physical_bitmap f) j = true) ->
     fst (alloc_frame f) = i * PAGE_SIZE /\
     next_free_frame (snd (alloc_frame f)) = i + 1 /\
     forall j, 0 <= j ->
       is_frame_used (physical_bitmap (snd (alloc_frame f))) j
       = if j =? i then true else is_frame_used (physical_bitmap f) j).
Proof.
  intros Hinv.
  destruct (alloc_frame_cases f Hinv) as [[E Hall]|(i & Hi & Hu & Hlow & E)]; rewrite E.
  - split; [exact Hinv|]. split; [reflexivity|]. split; [reflexivity|].
    intros i Hi Hu _. rewrite Hall in Hu by exact Hi. discriminate.
  - destruct (take_frame_inv f i Hinv Hi Hlow) as (Hinv' & Ha & Hn & Ht & Hbits).
    split; [exact Hinv'|]. split; [exact Ht|]. split.
    + intros Hall. rewrite Hall in Hu by exact Hi. discriminate.
    + intros i' Hi' Hu' Hlow'.
      assert (i' = i) as ->.
      { destruct (Z.lt_trichotomy i' i) as [Hlt|[Heq|Hgt]]; [|exact Heq|].
        - rewrite Hlow in Hu' by lia. discriminate.
        - rewrite Hlow' in Hu by lia. discriminate. }
      auto.
Qed.

Lemma free_frame_in_range (f : frames) (frame_addr : Z) :
  frames_inv f -> 0 <= frame_addr -> frame_addr / PAGE_SIZE < nframes f ->
  frames_inv (free_frame f frame_addr) /\
  total_memory (free_frame f frame_addr) = total_memory f /\
  next_free_frame (free_frame f frame_addr)
    = Z.min (next_free_frame f) (frame_addr / PAGE_SIZE) /\
  forall j, 0 <= j ->
    is_frame_used (physical_bitmap (free_frame f frame_addr)) j
    = if j =? frame_addr / PAGE_SIZE then false
      else is_frame_used (physical_bitmap f) j.
Proof.
  intros Hinv Ha E. pose proof Hinv as (Htot & Hlen & Hnff & Hbelow).
  assert (Hfr : 0 <= frame_addr / PAGE_SIZE) by (apply Z.div_pos; unfold PAGE_SIZE; lia).
  unfold free_frame. fold (nframes f).
  destruct (frame_addr / PAGE_SIZE <? nframes f) eqn:E'; [|lia].
  assert (Hi8 : frame_addr / PAGE_SIZE / 8 < Z.of_nat (length (physical_bitmap f))).
  { apply Z.div_lt_upper_bound; lia. }
  assert (Hbits : forall j, 0 <= j ->
    is_frame_used (clear_frame_used (physical_bitmap f) (frame_addr / PAGE_SIZE)) j
    = if j =? frame_addr / PAGE_SIZE then false
      else is_frame_used (physical_bitmap f) j).
  { intros j Hj. apply is_frame_used_clear; [lia|exact Hi8|exact Hj]. }
  split; [|split; [reflexivity|split; [|exact Hbits]]].
  - unfold frames_inv, nframes. simpl. fold (nframes f).
    split; [exact Htot|]. split.
    + unfold clear_frame_used. rewrite length_insert. exact Hlen.
    + destruct (frame_addr / PAGE_SIZE <? next_free_frame f) eqn:E2.
      * apply Z.ltb_lt in E2. split; [lia|]. intros j Hj. rewrite Hbits by lia.
        destruct (j =? frame_addr / PAGE_SIZE) eqn:E3; [lia|]. apply Hbelow. lia.
      * apply Z.ltb_ge in E2. split; [lia|]. intros j Hj. rewrite Hbits by lia.
        destruct (j =? frame_addr / PAGE_SIZE) eqn:E3; [lia|]. apply Hbelow. lia.
  - simpl. destruct (frame_addr / PAGE_SIZE <? next_free_frame f) eqn:E2; lia.
Qed.

(** X11.  [free_frame] keeps the allocator's invariant.  An address
    beyond the last frame changes nothing; any other address, aligned or
    not, marks the frame it lies in as unused and no other, and lowers
    [next_free_frame] to that frame when it was above. *)
Theorem free_frame_clears_one (f : frames) (frame_addr : Z) :
  frames_inv f -> 0 <= frame_addr ->
  frames_inv (free_frame f frame_addr) /\
  (nframes f <= frame_addr / PAGE_SIZE -> free_frame f frame_addr = f) /\
  (frame_addr / PAGE_SIZE < nframes f ->
     next_free_frame (free_frame f frame_addr)
       = Z.min (next_free_frame f) (frame_addr / PAGE_SIZE) /\
     forall j, 0 <= j ->
       is_frame_used (physical_bitmap (free_frame f frame_addr)) j
       = if j =? frame_addr / PAGE_SIZE then false
         else is_frame_used (physical_bitmap f) j).
Proof.
  intros Hinv Ha.
  destruct (Z_lt_le_dec (frame_addr / PAGE_SIZE) (nframes f)) as [Hlt|Hge].
  - destruct (free_frame_in_range f frame_addr Hinv Ha Hlt) as (H1 & _ & H2 & H3).
    split; [exact H1|]. split; [lia|]. intros _. split; [exact H2|exact H3].
  - assert (E : free_frame f frame_addr = f).
    { unfold free_frame. fold (nframes f).
      destruct (frame_addr / PAGE_SIZE <? nframes f) eqn:E'; [lia|reflexivity]. }
    rewrite E. split; [exact Hinv|]. split; [reflexivity|lia].
Qed.

(** X12.  A frame returned by [alloc_frame] and given back by
    [free_frame] is unused again, every frame reads as before the
    allocation, and the next [alloc_frame] returns the same address. *)
Theorem alloc_free_alloc_round_trip (f : frames) (a : Z) (f1 : frames) :
  frames_inv f -> alloc_frame f = (a, f1) -> a <> 0 ->
  (forall j, 0 <= j ->
     is_frame_used (physical_bitmap (free_frame f1 a)) j
     = is_frame_used (physical_bitmap f) j) /\
  fst (alloc_frame (free_frame f1 a)) = a.
Proof.
  intros Hinv E Hne.
  destruct (alloc_frame_cases f Hinv) as [[E0 _]|(i & Hi & Hu & Hlow & Et)];
    [congruence|].
  destruct (take_frame_inv f i Hinv Hi Hlow) as (Hinv1 & Ha & Hn & Ht & Hbits).
  rewrite E in Et. rewrite <- Et in Hinv1, Ha, Hn, Ht, Hbits. simpl in *.
  assert (Hdiv : a / PAGE_SIZE = i).
  { rewrite Ha. unfold PAGE_SIZE. apply Z.div_mul. lia. }
  assert (Hn1 : nframes f1 = nframes f) by (unfold nframes; rewrite Ht; reflexivity).
  assert (Ha0 : 0 <= a) by (unfold PAGE_SIZE in *; lia).
  destruct (free_frame_in_range f1 a Hinv1 Ha0 ltac:(rewrite Hdiv, Hn1; lia))
    as (Hinv2 & Ht2 & Hn2 & Hbits2).
  assert (Hsame : forall j, 0 <= j ->
     is_frame_used (physical_bitmap (free_frame f1 a)) j
     = is_frame_used (physical_bitmap f) j).
  { intros j Hj. rewrite Hbits2, Hbits, Hdiv by exact Hj.
    destruct (j =? i) eqn:Ej; [|reflexivity].
    apply Z.eqb_eq in Ej. subst j. symmetry. exact Hu. }
  split; [exact Hsame|].
  assert (Hn3 : nframes (free_frame f1 a) = nframes f).
  { unfold nframes. rewrite Ht2, Ht. reflexivity. }
  destruct (alloc_frame_cases _ Hinv2) as [[_ Hall]|(i' & Hi' & Hu' & Hlow' & Et')].
  - rewrite Hn3 in Hall. specialize (Hall i Hi).
    rewrite Hsame, Hu in Hall by lia. discriminate.
  - rewrite Hn3 in Hi'. rewrite Hsame in Hu' by lia.
    assert (i' = i) as ->.
    { destruct (Z.lt_trichotomy i' i) as [Hlt|[Heq|Hgt]]; [|exact Heq|].
      - rewrite Hlow in Hu' by lia. discriminate.
      - specialize (Hlow' i ltac:(lia)). rewrite Hsame, Hu in Hlow' by lia. discriminate. }
    rewrite Et'.
    destruct (take_frame_inv _ i Hinv2 ltac:(rewrite Hn3; exact Hi) Hlow') as (_ & Ha' & _).
    rewrite Ha'. symmetry. exact Ha.
Qed.

(** ** The frame allocator after boot *)

Lemma mark_frames_used_nat bm k :
  Z.of_nat k <= 8 * Z.of_nat (length bm) ->
  let r := fold_left (fun b i => set_frame_used b (Z.of_nat i)) (seq 0 k) bm in
  length r = length bm /\
  forall j, 0 <= j -> is_frame_used r j = (j <? Z.of_nat k) || is_frame_used bm j.
Proof.
  induction k as [|k IH]; intros Hk; cbv zeta.
  - split; [reflexivity|]. intros j Hj. change (Z.of_nat 0) with 0.
    simpl. destruct (j <? 0) eqn:E; [lia|reflexivity].
  - rewrite seq_S, fold_left_app. cbn [fold_left Nat.add].
    destruct (IH ltac:(lia)) as [Hlen Hbits].
    split.
    + unfold set_frame_used. rewrite length_insert. exact Hlen.
    + intros j Hj. rewrite is_frame_used_set; [|lia| |exact Hj].
      * rewrite Hbits by exact Hj.
        destruct (Z.eqb_spec j (Z.of_nat k)); destruct (Z.ltb_spec j (Z.of_nat k));
          destruct (Z.ltb_spec j (Z.of_nat (S k))); try reflexivity; exfalso; lia.
      * rewrite Hlen. apply Z.div_lt_upper_bound; lia.
Qed.

Lemma memset_bitmap_spec bm n :
  0 <= n ->
  (Z.to_nat n <= length (memset_bitmap bm n))%nat /\
  forall j, 0 <= j < 8 * n -> is_frame_used (memset_bitmap bm n) j = false.
Proof.
  intros Hn. unfold memset_bitmap. split.
  - rewrite length_app, length_replicate. lia.
  - intros j Hj. rewrite is_frame_used_testbit. unfold bitmap_byte.
    assert (Hj8 : 0 <= j / 8 < n).
    { split; [apply Z.div_pos; lia|apply Z.div_lt_upper_bound; lia]. }
    rewrite lookup_app_l by (rewrite length_replicate; lia).
    rewrite lookup_replicate_2 by lia. simpl. apply Z.bits_0.
Qed.

Lemma init_paging_boot bm :
  let f := init_paging (boot_frames bm) in
  frames_inv f /\ nframes f = 32768 /\ next_free_frame f = 0 /\
  forall j, 0 <= j < 32768 -> is_frame_used (physical_bitmap f) j = (j <? 1024).
Proof.
  destruct (memset_bitmap_spec bm 4096 ltac:(lia)) as [Hlen Hzero].
  pose proof (mark_frames_used_nat (memset_bitmap bm 4096) 1024 ltac:(lia)) as [Hl Hb].
  assert (Hbm : physical_bitmap (init_paging (boot_frames bm))
                = fold_left (fun b i => set_frame_used b (Z.of_nat i)) (seq 0 1024)
                    (memset_bitmap bm 4096)) by reflexivity.
  assert (Hn : nframes (init_paging (boot_frames bm)) = 32768) by reflexivity.
  split; [|split; [exact Hn|split; [reflexivity|]]].
  - unfold frames_inv. rewrite Hn, Hbm, Hl. split; [simpl; lia|].
    split; [lia|]. split; [simpl; lia|]. intros j Hj. simpl in Hj. lia.
  - intros j Hj. rewrite Hbm, Hb by lia. rewrite Hzero by lia. apply orb_false_r.
Qed.

Lemma alloc_frames_S n f :
  fst (alloc_frames (S n) f)
  = fst (alloc_frame f) :: fst (alloc_frames n (snd (alloc_frame f))).
Proof.
  simpl. destruct (alloc_frame f) as [a f1]. simpl.
  destruct (alloc_frames n f1) as [l f2]. reflexivity.
Qed.

Lemma alloc_frames_from n : forall f m,
  frames_inv f -> nframes f = 32768 ->
  (forall j, 0 <= j < 32768 ->
     is_frame_used (physical_bitmap f) j = (j <? 1024 + Z.min (Z.of_nat m) 31744)) ->
  fst (alloc_frames n f)
  = (fun i : nat => if Z.of_nat i <? 31744
                    then 0x400000 + Z.of_nat i * PAGE_SIZE else 0) <$> seq m n.
Proof.
  induction n as [|n IH]; intros f m Hinv Hn Hbits; [reflexivity|].
  rewrite alloc_frames_S. cbn [seq fmap list_fmap].
  destruct (alloc_frame_cases f Hinv) as [[E Hall]|(i & Hi & Hu & Hlow & E)]; rewrite E.
  - rewrite Hn in Hall.
    assert (Hm : 31744 <= Z.of_nat m).
    { destruct (Z_lt_le_dec (Z.of_nat m) 31744) as [Hlt|]; [|assumption].
      specialize (Hall (1024 + Z.of_nat m) ltac:(lia)).
      rewrite Hbits in Hall by lia.
      destruct (1024 + Z.of_nat m <? 1024 + Z.min (Z.of_nat m) 31744) eqn:E1;
        [lia|discriminate]. }
    simpl. destruct (Z.of_nat m <? 31744) eqn:E1; [lia|]. f_equal.
    apply IH; [exact Hinv|exact Hn|].
    intros j Hj. rewrite Hbits by exact Hj. f_equal. lia.
  - rewrite Hn in Hi.
    assert (Hi' : i = 1024 + Z.of_nat m /\ Z.of_nat m < 31744).
    { rewrite Hbits in Hu by lia.
      destruct (i <? 1024 + Z.min (Z.of_nat m) 31744) eqn:E1; [discriminate|].
      destruct (Z_lt_le_dec (1024 + Z.min (Z.of_nat m) 31744) i) as [Hgt|Hle].
      - specialize (Hlow (1024 + Z.min (Z.of_nat m) 31744) ltac:(lia)).
        rewrite Hbits in Hlow by lia.
        destruct (1024 + Z.min (Z.of_nat m) 31744 <? 1024 + Z.min (Z.of_nat m) 31744) eqn:E2;
          [lia|discriminate].
      - lia. }
    destruct Hi' as [-> Hm].
    rewrite <- Hn in Hi.
    destruct (take_frame_inv f _ Hinv Hi Hlow) as (Hinv' & Ha & _ & Ht & Hbits').
    rewrite Hn in Hi.
    rewrite Ha. destruct (Z.of_nat m <? 31744) eqn:E1; [|lia]. f_equal.
    + unfold PAGE_SIZE. lia.
    + apply IH; [exact Hinv'|unfold nframes in *; rewrite Ht; exact Hn|].
      intros j Hj. rewrite Hbits' by lia. rewrite Hbits by exact Hj.
      destruct (Z.eqb_spec j (1024 + Z.of_nat m));
        destruct (Z.ltb_spec j (1024 + Z.min (Z.of_nat m) 31744));
        destruct (Z.ltb_spec j (1024 + Z.min (Z.of_nat (S m)) 31744));
        try reflexivity; exfalso; lia.
Qed.

(** X13.  After [init_paging], whatever the bitmap area held before,
    successive calls of [alloc_frame] return the frames from 4 MiB
    upward, one page after the other: the call number [i], counted from
    0, returns [0x400000 + i * 4096] as long as [i < 31744]; every call
    after that returns 0. *)
Theorem alloc_frames_after_boot (bm : list Z) (n : nat) :
  fst (alloc_frames n (init_paging (boot_frames bm)))
  = (fun i : nat => if Z.of_nat i <? 31744
                    then 0x400000 + Z.of_nat i * PAGE_SIZE else 0) <$> seq 0 n.
Proof.
  destruct (init_paging_boot bm) as (Hinv & Hn & _ & Hbits).
  apply alloc_frames_from; [exact Hinv|exact Hn|].
  intros j Hj. rewrite Hbits by exact Hj. f_equal.
Qed.

Lemma alloc_frame_lowest_free_witness :
  frames_inv (init_paging (boot_frames [])) /\
  frames_inv (snd (alloc_frame (init_paging (boot_frames [])))) /\
  fst (alloc_frame (init_paging (boot_frames []))) = 1024 * PAGE_SIZE /\
  next_free_frame (snd (alloc_frame (init_paging (boot_frames [])))) = 1024 + 1.
Proof.
  destruct (init_paging_boot []) as (Hinv & Hn & _ & Hbits).
  destruct (alloc_frame_lowest_free _ Hinv) as (H1 & _ & _ & H2).
  split; [exact Hinv|]. split; [exact H1|].
  destruct (H2 1024) as (Ha & Hnf & _).
  - rewrite Hn. lia.
  - rewrite Hbits by lia. reflexivity.
  - intros j Hj. rewrite Hbits by lia. apply Z.ltb_lt. lia.
  - split; [exact Ha|exact Hnf].
Defined.

Lemma free_frame_clears_one_witness :
  frames_inv (init_paging (boot_frames [])) /\ 0 <= 0x5123 /\
  frames_inv (free_frame (init_paging (boot_frames [])) 0x5123) /\
  next_free_frame (free_frame (init_paging (boot_frames [])) 0x5123)
    = Z.min 0 (0x5123 / PAGE_SIZE) /\
  is_frame_used (physical_bitmap (free_frame (init_paging (boot_frames [])) 0x5123)) 5
    = false.
Proof.
  destruct (init_paging_boot []) as (Hinv & Hn & Hnf & Hbits).
  destruct (free_frame_clears_one _ 0x5123 Hinv ltac:(lia)) as (H1 & _ & H2).
  split; [exact Hinv|]. split; [lia|]. split; [exact H1|].
  destruct H2 as [H3 H4]; [rewrite Hn; vm_compute; reflexivity|].
  split; [rewrite H3, Hnf; reflexivity|]. rewrite H4 by lia. reflexivity.
Defined.

Lemma alloc_free_alloc_round_trip_witness :
  frames_inv (init_paging (boot_frames [])) /\
  alloc_frame (init_paging (boot_frames []))
    = (0x400000, snd (alloc_frame (init_paging (boot_frames [])))) /\
  0x400000 <> 0 /\
  fst (alloc_frame (free_frame (snd (alloc_frame (init_paging (boot_frames []))))
                      0x400000)) = 0x400000.
Proof.
  destruct (init_paging_boot []) as (Hinv & _).
  assert (E : alloc_frame (init_paging (boot_frames []))
              = (0x400000, snd (alloc_frame (init_paging (boot_frames [])))))
    by (vm_compute; reflexivity).
  split; [exact Hinv|]. split; [exact E|]. split; [discriminate|].
  exact (proj2 (alloc_free_alloc_round_trip _ 0x400000 _ Hinv E ltac:(discriminate))).
Defined.

Section HeapExtra.

Variable hdr : Z.
Hypothesis hdr_pos : 0 < hdr.

(** ** Geometry of the block list *)

Lemma block_at_next bs : forall a t sz fr,
  Forall (fun b : Z * bool => 0 <= b.1) bs ->
  block_at hdr a bs t = Some (sz, fr) -> t + hdr + sz <= a + span hdr bs.
Proof.
  induction bs as [|[s f] rest IH]; intros a t sz fr Hall Hb; [discriminate|].
  apply Forall_cons in Hall as [Hs Hall]. simpl in Hs, Hb |- *.
  pose proof (MMFacts.span_nonneg hdr hdr_pos rest Hall) as Hsp.
  destruct (a =? t) eqn:E.
  - injection Hb as <- <-. lia.
  - specialize (IH _ _ _ _ Hall Hb). lia.
Qed.

Lemma block_at_disjoint bs : forall a t1 t2 s1 f1 s2 f2,
  Forall (fun b : Z * bool => 0 <= b.1) bs ->
  block_at hdr a bs t1 = Some (s1, f1) -> block_at hdr a bs t2 = Some (s2, f2) ->
  t1 <> t2 -> t1 + hdr + s1 <= t2 \/ t2 + hdr + s2 <= t1.
Proof.
  induction bs as [|[s f] rest IH]; intros a t1 t2 s1 f1 s2 f2 Hall H1 H2 Hne;
    [discriminate|].
  apply Forall_cons in Hall as [Hs Hall]. simpl in Hs, H1, H2.
  destruct (a =? t1) eqn:E1; destruct (a =? t2) eqn:E2.
  - lia.
  - injection H1 as <- <-. left.
    pose proof (MMFacts.block_at_ge hdr hdr_pos _ _ _ _ Hall H2). lia.
  - injection H2 as <- <-. right.
    pose proof (MMFacts.block_at_ge hdr hdr_pos _ _ _ _ Hall H1). lia.
  - eapply IH; eassumption.
Qed.

Lemma chain_span bs : forall bl prev a e,
  chain hdr bl prev a bs e -> a + span hdr bs = e.
Proof.
  induction bs as [|[s f] rest IH]; intros bl prev a e Hc; simpl in *; [lia|].
  destruct Hc as (_ & _ & _ & Hc). specialize (IH _ _ _ _ Hc). lia.
Qed.

(** ** What [kmalloc] does to the block list *)

Lemma alloc_list_None_iff bs : forall a n,
  alloc_list hdr a bs n = None <-> no_fit bs n.
Proof.
  unfold no_fit.
  induction bs as [|[s f] rest IH]; intros a n; simpl.
  - split; [constructor|reflexivity].
  - destruct (f && (n <=? s)) eqn:E.
    + split; [discriminate|]. intros H. apply Forall_cons in H as [[H|H] _]; simpl in H.
      * subst f. discriminate.
      * apply andb_true_iff in E as [_ E]. lia.
    + destruct (alloc_list hdr (a + hdr + s) rest n) as [[p rest']|] eqn:Er.
      * split; [discriminate|]. intros H. apply Forall_cons in H as [_ H].
        apply (IH (a + hdr + s) n) in H. congruence.
      * split; [|reflexivity]. intros _. apply Forall_cons. split.
        -- simpl. apply andb_false_iff in E as [E|E]; [left; exact E|right; lia].
        -- apply (IH (a + hdr + s) n). exact Er.
Qed.

Lemma alloc_list_new_size bs : forall a n q bs',
  Forall (fun b : Z * bool => 0 <= b.1) bs -> 0 <= n ->
  alloc_list hdr a bs n = Some (q, bs') ->
  exists s0 s', block_at hdr a bs q = Some (s0, true) /\
    block_at hdr a bs' q = Some (s', false) /\ n <= s' <= s0.
Proof.
  induction bs as [|[s f] rest IH]; intros a n q bs' Hall Hn Ha; [discriminate|].
  apply Forall_cons in Hall as [Hs Hall]. simpl in Hs, Ha.
  destruct (f && (n <=? s)) eqn:E.
  - apply andb_true_iff in E as [-> E]. injection Ha as <- <-.
    exists s. simpl. rewrite Z.eqb_refl.
    destruct (n + hdr + 8 <? s) eqn:E2; simpl; rewrite Z.eqb_refl.
    + exists n. repeat split; lia.
    + exists s. repeat split; lia.
  - destruct (alloc_list hdr (a + hdr + s) rest n) as [[p rest']|] eqn:Er; [|discriminate].
    injection Ha as <- <-.
    destruct (IH _ _ _ _ Hall Hn Er) as (s0 & s' & H0 & H1 & Hle).
    pose proof (MMFacts.alloc_list_ge hdr hdr_pos _ _ _ _ _ Hall Er) as Hge.
    exists s0, s'. simpl. destruct (a =? p) eqn:E3; [lia|]. auto.
Qed.

Lemma alloc_list_block_at_back bs : forall a n q bs' t sz,
  Forall (fun b : Z * bool => 0 <= b.1) bs -> 0 <= n ->
  alloc_list hdr a bs n = Some (q, bs') ->
  block_at hdr a bs' t = Some (sz, false) ->
  t = q \/ block_at hdr a bs t = Some (sz, false).
Proof.
  induction bs as [|[s f] rest IH]; intros a n q bs' t sz Hall Hn Ha Hb; [discriminate|].
  apply Forall_cons in Hall as [Hs Hall]. simpl in Hs, Ha.
  destruct (f && (n <=? s)) eqn:E.
  - apply andb_true_iff in E as [-> E]. injection Ha as <- <-.
    destruct (a =? t) eqn:E1; [left; lia|right].
    simpl. rewrite E1.
    destruct (n + hdr + 8 <? s) eqn:E2; simpl in Hb; rewrite E1 in Hb; [|exact Hb].
    destruct (a + hdr + n =? t) eqn:E3; [discriminate|].
    replace (a + hdr + n + hdr + (s - n - hdr)) with (a + hdr + s) in Hb by lia.
    exact Hb.
  - destruct (alloc_list hdr (a + hdr + s) rest n) as [[p rest']|] eqn:Er; [|discriminate].
    injection Ha as <- <-. simpl in Hb |- *.
    destruct (a =? t) eqn:E1; [right; exact Hb|].
    eapply IH; eassumption.
Qed.

Lemma alloc_list_free_list bs : forall a n q bs',
  Forall (fun b : Z * bool => 0 <= b.1) bs -> 0 <= n ->
  no_adjacent_free bs ->
  alloc_list hdr a bs n = Some (q, bs') ->
  free_list hdr a bs' q = bs.
Proof.
  assert (Hhead : forall a n s rest,
    0 <= n -> n <= s -> head_free rest = false ->
    free_list hdr a (if n + hdr + 8 <? s
                     then (n, false) :: (s - n - hdr, true) :: rest
                     else (s, false) :: rest) a = (s, true) :: rest).
  { intros a n s rest Hn Hle Hf.
    destruct (n + hdr + 8 <? s); rewrite MMFacts.free_list_first; simpl.
    - f_equal. f_equal. lia.
    - destruct rest as [|[s1 [|]] r]; simpl in Hf; try discriminate; reflexivity. }
  induction bs as [|[s f] rest IH]; intros a n q bs' Hall Hn Hadj Ha; [discriminate|].
  apply Forall_cons in Hall as [Hs Hall]. simpl in Hs, Ha.
  apply MMFacts.no_adjacent_free_cons in Hadj as [Hf Hadj]. simpl in Hf.
  destruct (f && (n <=? s)) eqn:E.
  - apply andb_true_iff in E as [-> E]. injection Ha as <- <-.
    apply Hhead; [lia|lia|exact Hf].
  - destruct (alloc_list hdr (a + hdr + s) rest n) as [[p rest']|] eqn:Er; [|discriminate].
    injection Ha as <- <-.
    pose proof (MMFacts.alloc_list_ge hdr hdr_pos _ _ _ _ _ Hall Er) as Hge.
    pose proof (IH _ _ _ _ Hall Hn Hadj Er) as IHr.
    cbn [free_list]. destruct (a =? p) eqn:E1; [lia|].
    destruct rest' as [|[s1 f1] r1].
    { destruct rest; discriminate. }
    destruct (a + hdr + s =? p) eqn:E2; [|rewrite IHr; reflexivity].
    apply Z.eqb_eq in E2. subst p.
    rewrite MMFacts.free_list_first in IHr. rewrite IHr.
    destruct rest as [|[s2 f2] r2]; [discriminate|].
    simpl in Er. destruct (f2 && (n <=? s2)) eqn:E3.
    + apply andb_true_iff in E3 as [-> _]. simpl in Hf.
      rewrite andb_true_r in Hf. subst f. reflexivity.
    + destruct (alloc_list hdr (a + hdr + s + hdr + s2) r2 n) as [[p2 r2']|] eqn:Er2;
        [|discriminate].
      injection Er as Hp _.
      apply Forall_cons in Hall as [Hs2 Hall2]. simpl in Hs2.
      pose proof (MMFacts.alloc_list_ge hdr hdr_pos _ _ _ _ _ Hall2 Er2). lia.
Qed.

(** ** What [kfree] does to the block list *)

Lemma free_head_block_at_back a sz fr rest x s :
  0 <= sz -> Forall (fun b : Z * bool => 0 <= b.1) rest ->
  block_at hdr a (free_head hdr sz rest) x = Some (s, false) ->
  x <> a /\ block_at hdr a ((sz, fr) :: rest) x = Some (s, false).
Proof.
  intros Hs Hall Hb. unfold free_head in Hb.
  destruct rest as [|[s1 [|]] r1]; simpl in Hb |- *.
  - destruct (a =? x) eqn:E; [discriminate|]. split; [lia|exact Hb].
  - destruct (a =? x) eqn:E; [discriminate|]. split; [lia|].
    apply Forall_cons in Hall as [Hs1 Hall]. simpl in Hs1.
    pose proof (MMFacts.block_at_ge hdr hdr_pos _ _ _ _ Hall Hb) as Hge.
    destruct (a + hdr + sz =? x) eqn:E1; [lia|].
    replace (a + hdr + sz + hdr + s1) with (a + hdr + (sz + (s1 + hdr))) by lia.
    exact Hb.
  - destruct (a =? x) eqn:E; [discriminate|]. split; [lia|exact Hb].
Qed.

Lemma free_list_block_at_back bs : forall a t x s,
  Forall (fun b : Z * bool => 0 <= b.1) bs ->
  block_at hdr a (free_list hdr a bs t) x = Some (s, false) ->
  x <> t /\ block_at hdr a bs x = Some (s, false).
Proof.
  induction bs as [|[sz fr] rest IH]; intros a t x s Hall Hb; [discriminate|].
  apply Forall_cons in Hall as [Hs Hall]. simpl in Hs.
  cbn [free_list] in Hb. destruct (a =? t) eqn:Et.
  { apply Z.eqb_eq in Et. subst t.
    apply (free_head_block_at_back a sz fr rest x s Hs Hall Hb). }
  destruct rest as [|[s1 f1] r1].
  { simpl in Hb |- *. destruct (a =? x) eqn:Ex; [|discriminate].
    split; [lia|exact Hb]. }
  destruct (a + hdr + sz =? t) eqn:Et1.
  - apply Z.eqb_eq in Et1.
    pose proof Hall as Hall'. apply Forall_cons in Hall' as [Hs1 Hall1]. simpl in Hs1.
    destruct (MMFacts.free_head_shape hdr s1 r1) as (szm & r2 & Hfh).
    assert (Hrest : forall y, block_at hdr (a + hdr + sz) ((szm, true) :: r2) y = Some (s, false) ->
              y <> t /\ block_at hdr (a + hdr + sz) ((s1, f1) :: r1) y = Some (s, false)).
    { intros y Hy. rewrite <- Hfh in Hy. rewrite <- Et1.
      apply (free_head_block_at_back _ s1 f1 r1 y s Hs1 Hall1 Hy). }
    rewrite Hfh in Hb. destruct fr.
    + simpl in Hb. destruct (a =? x) eqn:Ex; [discriminate|].
      assert (Hy : block_at hdr (a + hdr + sz) ((szm, true) :: r2) x = Some (s, false)).
      { simpl.
        assert (Hszm : 0 <= szm /\ Forall (fun b : Z * bool => 0 <= b.1) r2).
        { unfold free_head in Hfh. destruct r1 as [|[s2 [|]] r1']; injection Hfh as <- <-.
          - split; [lia|constructor].
          - apply Forall_cons in Hall1 as [Hs2 Hall2]. simpl in Hs2. split; [lia|exact Hall2].
          - split; [lia|exact Hall1]. }
        destruct Hszm as [Hszm Hall2].
        replace (a + hdr + (sz + (szm + hdr))) with (a + hdr + sz + hdr + szm) in Hb by lia.
        pose proof (MMFacts.block_at_ge hdr hdr_pos _ _ _ _ Hall2 Hb) as Hge.
        destruct (a + hdr + sz =? x) eqn:E2; [lia|]. exact Hb. }
      destruct (Hrest x Hy) as [Hne Hbx]. split; [exact Hne|].
      cbn [block_at]. rewrite Ex. exact Hbx.
    + cbn [block_at] in Hb. destruct (a =? x) eqn:Ex.
      * split; [lia|]. cbn [block_at]. rewrite Ex. exact Hb.
      * destruct (Hrest x Hb) as [Hne Hbx]. split; [exact Hne|].
        cbn [block_at]. rewrite Ex. exact Hbx.
  - cbn [block_at] in Hb |- *. destruct (a =? x) eqn:Ex.
    + split; [lia|exact Hb].
    + apply (IH _ _ _ _ Hall Hb).
Qed.

Lemma free_list_of_free bs : forall a t s,
  Forall (fun b : Z * bool => 0 <= b.1) bs ->
  no_adjacent_free bs -> block_at hdr a bs t = Some (s, true) ->
  free_list hdr a bs t = bs.
Proof.
  assert (Hfh : forall sz rest, head_free rest = false ->
            free_head hdr sz rest = (sz, true) :: rest).
  { intros sz rest Hf. destruct rest as [|[s1 [|]] r]; simpl in Hf; try discriminate;
      reflexivity. }
  induction bs as [|[sz fr] rest IH]; intros a t s Hall Hadj Hb; [discriminate|].
  apply Forall_cons in Hall as [Hs Hall]. simpl in Hs.
  apply MMFacts.no_adjacent_free_cons in Hadj as [Hf Hadj]. simpl in Hf.
  cbn [free_list]. cbn [block_at] in Hb. destruct (a =? t) eqn:Et.
  - injection Hb as <- ->. simpl in Hf. rewrite Hfh by exact Hf. reflexivity.
  - destruct rest as [|[s1 f1] r1]; [reflexivity|].
    destruct (a + hdr + sz =? t) eqn:Et1.
    + cbn [block_at] in Hb. rewrite Et1 in Hb. injection Hb as <- ->.
      apply MMFacts.no_adjacent_free_cons in Hadj as [Hf1 _]. simpl in Hf1, Hf.
      rewrite andb_true_r in Hf. subst fr.
      rewrite Hfh by exact Hf1. reflexivity.
    + rewrite (IH _ _ _ Hall Hadj Hb). reflexivity.
Qed.

(** ** [kmalloc] and [kfree], call by call *)

(** X1.  [kmalloc] of a size other than 0 on a well-formed heap returns.
    A pointer that is not null is the payload address of a block that
    was free; the block is now allocated and has at least the requested
    size rounded by [align8]; payload bytes are untouched; every pointer
    that was live is still live with its size and differs from the new
    one; and nothing else has become live. *)
Theorem kmalloc_fresh_block (h : heap) (bs : list (Z * bool)) (size : Z) :
  heap_repr hdr h bs -> size <> 0 ->
  exists p h', kmalloc hdr h size = Some (p, h') /\ mem h' = mem h /\
    (p = 0 -> h' = h) /\
    (p <> 0 -> exists bs' sz,
       heap_repr hdr h' bs' /\
       heap_start h' = heap_start h /\ heap_end h' = heap_end h /\
       live hdr h' bs' p sz /\ align8 size <= sz /\
       (exists s0, block_at hdr (heap_start h) bs (p - hdr) = Some (s0, true)) /\
       (forall q s, live hdr h bs q s -> q <> p /\ live hdr h' bs' q s) /\
       (forall q s, live hdr h' bs' q s -> q = p \/ live hdr h bs q s)).
Proof.
  intros Hr Hsz.
  pose proof (MMFacts.kmalloc_repr hdr hdr_pos h bs size Hr Hsz) as Hk.
  pose proof Hr as (_ & _ & _ & _ & Hc).
  pose proof (MMFacts.chain_sizes _ _ _ _ _ _ Hc) as Hall.
  pose proof (MMFacts.align8_nonneg size) as Hn.
  destruct (alloc_list hdr (heap_start h) bs (align8 size)) as [[q bs']|] eqn:Ea.
  - destruct Hk as (h' & Hk & Hr' & Hm & Hs & He).
    exists (q + hdr), h'. split; [exact Hk|]. split; [exact Hm|].
    pose proof (MMFacts.alloc_list_ge hdr hdr_pos _ _ _ _ _ Hall Ea) as Hge.
    assert (H8 : 8 <= heap_start h).
    { destruct bs as [|[s f] r]; [discriminate|]. simpl in Hc. tauto. }
    split; [intros; lia|]. intros _.
    destruct (alloc_list_new_size _ _ _ _ _ Hall Hn Ea) as (s0 & s' & H0 & H1 & Hle).
    exists bs', s'. unfold live. rewrite Hs.
    replace (q + hdr - hdr) with q by lia.
    split; [exact Hr'|]. split; [reflexivity|]. split; [exact He|].
    split; [exact H1|]. split; [lia|]. split; [eauto|]. split.
    + intros q0 s Hl. split.
      * intros ->. replace (q + hdr - hdr) with q in Hl by lia. congruence.
      * eapply MMFacts.alloc_list_block_at_other; eassumption.
    + intros q0 s Hl.
      destruct (alloc_list_block_at_back _ _ _ _ _ _ _ Hall Hn Ea Hl) as [E|E];
        [left; lia|right; exact E].
  - exists 0, h. split; [exact Hk|]. split; [reflexivity|].
    split; [reflexivity|]. intros []. reflexivity.
Qed.

(** X2.  [kmalloc] of a size other than 0 on a well-formed heap returns
    null exactly when no free block has room for the rounded size, and
    then leaves the heap as it was. *)
Theorem kmalloc_null_iff_no_fit (h : heap) (bs : list (Z * bool)) (size : Z) :
  heap_repr hdr h bs -> size <> 0 ->
  exists p h', kmalloc hdr h size = Some (p, h') /\
    (p = 0 <-> no_fit bs (align8 size)) /\ (p = 0 -> h' = h).
Proof.
  intros Hr Hsz.
  pose proof (MMFacts.kmalloc_repr hdr hdr_pos h bs size Hr Hsz) as Hk.
  pose proof Hr as (_ & _ & _ & _ & Hc).
  pose proof (MMFacts.chain_sizes _ _ _ _ _ _ Hc) as Hall.
  destruct (alloc_list hdr (heap_start h) bs (align8 size)) as [[q bs']|] eqn:Ea.
  - destruct Hk as (h' & Hk & _).
    pose proof (MMFacts.alloc_list_ge hdr hdr_pos _ _ _ _ _ Hall Ea) as Hge.
    assert (H8 : 8 <= heap_start h).
    { destruct bs as [|[s f] r]; [discriminate|]. simpl in Hc. tauto. }
    exists (q + hdr), h'. split; [exact Hk|]. split; [|intros; lia].
    split; [intros; lia|]. intros Hnf.
    apply alloc_list_None_iff with (a := heap_start h) in Hnf. congruence.
  - exists 0, h. split; [exact Hk|]. split; [|reflexivity].
    split; [|reflexivity]. intros _. eapply alloc_list_None_iff. exact Ea.
Qed.

(** X3.  [kfree] of a live pointer returns and keeps the heap well
    formed; the pointer is no longer live, payload bytes are untouched,
    and the live pointers afterwards are exactly the other live pointers
    of before, with their sizes. *)
Theorem kfree_keeps_others (h : heap) (bs : list (Z * bool)) (ptr sz : Z) :
  heap_repr hdr h bs -> live hdr h bs ptr sz ->
  exists h' bs', kfree hdr h ptr = Some h' /\ heap_repr hdr h' bs' /\
    mem h' = mem h /\ heap_start h' = heap_start h /\ heap_end h' = heap_end h /\
    (forall s, ~ live hdr h' bs' ptr s) /\
    (forall q s, live hdr h' bs' q s <-> q <> ptr /\ live hdr h bs q s).
Proof.
  intros Hr Hl.
  pose proof Hr as (_ & _ & _ & _ & Hc).
  pose proof (MMFacts.chain_sizes _ _ _ _ _ _ Hc) as Hall.
  destruct (MMFacts.live_bounds hdr hdr_pos _ _ _ _ Hr Hl) as (_ & Hin & _).
  destruct (MMFacts.kfree_repr hdr hdr_pos h bs ptr Hr Hin) as (h' & Hk & Hr' & Hm & Hs & He).
  exists h', (free_list hdr (heap_start h) bs (ptr - hdr)).
  split; [exact Hk|]. split; [exact Hr'|]. split; [exact Hm|].
  split; [exact Hs|]. split; [exact He|]. unfold live. rewrite Hs. split.
  - intros s. apply MMFacts.free_list_block_at_freed; assumption.
  - intros q s. split.
    + intros Hq. destruct (free_list_block_at_back _ _ _ _ _ Hall Hq) as [Hne Hb].
      split; [intros ->; apply Hne; reflexivity|exact Hb].
    + intros [Hne Hq]. apply MMFacts.free_list_block_at_other; [exact Hq|lia].
Qed.

(** X4.  In a well-formed heap without two adjacent free blocks,
    [kfree] of the pointer that [kmalloc] has just returned restores the
    block list: the split is undone by the coalescing. *)
Theorem kmalloc_kfree_round_trip (h : heap) (bs : list (Z * bool)) (size p : Z) (h1 : heap) :
  heap_repr hdr h bs -> no_adjacent_free bs ->
  kmalloc hdr h size = Some (p, h1) -> p <> 0 ->
  exists h2, kfree hdr h1 p = Some h2 /\ heap_repr hdr h2 bs /\ mem h2 = mem h.
Proof.
  intros Hr Hadj Hk Hp.
  assert (Hsz : size <> 0).
  { intros ->. unfold kmalloc in Hk. rewrite orb_true_r in Hk. congruence. }
  pose proof (MMFacts.kmalloc_repr hdr hdr_pos h bs size Hr Hsz) as Hspec.
  pose proof Hr as (_ & _ & _ & _ & Hc).
  pose proof (MMFacts.chain_sizes _ _ _ _ _ _ Hc) as Hall.
  pose proof (MMFacts.align8_nonneg size) as Hn.
  destruct (alloc_list hdr (heap_start h) bs (align8 size)) as [[q bs']|] eqn:Ea;
    [|congruence].
  destruct Hspec as (h' & Hk' & Hr' & Hm & Hs & He).
  rewrite Hk in Hk'. injection Hk' as -> ->.
  destruct (alloc_list_new_size _ _ _ _ _ Hall Hn Ea) as (s0 & s' & _ & H1 & _).
  assert (Hin : In (q + hdr - hdr) (block_addrs hdr (heap_start h') bs')).
  { replace (q + hdr - hdr) with q by lia. rewrite Hs.
    eapply MMFacts.block_at_In. exact H1. }
  destruct (MMFacts.kfree_repr hdr hdr_pos h' bs' (q + hdr) Hr' Hin)
    as (h2 & Hk2 & Hr2 & Hm2 & _).
  exists h2. split; [exact Hk2|]. split; [|congruence].
  replace (q + hdr - hdr) with q in Hr2 by lia. rewrite Hs in Hr2.
  rewrite (alloc_list_free_list _ _ _ _ _ Hall Hn Hadj Ea) in Hr2. exact Hr2.
Qed.

(** X5.  A second [kfree] of the same pointer changes nothing in the
    block list, provided the block it freed has kept its header, that
    is, was not merged into a free predecessor. *)
Theorem kfree_twice_harmless (h : heap) (bs : list (Z * bool)) (ptr sz : Z) :
  heap_repr hdr h bs -> no_adjacent_free bs -> live hdr h bs ptr sz ->
  (exists s, block_at hdr (heap_start h)
               (free_list hdr (heap_start h) bs (ptr - hdr)) (ptr - hdr) = Some (s, true)) ->
  exists h1 h2, kfree hdr h ptr = Some h1 /\ kfree hdr h1 ptr = Some h2 /\
    heap_repr hdr h1 (free_list hdr (heap_start h) bs (ptr - hdr)) /\
    heap_repr hdr h2 (free_list hdr (heap_start h) bs (ptr - hdr)).
Proof.
  intros Hr Hadj Hl (s & Hb).
  destruct (MMFacts.live_bounds hdr hdr_pos _ _ _ _ Hr Hl) as (_ & Hin & _).
  destruct (MMFacts.kfree_repr hdr hdr_pos h bs ptr Hr Hin) as (h1 & Hk & Hr1 & _ & Hs & _).
  pose proof Hr1 as (_ & _ & _ & _ & Hc1).
  pose proof (MMFacts.chain_sizes _ _ _ _ _ _ Hc1) as Hall1.
  pose proof (MMFacts.free_list_no_adjacent hdr bs (heap_start h) (ptr - hdr) Hadj) as Hadj1.
  assert (Hin1 : In (ptr - hdr) (block_addrs hdr (heap_start h1)
                   (free_list hdr (heap_start h) bs (ptr - hdr)))).
  { rewrite Hs. eapply MMFacts.block_at_In. exact Hb. }
  destruct (MMFacts.kfree_repr hdr hdr_pos h1 _ ptr Hr1 Hin1) as (h2 & Hk2 & Hr2 & _).
  exists h1, h2. split; [exact Hk|]. split; [exact Hk2|]. split; [exact Hr1|].
  rewrite Hs in Hr2.
  rewrite (free_list_of_free _ _ _ _ Hall1 Hadj1 Hb) in Hr2. exact Hr2.
Qed.

Lemma align8_wraps (size : Z) : 2 ^ 64 - 7 <= size < 2 ^ 64 -> align8 size = 0.
Proof.
  intros H. unfold align8.
  assert (E : u64 (size + 7) = size + 7 - 2 ^ 64).
  { unfold u64. symmetry. apply (Z.mod_unique_pos _ _ 1); lia. }
  rewrite E.
  assert (Hx : size + 7 - 2 ^ 64 = 0 \/ size + 7 - 2 ^ 64 = 1 \/ size + 7 - 2 ^ 64 = 2 \/
               size + 7 - 2 ^ 64 = 3 \/ size + 7 - 2 ^ 64 = 4 \/ size + 7 - 2 ^ 64 = 5 \/
               size + 7 - 2 ^ 64 = 6) by lia.
  destruct Hx as [->|[->|[->|[->|[->|[->| ->]]]]]]; reflexivity.
Qed.

Lemma align8_ge (size : Z) : 0 <= size -> size + 7 < 2 ^ 64 -> size <= align8 size.
Proof.
  intros H0 H1. rewrite MMFacts.align8_round_up by assumption.
  pose proof (Z.div_mod (size + 7) 8 ltac:(lia)).
  pose proof (Z.mod_pos_bound (size + 7) 8 ltac:(lia)). lia.
Qed.

(** X6.  The rounding of the size wraps: for the seven sizes from
    [2^64 - 7] to [2^64 - 1] the rounded size is 0, and [kmalloc] on a
    well-formed heap with a free block does not fail but returns a live
    pointer to a block smaller than the size asked for. *)
Theorem kmalloc_wraps_huge_request (h : heap) (bs : list (Z * bool)) (size s : Z) :
  heap_repr hdr h bs -> 2 ^ 64 - 7 <= size < 2 ^ 64 -> In (s, true) bs ->
  align8 size = 0 /\
  exists p h' bs' sz, kmalloc hdr h size = Some (p, h') /\ p <> 0 /\
    heap_repr hdr h' bs' /\ live hdr h' bs' p sz /\ sz < size.
Proof.
  intros Hr Hsz Hin. split; [apply align8_wraps; exact Hsz|].
  assert (Hne : size <> 0) by lia.
  pose proof (MMFacts.kmalloc_repr hdr hdr_pos h bs size Hr Hne) as Hk.
  pose proof Hr as (_ & _ & _ & _ & Hc).
  pose proof (MMFacts.chain_sizes _ _ _ _ _ _ Hc) as Hall.
  rewrite (align8_wraps size Hsz) in Hk.
  destruct (alloc_list hdr (heap_start h) bs 0) as [[q bs']|] eqn:Ea.
  - destruct Hk as (h' & Hk & Hr' & Hm & Hs & He).
    pose proof (MMFacts.alloc_list_ge hdr hdr_pos _ _ _ _ _ Hall Ea) as Hge.
    assert (H8 : 8 <= heap_start h).
    { destruct bs as [|[s1 f] r]; [discriminate|]. simpl in Hc. tauto. }
    destruct (alloc_list_new_size _ _ _ _ _ Hall (Z.le_refl 0) Ea) as (s0 & s' & _ & H1 & _).
    exists (q + hdr), h', bs', s'. split; [exact Hk|]. split; [lia|].
    split; [exact Hr'|]. unfold live. rewrite Hs.
    replace (q + hdr - hdr) with q by lia. split; [exact H1|].
    pose proof Hr' as (_ & _ & Hlt & _ & Hc').
    pose proof (MMFacts.chain_sizes _ _ _ _ _ _ Hc') as Hall'.
    pose proof (chain_span _ _ _ _ _ Hc') as Hsp.
    pose proof (block_at_next _ _ _ _ _ Hall' H1) as Hnx. rewrite Hs in Hsp. lia.
  - exfalso. apply alloc_list_None_iff in Ea. unfold no_fit in Ea.
    rewrite Forall_forall in Ea. rewrite Forall_forall in Hall.
    apply list_elem_of_In in Hin.
    specialize (Ea _ Hin). specialize (Hall _ Hin). simpl in Ea, Hall.
    destruct Ea; [discriminate|lia].
Qed.


(** ** Any sequence of calls *)

Lemma client_inv_malloc base e h held size :
  client_inv hdr base e h held ->
  exists p h', kmalloc hdr h size = Some (p, h') /\
    client_inv hdr base e h' (if p =? 0 then held else held ++ [(p, size)]).
Proof.
  intros (bs & Hr & Hadj & Hb & He & Hnd & Hlive).
  destruct (decide (size = 0)) as [->|Hsz].
  { exists 0, h. unfold kmalloc. rewrite orb_true_r. split; [reflexivity|].
    exists bs. auto 10. }
  pose proof (MMFacts.kmalloc_repr hdr hdr_pos h bs size Hr Hsz) as Hk.
  pose proof Hr as (_ & _ & _ & _ & Hc).
  pose proof (MMFacts.chain_sizes _ _ _ _ _ _ Hc) as Hall.
  pose proof (MMFacts.align8_nonneg size) as Hn.
  destruct (alloc_list hdr (heap_start h) bs (align8 size)) as [[q bs']|] eqn:Ea.
  - destruct Hk as (h' & Hk & Hr' & Hm & Hs & He').
    pose proof (MMFacts.alloc_list_ge hdr hdr_pos _ _ _ _ _ Hall Ea) as Hge.
    assert (H8 : 8 <= heap_start h).
    { destruct bs as [|[s1 f] r]; [discriminate|]. simpl in Hc. tauto. }
    destruct (alloc_list_new_size _ _ _ _ _ Hall Hn Ea) as (s0 & s' & H0 & H1 & Hle).
    exists (q + hdr), h'. split; [exact Hk|].
    destruct (q + hdr =? 0) eqn:Eq; [lia|].
    exists bs'. split; [exact Hr'|].
    split; [eapply MMFacts.alloc_list_no_adjacent; eassumption|].
    split; [congruence|]. split; [congruence|]. split.
    + rewrite fmap_app. apply NoDup_app. split; [exact Hnd|]. split.
      * intros x Hx Hx'. apply list_elem_of_fmap in Hx as ([p n] & -> & Hin).
        apply list_elem_of_In in Hin. destruct (Hlive _ _ Hin) as (sz & Hl & _).
        simpl in Hx'. apply list_elem_of_singleton in Hx'. simpl in Hx'. subst p.
        unfold live in Hl. replace (q + hdr - hdr) with q in Hl by lia. congruence.
      * apply NoDup_singleton.
    + intros p n Hin. apply in_app_or in Hin as [Hin|[Hin|[]]].
      * destruct (Hlive _ _ Hin) as (sz & Hl & Hsize). exists sz. split; [|exact Hsize].
        unfold live in *. rewrite Hs.
        eapply MMFacts.alloc_list_block_at_other; eassumption.
      * injection Hin as <- <-. exists s'. unfold live. rewrite Hs.
        replace (q + hdr - hdr) with q by lia. split; [exact H1|].
        intros Hs0 Hs7. pose proof (align8_ge size Hs0 Hs7). lia.
  - exists 0, h. split; [exact Hk|]. exists bs. auto 10.
Qed.

Lemma client_inv_free base e h held i p n :
  client_inv hdr base e h held -> held !! i = Some (p, n) ->
  exists h', kfree hdr h p = Some h' /\ client_inv hdr base e h' (delete i held).
Proof.
  intros (bs & Hr & Hadj & Hb & He & Hnd & Hlive) Hi.
  assert (Hin : In (p, n) held).
  { apply list_elem_of_In. eapply list_elem_of_lookup_2. exact Hi. }
  destruct (Hlive _ _ Hin) as (sz & Hl & _).
  destruct (MMFacts.live_bounds hdr hdr_pos _ _ _ _ Hr Hl) as (_ & Hina & _).
  destruct (MMFacts.kfree_repr hdr hdr_pos h bs p Hr Hina) as (h' & Hk & Hr' & Hm & Hs & He').
  exists h'. split; [exact Hk|].
  exists (free_list hdr (heap_start h) bs (p - hdr)).
  split; [exact Hr'|]. split; [apply MMFacts.free_list_no_adjacent; exact Hadj|].
  split; [congruence|]. split; [congruence|].
  rewrite delete_take_drop.
  rewrite <- (take_drop_middle held i (p, n) Hi) in Hnd, Hlive.
  rewrite fmap_app, fmap_cons in Hnd. simpl in Hnd.
  apply NoDup_app in Hnd as (Hnd1 & Hdis & Hnd2).
  apply NoDup_cons in Hnd2 as [Hp2 Hnd2]. split.
  - rewrite fmap_app. apply NoDup_app. split; [exact Hnd1|]. split; [|exact Hnd2].
    intros x Hx Hx'. apply (Hdis x Hx). right. exact Hx'.
  - intros q m Hq.
    assert (Hne : q <> p).
    { intros ->. apply in_app_or in Hq as [Hq|Hq]; apply list_elem_of_In in Hq.
      - apply (Hdis p); [apply (list_elem_of_fmap_2 fst _ _ Hq)|left].
      - apply Hp2. apply (list_elem_of_fmap_2 fst _ _ Hq). }
    destruct (Hlive q m) as (s & Hlq & Hsize).
    { apply in_or_app. apply in_app_or in Hq as [Hq|Hq]; [left|right; right]; exact Hq. }
    exists s. split; [|exact Hsize]. unfold live in *. rewrite Hs.
    apply MMFacts.free_list_block_at_other; [exact Hlq|lia].
Qed.

Lemma client_inv_run base e cs : forall h held,
  client_inv hdr base e h held ->
  exists h' held', run_calls hdr cs h held = Some (h', held') /\
    client_inv hdr base e h' held'.
Proof.
  induction cs as [|c cs IH]; intros h held Hinv.
  - exists h, held. split; [reflexivity|exact Hinv].
  - destruct c as [size|i]; simpl.
    + destruct (client_inv_malloc base e h held size Hinv) as (p & h1 & Hk & Hinv1).
      rewrite Hk. simpl. apply IH. exact Hinv1.
    + destruct (held !! i) as [[p n]|] eqn:Hi; [|apply IH; exact Hinv].
      destruct (client_inv_free base e h held i p n Hinv Hi) as (h1 & Hk & Hinv1).
      rewrite Hk. simpl. apply IH. exact Hinv1.
Qed.


End HeapExtra.

Lemma arena_1024_repr : heap_repr 32 arena_1024 [(992, true)].
Proof. MMFacts.repr_by_computation. Qed.

Lemma kmalloc_fresh_block_witness :
  heap_repr 32 one_block [(104, false); (856, true)] /\ 100 <> 0 /\
  exists p h', kmalloc 32 one_block 100 = Some (p, h') /\ mem h' = mem one_block /\
    (p = 0 -> h' = one_block) /\
    (p <> 0 -> exists bs' sz,
       heap_repr 32 h' bs' /\
       heap_start h' = heap_start one_block /\ heap_end h' = heap_end one_block /\
       live 32 h' bs' p sz /\ align8 100 <= sz /\
       (exists s0, block_at 32 (heap_start one_block) [(104, false); (856, true)]
                     (p - 32) = Some (s0, true)) /\
       (forall q s, live 32 one_block [(104, false); (856, true)] q s ->
                    q <> p /\ live 32 h' bs' q s) /\
       (forall q s, live 32 h' bs' q s ->
                    q = p \/ live 32 one_block [(104, false); (856, true)] q s)).
Proof.
  split; [exact MMFacts.one_block_repr|]. split; [discriminate|].
  exact (kmalloc_fresh_block 32 ltac:(lia) one_block _ 100 MMFacts.one_block_repr
           ltac:(discriminate)).
Defined.

Lemma kmalloc_null_iff_no_fit_witness :
  heap_repr 32 one_block [(104, false); (856, true)] /\ 900 <> 0 /\
  exists p h', kmalloc 32 one_block 900 = Some (p, h') /\
    (p = 0 <-> no_fit [(104, false); (856, true)] (align8 900)) /\
    (p = 0 -> h' = one_block).
Proof.
  split; [exact MMFacts.one_block_repr|]. split; [discriminate|].
  exact (kmalloc_null_iff_no_fit 32 ltac:(lia) one_block _ 900 MMFacts.one_block_repr
           ltac:(discriminate)).
Defined.

Lemma kfree_keeps_others_witness :
  heap_repr 32 three_blocks [(104, false); (104, false); (104, false); (584, true)] /\
  live 32 three_blocks [(104, false); (104, false); (104, false); (584, true)] 0x2000a8 104 /\
  exists h' bs', kfree 32 three_blocks 0x2000a8 = Some h' /\ heap_repr 32 h' bs' /\
    mem h' = mem three_blocks /\ heap_start h' = heap_start three_blocks /\
    heap_end h' = heap_end three_blocks /\
    (forall s, ~ live 32 h' bs' 0x2000a8 s) /\
    (forall q s, live 32 h' bs' q s <->
       q <> 0x2000a8 /\
       live 32 three_blocks [(104, false); (104, false); (104, false); (584, true)] q s).
Proof.
  assert (Hl : live 32 three_blocks
                 [(104, false); (104, false); (104, false); (584, true)] 0x2000a8 104)
    by (vm_compute; reflexivity).
  split; [exact MMFacts.three_blocks_repr|]. split; [exact Hl|].
  exact (kfree_keeps_others 32 ltac:(lia) three_blocks _ 0x2000a8 104
           MMFacts.three_blocks_repr Hl).
Defined.

Lemma kmalloc_kfree_round_trip_witness :
  heap_repr 32 arena_1024 [(992, true)] /\ no_adjacent_free [(992, true)] /\
  kmalloc 32 arena_1024 100 = Some (0x200020, one_block) /\ 0x200020 <> 0 /\
  exists h2, kfree 32 one_block 0x200020 = Some h2 /\
    heap_repr 32 h2 [(992, true)] /\ mem h2 = mem arena_1024.
Proof.
  assert (Hk : kmalloc 32 arena_1024 100 = Some (0x200020, one_block))
    by (vm_compute; reflexivity).
  split; [exact arena_1024_repr|]. split; [exact I|]. split; [exact Hk|].
  split; [discriminate|].
  exact (kmalloc_kfree_round_trip 32 ltac:(lia) arena_1024 _ 100 0x200020 one_block
           arena_1024_repr I Hk ltac:(discriminate)).
Defined.

Lemma kfree_twice_harmless_witness :
  heap_repr 32 three_blocks [(104, false); (104, false); (104, false); (584, true)] /\
  no_adjacent_free [(104, false); (104, false); (104, false); (584, true)] /\
  live 32 three_blocks [(104, false); (104, false); (104, false); (584, true)] 0x2000a8 104 /\
  exists h1 h2, kfree 32 three_blocks 0x2000a8 = Some h1 /\ kfree 32 h1 0x2000a8 = Some h2 /\
    heap_repr 32 h1 [(104, false); (104, true); (104, false); (584, true)] /\
    heap_repr 32 h2 [(104, false); (104, true); (104, false); (584, true)].
Proof.
  assert (Hl : live 32 three_blocks
                 [(104, false); (104, false); (104, false); (584, true)] 0x2000a8 104)
    by (vm_compute; reflexivity).
  assert (Ha : no_adjacent_free [(104, false); (104, false); (104, false); (584, true)])
    by (simpl; tauto).
  assert (Hb : exists s, block_at 32 (heap_start three_blocks)
                 (free_list 32 (heap_start three_blocks)
                    [(104, false); (104, false); (104, false); (584, true)]
                    (0x2000a8 - 32)) (0x2000a8 - 32) = Some (s, true))
    by (exists 104; vm_compute; reflexivity).
  split; [exact MMFacts.three_blocks_repr|]. split; [exact Ha|]. split; [exact Hl|].
  exact (kfree_twice_harmless 32 ltac:(lia) three_blocks _ 0x2000a8 104
           MMFacts.three_blocks_repr Ha Hl Hb).
Defined.

Lemma kmalloc_wraps_huge_request_witness :
  heap_repr 32 arena_1024 [(992, true)] /\
  2 ^ 64 - 7 <= 2 ^ 64 - 1 < 2 ^ 64 /\ In (992, true) [(992, true)] /\
  align8 (2 ^ 64 - 1) = 0 /\
  exists p h' bs' sz, kmalloc 32 arena_1024 (2 ^ 64 - 1) = Some (p, h') /\ p <> 0 /\
    heap_repr 32 h' bs' /\ live 32 h' bs' p sz /\ sz < 2 ^ 64 - 1.
Proof.
  split; [exact arena_1024_repr|]. split; [lia|]. split; [left; reflexivity|].
  exact (kmalloc_wraps_huge_request 32 ltac:(lia) arena_1024 _ (2 ^ 64 - 1) 992
           arena_1024_repr ltac:(lia) ltac:(left; reflexivity)).
Defined.



End MMExtra.

(** * Further properties of task management *)

Module TaskExtra.

Import MM Task TaskFacts TaskSpec.

(** ** Spinlocks *)

Lemma cid_of_current_id k c : task_get_current_id k = Ret c k -> cid k = Some c.
Proof.
  rewrite task_get_current_id_cid. destruct (cid k); [|discriminate].
  intros E. injection E as ->. reflexivity.
Qed.

Lemma set_lock_twice n l l' k : set_lock n l (set_lock n l' k) = set_lock n l k.
Proof. destruct n; reflexivity. Qed.

(** X14.  A free lock taken by [spinlock_acquire] is held by the caller:
    [spinlock_is_held] says so, a second [spinlock_acquire] spins for
    ever, even for the owner, and [spinlock_release] by the owner gives
    back the state before the acquisition but for the count of
    acquisitions, which has grown by one. *)
Theorem spinlock_acquire_release_round_trip (k : kernel) (n : lock_name) (c : Z) :
  l_locked (get_lock n k) = 0 ->
  task_get_current_id k = Ret c k ->
  let k1 := set_lock n (taken c (get_lock n k)) k in
  spinlock_acquire (Some n) k = Ret tt k1 /\
  spinlock_is_held (Some n) k1 = Ret true k1 /\
  spinlock_acquire (Some n) k1 = Hang /\
  spinlock_release (Some n) k1 = Ret tt (set_lock n (bump (get_lock n k)) k).
Proof.
  intros Hfree Hid k1. apply cid_of_current_id in Hid.
  assert (Hl : get_lock n k1 = taken c (get_lock n k)) by apply get_set_lock.
  split; [apply spinlock_acquire_free; assumption|].
  split; [unfold spinlock_is_held, bind, gets; rewrite Hl; reflexivity|].
  split; [apply spinlock_acquire_held; rewrite Hl; discriminate|].
  rewrite spinlock_release_owner.
  - rewrite Hl. unfold k1. rewrite set_lock_twice. reflexivity.
  - rewrite Hl. unfold k1. rewrite cid_set_lock. exact Hid.
Qed.

(** X15.  [spinlock_try_acquire] never spins.  On a free lock it
    returns true and leaves the state that [spinlock_acquire] leaves; on
    a held lock, where [spinlock_acquire] spins for ever, it returns
    false and keeps the owner and the count, writing 1 to the flag. *)
Theorem spinlock_try_acquire_never_spins (k : kernel) (n : lock_name) (c : Z) :
  task_get_current_id k = Ret c k ->
  let l := get_lock n k in
  (l_locked l = 0 ->
   spinlock_try_acquire (Some n) k = Ret true (set_lock n (taken c l) k) /\
   spinlock_acquire (Some n) k = Ret tt (set_lock n (taken c l) k)) /\
  (l_locked l <> 0 ->
   spinlock_try_acquire (Some n) k =
     Ret false (set_lock n {| l_locked := 1; l_owner := l_owner l;
                              l_count := l_count l;
                              l_recursion_count := l_recursion_count l |} k) /\
   spinlock_acquire (Some n) k = Hang).
Proof.
  intros Hid l. apply cid_of_current_id in Hid. split; intros Hl.
  - split; [|apply spinlock_acquire_free; assumption].
    unfold spinlock_try_acquire, bind, gets, modify. fold l. rewrite Hl. simpl.
    rewrite task_get_current_id_cid, cid_set_lock, Hid, get_set_lock. simpl.
    unfold ret. rewrite set_lock_twice. reflexivity.
  - split; [|apply spinlock_acquire_held; exact Hl].
    unfold spinlock_try_acquire, bind, gets, modify. fold l.
    destruct (l_locked l =? 0) eqn:E; [lia|]. reflexivity.
Qed.

(** ** Selection and switch *)

Section SchedExtra.

Variable P : platform.
Hypothesis P_ok : platform_ok P.

Lemma st_current pend tl sc k Q :
  st P pend tl sc k Q ->
  exists c, tasks k !! current_task k = Some c /\ current_task k <> 0 /\
    schedulable (t_state c) = true.
Proof.
  intros Hst. pose proof (core_cur _ _ _ _ _ _ _ (st_core _ _ _ _ _ _ Hst)) as Hcur.
  destruct (st_member _ _ _ _ _ _ _ Hst Hcur) as (t & i & Ht & Hok & _ & _ & Hne).
  exists t. auto.
Qed.

Lemma st_selected pend tl sc k Q :
  st P pend tl sc k Q ->
  In (find_ready_below (ready_queues k) 5) (concat Q) /\
  find_ready_below (ready_queues k) 5 <> 0.
Proof.
  intros Hst. pose proof (st_core _ _ _ _ _ _ Hst) as Hc.
  destruct (find_ready_below_highest (ready_queues k) 5)
    as [[_ Hz]|(i & Hi & Hsel & Hne & _)].
  - exfalso. pose proof (core_cur _ _ _ _ _ _ _ Hc) as Hcur.
    apply in_concat in Hcur as (l & Hl & Hx).
    apply list_elem_of_In, list_elem_of_lookup in Hl as (i & Hi).
    pose proof (core_chain _ _ _ _ _ _ _ Hc _ _ Hi) as Hch.
    pose proof (lookup_lt_Some _ _ _ Hi) as Hlt.
    rewrite (core_len_Q _ _ _ _ _ _ _ Hc) in Hlt.
    destruct l as [|y l]; [destruct Hx|].
    destruct Hch as (E & Hne & _). rewrite (Hz i Hlt) in E. congruence.
  - rewrite Hsel. split; [|exact Hne].
    eapply st_queue_head; eassumption.
Qed.

(** Lookups in a map after writes. *)
Ltac lk :=
  simpl;
  repeat first
    [ rewrite lookup_insert_eq
    | rewrite lookup_insert_ne by (assumption || (apply not_eq_sym; assumption)) ];
  first [eassumption | reflexivity].

Ltac norm :=
  cbn [tasks kheap task_list_head_ptr current_task next_task_id scheduler_stats
       task_list_lock scheduler_lock scheduler_quantum ready_queues ticks
       set_kheap set_tasks set_task_list_head_ptr set_current_task set_next_task_id
       set_scheduler_stats set_task_list_lock set_scheduler_lock
       set_scheduler_quantum set_ready_queues set_ticks set_lock get_lock
       boot_kernel].

Ltac wgets := apply wpt_bind, wpt_gets.
Ltac wmod := apply wpt_bind, wpt_modify.
Ltac wrd := apply wpt_bind; eapply wpt_rd; [lk|].
Ltac wwrt := apply wpt_bind; eapply wpt_wrt; [lk|].

Lemma set_state_same t : set_state (t_state t) t = t.
Proof. destruct t; reflexivity. Qed.

Lemma schedule_next_switched k Q :
  st P [] false false k Q ->
  wpt schedule_next_task (fun _ k' => switched k k') k.
Proof.
  intros Hst. destruct (st_current _ _ _ _ _ Hst) as (c & Hc & Hc0 & _).
  destruct (st_selected _ _ _ _ _ Hst) as (Hin & Hs0).
  destruct (st_member _ _ _ _ _ _ _ Hst Hin) as (s & _ & Hs & _).
  unfold schedule_next_task, find_next_ready_task.
  apply wpt_bind, wpt_bind, wpt_gets, wpt_ret.
  change (S (Z.to_nat PRIORITY_CRITICAL)) with 5%nat.
  set (sel := find_ready_below (ready_queues k) 5) in *.
  destruct (sel =? 0) eqn:E0; [lia|]. wgets.
  destruct (current_task k =? 0) eqn:Ec0; [lia|].
  destruct (sel =? current_task k) eqn:E.
  - apply Z.eqb_eq in E. rewrite <- E in *. rewrite Hs in Hc. injection Hc as <-.
    apply wpt_bind. wrd. apply wpt_ret.
    destruct (bool_decide (t_state s = TASK_RUNNING)) eqn:Er.
    + apply wpt_ret. apply bool_decide_eq_true in Er. split.
      * symmetry. exact E.
      * intros x. unfold state_of. rewrite <- E.
        destruct (decide (x = sel)) as [->|]; [|reflexivity].
        rewrite Hs. simpl. congruence.
      * reflexivity.
      * intros x Hx. rewrite <- E in *.
        destruct (decide (x = sel)); [contradiction|reflexivity].
      * reflexivity.
    + apply wpt_bind. wrd. rewrite Er. apply wpt_ret.
      wmod. wwrt. wgets. wwrt. wrd.
      wwrt. apply wpt_modify. split; simpl.
      * reflexivity.
      * intros x. unfold state_of. simpl.
        destruct (decide (x = sel)) as [->|Hx].
        -- rewrite lookup_insert_eq, Hs. reflexivity.
        -- rewrite !lookup_insert_ne by congruence.
           rewrite <- E. destruct (decide (x = sel)); [contradiction|reflexivity].
      * intros x. destruct (decide (x = sel)) as [->|Hx].
        -- rewrite lookup_insert_eq, Hs. reflexivity.
        -- rewrite !lookup_insert_ne by congruence. reflexivity.
      * intros x Hx. rewrite !lookup_insert_ne by congruence.
        rewrite <- E. destruct (decide (x = sel)); [contradiction|reflexivity].
      * reflexivity.
  - apply Z.eqb_neq in E. apply wpt_bind, wpt_ret.
    assert (Hfin : forall k1,
      tasks k1 = <[current_task k := set_state (demote (t_state c)) c]> (tasks k) ->
      sched_frame k1 = sched_frame k -> ticks k1 = ticks k ->
      wpt (modify (set_current_task sel) ;;
           wrt sel (set_state TASK_RUNNING) ;;
           now <- gets ticks ;;
           wrt sel (set_last_run now) ;;
           c0 <- rd sel ;;
           wrt sel (set_context_switch_count (u64 (t_context_switch_count c0 + 1))) ;;
           upd_stats (fun s => stats_set_context_switches (u32 (context_switches s + 1)) s))
          (fun _ k' => switched k k') k1).
    { intros k1 Ht Hfr1 Hti1.
      assert (Hs1 : tasks k1 !! sel = Some s).
      { rewrite Ht, lookup_insert_ne by congruence. exact Hs. }
      wmod. wwrt. wgets. wwrt. wrd. wwrt. apply wpt_modify. split; simpl.
      - reflexivity.
      - intros x. unfold state_of. simpl. rewrite !insert_insert_eq.
        destruct (decide (x = sel)) as [->|Hx].
        + rewrite lookup_insert_eq, Hs. reflexivity.
        + rewrite lookup_insert_ne by congruence. rewrite Ht.
          destruct (decide (x = current_task k)) as [->|Hx'].
          * rewrite lookup_insert_eq, Hc. reflexivity.
          * rewrite lookup_insert_ne by congruence. reflexivity.
      - intros x. rewrite !insert_insert_eq.
        destruct (decide (x = sel)) as [->|Hx].
        + rewrite lookup_insert_eq, Hs. reflexivity.
        + rewrite lookup_insert_ne by congruence. rewrite Ht.
          destruct (decide (x = current_task k)) as [->|Hx'].
          * rewrite lookup_insert_eq, Hc. reflexivity.
          * rewrite lookup_insert_ne by congruence. reflexivity.
      - intros x Hx. rewrite !lookup_insert_ne by congruence. rewrite Ht.
        destruct (decide (x = current_task k)) as [->|Hx'].
        + rewrite lookup_insert_eq, Hc. reflexivity.
        + rewrite lookup_insert_ne by congruence. reflexivity.
      - transitivity (sched_frame k1); [reflexivity|exact Hfr1]. }
    apply wpt_bind. wrd. destruct (bool_decide (t_state c = TASK_RUNNING)) eqn:Er.
    + apply bool_decide_eq_true in Er. eapply wpt_wrt; [lk|].
      apply Hfin; try reflexivity. simpl. rewrite Er. reflexivity.
    + apply bool_decide_eq_false in Er. apply wpt_ret.
      apply Hfin; try reflexivity.
      assert (Hd : demote (t_state c) = t_state c)
        by (destruct (t_state c); try reflexivity; contradiction).
      rewrite Hd, set_state_same. symmetry. apply insert_id. exact Hc.
Qed.

(** [schedule_next_task] returns, keeps the invariant and has switched
    to the selected task. *)
Lemma schedule_next_spec k Q :
  st P [] false false k Q ->
  exists k', schedule_next_task k = Ret tt k' /\
    st P [] false false k' Q /\ switched k k'.
Proof.
  intros Hst.
  destruct (wpt_run _ _ _ (schedule_next_switched k Q Hst)) as ([] & k' & E & Hsw).
  exists k'. split; [exact E|]. split; [|exact Hsw].
  exact (wp_run _ _ _ _ _ (wp_schedule_next_task P k Q Hst) E).
Qed.

(** ** Yield *)

Lemma view_fmap_eq {B} (f : task_t -> B) (m m' : gmap Z task_t) :
  (forall x, f <$> m' !! x = f <$> m !! x) -> f <$> m' = f <$> m.
Proof. intros H. apply map_eq. intros x. rewrite !lookup_fmap. apply H. Qed.

Lemma view_size {B} (f : task_t -> B) (m m' : gmap Z task_t) :
  (forall x, f <$> m' !! x = f <$> m !! x) -> size m' = size m.
Proof.
  intros H. rewrite <- (map_size_fmap f m'), <- (map_size_fmap f m).
  rewrite (view_fmap_eq f m m' H). reflexivity.
Qed.

Lemma walk_queue_view (m m' : gmap Z task_t) :
  (forall x, t_next <$> m' !! x = t_next <$> m !! x) ->
  forall fuel p, walk_queue fuel m' p = walk_queue fuel m p.
Proof.
  intros H. induction fuel as [|fuel IH]; intros p; [reflexivity|].
  simpl. destruct (p =? 0); [reflexivity|].
  specialize (H p). destruct (m' !! p) as [t'|], (m !! p) as [t|]; try discriminate.
  - simpl in H. injection H as ->. rewrite IH. reflexivity.
  - reflexivity.
Qed.

Lemma sched_view_next (m m' : gmap Z task_t) :
  (forall x, sched_view <$> m' !! x = sched_view <$> m !! x) ->
  forall x, t_next <$> m' !! x = t_next <$> m !! x.
Proof.
  intros H x. specialize (H x).
  destruct (m' !! x) as [t'|], (m !! x) as [t|]; try discriminate; [|reflexivity].
  apply (f_equal (fmap t_next)) in H. exact H.
Qed.

(** A switch keeps the ready queues, task for task. *)
Lemma switched_queues k k' :
  switched k k' ->
  ready_queues k' = ready_queues k /\ task_list_head_ptr k' = task_list_head_ptr k /\
  forall q, queue_tasks k' q = queue_tasks k q.
Proof.
  intros Hsw.
  pose proof (f_equal ready_queues (sw_frame _ _ Hsw)) as Hrq. simpl in Hrq.
  pose proof (f_equal task_list_head_ptr (sw_frame _ _ Hsw)) as Hhd. simpl in Hhd.
  split; [exact Hrq|]. split; [exact Hhd|]. intros q. unfold queue_tasks.
  rewrite Hrq, (view_size sched_view _ _ (sw_view _ _ Hsw)).
  apply walk_queue_view, sched_view_next, (sw_view _ _ Hsw).
Qed.

Lemma task_yield_spec k Q :
  st P [] false false k Q ->
  exists c k', tasks k !! current_task k = Some c /\
    task_yield k = Ret tt k' /\ st P [] false false k' Q /\
    switched (set_tasks (<[current_task k :=
                set_time_slice_remaining (t_time_slice c) c]> (tasks k)) k) k'.
Proof.
  intros Hst. destruct (st_current _ _ _ _ _ Hst) as (c & Hc & Hc0 & _).
  exists c.
  assert (Hst1 : st P [] false false
            (set_tasks (<[current_task k :=
               set_time_slice_remaining (t_time_slice c) c]> (tasks k)) k) Q).
  { eapply st_wrt_same; [exact Hst|exact Hc|reflexivity]. }
  destruct (schedule_next_spec _ _ Hst1) as (k' & E & Hst' & Hsw).
  exists k'. split; [exact Hc|]. split; [|split; assumption].
  unfold task_yield, bind, gets, rd, wrt.
  destruct (current_task k =? 0) eqn:E0; [lia|]. rewrite Hc. cbv beta iota.
  rewrite Hc. exact E.
Qed.

(** X16.  In every state reached from boot by the life-cycle
    operations [task_yield] returns; the current task is then the head of
    the highest non-empty ready queue and RUNNING, the task that yielded
    has its time slice back and is READY unless it is that head, the
    ready queues are as they were, task for task, and every other
    control block is untouched.  The head of a queue is never moved to
    its tail: a second [task_yield] leaves the same task current. *)
Theorem task_yield_selects_queue_head (k : kernel) :
  reachable_by P lifecycle k ->
  exists k',
    task_yield k = Ret tt k' /\
    current_task k' = find_ready_below (ready_queues k) 5 /\
    state_of k' (current_task k') = Some TASK_RUNNING /\
    (current_task k' <> current_task k ->
     state_of k' (current_task k) = Some TASK_READY) /\
    slice_of k' (current_task k) = t_time_slice <$> tasks k !! current_task k /\
    ready_queues k' = ready_queues k /\
    (forall q, queue_tasks k' q = queue_tasks k q) /\
    (forall x, x <> current_task k -> x <> current_task k' ->
       tasks k' !! x = tasks k !! x) /\
    exists k'', task_yield k' = Ret tt k'' /\ current_task k'' = current_task k'.
Proof.
  intros Hr. destruct (reachable_st P P_ok k Hr) as [Q Hst].
  destruct (task_yield_spec k Q Hst) as (c & k' & Hc & E & Hst' & Hsw).
  destruct (st_current _ _ _ _ _ Hst) as (c0 & Hc' & Hc0 & Hok).
  rewrite Hc in Hc'. injection Hc' as <-.
  destruct (switched_queues _ _ Hsw) as (Hrq & _ & Hq). simpl in Hrq.
  assert (Hcur : current_task k' = find_ready_below (ready_queues k) 5)
    by exact (sw_current _ _ Hsw).
  exists k'. split; [exact E|]. split; [exact Hcur|].
  pose proof (sw_states _ _ Hsw) as Hstates. unfold state_of in Hstates.
  cbn [tasks set_tasks current_task] in Hstates.
  split.
  { unfold state_of. rewrite (Hstates (current_task k')).
    destruct (decide (current_task k' = current_task k')); [|contradiction].
    destruct (st_current _ _ _ _ _ Hst') as (c' & Hc'' & _).
    destruct (decide (current_task k' = current_task k)) as [Ee|Ne].
    - rewrite Ee, lookup_insert_eq. reflexivity.
    - rewrite lookup_insert_ne by congruence.
      pose proof (sw_view _ _ Hsw (current_task k')) as Hv. simpl in Hv.
      rewrite lookup_insert_ne in Hv by congruence. rewrite Hc'' in Hv.
      destruct (tasks k !! current_task k'); [reflexivity|discriminate]. }
  split.
  { intros Hne. unfold state_of. rewrite (Hstates (current_task k)).
    destruct (decide (current_task k = current_task k')); [congruence|].
    destruct (decide (current_task k = current_task k)); [|contradiction].
    rewrite lookup_insert_eq. simpl.
    destruct (t_state c); try discriminate; reflexivity. }
  split.
  { unfold slice_of. pose proof (sw_view _ _ Hsw (current_task k)) as Hv. simpl in Hv.
    rewrite lookup_insert_eq in Hv. rewrite Hc. simpl.
    destruct (tasks k' !! current_task k) as [t'|]; [|discriminate].
    apply (f_equal (fmap t_time_slice_remaining)) in Hv. exact Hv. }
  split; [exact Hrq|]. split.
  { intros q. rewrite Hq. unfold queue_tasks. cbn [tasks set_tasks ready_queues].
    rewrite map_size_insert_Some by eauto.
    apply walk_queue_view. intros x.
    destruct (decide (x = current_task k)) as [->|Hx].
    - rewrite lookup_insert_eq, Hc. reflexivity.
    - rewrite lookup_insert_ne by congruence. reflexivity. }
  split.
  { intros x Hx Hx'. rewrite (sw_others _ _ Hsw x Hx'). simpl.
    destruct (decide (x = current_task k)); [contradiction|].
    rewrite lookup_insert_ne by congruence. reflexivity. }
  destruct (task_yield_spec k' Q Hst') as (c' & k'' & Hc'' & E' & _ & Hsw').
  exists k''. split; [exact E'|].
  rewrite (sw_current _ _ Hsw'). cbn [ready_queues set_tasks].
  rewrite Hrq. symmetry. exact Hcur.
Qed.

(** ** Exit and sleep *)

(** After the write of a state to the current control block,
    [task_exit] and [task_sleep] take [scheduler_lock] and call
    [remove_from_ready_queue], which takes it again. *)
Lemma lock_and_remove_hangs k Q (f : task_t -> task_t) t (rest : M unit) :
  st P [] false false k Q ->
  tasks k !! current_task k = Some t ->
  t_priority (f t) = t_priority t ->
  (spinlock_acquire scheduler_lock_p ;;
   cur1 <- gets current_task ;;
   remove_from_ready_queue cur1 ;; rest)
    (set_tasks (<[current_task k := f t]> (tasks k)) k) = Hang.
Proof.
  intros Hst Ht Hf.
  pose proof (core_cur _ _ _ _ _ _ _ (st_core _ _ _ _ _ _ Hst)) as Hcur.
  destruct (st_priority _ _ _ _ _ _ _ _ Hst Hcur Ht) as (Hp & _ & Hne).
  set (k1 := set_tasks (<[current_task k := f t]> (tasks k)) k).
  assert (Hcid : cid k1 = Some (t_id (f t))).
  { unfold cid, k1. simpl. destruct (current_task k =? 0) eqn:E0; [lia|].
    rewrite lookup_insert_eq. reflexivity. }
  unfold bind at 1. unfold scheduler_lock_p.
  rewrite (spinlock_acquire_free SchedulerLock k1 _ (st_sc _ _ _ _ _ _ Hst) Hcid).
  unfold bind at 1, gets at 1. simpl current_task.
  unfold bind at 1. unfold remove_from_ready_queue.
  destruct (current_task k =? 0) eqn:E0; [lia|].
  unfold bind at 1, rd at 1. simpl tasks. rewrite lookup_insert_eq.
  destruct (PRIORITY_CRITICAL <? t_priority (f t)) eqn:Ep; [lia|].
  unfold bind at 1. unfold scheduler_lock_p.
  rewrite spinlock_acquire_held; [reflexivity|]. simpl. discriminate.
Qed.

Lemma task_exit_cases k Q c exit_code :
  st P [] false false k Q -> tasks k !! current_task k = Some c ->
  task_exit exit_code k = if t_id c =? 0 then Ret tt k else Hang.
Proof.
  intros Hst Hc. destruct (st_current _ _ _ _ _ Hst) as (c' & Hc' & Hc0 & _).
  assert (Hg : no_task_or_idle k = Ret (t_id c =? 0) k).
  { unfold no_task_or_idle, bind, gets, rd.
    destruct (current_task k =? 0) eqn:E0; [lia|]. rewrite Hc. reflexivity. }
  unfold task_exit. unfold bind at 1. rewrite Hg.
  destruct (t_id c =? 0) eqn:E; [reflexivity|].
  unfold bind at 1, gets at 1. unfold bind at 1, wrt at 1. rewrite Hc.
  unfold bind at 1, wrt at 1. simpl tasks. rewrite lookup_insert_eq.
  simpl set_tasks. rewrite insert_insert_eq.
  apply (lock_and_remove_hangs k Q
           (fun t => set_state TASK_TERMINATED (set_exit_code exit_code t)) c);
    [exact Hst|exact Hc|reflexivity].
Qed.

Lemma task_sleep_cases k Q c milliseconds :
  st P [] false false k Q -> tasks k !! current_task k = Some c ->
  task_sleep P milliseconds k = if t_id c =? 0 then Ret tt k else Hang.
Proof.
  intros Hst Hc. destruct (st_current _ _ _ _ _ Hst) as (c' & Hc' & Hc0 & _).
  assert (Hg : no_task_or_idle k = Ret (t_id c =? 0) k).
  { unfold no_task_or_idle, bind, gets, rd.
    destruct (current_task k =? 0) eqn:E0; [lia|]. rewrite Hc. reflexivity. }
  unfold task_sleep. unfold bind at 1. rewrite Hg.
  destruct (t_id c =? 0) eqn:E; [reflexivity|].
  unfold bind at 1, gets at 1. unfold bind at 1, gets at 1.
  unfold bind at 1, wrt at 1. rewrite Hc.
  unfold bind at 1, wrt at 1. simpl tasks. rewrite lookup_insert_eq.
  simpl set_tasks. rewrite insert_insert_eq.
  apply (lock_and_remove_hangs k Q
           (fun t => set_state TASK_BLOCKED
              (set_sleep_until
                 (u64 (ticks k + u32 (milliseconds * timer_frequency P) / 1000)) t)) c);
    [exact Hst|exact Hc|reflexivity].
Qed.

(** X17.  In every state reached from boot by the life-cycle
    operations, [task_exit] and [task_sleep] called by the idle task
    (id 0) return at once and change nothing; called by any other task
    they never return: they spin on [scheduler_lock], which they hold
    themselves when [remove_from_ready_queue] takes it. *)
Theorem task_exit_and_sleep_spin (k : kernel) (exit_code milliseconds : Z) :
  reachable_by P lifecycle k ->
  exists c, tasks k !! current_task k = Some c /\
    (t_id c = 0 ->
     task_exit exit_code k = Ret tt k /\ task_sleep P milliseconds k = Ret tt k) /\
    (t_id c <> 0 ->
     task_exit exit_code k = Hang /\ task_sleep P milliseconds k = Hang).
Proof.
  intros Hr. destruct (reachable_st P P_ok k Hr) as [Q Hst].
  destruct (st_current _ _ _ _ _ Hst) as (c & Hc & _).
  exists c. split; [exact Hc|].
  rewrite (task_exit_cases k Q c exit_code Hst Hc).
  rewrite (task_sleep_cases k Q c milliseconds Hst Hc).
  split; intros Hid.
  - rewrite Hid. split; reflexivity.
  - destruct (t_id c =? 0) eqn:E; [lia|]. split; reflexivity.
Qed.

(** ** The task list and lookup by id *)

Lemma qchain_suffix (m : gmap Z atask) pre x suf : forall h,
  qchain m h (pre ++ x :: suf) -> qchain m x (x :: suf).
Proof.
  induction pre as [|y pre IH]; intros h Hq; simpl in Hq.
  - destruct Hq as (-> & Hq). split; [reflexivity|exact Hq].
  - destruct Hq as (_ & _ & a & _ & Hq). eapply IH. exact Hq.
Qed.

(** From the head of the task list the links run through the tail of
    one ready queue. *)
Lemma st_task_list k Q :
  st P [] false false k Q -> In (task_list_head_ptr k) (concat Q) ->
  exists i pre suf, (i < 5)%nat /\ Q !! i = Some (pre ++ task_list k) /\
    task_list k = task_list_head_ptr k :: suf /\
    qchain (abs_task <$> tasks k) (task_list_head_ptr k) (task_list k) /\
    (length (task_list k) <= size (tasks k))%nat.
Proof.
  intros Hst Hin. pose proof (st_core _ _ _ _ _ _ Hst) as Hc.
  apply in_concat in Hin as (l & Hl & Hx).
  apply list_elem_of_In, list_elem_of_lookup in Hl as (i & Hi).
  apply in_split in Hx as (pre & suf & ->).
  pose proof (core_chain _ _ _ _ _ _ _ Hc _ _ Hi) as Hch.
  apply qchain_suffix in Hch.
  assert (Hlen : (length (task_list_head_ptr k :: suf) <= size (tasks k))%nat).
  { pose proof (queue_length _ _ _ Hi) as H1.
    pose proof (core_nodup _ _ _ _ _ _ _ Hc) as Hnd. rewrite app_nil_r in Hnd.
    assert (H2 : (length (concat Q) <= size (tasks k))%nat).
    { apply nodup_dom_length; [exact Hnd|]. intros x Hx. apply is_Some_abs.
      eapply core_member_some; [exact Hc|exact Hx]. }
    rewrite length_app in H1. lia. }
  assert (E : task_list k = task_list_head_ptr k :: suf).
  { unfold task_list. apply walk_queue_qchain; [exact Hch|lia]. }
  exists i, pre, suf. rewrite E. split.
  { apply lookup_lt_Some in Hi. rewrite (core_len_Q _ _ _ _ _ _ _ Hc) in Hi. exact Hi. }
  auto.
Qed.

Lemma task_list_find_chain k task_id l : forall fuel h,
  qchain (abs_task <$> tasks k) h l -> (length l < fuel)%nat ->
  task_list_find fuel h task_id k = Ret (first_with_id (tasks k) l task_id) k.
Proof.
  induction l as [|x l IH]; intros fuel h Hq Hf;
    (destruct fuel as [|fuel]; [simpl in Hf; lia|]).
  - simpl in Hq. subst h. reflexivity.
  - destruct Hq as (-> & Hne & a & Ha & Hq). simpl.
    destruct (x =? 0) eqn:E; [lia|].
    rewrite lookup_fmap in Ha. unfold bind, rd.
    destruct (tasks k !! x) as [t|]; [|discriminate].
    injection Ha as <-. destruct (t_id t =? task_id); [reflexivity|].
    apply IH; [exact Hq|simpl in Hf; lia].
Qed.

Lemma first_with_id_sound m l task_id :
  first_with_id m l task_id <> 0 ->
  In (first_with_id m l task_id) l /\
  exists t, m !! first_with_id m l task_id = Some t /\ t_id t = task_id.
Proof.
  induction l as [|x l IH]; simpl; [congruence|].
  destruct (m !! x) as [t|] eqn:Hx; [|congruence].
  destruct (t_id t =? task_id) eqn:E.
  - intros _. split; [left; reflexivity|]. exists t. split; [exact Hx|lia].
  - intros H. destruct (IH H) as [H1 H2]. split; [right; exact H1|exact H2].
Qed.

Lemma looked_up_st k Q : st P [] false false k Q -> st P [] false false (looked_up k) Q.
Proof.
  intros [Hc Htl Hsc]. split; [exact Hc|reflexivity|].
  eapply lock_is_ext; [|exact Hsc]. reflexivity.
Qed.

(** [task_get_by_id] returns the first control block of the task list
    with the id asked for. *)
Lemma task_get_by_id_found k Q task_id :
  st P [] false false k Q -> In (task_list_head_ptr k) (concat Q) ->
  task_get_by_id task_id k = Ret (found k task_id) (looked_up k).
Proof.
  intros Hst Hin. destruct (st_cid _ _ _ _ _ _ Hst) as (c & Hc).
  destruct (st_task_list k Q Hst Hin) as (i & pre & suf & _ & _ & _ & Hch & Hlen).
  unfold task_get_by_id. unfold bind at 1. unfold task_list_lock_p.
  rewrite (spinlock_acquire_free TaskListLock k c (st_tl _ _ _ _ _ _ Hst) Hc).
  unfold bind at 1, gets at 1. unfold bind at 1, gets at 1. unfold bind at 1.
  rewrite (task_list_find_chain _ task_id (task_list k)); [|exact Hch|simpl; lia].
  unfold bind at 1. rewrite spinlock_release_owner; [|simpl; exact Hc].
  reflexivity.
Qed.

Lemma found_cases k Q task_id :
  st P [] false false k Q -> In (task_list_head_ptr k) (concat Q) ->
  found k task_id = 0 \/
  found k task_id <> 0 /\ In (found k task_id) (concat Q) /\
  exists t, tasks k !! found k task_id = Some t /\ t_id t = task_id.
Proof.
  intros Hst Hin. destruct (decide (found k task_id = 0)) as [E|Hne]; [left; exact E|].
  right. split; [exact Hne|].
  destruct (first_with_id_sound _ _ _ Hne) as (Hl & t & Ht & Hid).
  split; [|exists t; auto].
  destruct (st_dom _ _ _ _ _ _ _ Hst (mk_is_Some _ _ Ht)) as [H|[]]. exact H.
Qed.

(** [task_resume] finds no SUSPENDED task. *)
Lemma task_resume_refuses k Q task_id :
  st P [] false false k Q -> In (task_list_head_ptr k) (concat Q) ->
  task_resume task_id k = Ret (-1) (looked_up k).
Proof.
  intros Hst Hin. unfold task_resume. unfold bind at 1.
  rewrite (task_get_by_id_found k Q task_id Hst Hin).
  destruct (found_cases k Q task_id Hst Hin) as [E|(Hne & _ & t & Ht & _)].
  - rewrite E. reflexivity.
  - destruct (found k task_id =? 0) eqn:E; [lia|].
    unfold bind, rd. simpl tasks. rewrite Ht.
    pose proof (st_all_schedulable _ _ _ _ _ _ _ Hst Ht) as Hok.
    destruct (t_state t); try discriminate; reflexivity.
Qed.

(** [task_suspend] refuses an id that is not found and the id 0; for
    any other it takes [scheduler_lock] and calls
    [remove_from_ready_queue], which takes it again. *)
Lemma task_suspend_cases k Q task_id :
  st P [] false false k Q -> In (task_list_head_ptr k) (concat Q) ->
  task_suspend task_id k =
  if (found k task_id =? 0) || (task_id =? 0) then Ret (-1) (looked_up k) else Hang.
Proof.
  intros Hst Hin. unfold task_suspend. unfold bind at 1.
  rewrite (task_get_by_id_found k Q task_id Hst Hin).
  destruct (found_cases k Q task_id Hst Hin) as [E|(Hne & Hq & t & Ht & Hid)].
  - rewrite E. reflexivity.
  - destruct (found k task_id =? 0) eqn:E; [lia|].
    unfold bind at 1, rd at 1. simpl tasks. rewrite Ht, Hid. simpl orb.
    destruct (task_id =? 0) eqn:E0; [reflexivity|].
    pose proof (looked_up_st k Q Hst) as Hst1.
    destruct (st_cid _ _ _ _ _ _ Hst1) as (c & Hc).
    destruct (st_priority _ _ _ _ _ _ _ _ Hst Hq Ht) as (Hp & Hok & _).
    unfold bind at 1. unfold scheduler_lock_p.
    rewrite (spinlock_acquire_free SchedulerLock _ c (st_sc _ _ _ _ _ _ Hst1) Hc).
    unfold bind at 1, rd at 1. simpl tasks. rewrite Ht.
    assert (Hb : bool_decide (t_state t = TASK_RUNNING)
                 || bool_decide (t_state t = TASK_READY) = true).
    { destruct (t_state t); try discriminate; reflexivity. }
    rewrite Hb. unfold bind at 1. unfold bind at 1. unfold bind at 1, wrt at 1.
    simpl tasks. rewrite Ht. unfold bind at 1. unfold remove_from_ready_queue.
    rewrite E. unfold bind at 1, rd at 1. simpl tasks. rewrite lookup_insert_eq.
    change (t_priority (set_state TASK_SUSPENDED t)) with (t_priority t).
    destruct (PRIORITY_CRITICAL <? t_priority t) eqn:Ep; [lia|].
    unfold bind at 1. unfold scheduler_lock_p. cbv beta.
    rewrite spinlock_acquire_held; [reflexivity|].
    simpl. discriminate.
Qed.

(** ** The tick *)

(** With no task BLOCKED the wake-up loop reads its way through the
    task list and returns. *)
Lemma wake_sleepers_chain k now l : forall fuel h,
  (forall x t, tasks k !! x = Some t -> schedulable (t_state t) = true) ->
  qchain (abs_task <$> tasks k) h l -> (length l < fuel)%nat ->
  wake_sleepers fuel h now k = Ret tt k.
Proof.
  intros fuel h Hall. revert fuel h.
  induction l as [|x l IH]; intros fuel h Hq Hf;
    (destruct fuel as [|fuel]; [simpl in Hf; lia|]).
  - simpl in Hq. subst h. reflexivity.
  - destruct Hq as (-> & Hne & a & Ha & Hq). simpl.
    destruct (x =? 0) eqn:E; [lia|].
    rewrite lookup_fmap in Ha. unfold bind at 1, rd at 1.
    destruct (tasks k !! x) as [t|] eqn:Hx; [|discriminate].
    injection Ha as <-. pose proof (Hall _ _ Hx) as Hok.
    assert (Hb : bool_decide (t_state t = TASK_BLOCKED) = false).
    { apply bool_decide_eq_false. intros Es. rewrite Es in Hok. discriminate. }
    rewrite Hb. simpl andb. cbv iota. unfold bind at 1, ret at 1.
    unfold bind at 1, rd at 1. rewrite Hx.
    apply IH; [exact Hq|simpl in Hf; lia].
Qed.

Lemma accounted_st k Q c :
  st P [] false false k Q -> tasks k !! current_task k = Some c ->
  st P [] false false (accounted k c) Q.
Proof.
  intros Hst Hc.
  assert (Ha : abs_task (account c) = abs_task c).
  { unfold account. simpl.
    destruct (0 <? t_time_slice_remaining c); reflexivity. }
  pose proof (st_wrt_same _ _ _ _ _ _ _ _ (fun _ => account c) Hst Hc Ha) as [H1 H2 H3].
  split; [exact H1|reflexivity|]. eapply lock_is_ext; [|exact H3]. reflexivity.
Qed.

Lemma tick_account_accounted k Q c :
  st P [] false false k Q -> In (task_list_head_ptr k) (concat Q) ->
  tasks k !! current_task k = Some c ->
  tick_account k = Ret tt (accounted k c).
Proof.
  intros Hst Hin Hc.
  destruct (st_task_list k Q Hst Hin) as (i & pre & suf & _ & _ & _ & Hch & Hlen).
  destruct (st_cid _ _ _ _ _ _ Hst) as (id & Hid).
  unfold tick_account. unfold bind at 1, gets at 1. unfold bind at 1, rd at 1.
  rewrite Hc. unfold bind at 1, wrt at 1. rewrite Hc.
  unfold bind at 1, upd_stats at 1, modify at 1.
  unfold bind at 1, gets at 1. unfold bind at 1. unfold task_list_lock_p.
  set (c1 := set_cpu_time (u64 (t_cpu_time c + 1)) c).
  match goal with |- context [spinlock_acquire _ ?k1] => set (k1' := k1) end.
  assert (Hst1 : st P [] false false k1' Q).
  { eapply st_ext; [eapply (st_wrt_same _ _ _ _ _ _ _ _ (fun _ => c1)); [exact Hst|exact Hc|]|..];
      reflexivity. }
  destruct (st_cid _ _ _ _ _ _ Hst1) as (id1 & Hid1).
  rewrite (spinlock_acquire_free TaskListLock k1' id1 (st_tl _ _ _ _ _ _ Hst1) Hid1).
  unfold bind at 1, gets at 1. unfold bind at 1, gets at 1. unfold bind at 1.
  rewrite (wake_sleepers_chain _ _ (task_list k)).
  - unfold bind at 1. rewrite spinlock_release_owner; [|simpl; exact Hid1].
    unfold bind at 1, gets at 1. unfold bind at 1, rd at 1.
    cbn [tasks current_task set_lock set_task_list_lock set_tasks set_scheduler_stats k1'].
    rewrite lookup_insert_eq. unfold accounted, account. fold c1.
    destruct (0 <? t_time_slice_remaining c1).
    + unfold wrt, k1'. cbn [tasks current_task set_lock set_task_list_lock set_tasks
                            set_scheduler_stats].
      rewrite lookup_insert_eq, insert_insert_eq. reflexivity.
    + reflexivity.
  - intros x t Hx. exact (st_all_schedulable P _ _ k1' Q x t Hst1 Hx).
  - assert (Hv : forall x, abs_task <$> tasks k1' !! x = abs_task <$> tasks k !! x).
    { intros x. unfold k1'. simpl. destruct (decide (x = current_task k)) as [->|Hx].
      - rewrite lookup_insert_eq, Hc. reflexivity.
      - rewrite lookup_insert_ne by congruence. reflexivity. }
    cbn [tasks set_lock set_task_list_lock task_list_head_ptr].
    change (task_list_head_ptr k1') with (task_list_head_ptr k).
    rewrite (view_fmap_eq abs_task _ _ Hv). exact Hch.
  - cbn [tasks set_lock set_task_list_lock].
    assert (Hsz : size (tasks k1') = size (tasks k)).
    { unfold k1'. simpl. apply map_size_insert_Some. eauto. }
    rewrite Hsz. nia.
Qed.

Lemma tick_preempts_due k c :
  tasks k !! current_task k = Some c ->
  tick_preempts k = Ret (preempt_due c (ready_queues k)) k.
Proof.
  intros Hc. unfold tick_preempts, bind, gets, rd. rewrite Hc. reflexivity.
Qed.

Lemma tick_reset_st k Q c :
  st P [] false false k Q -> tasks k !! current_task k = Some c ->
  st P [] false false
     (set_tasks (<[current_task k :=
        set_time_slice_remaining (t_time_slice c) (account c)]> (tasks k))
        (accounted k c)) Q.
Proof.
  intros Hst Hc. pose proof (accounted_st k Q c Hst Hc) as Hst1.
  assert (Hc1 : tasks (accounted k c) !! current_task (accounted k c) = Some (account c)).
  { simpl. apply lookup_insert_eq. }
  eapply st_ext;
    [eapply (st_wrt_same _ _ _ _ _ _ _ _
               (fun t => set_time_slice_remaining (t_time_slice c) t));
       [exact Hst1|exact Hc1|reflexivity]|..]; try reflexivity.
  simpl. rewrite insert_insert_eq. reflexivity.
Qed.

(** [scheduler_tick], step by step: the accounting, then the switch if
    it is due. *)
Lemma scheduler_tick_spec k Q :
  st P [] false false k Q -> In (task_list_head_ptr k) (concat Q) ->
  exists c k', tasks k !! current_task k = Some c /\
    scheduler_tick k = Ret tt k' /\ st P [] false false k' Q /\
    if preempt_due (account c) (ready_queues k)
    then switched
           (set_tasks (<[current_task k :=
              set_time_slice_remaining (t_time_slice c) (account c)]> (tasks k))
              (accounted k c)) k'
    else k' = accounted k c.
Proof.
  intros Hst Hin. destruct (st_current _ _ _ _ _ Hst) as (c & Hc & Hc0 & _).
  exists c. pose proof (accounted_st k Q c Hst Hc) as Hst1.
  assert (Hc1 : tasks (accounted k c) !! current_task (accounted k c) = Some (account c)).
  { simpl. apply lookup_insert_eq. }
  assert (Hts : t_time_slice (account c) = t_time_slice c).
  { unfold account. simpl. destruct (0 <? t_time_slice_remaining c); reflexivity. }
  assert (E : scheduler_tick k =
    if preempt_due (account c) (ready_queues k)
    then schedule_next_task
           (set_tasks (<[current_task k :=
              set_time_slice_remaining (t_time_slice c) (account c)]> (tasks k))
              (accounted k c))
    else Ret tt (accounted k c)).
  { unfold scheduler_tick. unfold bind at 1, gets at 1.
    destruct (current_task k =? 0) eqn:E0; [lia|].
    unfold bind at 1. rewrite (tick_account_accounted k Q c Hst Hin Hc).
    unfold bind at 1. rewrite (tick_preempts_due _ _ Hc1).
    change (ready_queues (accounted k c)) with (ready_queues k).
    destruct (preempt_due (account c) (ready_queues k)); [|reflexivity].
    unfold bind at 1, gets at 1. unfold bind at 1, rd at 1. rewrite Hc1.
    unfold bind at 1, wrt at 1. rewrite Hc1. rewrite Hts.
    cbn [tasks current_task accounted set_tasks set_task_list_lock set_scheduler_stats].
    rewrite insert_insert_eq. reflexivity. }
  rewrite E. destruct (preempt_due (account c) (ready_queues k)).
  - destruct (schedule_next_spec _ _ (tick_reset_st k Q c Hst Hc))
      as (k' & E' & Hst' & Hsw).
    exists k'. auto.
  - exists (accounted k c). auto.
Qed.

(** ** [task_create], step by step *)

Arguments b_task {_ _ _ _ _ _ _ _ _ _ _ _} _.
Arguments b_others {_ _ _ _ _ _ _ _ _ _ _ _} _.
Arguments b_head {_ _ _ _ _ _ _ _ _ _ _ _} _.
Arguments b_rq {_ _ _ _ _ _ _ _ _ _ _ _} _.
Arguments b_nid {_ _ _ _ _ _ _ _ _ _ _ _} _.
Arguments b_stats {_ _ _ _ _ _ _ _ _ _ _ _} _.
Arguments b_heap {_ _ _ _ _ _ _ _ _ _ _ _} _.
Arguments b_tl {_ _ _ _ _ _ _ _ _ _ _ _} _.
Arguments b_sc {_ _ _ _ _ _ _ _ _ _ _ _} _.
Arguments b_cur {_ _ _ _ _ _ _ _ _ _ _ _} _.
Arguments b_quantum {_ _ _ _ _ _ _ _ _ _ _ _} _.
Arguments b_ticks {_ _ _ _ _ _ _ _ _ _ _ _} _.
Arguments b_pcur {_ _ _ _ _ _ _ _ _ _ _ _} _.

Ltac bld H :=
  destruct H; split; simpl; try assumption; try reflexivity; try congruence;
  try (unfold taken, released, get_lock; simpl; congruence).

Lemma building_cid k p T to hd rq nid sts h tl sc K :
  building k p T to hd rq nid sts h tl sc K -> cid K = cid k.
Proof.
  intros B. unfold cid. rewrite (b_cur B).
  destruct (current_task k =? 0); [reflexivity|].
  rewrite (b_others B) by exact (b_pcur B).
  destruct (to (current_task k)); [|reflexivity].
  destruct (tasks k !! current_task k); reflexivity.
Qed.

Lemma wb_wrt k p T to hd rq nid sts h tl sc K f post :
  building k p T to hd rq nid sts h tl sc K ->
  (forall K', building k p (f T) to hd rq nid sts h tl sc K' -> post tt K') ->
  wpt (wrt p f) post K.
Proof.
  intros B Hpost. eapply wpt_wrt; [exact (b_task B)|]. apply Hpost.
  bld B.
  - apply lookup_insert_eq.
  - intros x Hx. rewrite lookup_insert_ne by congruence. auto.
Qed.

Lemma wb_rd k p T to hd rq nid sts h tl sc K post :
  building k p T to hd rq nid sts h tl sc K -> post T K -> wpt (rd p) post K.
Proof. intros B Hpost. eapply wpt_rd; [exact (b_task B)|exact Hpost]. Qed.

Lemma wb_rd_other k p T to hd rq nid sts h tl sc K x t post :
  building k p T to hd rq nid sts h tl sc K ->
  x <> p -> to x = false -> tasks k !! x = Some t ->
  post t K -> wpt (rd x) post K.
Proof.
  intros B Hx Hto Ht Hpost. eapply wpt_rd; [|exact Hpost].
  rewrite (b_others B) by exact Hx. rewrite Hto. exact Ht.
Qed.

Lemma wb_touch k p T to hd rq nid sts h tl sc K x post :
  building k p T to hd rq nid sts h tl sc K ->
  x <> p -> is_Some (tasks k !! x) ->
  (forall K', building k p T (fun y => to y || bool_decide (y = x))
                hd rq nid sts h tl sc K' -> post tt K') ->
  wpt (wrt x (set_prev p)) post K.
Proof.
  intros B Hx [t Ht] Hpost.
  assert (Hl : exists t', tasks K !! x = Some t' /\ set_prev p t' = set_prev p t).
  { rewrite (b_others B) by exact Hx. rewrite Ht.
    destruct (to x); simpl; eauto. }
  destruct Hl as (t' & Ht' & Hs).
  eapply wpt_wrt; [exact Ht'|]. apply Hpost. bld B.
  - rewrite lookup_insert_ne by congruence. assumption.
  - intros y Hy. destruct (decide (y = x)) as [->|Hyx].
    + rewrite lookup_insert_eq, bool_decide_eq_true_2 by reflexivity.
      rewrite orb_true_r, Ht, Hs. reflexivity.
    + rewrite lookup_insert_ne by congruence.
      rewrite bool_decide_eq_false_2 by exact Hyx. rewrite orb_false_r. auto.
Qed.

Lemma wb_set_nid k p T to hd rq nid sts h tl sc K v post :
  building k p T to hd rq nid sts h tl sc K ->
  (forall K', building k p T to hd rq v sts h tl sc K' -> post tt K') ->
  wpt (modify (set_next_task_id v)) post K.
Proof. intros B Hpost. apply wpt_modify, Hpost. bld B. Qed.

Lemma wb_set_head k p T to hd rq nid sts h tl sc K v post :
  building k p T to hd rq nid sts h tl sc K ->
  (forall K', building k p T to v rq nid sts h tl sc K' -> post tt K') ->
  wpt (modify (set_task_list_head_ptr v)) post K.
Proof. intros B Hpost. apply wpt_modify, Hpost. bld B. Qed.

Lemma wb_set_queue_head k p T to hd rq nid sts h tl sc K priority v post :
  building k p T to hd rq nid sts h tl sc K ->
  (forall K', building k p T to hd (<[Z.to_nat priority := v]> rq) nid sts h tl sc K' ->
              post tt K') ->
  wpt (set_queue_head priority v) post K.
Proof. intros B Hpost. apply wpt_modify, Hpost. bld B. Qed.

Lemma wb_upd_stats k p T to hd rq nid sts h tl sc K f post :
  building k p T to hd rq nid sts h tl sc K ->
  (forall K', building k p T to hd rq nid (f sts) h tl sc K' -> post tt K') ->
  wpt (upd_stats f) post K.
Proof. intros B Hpost. apply wpt_modify, Hpost. bld B. Qed.

Lemma wb_kmalloc k p T to hd rq nid sts h tl sc K size r h' post :
  building k p T to hd rq nid sts h tl sc K ->
  MM.kmalloc (sizeof_heap_block_t P) h size = Some (r, h') ->
  (forall K', building k p T to hd rq nid sts h' tl sc K' -> post r K') ->
  wpt (kmalloc P size) post K.
Proof.
  intros B Hk Hpost. unfold wpt, kmalloc. rewrite (b_heap B), Hk.
  apply Hpost. bld B.
Qed.

Lemma wb_acquire_tl k p T to hd rq nid sts h tl sc K c post :
  building k p T to hd rq nid sts h tl sc K ->
  l_locked tl = 0 -> cid k = Some c ->
  (forall K', building k p T to hd rq nid sts h (taken c tl) sc K' -> post tt K') ->
  wpt (spinlock_acquire task_list_lock_p) post K.
Proof.
  intros B Hl Hc Hpost. unfold wpt, task_list_lock_p.
  rewrite (spinlock_acquire_free TaskListLock K c).
  - apply Hpost. bld B.
  - simpl. rewrite (b_tl B). exact Hl.
  - rewrite (building_cid _ _ _ _ _ _ _ _ _ _ _ _ B). exact Hc.
Qed.

Lemma wb_acquire_sc k p T to hd rq nid sts h tl sc K c post :
  building k p T to hd rq nid sts h tl sc K ->
  l_locked sc = 0 -> cid k = Some c ->
  (forall K', building k p T to hd rq nid sts h tl (taken c sc) K' -> post tt K') ->
  wpt (spinlock_acquire scheduler_lock_p) post K.
Proof.
  intros B Hl Hc Hpost. unfold wpt, scheduler_lock_p.
  rewrite (spinlock_acquire_free SchedulerLock K c).
  - apply Hpost. bld B.
  - simpl. rewrite (b_sc B). exact Hl.
  - rewrite (building_cid _ _ _ _ _ _ _ _ _ _ _ _ B). exact Hc.
Qed.

Lemma wb_release_tl k p T to hd rq nid sts h tl sc K post :
  building k p T to hd rq nid sts h tl sc K ->
  cid k = Some (l_owner tl) ->
  (forall K', building k p T to hd rq nid sts h (released tl) sc K' -> post tt K') ->
  wpt (spinlock_release task_list_lock_p) post K.
Proof.
  intros B Hc Hpost. unfold wpt, task_list_lock_p.
  rewrite (spinlock_release_owner TaskListLock K).
  - apply Hpost. bld B.
  - rewrite (building_cid _ _ _ _ _ _ _ _ _ _ _ _ B). simpl. rewrite (b_tl B). exact Hc.
Qed.

Lemma wb_release_sc k p T to hd rq nid sts h tl sc K post :
  building k p T to hd rq nid sts h tl sc K ->
  cid k = Some (l_owner sc) ->
  (forall K', building k p T to hd rq nid sts h tl (released sc) K' -> post tt K') ->
  wpt (spinlock_release scheduler_lock_p) post K.
Proof.
  intros B Hc Hpost. unfold wpt, scheduler_lock_p.
  rewrite (spinlock_release_owner SchedulerLock K).
  - apply Hpost. bld B.
  - rewrite (building_cid _ _ _ _ _ _ _ _ _ _ _ _ B). simpl. rewrite (b_sc B). exact Hc.
Qed.

Ltac bstep lem B := apply wpt_bind; eapply lem; [exact B|..]; [..|clear B; intros ? B].
Ltac bwrt B := apply wpt_bind; eapply wb_wrt; [exact B|]; clear B; intros ? B.
Ltac bgets := apply wpt_bind, wpt_gets.

(** The first part of [task_create], from the [memset] of the control
    block to the last field set from the arguments. *)
Lemma init_tcb_builds k h1 p nm priority flags c post :
  cid k = Some c -> l_locked (task_list_lock k) = 0 -> current_task k <> p ->
  (forall K,
     building k p (fresh_task k nm priority flags) (fun _ => false)
       (task_list_head_ptr k) (ready_queues k) (u32 (next_task_id k + 1))
       (scheduler_stats k) h1 (bump (task_list_lock k)) (scheduler_lock k) K ->
     post tt K) ->
  wpt (init_tcb p nm priority flags) post (set_kheap h1 k).
Proof.
  intros Hcid Htl Hpc Hpost. unfold init_tcb. apply wpt_bind, wpt_modify.
  match goal with |- wpt _ _ ?k0 =>
    assert (B : building k p zero_task (fun _ => false) (task_list_head_ptr k)
                  (ready_queues k) (next_task_id k) (scheduler_stats k) h1
                  (task_list_lock k) (scheduler_lock k) k0);
    [split; simpl; try reflexivity;
       [apply lookup_insert_eq
       |intros x Hx; apply lookup_insert_ne; congruence
       |exact Hpc]
    |revert B; generalize k0; intros K B]
  end.
  bstep wb_acquire_tl B; [exact Htl|exact Hcid|].
  bgets. rewrite (b_nid B). bstep wb_set_nid B. bwrt B.
  bstep wb_release_tl B; [exact Hcid|].
  bwrt B. bwrt B. bwrt B. bwrt B.
  bgets. rewrite (b_cur B). bwrt B.
  bgets. rewrite (b_quantum B). bwrt B.
  bgets. rewrite (b_quantum B). bwrt B.
  bgets. rewrite (b_ticks B). bwrt B.
  eapply wb_wrt; [exact B|]; clear B; intros ? B.
  apply Hpost. exact B.
Qed.

(** A successful [task_create]: both allocations succeed, and the call
    returns the next id with the task built and linked. *)
Lemma task_create_builds k Q nm entry_point priority flags :
  st P [] false false k Q -> In (task_list_head_ptr k) (concat Q) ->
  entry_point <> 0 -> allocation_fails P k = false ->
  PRIORITY_IDLE <= priority <= PRIORITY_CRITICAL ->
  wpt (task_create P (Some nm) entry_point priority flags)
      (fun r k' => r = next_task_id k /\
         exists p, p <> 0 /\ created P k p nm entry_point priority flags k') k.
Proof.
  intros Hst Hin He Hal Hpr. unfold PRIORITY_IDLE, PRIORITY_CRITICAL in Hpr.
  destruct (st_current _ _ _ _ _ Hst) as (c & Hc & Hc0 & _).
  destruct (st_member _ _ _ _ _ _ _ Hst Hin) as (th & _ & Hth & _ & _ & _ & Hhd0).
  assert (Hcid : cid k = Some (t_id c)).
  { unfold cid. destruct (current_task k =? 0) eqn:E; [lia|]. rewrite Hc. reflexivity. }
  pose proof (st_tl _ _ _ _ _ _ Hst) as Htl. pose proof (st_sc _ _ _ _ _ _ Hst) as Hsc.
  simpl in Htl, Hsc.
  set (hd := task_list_head_ptr k) in *.
  set (qh := queue_head (ready_queues k) priority).
  assert (Hqh : qh = 0 \/ (qh <> 0 /\ is_Some (tasks k !! qh))).
  { destruct (decide (qh = 0)) as [E|Hne]; [left; exact E|right].
    split; [exact Hne|]. unfold qh in *.
    rewrite <- (Z2Nat.id priority) in * by lia.
    assert (Hq : In (queue_head (ready_queues k) (Z.of_nat (Z.to_nat priority))) (concat Q)).
    { eapply st_queue_head; [exact Hst|lia|exact Hne]. }
    destruct (st_member _ _ _ _ _ _ _ Hst Hq) as (t & _ & Ht & _). eauto. }
  unfold task_create. destruct (entry_point =? 0) eqn:Ee; [lia|].
  apply wpt_bind. eapply wpt_kmalloc; [exact P_ok|exact Hst|].
  intros p h1 Hk1 Hcase _.
  unfold allocation_fails in Hal. rewrite Hk1 in Hal.
  apply orb_false_iff in Hal as [Ep Hal].
  destruct Hcase as [[-> _]|(Hp0 & Hidle & Hnone & Hh1)]; [discriminate|].
  destruct (heap_ok_kmalloc P P_ok h1 _ TASK_STACK_SIZE Hh1 ltac:(discriminate))
    as (sp & h2 & Hk2 & _).
  rewrite Hk2 in Hal. rewrite Ep.
  assert (Hpc : current_task k <> p) by (intros E; rewrite E in Hc; congruence).
  assert (Hph : hd <> p) by (intros E; rewrite E in Hth; congruence).
  destruct (current_task k =? 0) eqn:Ec0; [lia|].
  destruct (hd =? 0) eqn:Eh0; [lia|].
  destruct (PRIORITY_CRITICAL <? priority) eqn:Epc; [unfold PRIORITY_CRITICAL in Epc; lia|].
  apply wpt_bind. eapply init_tcb_builds; [exact Hcid|exact Htl|exact Hpc|].
  intros K B. fold hd in B.
  (* the stack *)
  apply wpt_bind. unfold task_alloc_stack. rewrite Ep. simpl orb. cbv iota.
  bstep wb_kmalloc B; [exact Hk2|].
  bwrt B. rewrite Hal. bwrt B. apply wpt_ret. simpl negb. cbv iota.
  (* the registers *)
  apply wpt_bind. unfold init_task_cpu_state.
  apply wpt_bind; eapply wb_rd; [exact B|]. simpl t_parent. rewrite Ec0.
  apply wpt_bind. apply wpt_bind.
  eapply wb_rd_other; [exact B|exact Hpc|reflexivity|exact Hc|]. apply wpt_ret.
  bwrt B. bwrt B. apply wpt_ret. simpl negb. cbv iota.
  apply wpt_bind. unfold task_setup_memory. rewrite Ep. bwrt B. apply wpt_ret.
  simpl negb. cbv iota.
  (* the task list *)
  unfold publish_task. apply wpt_bind. unfold task_list_add. rewrite Ep.
  bstep wb_acquire_tl B; [reflexivity|exact Hcid|].
  bgets. rewrite (b_head B). bwrt B. bwrt B.
  bgets. rewrite (b_head B). rewrite Eh0. simpl negb. cbv iota.
  bstep wb_touch B; [exact Hph|eauto|].
  bstep wb_set_head B.
  eapply wb_release_tl; [exact B|exact Hcid|]; clear B; intros ? B.
  (* the ready queue *)
  apply wpt_bind. unfold scheduler_add_task, add_to_ready_queue. rewrite Ep.
  apply wpt_bind; eapply wb_rd; [exact B|]. simpl t_priority. rewrite Epc.
  bstep wb_acquire_sc B; [exact Hsc|exact Hcid|].
  apply wpt_bind; eapply wb_rd; [exact B|].
  bgets. rewrite (b_rq B). simpl t_priority. fold qh. bwrt B.
  apply wpt_bind; eapply wb_rd; [exact B|].
  bgets. rewrite (b_rq B). simpl t_priority. fold qh.
  assert (Hrest : forall KK to',
    building k p
      (set_next qh
         (set_prev 0
            (set_next hd
               (set_page_directory (kernel_page_directory P)
                  (new_task P k nm entry_point priority flags sp)))))
      to' p (ready_queues k) (u32 (next_task_id k + 1)) (scheduler_stats k) h2
      (bump (bump (task_list_lock k))) (taken (t_id c) (scheduler_lock k)) KK ->
    (forall x, is_Some (tasks k !! x) ->
       to' x = bool_decide (x = hd) || bool_decide (x = qh)) ->
    wpt (t3 <- rd p ;;
         set_queue_head (t_priority t3) p ;;
         wrt p (set_prev 0) ;;
         spinlock_release scheduler_lock_p)
        (fun _ K' =>
           wpt (spinlock_acquire scheduler_lock_p ;;
                upd_stats (fun s => stats_set_total_tasks (u32 (total_tasks s + 1)) s) ;;
                upd_stats (fun s => stats_set_ready_tasks (u32 (ready_tasks s + 1)) s) ;;
                spinlock_release scheduler_lock_p ;;
                t <- rd p ;; ret (t_id t))
               (fun r k' => r = next_task_id k /\
                  exists p, p <> 0 /\ created P k p nm entry_point priority flags k') K') KK).
  { clear B. intros KK to' B Hto.
    apply wpt_bind; eapply wb_rd; [exact B|]. simpl t_priority.
    bstep wb_set_queue_head B. bwrt B.
    eapply wb_release_sc; [exact B|exact Hcid|]; clear B; intros ? B.
    bstep wb_acquire_sc B; [reflexivity|exact Hcid|].
    bstep wb_upd_stats B. bstep wb_upd_stats B.
    bstep wb_release_sc B; [exact Hcid|].
    apply wpt_bind; eapply wb_rd; [exact B|]. apply wpt_ret.
    split; [reflexivity|]. exists p. split; [exact Hp0|].
    destruct B as [B1 B2 B3 B4 B5 B6 B7 B8 B9 B10 B11 B12 B13].
    split; try assumption.
    - exists sp. split; [lia|]. rewrite B1. reflexivity.
    - intros x Hx. rewrite (B2 x Hx). fold hd qh.
      destruct (tasks k !! x) eqn:Ex.
      + rewrite Hto by eauto. reflexivity.
      + destruct (to' x), (bool_decide (x = hd) || bool_decide (x = qh)); reflexivity. }
  apply wpt_bind. destruct Hqh as [E0|(Hq0 & Hqs)].
  - rewrite E0. simpl Z.eqb. cbv iota. apply wpt_ret.
    apply (Hrest _ (fun y => false || bool_decide (y = hd))).
    + destruct B as [B1 B2 B3 B4 B5 B6 B7 B8 B9 B10 B11 B12 B13].
      split; try assumption. rewrite B1. f_equal.
      unfold new_task. rewrite Hc. reflexivity.
    + intros x [t Ht]. simpl.
      assert (x <> qh) by (rewrite E0; intros ->;
        destruct (st_dom _ _ _ _ _ _ _ Hst (mk_is_Some _ _ Ht)) as [Hx|[]];
        destruct (st_member _ _ _ _ _ _ _ Hst Hx) as (? & ? & _ & _ & _ & _ & Hn);
        congruence).
      rewrite (bool_decide_eq_false_2 (x = qh)) by assumption.
      rewrite orb_false_r. reflexivity.
  - destruct (qh =? 0) eqn:Eq0; [lia|].
    assert (Hqp : qh <> p) by (intros E; rewrite E in Hqs; destruct Hqs; congruence).
    eapply wb_touch; [exact B|exact Hqp|exact Hqs|]. clear B. intros ? B.
    apply (Hrest _ (fun y => (false || bool_decide (y = hd)) || bool_decide (y = qh))).
    + destruct B as [B1 B2 B3 B4 B5 B6 B7 B8 B9 B10 B11 B12 B13].
      split; try assumption. rewrite B1. f_equal.
      unfold new_task. rewrite Hc. reflexivity.
    + intros x _. reflexivity.
Qed.

(** A failing [task_create], step by step: what it leaves and what it
    has used up. *)
Lemma task_create_fails_keeps k Q name entry_point priority flags :
  st P [] false false k Q ->
  name = None \/ entry_point = 0 \/ allocation_fails P k = true ->
  wpt (task_create P name entry_point priority flags)
    (fun r k' => r = 0 /\ tasks k' = tasks k /\
       scheduler_stats k' = scheduler_stats k /\
       task_list_head_ptr k' = task_list_head_ptr k /\
       ready_queues k' = ready_queues k /\ current_task k' = current_task k /\
       scheduler_quantum k' = scheduler_quantum k /\ ticks k' = ticks k /\
       next_task_id k' =
       if bool_decide (name <> None) && negb (entry_point =? 0) && tcb_allocated P k
       then u32 (next_task_id k + 1) else next_task_id k) k.
Proof.
  intros Hst Hf. unfold task_create.
  destruct name as [nm|]; [|apply wpt_ret; simpl; auto 10].
  destruct (entry_point =? 0) eqn:Ee.
  { apply wpt_ret. rewrite andb_false_r. simpl. auto 10. }
  destruct Hf as [?|[?|Hal]]; [discriminate|lia|].
  destruct (st_current _ _ _ _ _ Hst) as (c & Hc & Hc0 & _).
  assert (Hcid : cid k = Some (t_id c)).
  { unfold cid. destruct (current_task k =? 0) eqn:E; [lia|]. rewrite Hc. reflexivity. }
  pose proof (st_tl _ _ _ _ _ _ Hst) as Htl. simpl in Htl.
  rewrite bool_decide_eq_true_2 by discriminate. simpl andb.
  apply wpt_bind. eapply wpt_kmalloc; [exact P_ok|exact Hst|].
  intros p h1 Hk1 Hcase _.
  unfold allocation_fails in Hal. rewrite Hk1 in Hal.
  unfold tcb_allocated. rewrite Hk1.
  destruct (p =? 0) eqn:Ep.
  { apply wpt_ret. simpl. auto 10. }
  destruct Hcase as [[-> _]|(Hp0 & Hidle & Hnone & Hh1)]; [discriminate|].
  simpl in Hal.
  destruct (heap_ok_kmalloc P P_ok h1 _ TASK_STACK_SIZE Hh1 ltac:(discriminate))
    as (sp & h2 & Hk2 & Hcase2).
  rewrite Hk2 in Hal.
  destruct Hcase2 as [[-> ->]|(Hsp & _)]; [|lia].
  destruct (heap_ok_kfree P P_ok h1 _ p Hh1 (or_intror eq_refl) Hidle) as (h3 & Hkf & _).
  assert (Hpc : current_task k <> p) by (intros E; rewrite E in Hc; congruence).
  apply wpt_bind. eapply init_tcb_builds; [exact Hcid|exact Htl|exact Hpc|].
  intros K B.
  apply wpt_bind. unfold task_alloc_stack. rewrite Ep. simpl orb. cbv iota.
  bstep wb_kmalloc B; [exact Hk2|]. bwrt B. simpl Z.eqb. cbv iota.
  apply wpt_ret. simpl negb. cbv iota.
  apply wpt_bind. unfold kfree_task. apply wpt_bind.
  unfold wpt at 1, kfree. rewrite (b_heap B), Hkf. apply wpt_modify, wpt_ret.
  destruct B as [B1 B2 B3 B4 B5 B6 B7 B8 B9 B10 B11 B12 B13]. simpl.
  repeat split; try assumption.
  apply map_eq. intros x. destruct (decide (x = p)) as [->|Hx].
  - rewrite lookup_delete_eq. symmetry. exact Hnone.
  - rewrite lookup_delete_ne by congruence. apply B2. exact Hx.
Qed.

(** ** Boot *)

Lemma wpt_acquire_raw n c post k :
  l_locked (get_lock n k) = 0 -> cid k = Some c ->
  post tt (set_lock n (taken c (get_lock n k)) k) ->
  wpt (spinlock_acquire (Some n)) post k.
Proof.
  intros Hl Hc Hpost. unfold wpt. rewrite (spinlock_acquire_free n k c Hl Hc).
  exact Hpost.
Qed.

Lemma wpt_release_raw n post k :
  cid k = Some (l_owner (get_lock n k)) ->
  post tt (set_lock n (released (get_lock n k)) k) ->
  wpt (spinlock_release (Some n)) post k.
Proof.
  intros Hc Hpost. unfold wpt. rewrite (spinlock_release_owner n k Hc). exact Hpost.
Qed.

(** [task_init] on the statics as the loader leaves them returns 0 with
    the idle task as the only task: it is the current task, READY, the
    head of the task list and of the ready queue of priority idle. *)
Lemma task_init_boots m :
  wpt (task_init P)
    (fun r k => r = 0 /\
       exists T, tasks k = {[idle_task_tcb P := T]} /\
         t_state T = TASK_READY /\ t_id T = 0 /\ t_priority T = PRIORITY_IDLE /\
         t_next T = 0 /\ t_time_slice T = 50 /\
         task_list_head_ptr k = idle_task_tcb P /\
         current_task k = idle_task_tcb P /\
         ready_queues k = [idle_task_tcb P; 0; 0; 0; 0] /\
         scheduler_stats k = zero_stats /\ next_task_id k = 1 /\
         scheduler_quantum k = 50 /\ ticks k = 0)
    (boot_kernel P m).
Proof.
  pose proof P_ok as (Hhdr & Hfit & Hidle & Hout).
  unfold task_init.
  unfold spinlock_init, task_list_lock_p, scheduler_lock_p.
  wmod. wmod. wmod. wmod. norm.
  wwrt; norm. wwrt; norm. wwrt; norm. wwrt; norm. wwrt; norm. wwrt; norm. wwrt; norm.
  wgets. wwrt; norm. wgets. wwrt; norm. wgets. wwrt; norm.
  apply wpt_bind. unfold init_task_cpu_state. wrd.
  apply wpt_bind, wpt_ret. wwrt; norm. wwrt; norm. apply wpt_ret.
  simpl negb. cbv iota.
  apply wpt_bind. unfold task_list_add.
  destruct (idle_task_tcb P =? 0) eqn:E0; [lia|].
  apply wpt_bind. eapply (wpt_acquire_raw TaskListLock 0); [reflexivity|reflexivity|]. norm.
  wgets. wwrt; norm. wwrt; norm. wgets. apply wpt_bind, wpt_ret. wmod. norm.
  eapply (wpt_release_raw TaskListLock); [reflexivity|]. norm.
  apply wpt_bind. unfold add_to_ready_queue. rewrite E0.
  wrd. apply wpt_bind. eapply (wpt_acquire_raw SchedulerLock 0); [reflexivity|reflexivity|].
  norm.
  wrd. wgets. wwrt; norm. wrd. wgets. apply wpt_bind, wpt_ret. wrd.
  apply wpt_bind, wpt_modify. norm. wwrt; norm.
  eapply (wpt_release_raw SchedulerLock); [reflexivity|]. norm.
  wmod. apply wpt_ret. split; [reflexivity|].
  eexists. split.
  { simpl. rewrite !insert_insert_eq. apply insert_empty. }
  simpl. repeat split; reflexivity.
Qed.

Lemma queue_head_insert rq priority q p :
  0 <= priority -> 0 <= q -> (Z.to_nat priority < length rq)%nat ->
  queue_head (<[Z.to_nat priority := p]> rq) q =
  if decide (q = priority) then p else queue_head rq q.
Proof.
  intros Hp Hq Hlen. unfold queue_head. destruct (decide (q = priority)) as [->|Hne].
  - rewrite list_lookup_insert_eq by exact Hlen. reflexivity.
  - rewrite list_lookup_insert_ne by lia. reflexivity.
Qed.

(** ** The invariant between operations *)

Lemma sched_inv_touch k k' Q :
  sched_inv P k Q -> st P [] false false k' Q ->
  task_list_head_ptr k' = task_list_head_ptr k ->
  ready_queues k' = ready_queues k ->
  current_task k' = current_task k ->
  (forall x, t_state <$> tasks k' !! x = t_state <$> tasks k !! x) ->
  total_tasks (scheduler_stats k') = total_tasks (scheduler_stats k) ->
  ready_tasks (scheduler_stats k') = ready_tasks (scheduler_stats k) ->
  running_tasks (scheduler_stats k') = running_tasks (scheduler_stats k) ->
  blocked_tasks (scheduler_stats k') = blocked_tasks (scheduler_stats k) ->
  sched_inv P k' Q.
Proof.
  intros [I1 I2 If I3 I4 I5 I6 I7] Hst Hhd Hrq Hcur Hv E1 E2 E3 E4. split.
  - exact Hst.
  - rewrite Hhd. exact I2.
  - rewrite Hhd, Hrq. exact If.
  - intros x t Hx Hne. specialize (Hv x). rewrite Hx in Hv.
    destruct (tasks k !! x) as [t0|] eqn:Hx0; [|discriminate].
    injection Hv as ->. apply (I3 x t0 Hx0). congruence.
  - rewrite E1, I4, (view_size t_state _ _ Hv). reflexivity.
  - congruence.
  - congruence.
  - congruence.
Qed.

Lemma sched_inv_switched k k' Q :
  sched_inv P k Q -> st P [] false false k' Q -> switched k k' -> sched_inv P k' Q.
Proof.
  intros [I1 I2 If I3 I4 I5 I6 I7] Hst Hsw.
  destruct (switched_queues _ _ Hsw) as (Hrq & Hhd & _).
  pose proof (f_equal (fun k => scheduler_stats k) (sw_frame _ _ Hsw)) as Hs.
  simpl in Hs. split.
  - exact Hst.
  - rewrite Hhd. exact I2.
  - rewrite Hhd, Hrq. exact If.
  - intros x t Hx Hne. rewrite (sw_others _ _ Hsw x Hne) in Hx.
    destruct (decide (x = current_task k)) as [->|Hx0]; [|eapply I3; eassumption].
    destruct (tasks k !! current_task k) as [t0|] eqn:Ht0; [|discriminate].
    injection Hx as <-. pose proof (st_all_schedulable _ _ _ _ _ _ _ I1 Ht0) as Hok.
    simpl. destruct (t_state t0); try discriminate; reflexivity.
  - rewrite (view_size sched_view _ _ (sw_view _ _ Hsw)), <- I4.
    apply (f_equal total_tasks) in Hs. exact Hs.
  - apply (f_equal ready_tasks) in Hs as H1. apply (f_equal total_tasks) in Hs as H2.
    simpl in H1, H2. congruence.
  - apply (f_equal running_tasks) in Hs. simpl in Hs. congruence.
  - apply (f_equal blocked_tasks) in Hs. simpl in Hs. congruence.
Qed.

Lemma created_size Pk k p nm entry_point priority flags k' :
  created Pk k p nm entry_point priority flags k' ->
  size (tasks k') = S (size (tasks k)).
Proof.
  intros Hcr. destruct (cr_task _ _ _ _ _ _ _ _ Hcr) as (sp & _ & Hp).
  assert (E : (fun _ : task_t => tt) <$> tasks k' =
              <[p := tt]> ((fun _ : task_t => tt) <$> tasks k)).
  { apply map_eq. intros x. rewrite lookup_fmap.
    destruct (decide (x = p)) as [->|Hx].
    - rewrite lookup_insert_eq, Hp. reflexivity.
    - rewrite lookup_insert_ne by congruence.
      rewrite (cr_others _ _ _ _ _ _ _ _ Hcr x Hx), lookup_fmap.
      destruct (_ || _), (tasks k !! x); reflexivity. }
  rewrite <- (map_size_fmap (fun _ : task_t => tt) (tasks k')), E.
  rewrite map_size_insert_None, map_size_fmap; [reflexivity|].
  rewrite lookup_fmap, (cr_fresh _ _ _ _ _ _ _ _ Hcr). reflexivity.
Qed.

Lemma sched_inv_created k Q Q' p nm entry_point priority flags k' :
  sched_inv P k Q -> PRIORITY_IDLE <= priority <= PRIORITY_CRITICAL ->
  st P [] false false k' Q' ->
  created P k p nm entry_point priority flags k' -> sched_inv P k' Q'.
Proof.
  intros [I1 I2 If I3 I4 I5 I6 I7] Hpr Hst Hcr.
  destruct (cr_task _ _ _ _ _ _ _ _ Hcr) as (sp & _ & Hp).
  pose proof (cr_stats _ _ _ _ _ _ _ _ Hcr) as Hs. split.
  - exact Hst.
  - rewrite (cr_head _ _ _ _ _ _ _ _ Hcr).
    destruct (st_dom _ _ _ _ _ _ _ Hst (mk_is_Some _ _ Hp)) as [H|[]]. exact H.
  - exists priority. split; [exact Hpr|].
    rewrite (cr_head _ _ _ _ _ _ _ _ Hcr), (cr_queue _ _ _ _ _ _ _ _ Hcr).
    unfold PRIORITY_IDLE, PRIORITY_CRITICAL in Hpr.
    rewrite queue_head_insert;
      [|lia|lia|rewrite (core_len_rq _ _ _ _ _ _ _ (st_core _ _ _ _ _ _ I1)); lia].
    destruct (decide (priority = priority)); [reflexivity|contradiction].
  - intros x t Hx Hne. rewrite (cr_current _ _ _ _ _ _ _ _ Hcr) in Hne.
    destruct (decide (x = p)) as [->|Hxp].
    + rewrite Hp in Hx. injection Hx as <-. reflexivity.
    + rewrite (cr_others _ _ _ _ _ _ _ _ Hcr x Hxp) in Hx.
      destruct (tasks k !! x) as [t0|] eqn:Hx0; [|destruct (_ || _); discriminate].
      pose proof (I3 x t0 Hx0 Hne) as H0.
      destruct (_ || _); simpl in Hx; injection Hx as <-; exact H0.
  - rewrite Hs. simpl. rewrite I4, (created_size _ _ _ _ _ _ _ _ Hcr).
    unfold u32. rewrite Zplus_mod_idemp_l. f_equal. lia.
  - rewrite Hs. simpl. rewrite I5. reflexivity.
  - rewrite Hs. simpl. exact I6.
  - rewrite Hs. simpl. exact I7.
Qed.

Lemma sched_inv_looked_up k Q : sched_inv P k Q -> sched_inv P (looked_up k) Q.
Proof.
  intros I. eapply sched_inv_touch; [exact I|apply looked_up_st, (si_st _ _ _ I)|..];
    reflexivity.
Qed.

(** [task_init] establishes it. *)
Lemma boot_sched_inv m k :
  task_init P (boot_kernel P m) = Ret 0 k -> exists Q, sched_inv P k Q.
Proof.
  intros E. destruct (boot_inv P P_ok m k E) as [Q Hst].
  pose proof (task_init_boots m) as Hb. unfold wpt in Hb. rewrite E in Hb.
  destruct Hb as (_ & T & Ht & Hs & _ & _ & _ & _ & Hhd & Hcur & Hrq & Hst0 & _).
  exists Q. split.
  - exact Hst.
  - assert (Hi : is_Some (tasks k !! task_list_head_ptr k)).
    { rewrite Hhd, Ht, lookup_singleton_eq. eauto. }
    destruct (st_dom _ _ _ _ _ _ _ Hst Hi) as [H|[]]. exact H.
  - exists PRIORITY_IDLE. split; [unfold PRIORITY_IDLE, PRIORITY_CRITICAL; lia|].
    rewrite Hrq, Hhd. reflexivity.
  - intros x t Hx Hne. rewrite Ht in Hx.
    apply lookup_singleton_Some in Hx as [<- _]. congruence.
  - rewrite Hst0, Ht, map_size_singleton. reflexivity.
  - rewrite Hst0. reflexivity.
  - rewrite Hst0. reflexivity.
  - rewrite Hst0. reflexivity.
Qed.

(** Every life-cycle operation that returns keeps it. *)
Lemma run_op_sched_inv k Q o k' :
  sched_inv P k Q -> lifecycle o -> well_typed o ->
  run_op P o k = Ret tt k' -> exists Q', sched_inv P k' Q'.
Proof.
  intros I Hl Hw E. pose proof (si_st _ _ _ I) as Hst. pose proof (si_head _ _ _ I) as Hin.
  destruct (st_current _ _ _ _ _ Hst) as (c & Hc & Hc0 & _).
  destruct o; simpl in Hl, Hw, E; try contradiction.
  - (* create *)
    unfold bind in E.
    destruct (task_create P name entry_point priority flags k) as [r k1| | |] eqn:Ecr;
      try discriminate.
    injection E as <-.
    assert (Hcase : (name = None \/ entry_point = 0 \/ allocation_fails P k = true) \/
                    (exists nm, name = Some nm) /\ entry_point <> 0 /\
                    allocation_fails P k = false).
    { destruct name as [nm|]; [|left; left; reflexivity].
      destruct (decide (entry_point = 0)) as [->|Hne]; [left; right; left; reflexivity|].
      destruct (allocation_fails P k); [left; right; right; reflexivity|right; eauto]. }
    destruct Hcase as [Hf|((nm & ->) & Hne & Hal)].
    + destruct (task_create_fails P P_ok k Q name entry_point priority flags Hst Hf)
        as (k2 & E2 & Hst2 & _).
      pose proof (task_create_fails_keeps k Q name entry_point priority flags Hst Hf) as Hk.
      unfold wpt in Hk. rewrite Ecr in Hk, E2. injection E2 as _ <-.
      destruct Hk as (_ & Ht & Hs & Hhd & Hrq & Hcur & _).
      exists Q.
      eapply sched_inv_touch; [exact I|exact Hst2|exact Hhd|exact Hrq|exact Hcur|..];
        try (rewrite Hs; reflexivity).
      intros x. rewrite Ht. reflexivity.
    + pose proof (task_create_builds k Q nm entry_point priority flags Hst Hin Hne Hal Hw)
        as Hb.
      unfold wpt in Hb. rewrite Ecr in Hb. destruct Hb as (_ & p & _ & Hcr).
      destruct (wp_run _ _ _ _ _
                  (wp_task_create P P_ok k Q (Some nm) entry_point priority flags Hst Hw)
                  Ecr) as [Q' Hst'].
      exists Q'. eapply sched_inv_created; eassumption.
  - (* suspend *)
    unfold bind in E. rewrite (task_suspend_cases k Q task_id Hst Hin) in E.
    destruct (_ || _); [|discriminate]. injection E as <-.
    exists Q. apply sched_inv_looked_up. exact I.
  - (* resume *)
    unfold bind in E. rewrite (task_resume_refuses k Q task_id Hst Hin) in E.
    injection E as <-. exists Q. apply sched_inv_looked_up. exact I.
  - (* sleep *)
    rewrite (task_sleep_cases k Q c milliseconds Hst Hc) in E.
    destruct (t_id c =? 0); [|discriminate]. injection E as <-. exists Q. exact I.
  - (* exit *)
    rewrite (task_exit_cases k Q c exit_code Hst Hc) in E.
    destruct (t_id c =? 0); [|discriminate]. injection E as <-. exists Q. exact I.
  - (* yield *)
    destruct (task_yield_spec k Q Hst) as (c' & k1 & Hc' & E1 & Hst1 & Hsw).
    rewrite E1 in E. injection E as <-. rewrite Hc in Hc'. injection Hc' as <-.
    exists Q. eapply sched_inv_switched; [|exact Hst1|exact Hsw].
    eapply sched_inv_touch; [exact I| |reflexivity|reflexivity|reflexivity| |reflexivity..].
    + eapply st_wrt_same; [exact Hst|exact Hc|reflexivity].
    + intros x. simpl. destruct (decide (x = current_task k)) as [->|Hx].
      * rewrite lookup_insert_eq, Hc. reflexivity.
      * rewrite lookup_insert_ne by congruence. reflexivity.
  - (* tick *)
    destruct (scheduler_tick_spec k Q Hst Hin) as (c' & k1 & Hc' & E1 & Hst1 & Hcase).
    rewrite E1 in E. injection E as <-. rewrite Hc in Hc'. injection Hc' as <-.
    exists Q.
    assert (Hsa : t_state (account c) = t_state c).
    { unfold account. simpl. destruct (0 <? t_time_slice_remaining c); reflexivity. }
    assert (Ia : sched_inv P (accounted k c) Q).
    { eapply sched_inv_touch;
        [exact I|apply accounted_st; assumption|reflexivity|reflexivity|reflexivity|
        |reflexivity..].
      intros x. simpl. destruct (decide (x = current_task k)) as [->|Hx].
      - rewrite lookup_insert_eq, Hc. simpl. rewrite Hsa. reflexivity.
      - rewrite lookup_insert_ne by congruence. reflexivity. }
    destruct (preempt_due (account c) (ready_queues k)).
    + eapply sched_inv_switched; [|exact Hst1|exact Hcase].
      eapply sched_inv_touch;
        [exact Ia| |reflexivity|reflexivity|reflexivity| |reflexivity..].
      * apply tick_reset_st; assumption.
      * intros x. simpl. destruct (decide (x = current_task k)) as [->|Hx].
        -- rewrite !lookup_insert_eq. reflexivity.
        -- rewrite !lookup_insert_ne by congruence. reflexivity.
    + subst k1. exact Ia.
  - (* schedule_next *)
    destruct (schedule_next_spec k Q Hst) as (k1 & E1 & Hst1 & Hsw).
    rewrite E1 in E. injection E as <-. exists Q.
    eapply sched_inv_switched; eassumption.
  - (* timer *)
    unfold timer_callback, modify in E. injection E as <-. exists Q.
    eapply sched_inv_touch; [exact I| |reflexivity..].
    eapply st_ext; [exact Hst|reflexivity..].
Qed.

Lemma reachable_sched_inv k :
  reachable_by P lifecycle k -> exists Q, sched_inv P k Q.
Proof.
  induction 1 as [m k E|k o k' _ [Q IH] Hl Hw E].
  - eapply boot_sched_inv. exact E.
  - eapply run_op_sched_inv; eassumption.
Qed.

(** ** Lookup by id in the states of the life cycle *)

Lemma first_with_id_complete (m : gmap Z task_t) l task_id x t :
  (forall y, In y l -> y <> 0 /\ is_Some (m !! y)) ->
  In x l -> m !! x = Some t -> t_id t = task_id ->
  first_with_id m l task_id <> 0.
Proof.
  induction l as [|y l IH]; intros Hall Hx Ht Hid; [destruct Hx|]. simpl.
  destruct (Hall y ltac:(left; reflexivity)) as [Hy0 [ty Hy]]. rewrite Hy.
  destruct (t_id ty =? task_id) eqn:E; [exact Hy0|].
  destruct Hx as [->|Hx].
  - rewrite Ht in Hy. injection Hy as <-. lia.
  - apply IH; try assumption. intros z Hz. apply Hall. right. exact Hz.
Qed.

Lemma sched_inv_task_list k Q :
  sched_inv P k Q ->
  exists q, PRIORITY_IDLE <= q <= PRIORITY_CRITICAL /\ task_list k = queue_tasks k q.
Proof.
  intros I. destruct (si_front _ _ _ I) as (q & Hq & E).
  exists q. split; [exact Hq|]. unfold task_list, queue_tasks. rewrite E. reflexivity.
Qed.




(** ** The tick in the states of the life cycle *)

Lemma switched_running k k' Q :
  st P [] false false k' Q -> switched k k' ->
  state_of k' (current_task k') = Some TASK_RUNNING.
Proof.
  intros Hst' Hsw. destruct (st_current _ _ _ _ _ Hst') as (c' & Hc' & _).
  pose proof (sw_states _ _ Hsw (current_task k')) as Hs.
  pose proof (sw_view _ _ Hsw (current_task k')) as Hv.
  destruct (decide (current_task k' = current_task k')); [|contradiction].
  rewrite Hs. unfold state_of. rewrite Hc' in Hv.
  destruct (tasks k !! current_task k'); [reflexivity|discriminate].
Qed.

Lemma account_fields c :
  t_cpu_time (account c) = u64 (t_cpu_time c + 1) /\
  t_state (account c) = t_state c /\ t_time_slice (account c) = t_time_slice c /\
  t_time_slice_remaining (account c) =
  if 0 <? t_time_slice_remaining c then u32 (t_time_slice_remaining c - 1)
  else t_time_slice_remaining c.
Proof.
  unfold account. simpl. destruct (0 <? t_time_slice_remaining c); auto.
Qed.

(** X21.  In every state reached from boot by the life-cycle
    operations [scheduler_tick] returns.  It adds one tick to the CPU
    time of the current task and to the total, wakes no task, and takes
    one tick from the time slice unless that is spent.  If the slice is
    then 0, or a task of priority critical or high is queued above the
    current one, the slice is set back to the quantum of the task and
    the head of the highest non-empty ready queue becomes the current
    task, RUNNING; otherwise the current task goes on.  The ready queues
    are as before, and no other control block is touched. *)
Theorem scheduler_tick_accounts_and_switches (k : kernel) :
  reachable_by P lifecycle k ->
  exists c k',
    tasks k !! current_task k = Some c /\
    scheduler_tick k = Ret tt k' /\
    let due := preempt_due (account c) (ready_queues k) in
    ready_queues k' = ready_queues k /\
    current_task k' =
      (if due then find_ready_below (ready_queues k) 5 else current_task k) /\
    t_cpu_time <$> tasks k' !! current_task k = Some (u64 (t_cpu_time c + 1)) /\
    slice_of k' (current_task k) =
      Some (if due then t_time_slice c
            else if 0 <? t_time_slice_remaining c
                 then u32 (t_time_slice_remaining c - 1)
                 else t_time_slice_remaining c) /\
    total_cpu_time (scheduler_stats k') =
      u64 (total_cpu_time (scheduler_stats k) + 1) /\
    state_of k' (current_task k') = Some (if due then TASK_RUNNING else t_state c) /\
    forall x, x <> current_task k -> x <> current_task k' ->
      tasks k' !! x = tasks k !! x.
Proof.
  intros Hr. destruct (reachable_sched_inv k Hr) as [Q I].
  pose proof (si_st _ _ _ I) as Hst. pose proof (si_head _ _ _ I) as Hin.
  destruct (scheduler_tick_spec k Q Hst Hin) as (c & k' & Hc & E & Hst' & Hcase).
  destruct (account_fields c) as (A1 & A2 & A3 & A4).
  exists c, k'. split; [exact Hc|]. split; [exact E|]. cbv zeta.
  destruct (preempt_due (account c) (ready_queues k)) eqn:Ed.
  - destruct (switched_queues _ _ Hcase) as (Hrq & _ & _).
    pose proof (sw_view _ _ Hcase (current_task k)) as Hv.
    cbn [tasks set_tasks] in Hv. rewrite lookup_insert_eq in Hv.
    destruct (tasks k' !! current_task k) as [t'|] eqn:Ht'; [|discriminate].
    split; [exact Hrq|]. split; [exact (sw_current _ _ Hcase)|].
    split; [apply (f_equal (fmap t_cpu_time)) in Hv; simpl in Hv; rewrite <- A1; exact Hv|].
    split.
    { unfold slice_of. rewrite Ht'.
      apply (f_equal (fmap t_time_slice_remaining)) in Hv. exact Hv. }
    split.
    { pose proof (f_equal (fun k => total_cpu_time (scheduler_stats k))
                    (sw_frame _ _ Hcase)) as Hs. exact Hs. }
    split; [apply (switched_running _ _ Q Hst' Hcase)|].
    intros x Hx Hx'. rewrite (sw_others _ _ Hcase x Hx').
    cbn [tasks set_tasks current_task accounted set_task_list_lock set_scheduler_stats].
    destruct (decide (x = current_task k)); [contradiction|].
    rewrite !lookup_insert_ne by congruence. reflexivity.
  - subst k'. cbn [tasks set_tasks current_task ready_queues scheduler_stats accounted
                   set_task_list_lock set_scheduler_stats].
    unfold state_of, slice_of. cbn [tasks set_tasks accounted].
    rewrite lookup_insert_eq. simpl.
    split; [reflexivity|]. split; [reflexivity|]. split; [rewrite A1; reflexivity|].
    split; [rewrite A4; reflexivity|].
    split; [reflexivity|]. split; [rewrite A2; reflexivity|].
    intros x Hx _. rewrite lookup_insert_ne by congruence. reflexivity.
Qed.

(** ** [task_create] in the states of the life cycle *)

Lemma st_queue_bound k Q i l :
  st P [] false false k Q -> Q !! i = Some l -> (length l <= size (tasks k))%nat.
Proof.
  intros Hst Hi. pose proof (st_core _ _ _ _ _ _ Hst) as Hc.
  pose proof (queue_length _ _ _ Hi) as H1.
  pose proof (core_nodup _ _ _ _ _ _ _ Hc) as Hnd. rewrite app_nil_r in Hnd.
  assert (H2 : (length (concat Q) <= size (tasks k))%nat).
  { apply nodup_dom_length; [exact Hnd|]. intros x Hx. apply is_Some_abs.
    eapply core_member_some; [exact Hc|exact Hx]. }
  lia.
Qed.

(** The new task is the head of the ready queue of its priority; the
    queues are otherwise as before. *)
Lemma created_queues k Q p nm entry_point priority flags k' :
  st P [] false false k Q ->
  PRIORITY_IDLE <= priority <= PRIORITY_CRITICAL ->
  created P k p nm entry_point priority flags k' -> p <> 0 ->
  queue_tasks k' priority = p :: queue_tasks k priority /\
  forall q, PRIORITY_IDLE <= q <= PRIORITY_CRITICAL -> q <> priority ->
    queue_tasks k' q = queue_tasks k q.
Proof.
  intros Hst Hpr Hcr Hp0. unfold PRIORITY_IDLE, PRIORITY_CRITICAL in *.
  pose proof (st_core _ _ _ _ _ _ Hst) as Hc.
  destruct (cr_task _ _ _ _ _ _ _ _ Hcr) as (sp & _ & Hp).
  pose proof (created_size _ _ _ _ _ _ _ _ Hcr) as Hsz.
  assert (Hq : forall q, 0 <= q <= 4 ->
    exists l, queue_tasks k q = l /\ (length l <= size (tasks k))%nat /\
      qchain (abs_task <$> tasks k') (queue_head (ready_queues k) q) l).
  { intros q Hq.
    destruct (lookup_lt_is_Some_2 Q (Z.to_nat q)) as [l Hl].
    { rewrite (core_len_Q _ _ _ _ _ _ _ Hc). lia. }
    exists l. split; [apply (st_queue_tasks P k Q q l Hst Hl); lia|].
    split; [eapply st_queue_bound; eassumption|].
    pose proof (core_chain _ _ _ _ _ _ _ Hc _ _ Hl) as Hch.
    rewrite Z2Nat.id in Hch by lia.
    eapply qchain_ext; [|exact Hch]. intros x Hx.
    destruct (core_member _ _ _ _ _ _ _ Hc _ _ _ Hl Hx) as (a & Ha & _).
    rewrite lookup_fmap in Ha.
    destruct (tasks k !! x) as [t|] eqn:Ht; [|discriminate].
    assert (Hxp : x <> p).
    { intros ->. rewrite (cr_fresh _ _ _ _ _ _ _ _ Hcr) in Ht. discriminate. }
    rewrite !lookup_fmap, (cr_others _ _ _ _ _ _ _ _ Hcr x Hxp), Ht.
    destruct (_ || _); reflexivity. }
  split.
  - destruct (Hq priority Hpr) as (l & El & Hlen & Hch). rewrite El.
    unfold queue_tasks. rewrite (cr_queue _ _ _ _ _ _ _ _ Hcr).
    rewrite queue_head_insert;
      [|lia|lia|rewrite (core_len_rq _ _ _ _ _ _ _ Hc); lia].
    destruct (decide (priority = priority)); [|contradiction].
    apply walk_queue_qchain; [|simpl; lia].
    simpl. split; [reflexivity|]. split; [exact Hp0|].
    eexists. split; [rewrite lookup_fmap, Hp; reflexivity|]. exact Hch.
  - intros q Hq' Hne. destruct (Hq q Hq') as (l & El & Hlen & Hch). rewrite El.
    unfold queue_tasks. rewrite (cr_queue _ _ _ _ _ _ _ _ Hcr).
    rewrite queue_head_insert;
      [|lia|lia|rewrite (core_len_rq _ _ _ _ _ _ _ Hc); lia].
    destruct (decide (q = priority)); [contradiction|].
    apply walk_queue_qchain; [exact Hch|lia].
Qed.

Lemma task_create_returns k Q nm entry_point priority flags :
  sched_inv P k Q -> entry_point <> 0 -> allocation_fails P k = false ->
  PRIORITY_IDLE <= priority <= PRIORITY_CRITICAL ->
  exists p k' Q',
    task_create P (Some nm) entry_point priority flags k = Ret (next_task_id k) k' /\
    p <> 0 /\ created P k p nm entry_point priority flags k' /\ sched_inv P k' Q'.
Proof.
  intros I He Hal Hpr. pose proof (si_st _ _ _ I) as Hst.
  destruct (wpt_run _ _ _
              (task_create_builds k Q nm entry_point priority flags Hst
                 (si_head _ _ _ I) He Hal Hpr)) as (r & k' & E & -> & p & Hp0 & Hcr).
  destruct (wp_run _ _ _ _ _
              (wp_task_create P P_ok k Q (Some nm) entry_point priority flags Hst Hpr) E)
    as [Q' Hst'].
  exists p, k', Q'. split; [exact E|]. split; [exact Hp0|]. split; [exact Hcr|].
  eapply sched_inv_created; eassumption.
Qed.

(** X22.  In every state reached from boot by the life-cycle
    operations, [task_create] with a name, an entry point and memory for
    the control block and the stack returns the next task id and leaves
    a new control block: READY, with the priority, flags and name asked
    for, the current task as parent, the quantum as time slice and a
    stack of [TASK_STACK_SIZE] bytes.  The new task is the head of the
    task list and of the ready queue of its priority, in front of the
    tasks queued before; after the call the task list is that ready
    queue.  The other queues, the current task and every field but
    [prev] of the other control blocks are as before; the statistics
    count one task more, as ready. *)
Theorem task_create_links_new_task (k : kernel) (nm : string)
    (entry_point priority flags : Z) :
  reachable_by P lifecycle k ->
  entry_point <> 0 -> allocation_fails P k = false ->
  PRIORITY_IDLE <= priority <= PRIORITY_CRITICAL ->
  exists p k',
    task_create P (Some nm) entry_point priority flags k = Ret (next_task_id k) k' /\
    p <> 0 /\
    created P k p nm entry_point priority flags k' /\
    queue_tasks k' priority = p :: queue_tasks k priority /\
    task_list k' = p :: queue_tasks k priority /\
    forall q, PRIORITY_IDLE <= q <= PRIORITY_CRITICAL -> q <> priority ->
      queue_tasks k' q = queue_tasks k q.
Proof.
  intros Hr He Hal Hpr. destruct (reachable_sched_inv k Hr) as [Q I].
  destruct (task_create_returns k Q nm entry_point priority flags I He Hal Hpr)
    as (p & k' & Q' & E & Hp0 & Hcr & I').
  destruct (created_queues k Q p nm entry_point priority flags k'
              (si_st _ _ _ I) Hpr Hcr Hp0) as (Hq1 & Hq2).
  exists p, k'. split; [exact E|]. split; [exact Hp0|]. split; [exact Hcr|].
  split; [exact Hq1|]. split; [|exact Hq2].
  rewrite <- Hq1. unfold task_list, queue_tasks.
  rewrite (cr_head _ _ _ _ _ _ _ _ Hcr), (cr_queue _ _ _ _ _ _ _ _ Hcr).
  unfold PRIORITY_IDLE, PRIORITY_CRITICAL in Hpr.
  rewrite queue_head_insert;
    [|lia|lia
     |rewrite (core_len_rq _ _ _ _ _ _ _ (st_core _ _ _ _ _ _ (si_st _ _ _ I))); lia].
  destruct (decide (priority = priority)); [reflexivity|contradiction].
Qed.

(** X23.  A [task_create] that fails, for a null argument or for want
    of memory, leaves the statistics as they were; but when the control
    block was allocated and the stack was not, the task id taken for it
    is not given back: [next_task_id] has grown by one. *)
Theorem task_create_failure_uses_an_id (k : kernel) (name : option string)
    (entry_point priority flags : Z) :
  reachable_by P lifecycle k ->
  name = None \/ entry_point = 0 \/ allocation_fails P k = true ->
  exists k',
    task_create P name entry_point priority flags k = Ret 0 k' /\
    scheduler_stats k' = scheduler_stats k /\
    scheduler_quantum k' = scheduler_quantum k /\ ticks k' = ticks k /\
    next_task_id k' =
    if bool_decide (name <> None) && negb (entry_point =? 0) && tcb_allocated P k
    then u32 (next_task_id k + 1) else next_task_id k.
Proof.
  intros Hr Hf. destruct (reachable_st P P_ok k Hr) as [Q Hst].
  destruct (wpt_run _ _ _
              (task_create_fails_keeps k Q name entry_point priority flags Hst Hf))
    as (r & k' & E & -> & _ & Hs & _ & _ & _ & Hq & Ht & Hn).
  exists k'. auto.
Qed.

(** ** Invariants of the states of the life cycle *)



(** X26.  [task_init] on the statics as the loader leaves them returns
    0.  The idle task is then the only task, with id 0 and the idle
    priority; it is the current task, the head of the task list and of
    the ready queue of its priority, and it is READY, not RUNNING; both
    locks are free, no task is counted, and the next id is 1. *)
Theorem task_init_makes_idle_current (m : Z -> Z) :
  exists k T,
    task_init P (boot_kernel P m) = Ret 0 k /\
    tasks k = {[idle_task_tcb P := T]} /\
    t_state T = TASK_READY /\ t_id T = 0 /\ t_priority T = PRIORITY_IDLE /\
    t_next T = 0 /\ t_time_slice T = 50 /\
    task_list_head_ptr k = idle_task_tcb P /\
    current_task k = idle_task_tcb P /\
    ready_queues k = [idle_task_tcb P; 0; 0; 0; 0] /\
    scheduler_stats k = zero_stats /\ next_task_id k = 1 /\
    l_locked (task_list_lock k) = 0 /\ l_locked (scheduler_lock k) = 0.
Proof.
  destruct (wpt_run _ _ _ (task_init_boots m))
    as (r & k & E & -> & T & H1 & H2 & H3 & H4 & H5 & H6 & H7 & H8 & H9 & H10 & H11 & _).
  destruct (boot_inv P P_ok m k E) as [Q Hst].
  exists k, T. repeat split; try assumption.
  - apply (st_tl _ _ _ _ _ _ Hst).
  - apply (st_sc _ _ _ _ _ _ Hst).
Qed.

(** X27.  From a state reached from boot by the life-cycle operations
    no life-cycle operation reads a control block that is not there or
    stops the kernel: each of them returns, to a state of the same kind,
    or spins for ever, and only [task_suspend], [task_sleep] and
    [task_exit] can spin. *)
Theorem lifecycle_operations_are_safe (k : kernel) (o : op) :
  reachable_by P lifecycle k -> lifecycle o -> well_typed o ->
  (exists k', run_op P o k = Ret tt k' /\ reachable_by P lifecycle k') \/
  (run_op P o k = Hang /\
   match o with Suspend _ | Sleep _ | Exit _ => True | _ => False end).
Proof.
  intros Hr Hl Hw. destruct (reachable_sched_inv k Hr) as [Q I].
  pose proof (si_st _ _ _ I) as Hst. pose proof (si_head _ _ _ I) as Hin.
  destruct (st_current _ _ _ _ _ Hst) as (c & Hc & _).
  assert (Hret : forall k', run_op P o k = Ret tt k' ->
    exists k', run_op P o k = Ret tt k' /\ reachable_by P lifecycle k').
  { intros k' E. exists k'. split; [exact E|]. eapply reach_step; eassumption. }
  destruct o; simpl in Hl, Hw; try contradiction.
  - left. simpl in Hret |- *. unfold bind in *.
    assert (Hcase : (name = None \/ entry_point = 0 \/ allocation_fails P k = true) \/
                    (exists nm, name = Some nm) /\ entry_point <> 0 /\
                    allocation_fails P k = false).
    { destruct name as [nm|]; [|left; left; reflexivity].
      destruct (decide (entry_point = 0)) as [->|Hne]; [left; right; left; reflexivity|].
      destruct (allocation_fails P k); [left; right; right; reflexivity|right; eauto]. }
    destruct Hcase as [Hf|((nm & ->) & Hne & Hal)].
    + destruct (task_create_fails P P_ok k Q name entry_point priority flags Hst Hf)
        as (k2 & E2 & _).
      rewrite E2 in *. eapply Hret. reflexivity.
    + destruct (task_create_returns k Q nm entry_point priority flags I Hne Hal Hw)
        as (p & k2 & _ & E2 & _).
      rewrite E2 in *. eapply Hret. reflexivity.
  - simpl in Hret |- *. unfold bind in *.
    rewrite (task_suspend_cases k Q task_id Hst Hin) in *.
    destruct (_ || _); [left; eapply Hret; reflexivity|right; auto].
  - left. simpl in Hret |- *. unfold bind in *.
    rewrite (task_resume_refuses k Q task_id Hst Hin) in *. eapply Hret. reflexivity.
  - simpl in Hret |- *. rewrite (task_sleep_cases k Q c milliseconds Hst Hc) in *.
    destruct (t_id c =? 0); [left; eapply Hret; reflexivity|right; auto].
  - simpl in Hret |- *. rewrite (task_exit_cases k Q c exit_code Hst Hc) in *.
    destruct (t_id c =? 0); [left; eapply Hret; reflexivity|right; auto].
  - left. destruct (task_yield_spec k Q Hst) as (_ & k1 & _ & E1 & _).
    apply (Hret k1). exact E1.
  - left. destruct (scheduler_tick_spec k Q Hst Hin) as (_ & k1 & _ & E1 & _).
    apply (Hret k1). exact E1.
  - left. destruct (schedule_next_spec k Q Hst) as (k1 & E1 & _).
    apply (Hret k1). exact E1.
  - left. eapply Hret. reflexivity.
Qed.

(** ** The quantum and the kernel-task helper *)

Lemma sched_inv_quantum k Q q :
  sched_inv P k Q -> sched_inv P (set_scheduler_quantum q k) Q.
Proof.
  intros I. eapply sched_inv_touch; [exact I| |reflexivity..].
  eapply st_ext; [exact (si_st _ _ _ I)|reflexivity..].
Qed.

(** X28.  [scheduler_set_quantum] refuses 0 and every value above 1000
    with -1 and no change; any other value becomes the quantum and
    nothing else changes.  A task created afterwards has the new quantum
    as its time slice, whole and remaining, while the tasks that exist
    keep theirs. *)
Theorem scheduler_set_quantum_is_for_new_tasks (k : kernel) (quantum_ms : Z)
    (nm : string) (entry_point priority flags : Z) :
  reachable_by P lifecycle k ->
  (quantum_ms = 0 \/ 1000 < quantum_ms -> scheduler_set_quantum quantum_ms k = Ret (-1) k) /\
  (1 <= quantum_ms <= 1000 ->
   scheduler_set_quantum quantum_ms k = Ret 0 (set_scheduler_quantum quantum_ms k) /\
   (entry_point <> 0 -> allocation_fails P k = false ->
    PRIORITY_IDLE <= priority <= PRIORITY_CRITICAL ->
    exists p t k',
      (scheduler_set_quantum quantum_ms ;;
       task_create P (Some nm) entry_point priority flags) k = Ret (next_task_id k) k' /\
      tasks k !! p = None /\ tasks k' !! p = Some t /\
      t_time_slice t = quantum_ms /\ t_time_slice_remaining t = quantum_ms /\
      scheduler_quantum k' = quantum_ms /\
      forall x, x <> p ->
        t_time_slice <$> tasks k' !! x = t_time_slice <$> tasks k !! x)).
Proof.
  intros Hr. destruct (reachable_sched_inv k Hr) as [Q I]. split.
  - intros Hq. unfold scheduler_set_quantum.
    destruct ((quantum_ms =? 0) || (1000 <? quantum_ms)) eqn:E; [reflexivity|].
    apply orb_false_iff in E as [E1 E2]. lia.
  - intros Hq.
    assert (E : scheduler_set_quantum quantum_ms k =
                Ret 0 (set_scheduler_quantum quantum_ms k)).
    { unfold scheduler_set_quantum.
      destruct ((quantum_ms =? 0) || (1000 <? quantum_ms)) eqn:E; [|reflexivity].
      apply orb_true_iff in E as [E|E]; lia. }
    split; [exact E|]. intros He Hal Hpr.
    destruct (task_create_returns _ Q nm entry_point priority flags
                (sched_inv_quantum k Q quantum_ms I) He Hal Hpr)
      as (p & k' & _ & E' & _ & Hcr & _).
    destruct (cr_task _ _ _ _ _ _ _ _ Hcr) as (sp & _ & Hp).
    exists p, (new_task P (set_scheduler_quantum quantum_ms k) nm entry_point priority
                 flags sp), k'.
    split; [unfold bind; rewrite E; exact E'|].
    split; [exact (cr_fresh _ _ _ _ _ _ _ _ Hcr)|]. split; [exact Hp|].
    split; [reflexivity|]. split; [reflexivity|].
    split; [exact (cr_quantum _ _ _ _ _ _ _ _ Hcr)|].
    intros x Hx. rewrite (cr_others _ _ _ _ _ _ _ _ Hcr x Hx). simpl.
    destruct (_ || _), (tasks k !! x); reflexivity.
Qed.

(** X29.  In every state reached from boot by the life-cycle
    operations [kernel_task_create] creates a task of normal priority
    with the flags KERNEL and SYSTEM and returns 0 when there is memory
    for it, unless the id of the new task is 0; it returns -1 for a
    null argument or for want of memory, and then leaves every control
    block and the ready queues as they were. *)
Theorem kernel_task_create_outcomes (k : kernel) (name : option string)
    (entry_point : Z) :
  reachable_by P lifecycle k ->
  (name = None \/ entry_point = 0 \/ allocation_fails P k = true ->
   exists k', kernel_task_create P name entry_point k = Ret (-1) k' /\
     tasks k' = tasks k /\ ready_queues k' = ready_queues k) /\
  (forall nm, name = Some nm -> entry_point <> 0 -> allocation_fails P k = false ->
   exists p k',
     kernel_task_create P name entry_point k =
       Ret (if next_task_id k =? 0 then -1 else 0) k' /\
     created P k p nm entry_point PRIORITY_NORMAL
       (Z.lor TASK_FLAG_KERNEL TASK_FLAG_SYSTEM) k').
Proof.
  intros Hr. destruct (reachable_sched_inv k Hr) as [Q I].
  pose proof (si_st _ _ _ I) as Hst. split.
  - intros Hf.
    destruct (task_create_fails P P_ok k Q name entry_point PRIORITY_NORMAL
                (Z.lor TASK_FLAG_KERNEL TASK_FLAG_SYSTEM) Hst Hf)
      as (k' & E & _ & Ht & _ & Hq & _).
    exists k'. unfold kernel_task_create, bind. rewrite E. auto.
  - intros nm -> He Hal.
    destruct (task_create_returns k Q nm entry_point PRIORITY_NORMAL
                (Z.lor TASK_FLAG_KERNEL TASK_FLAG_SYSTEM) I He Hal)
      as (p & k' & _ & E & _ & Hcr & _).
    { unfold PRIORITY_IDLE, PRIORITY_NORMAL, PRIORITY_CRITICAL. lia. }
    exists p, k'. unfold kernel_task_create, bind. rewrite E.
    split; [|exact Hcr]. unfold ret. destruct (next_task_id k =? 0); reflexivity.
Qed.

End SchedExtra.

(** ** The theorems at states of the LP64 instance *)

Lemma normal_runs_reachable : reachable_by lp64 lifecycle normal_runs.
Proof.
  apply (exec_reachable lp64 lifecycle
           [Create (Some "a") 0x5000 PRIORITY_NORMAL TASK_FLAG_KERNEL; Yield]
           (booted lp64)).
  - apply booted_reachable.
  - repeat constructor.
  - repeat constructor; vm_compute; discriminate.
  - vm_compute. reflexivity.
Qed.

Lemma heap_exhausted_reachable : reachable_by lp64 lifecycle heap_exhausted.
Proof.
  apply (exec_reachable lp64 lifecycle
           (replicate 110 (Create (Some "t") 0x5000 PRIORITY_NORMAL TASK_FLAG_KERNEL))
           (booted lp64)).
  - apply booted_reachable.
  - apply Forall_replicate. exact I.
  - apply Forall_replicate. vm_compute. split; discriminate.
  - vm_compute. reflexivity.
Qed.

Lemma booted_free_and_idle :
  l_locked (get_lock SchedulerLock (booted lp64)) = 0 /\
  task_get_current_id (booted lp64) = Ret 0 (booted lp64).
Proof. split; vm_compute; reflexivity. Qed.

Lemma booted_has_memory : allocation_fails lp64 (booted lp64) = false.
Proof. vm_compute. reflexivity. Qed.

Lemma spinlock_acquire_release_round_trip_witness :
  l_locked (get_lock SchedulerLock (booted lp64)) = 0 /\
  task_get_current_id (booted lp64) = Ret 0 (booted lp64) /\
  let k := booted lp64 in
  let k1 := set_lock SchedulerLock (taken 0 (get_lock SchedulerLock k)) k in
  spinlock_acquire (Some SchedulerLock) k = Ret tt k1 /\
  spinlock_is_held (Some SchedulerLock) k1 = Ret true k1 /\
  spinlock_acquire (Some SchedulerLock) k1 = Hang /\
  spinlock_release (Some SchedulerLock) k1 =
    Ret tt (set_lock SchedulerLock (bump (get_lock SchedulerLock k)) k).
Proof.
  destruct booted_free_and_idle as [H1 H2].
  split; [exact H1|]. split; [exact H2|].
  exact (spinlock_acquire_release_round_trip (booted lp64) SchedulerLock 0 H1 H2).
Defined.

Lemma spinlock_try_acquire_never_spins_witness :
  let k := booted lp64 in
  let l := get_lock SchedulerLock k in
  let k1 := set_lock SchedulerLock (taken 0 l) k in
  task_get_current_id k = Ret 0 k /\ l_locked l = 0 /\
  task_get_current_id k1 = Ret 0 k1 /\ l_locked (get_lock SchedulerLock k1) <> 0 /\
  (spinlock_try_acquire (Some SchedulerLock) k = Ret true k1 /\
   spinlock_acquire (Some SchedulerLock) k = Ret tt k1) /\
  (spinlock_try_acquire (Some SchedulerLock) k1 =
     Ret false
       (set_lock SchedulerLock
          {| l_locked := 1; l_owner := l_owner (get_lock SchedulerLock k1);
             l_count := l_count (get_lock SchedulerLock k1);
             l_recursion_count := l_recursion_count (get_lock SchedulerLock k1) |} k1) /\
   spinlock_acquire (Some SchedulerLock) k1 = Hang).
Proof.
  intros k l k1.
  destruct booted_free_and_idle as [H1 H2].
  assert (H3 : task_get_current_id k1 = Ret 0 k1) by (vm_compute; reflexivity).
  assert (H4 : l_locked (get_lock SchedulerLock k1) <> 0) by (vm_compute; discriminate).
  split; [exact H2|]. split; [exact H1|]. split; [exact H3|]. split; [exact H4|].
  split.
  - exact (proj1 (spinlock_try_acquire_never_spins k SchedulerLock 0 H2) H1).
  - exact (proj2 (spinlock_try_acquire_never_spins k1 SchedulerLock 0 H3) H4).
Defined.

Lemma task_yield_selects_queue_head_witness :
  platform_ok lp64 /\ reachable_by lp64 lifecycle normal_runs /\
  exists k',
    task_yield normal_runs = Ret tt k' /\
    current_task k' = find_ready_below (ready_queues normal_runs) 5 /\
    state_of k' (current_task k') = Some TASK_RUNNING /\
    (current_task k' <> current_task normal_runs ->
     state_of k' (current_task normal_runs) = Some TASK_READY) /\
    slice_of k' (current_task normal_runs) =
      t_time_slice <$> tasks normal_runs !! current_task normal_runs /\
    ready_queues k' = ready_queues normal_runs /\
    (forall q, queue_tasks k' q = queue_tasks normal_runs q) /\
    (forall x, x <> current_task normal_runs -> x <> current_task k' ->
       tasks k' !! x = tasks normal_runs !! x) /\
    exists k'', task_yield k' = Ret tt k'' /\ current_task k'' = current_task k'.
Proof.
  split; [exact lp64_ok|]. split; [exact normal_runs_reachable|].
  exact (task_yield_selects_queue_head lp64 lp64_ok normal_runs normal_runs_reachable).
Defined.

Lemma task_exit_and_sleep_spin_witness :
  platform_ok lp64 /\
  reachable_by lp64 lifecycle normal_runs /\
  reachable_by lp64 lifecycle (booted lp64) /\
  t_id <$> tasks normal_runs !! current_task normal_runs = Some 1 /\
  t_id <$> tasks (booted lp64) !! current_task (booted lp64) = Some 0 /\
  task_exit 3 normal_runs = Hang /\ task_sleep lp64 10 normal_runs = Hang /\
  task_exit 3 (booted lp64) = Ret tt (booted lp64) /\
  task_sleep lp64 10 (booted lp64) = Ret tt (booted lp64).
Proof.
  assert (H1 : t_id <$> tasks normal_runs !! current_task normal_runs = Some 1)
    by (vm_compute; reflexivity).
  assert (H0 : t_id <$> tasks (booted lp64) !! current_task (booted lp64) = Some 0)
    by (vm_compute; reflexivity).
  split; [exact lp64_ok|]. split; [exact normal_runs_reachable|].
  split; [exact (booted_reachable lifecycle)|]. split; [exact H1|]. split; [exact H0|].
  destruct (task_exit_and_sleep_spin lp64 lp64_ok normal_runs 3 10 normal_runs_reachable)
    as (c & Hc & _ & Hspin).
  destruct (task_exit_and_sleep_spin lp64 lp64_ok (booted lp64) 3 10
              (booted_reachable lifecycle)) as (c0 & Hc0 & Hidle & _).
  rewrite Hc in H1. rewrite Hc0 in H0. simpl in H1, H0.
  assert (E1 : t_id c <> 0) by (injection H1 as ->; discriminate).
  assert (E0 : t_id c0 = 0) by (injection H0 as ->; reflexivity).
  destruct (Hspin E1) as [A B]. destruct (Hidle E0) as [C D]. auto.
Defined.




Lemma scheduler_tick_accounts_and_switches_witness :
  platform_ok lp64 /\ reachable_by lp64 lifecycle normal_runs /\
  exists c k',
    tasks normal_runs !! current_task normal_runs = Some c /\
    scheduler_tick normal_runs = Ret tt k' /\
    let due := preempt_due (account c) (ready_queues normal_runs) in
    ready_queues k' = ready_queues normal_runs /\
    current_task k' =
      (if due then find_ready_below (ready_queues normal_runs) 5
       else current_task normal_runs) /\
    t_cpu_time <$> tasks k' !! current_task normal_runs =
      Some (u64 (t_cpu_time c + 1)) /\
    slice_of k' (current_task normal_runs) =
      Some (if due then t_time_slice c
            else if 0 <? t_time_slice_remaining c
                 then u32 (t_time_slice_remaining c - 1)
                 else t_time_slice_remaining c) /\
    total_cpu_time (scheduler_stats k') =
      u64 (total_cpu_time (scheduler_stats normal_runs) + 1) /\
    state_of k' (current_task k') = Some (if due then TASK_RUNNING else t_state c) /\
    forall x, x <> current_task normal_runs -> x <> current_task k' ->
      tasks k' !! x = tasks normal_runs !! x.
Proof.
  split; [exact lp64_ok|]. split; [exact normal_runs_reachable|].
  exact (scheduler_tick_accounts_and_switches lp64 lp64_ok normal_runs
           normal_runs_reachable).
Defined.

Lemma task_create_links_new_task_witness :
  platform_ok lp64 /\ reachable_by lp64 lifecycle (booted lp64) /\
  0x5000 <> 0 /\ allocation_fails lp64 (booted lp64) = false /\
  PRIORITY_IDLE <= PRIORITY_HIGH <= PRIORITY_CRITICAL /\
  exists p k',
    task_create lp64 (Some "a") 0x5000 PRIORITY_HIGH TASK_FLAG_KERNEL (booted lp64) =
      Ret (next_task_id (booted lp64)) k' /\
    p <> 0 /\
    created lp64 (booted lp64) p "a" 0x5000 PRIORITY_HIGH TASK_FLAG_KERNEL k' /\
    queue_tasks k' PRIORITY_HIGH = p :: queue_tasks (booted lp64) PRIORITY_HIGH /\
    task_list k' = p :: queue_tasks (booted lp64) PRIORITY_HIGH /\
    forall q, PRIORITY_IDLE <= q <= PRIORITY_CRITICAL -> q <> PRIORITY_HIGH ->
      queue_tasks k' q = queue_tasks (booted lp64) q.
Proof.
  assert (H1 : 0x5000 <> 0) by discriminate.
  assert (H2 : PRIORITY_IDLE <= PRIORITY_HIGH <= PRIORITY_CRITICAL)
    by (vm_compute; split; discriminate).
  split; [exact lp64_ok|]. split; [exact (booted_reachable lifecycle)|].
  split; [exact H1|]. split; [exact booted_has_memory|]. split; [exact H2|].
  exact (task_create_links_new_task lp64 lp64_ok (booted lp64) "a" 0x5000 PRIORITY_HIGH
           TASK_FLAG_KERNEL (booted_reachable lifecycle) H1 booted_has_memory H2).
Defined.

Lemma task_create_failure_uses_an_id_witness :
  platform_ok lp64 /\ reachable_by lp64 lifecycle heap_exhausted /\
  allocation_fails lp64 heap_exhausted = true /\
  tcb_allocated lp64 heap_exhausted = true /\
  exists k',
    task_create lp64 (Some "u") 0x6000 PRIORITY_HIGH TASK_FLAG_KERNEL heap_exhausted =
      Ret 0 k' /\
    scheduler_stats k' = scheduler_stats heap_exhausted /\
    scheduler_quantum k' = scheduler_quantum heap_exhausted /\
    ticks k' = ticks heap_exhausted /\
    next_task_id k' =
    if bool_decide (Some "u" <> None) && negb (0x6000 =? 0)
       && tcb_allocated lp64 heap_exhausted
    then u32 (next_task_id heap_exhausted + 1) else next_task_id heap_exhausted.
Proof.
  assert (Hf : allocation_fails lp64 heap_exhausted = true) by (vm_compute; reflexivity).
  assert (Ha : tcb_allocated lp64 heap_exhausted = true) by (vm_compute; reflexivity).
  split; [exact lp64_ok|]. split; [exact heap_exhausted_reachable|].
  split; [exact Hf|]. split; [exact Ha|].
  exact (task_create_failure_uses_an_id lp64 lp64_ok heap_exhausted (Some "u") 0x6000
           PRIORITY_HIGH TASK_FLAG_KERNEL heap_exhausted_reachable
           (or_intror (or_intror Hf))).
Defined.



Lemma task_init_makes_idle_current_witness :
  platform_ok lp64 /\
  exists k T,
    task_init lp64 (boot_kernel lp64 (fun _ => 0)) = Ret 0 k /\
    tasks k = {[idle_task_tcb lp64 := T]} /\
    t_state T = TASK_READY /\ t_id T = 0 /\ t_priority T = PRIORITY_IDLE /\
    t_next T = 0 /\ t_time_slice T = 50 /\
    task_list_head_ptr k = idle_task_tcb lp64 /\
    current_task k = idle_task_tcb lp64 /\
    ready_queues k = [idle_task_tcb lp64; 0; 0; 0; 0] /\
    scheduler_stats k = zero_stats /\ next_task_id k = 1 /\
    l_locked (task_list_lock k) = 0 /\ l_locked (scheduler_lock k) = 0.
Proof.
  split; [exact lp64_ok|].
  exact (task_init_makes_idle_current lp64 lp64_ok (fun _ => 0)).
Defined.

Lemma lifecycle_operations_are_safe_witness :
  platform_ok lp64 /\ reachable_by lp64 lifecycle normal_runs /\
  lifecycle (Suspend 1) /\ well_typed (Suspend 1) /\
  ((exists k', run_op lp64 (Suspend 1) normal_runs = Ret tt k' /\
      reachable_by lp64 lifecycle k') \/
   (run_op lp64 (Suspend 1) normal_runs = Hang /\ True)).
Proof.
  split; [exact lp64_ok|]. split; [exact normal_runs_reachable|].
  split; [exact I|]. split; [exact I|].
  exact (lifecycle_operations_are_safe lp64 lp64_ok normal_runs (Suspend 1)
           normal_runs_reachable I I).
Defined.

Lemma scheduler_set_quantum_is_for_new_tasks_witness :
  platform_ok lp64 /\ reachable_by lp64 lifecycle (booted lp64) /\
  1 <= 20 <= 1000 /\ 1000 < 2000 /\
  0x5000 <> 0 /\ allocation_fails lp64 (booted lp64) = false /\
  PRIORITY_IDLE <= PRIORITY_LOW <= PRIORITY_CRITICAL /\
  scheduler_set_quantum 2000 (booted lp64) = Ret (-1) (booted lp64) /\
  scheduler_set_quantum 20 (booted lp64) = Ret 0 (set_scheduler_quantum 20 (booted lp64)) /\
  exists p t k',
    (scheduler_set_quantum 20 ;;
     task_create lp64 (Some "a") 0x5000 PRIORITY_LOW TASK_FLAG_KERNEL) (booted lp64) =
      Ret (next_task_id (booted lp64)) k' /\
    tasks (booted lp64) !! p = None /\ tasks k' !! p = Some t /\
    t_time_slice t = 20 /\ t_time_slice_remaining t = 20 /\
    scheduler_quantum k' = 20 /\
    forall x, x <> p ->
      t_time_slice <$> tasks k' !! x = t_time_slice <$> tasks (booted lp64) !! x.
Proof.
  assert (H1 : 1 <= 20 <= 1000) by lia.
  assert (H2 : 1000 < 2000) by lia.
  assert (H3 : 0x5000 <> 0) by discriminate.
  assert (H4 : PRIORITY_IDLE <= PRIORITY_LOW <= PRIORITY_CRITICAL)
    by (vm_compute; split; discriminate).
  split; [exact lp64_ok|]. split; [exact (booted_reachable lifecycle)|].
  split; [exact H1|]. split; [exact H2|]. split; [exact H3|].
  split; [exact booted_has_memory|]. split; [exact H4|].
  split.
  { exact (proj1 (scheduler_set_quantum_is_for_new_tasks lp64 lp64_ok (booted lp64) 2000
                    "a" 0x5000 PRIORITY_LOW TASK_FLAG_KERNEL (booted_reachable lifecycle))
             (or_intror H2)). }
  destruct (proj2 (scheduler_set_quantum_is_for_new_tasks lp64 lp64_ok (booted lp64) 20
                     "a" 0x5000 PRIORITY_LOW TASK_FLAG_KERNEL (booted_reachable lifecycle))
              H1) as [E Hnew].
  split; [exact E|]. exact (Hnew H3 booted_has_memory H4).
Defined.

Lemma kernel_task_create_outcomes_witness :
  platform_ok lp64 /\ reachable_by lp64 lifecycle (booted lp64) /\
  0x5000 <> 0 /\ allocation_fails lp64 (booted lp64) = false /\
  (exists k', kernel_task_create lp64 None 0x5000 (booted lp64) = Ret (-1) k' /\
     tasks k' = tasks (booted lp64) /\ ready_queues k' = ready_queues (booted lp64)) /\
  exists p k',
    kernel_task_create lp64 (Some "a") 0x5000 (booted lp64) =
      Ret (if next_task_id (booted lp64) =? 0 then -1 else 0) k' /\
    created lp64 (booted lp64) p "a" 0x5000 PRIORITY_NORMAL
      (Z.lor TASK_FLAG_KERNEL TASK_FLAG_SYSTEM) k'.
Proof.
  assert (H1 : 0x5000 <> 0) by discriminate.
  split; [exact lp64_ok|]. split; [exact (booted_reachable lifecycle)|].
  split; [exact H1|]. split; [exact booted_has_memory|]. split.
  - exact (proj1 (kernel_task_create_outcomes lp64 lp64_ok (booted lp64) None 0x5000
                    (booted_reachable lifecycle)) (or_introl eq_refl)).
  - exact (proj2 (kernel_task_create_outcomes lp64 lp64_ok (booted lp64) (Some "a") 0x5000
                    (booted_reachable lifecycle)) "a" eq_refl H1 booted_has_memory).
Defined.

End TaskExtra.
